(** * bids_qc_pkg: slice selection, scan keys, review ledger and traversal

    A shallow embedding of the structural QC pipeline:
    - struct_pipeline_initial.py        (module [Initial])
    - struct_pipeline_final.py          (modules [Final], [FinalScan])
    - struct_generate_html_reports.py   (modules [GenerateHtml], [ReviewServer])
    - struct_report_generator.py        (module [ReportGenerator])

    Conventions of the model.
    - A Python exception is a value [Raise e] of [result]; code that logs,
      writes files or calls libraries runs in the trace monad [M], whose
      trace lists the log lines and the files written.
    - Python integers and numpy's index type are [Z]; array lengths stay far
      below 2^63, so no wrap-around is written out.  The last axis of a
      volume is short of 2^48 items ([Numpy.shape2_fits]).
    - Voxel intensities are float64; the model is generic in the scalar
      (class [Numpy.Scalar]), NaN included.
    - The samples of [np.linspace] are computed in float64 (module
      [Float64]): a value is the rational it denotes, and every operation
      rounds its exact result to the nearest number with a significand of
      53 bits, a tie going to the even significand.  The exponent range is
      not modelled: the numbers here are array indices, far from overflow
      and from the subnormal range.
    - A string is a [string] of 8-bit characters.
    - The directory tree is the one [os.walk] observes. *)

From Stdlib Require Import String Ascii DecimalString.
From Stdlib Require Import ZArith QArith Qround Qpower Bool Lia Lqa.
From Stdlib Require Import List Permutation Sorted.
Import ListNotations.
Local Open Scope string_scope.
Local Open Scope list_scope.
Local Open Scope Z_scope.

(* ================================================================== *)
(** * Python exceptions *)

Inductive exn : Type :=
| ValueError (msg : string)
| KeyError (key : string)
| IndexError (msg : string)
| OSError (msg : string).

Inductive result (A : Type) : Type :=
| Ok (a : A)
| Raise (e : exn).
Arguments Ok {A} a.
Arguments Raise {A} e.

Definition rbind {A B : Type} (r : result A) (k : A -> result B) : result B :=
  match r with
  | Ok a => k a
  | Raise e => Raise e
  end.

Notation "x <- r ;; k" := (rbind r (fun x => k))
  (at level 61, r at next level, right associativity).

(* ================================================================== *)
(** * float64 arithmetic *)

Module Float64.

(** [2 ^ e], for an exponent of either sign. *)
Definition pow2 (e : Z) : Q := (2 ^ e)%Q.

(** The exponent of the leading bit of a positive rational:
    [2 ^ ilog2 q <= q < 2 ^ (ilog2 q + 1)]. *)
Definition ilog2 (q : Q) : Z :=
  let k := Z.log2 (Qnum q) - Z.log2 (Zpos (Qden q)) in
  if Qle_bool (pow2 k) q then k else k - 1.

(** The nearest integer, a tie going to the even one. *)
Definition rne (q : Q) : Z :=
  let f := Qfloor q in
  match (q - inject_Z f ?= 1 # 2)%Q with
  | Lt => f
  | Gt => f + 1
  | Eq => if Z.even f then f else f + 1
  end.

(** The nearest number with a significand of 53 bits, for [q > 0]: the
    significand is [q] scaled into [2^52, 2^53) and rounded. *)
Definition round_pos (q : Q) : Q :=
  let e := ilog2 q - 52 in
  (inject_Z (rne (q / pow2 e)) * pow2 e)%Q.

(** Rounding to nearest, ties to even. *)
Definition round (q : Q) : Q :=
  match (q ?= 0)%Q with
  | Eq => 0%Q
  | Gt => Qred (round_pos q)
  | Lt => Qred (- round_pos (- q))
  end.

(** The conversion of an integer and the four operations: the exact result,
    rounded.  A division by zero does not occur in the code modelled. *)
Definition of_int (z : Z) : Q := round (inject_Z z).
Definition add (a b : Q) : Q := round (a + b).
Definition sub (a b : Q) : Q := round (a - b).
Definition mul (a b : Q) : Q := round (a * b).
Definition div (a b : Q) : Q := round (a / b).

(** [np.floor] is exact; [astype(int)] truncates towards zero. *)
Definition floor (a : Q) : Q := inject_Z (Qfloor a).
Definition to_int (a : Q) : Z := Z.quot (Qnum a) (Zpos (Qden a)).

(** The unit roundoff, 2^-53: the relative error of a rounding is at most
    this. *)
Definition unit_roundoff : Q := 1 # 9007199254740992.

End Float64.

(* ================================================================== *)
(** * The numpy operations used by slice selection *)

Module Numpy.

(** Voxel intensities are float64 in the program.  The model is generic in
    the scalar: [le] is the comparison [<=] (false whenever a NaN is
    involved) and [isnan] the NaN test. *)
Class Scalar (T : Type) : Type := {
  zero : T;
  add : T -> T -> T;
  le : T -> T -> bool;
  isnan : T -> bool
}.

(** A three-dimensional array: its shape and its items.  The program holds
    one float64 sum per index of the last axis in memory, so that axis is
    short of 2^48 items (2^51 bytes of sums); below that bound an index is
    a float64 value. *)
Record ndarray3 (T : Type) : Type := {
  shape0 : nat;
  shape1 : nat;
  shape2 : nat;
  item : nat -> nat -> nat -> T;
  shape2_fits : Z.of_nat shape2 < 2 ^ 48
}.
Arguments shape0 {T} _.
Arguments shape1 {T} _.
Arguments shape2 {T} _.
Arguments item {T} _ _ _ _.
Arguments shape2_fits {T} _.

Section Reductions.
Context {T : Type} `{Scalar T}.

Definition sum_list (l : list T) : T := fold_left add l zero.

(** [np.sum(data, axis=(0, 1))]: one sum per index of the last axis. *)
Definition sum_axis01 (data : ndarray3 T) : list T :=
  map (fun k =>
         sum_list (map (fun i =>
                          sum_list (map (fun j => item data i j k)
                                        (seq 0 (shape1 data))))
                       (seq 0 (shape0 data))))
      (seq 0 (shape2 data)).

(** The scan of [np.argmax]: [mp] is the running maximum, [best] its index,
    [i] the index of the head of [l].  A NaN is maximal and stops the scan. *)
Fixpoint argmax_from (mp : T) (best i : nat) (l : list T) : nat :=
  match l with
  | [] => best
  | x :: l' =>
      if negb (le x mp)
      then (if isnan x then i else argmax_from x i (S i) l')
      else argmax_from mp best (S i) l'
  end.

(** [np.argmax(a)]; an empty sequence raises ValueError. *)
Definition argmax (a : list T) : result Z :=
  match a with
  | [] => Raise (ValueError "attempt to get argmax of an empty sequence")
  | x :: l => if isnan x then Ok 0 else Ok (Z.of_nat (argmax_from x 0 1 l))
  end.

End Reductions.

(** [np.arange(0, num)] *)
Definition arange (num : Z) : list Z := map Z.of_nat (seq 0 (Z.to_nat num)).

(** [y[-1] = v] *)
Definition set_last {A : Type} (y : list A) (v : A) : list A :=
  match y with
  | [] => []
  | _ => removelast y ++ [v]
  end.

(** [np.linspace(start, stop, num, dtype=int)] for integer end points.
    The end points are converted to float64, [delta = stop - start],
    [y = arange(0, num)] as float64, [step = delta / div] with
    [div = num - 1], then [y * step + start] (or [y / div * delta + start]
    when the step is zero), the last sample overwritten by [stop], the
    floor, and the conversion to int.  Every operation is a float64
    operation.  A negative [num] raises ValueError. *)
Definition linspace (start stop num : Z) : result (list Z) :=
  if num <? 0
  then Raise (ValueError "Number of samples must be non-negative")
  else
    let div := num - 1 in
    let start := Float64.of_int start in
    let stop := Float64.of_int stop in
    let delta := Float64.sub stop start in
    let y := map Float64.of_int (arange num) in
    let y :=
      if 0 <? div
      then
        let step := Float64.div delta (Float64.of_int div) in
        if Qeq_bool step 0
        then map (fun v =>
                    Float64.mul (Float64.div v (Float64.of_int div)) delta) y
        else map (fun v => Float64.mul v step) y
      else map (fun v => Float64.mul v delta) y in
    let y := map (fun v => Float64.add v start) y in
    let y := if 1 <? num then set_last y stop else y in
    Ok (map Float64.to_int (map Float64.floor y)).

Fixpoint insert (x : Z) (l : list Z) : list Z :=
  match l with
  | [] => [x]
  | y :: l' => if x <=? y then x :: l else y :: insert x l'
  end.

Fixpoint sort (l : list Z) : list Z :=
  match l with
  | [] => []
  | x :: l' => insert x (sort l')
  end.

(** The mask of [np.unique]: an item is kept when it differs from its
    predecessor. *)
Fixpoint keep_changes (prev : Z) (l : list Z) : list Z :=
  match l with
  | [] => []
  | x :: l' => if x =? prev then keep_changes x l' else x :: keep_changes x l'
  end.

(** [np.unique(ar)]: sort, then keep the first item of every run. *)
Definition unique (ar : list Z) : list Z :=
  match sort ar with
  | [] => []
  | x :: l => x :: keep_changes x l
  end.

End Numpy.

#[export] Instance Scalar_Z : Numpy.Scalar Z := {|
  Numpy.zero := 0;
  Numpy.add := Z.add;
  Numpy.le := Z.leb;
  Numpy.isnan := fun _ => false
|}.

(* ================================================================== *)
(** * Python strings and os.path *)

Module Str.

(** [needle in s] *)
Fixpoint contains (needle s : string) : bool :=
  if String.prefix needle s then true
  else match s with
       | EmptyString => false
       | String _ s' => contains needle s'
       end.

(** [s.endswith(suffix)] *)
Definition endswith (s suffix : string) : bool :=
  let n := String.length s in
  let m := String.length suffix in
  (m <=? n)%nat && String.eqb (String.substring (n - m) m s) suffix.

(** [s[:-k]] for [k > 0] *)
Definition drop_last (k : nat) (s : string) : string :=
  String.substring 0 (String.length s - k) s.

(** [s.replace(old, new)], left to right over non-overlapping occurrences;
    [skip] counts the characters of a matched occurrence still to pass. *)
Fixpoint replace_from (old new : string) (skip : nat) (s : string) : string :=
  match s with
  | EmptyString => EmptyString
  | String c s' =>
      match skip with
      | S k => replace_from old new k s'
      | O =>
          if String.prefix old s
          then (new ++ replace_from old new (String.length old - 1) s')%string
          else String c (replace_from old new 0 s')
      end
  end.

Fixpoint intersperse (new s : string) : string :=
  match s with
  | EmptyString => new
  | String c s' => (new ++ String c (intersperse new s'))%string
  end.

Definition replace (old new s : string) : string :=
  match old with
  | EmptyString => intersperse new s
  | _ => replace_from old new 0 s
  end.

(** [s.split(sep)] for a one-character separator *)
Fixpoint split (sep : ascii) (s : string) : list string :=
  match s with
  | EmptyString => [EmptyString]
  | String c s' =>
      if Ascii.eqb c sep then EmptyString :: split sep s'
      else match split sep s' with
           | [] => [String c EmptyString]
           | p :: ps => String c p :: ps
           end
  end.

(** [str.isspace] on code points below 256 *)
Definition isspace (c : ascii) : bool :=
  let n := nat_of_ascii c in
  ((9 <=? n) && (n <=? 13) || (28 <=? n) && (n <=? 32)
   || (n =? 133) || (n =? 160))%nat.

Fixpoint lstrip (s : string) : string :=
  match s with
  | EmptyString => EmptyString
  | String c s' => if isspace c then lstrip s' else s
  end.

Fixpoint rstrip (s : string) : string :=
  match s with
  | EmptyString => EmptyString
  | String c s' =>
      match rstrip s' with
      | EmptyString => if isspace c then EmptyString else String c EmptyString
      | r => String c r
      end
  end.

(** [s.strip()] *)
Definition strip (s : string) : string := rstrip (lstrip s).

Definition isdigit (c : ascii) : bool :=
  let n := nat_of_ascii c in ((48 <=? n) && (n <=? 57))%nat.

(** Lower case of an ASCII letter, as the IGNORECASE flag compares. *)
Definition lower (c : ascii) : ascii :=
  let n := nat_of_ascii c in
  if ((65 <=? n) && (n <=? 90))%nat then ascii_of_nat (n + 32) else c.

Fixpoint take_while (p : ascii -> bool) (s : string) : string :=
  match s with
  | EmptyString => EmptyString
  | String c s' => if p c then String c (take_while p s') else EmptyString
  end.

Fixpoint drop_while (p : ascii -> bool) (s : string) : string :=
  match s with
  | EmptyString => EmptyString
  | String c s' => if p c then drop_while p s' else s
  end.

(** [int(digits)] for a string of decimal digits *)
Fixpoint int_from (acc : Z) (digits : string) : Z :=
  match digits with
  | EmptyString => acc
  | String c s' => int_from (acc * 10 + (Z.of_nat (nat_of_ascii c) - 48)) s'
  end.

Definition int (digits : string) : Z := int_from 0 digits.

(** [str(n)] for a length *)
Definition of_nat (n : nat) : string := NilEmpty.string_of_uint (Nat.to_uint n).

End Str.

Module OsPath.

(** [os.path.join(a, b)] on POSIX *)
Definition join (a b : string) : string :=
  if String.prefix "/" b then b
  else if orb (String.eqb a "") (Str.endswith a "/") then (a ++ b)%string
  else (a ++ "/" ++ b)%string.

(** The part of [p] after its last slash. *)
Fixpoint basename (p : string) : string :=
  match p with
  | EmptyString => EmptyString
  | String c p' =>
      if Str.contains "/" p' then basename p'
      else if Ascii.eqb c "/" then p' else p
  end.

(** The directory part of [p]: everything before the last slash, without
    trailing slashes unless it is the root. *)
Fixpoint head_upto_last_slash (p : string) : string :=
  match p with
  | EmptyString => EmptyString
  | String c p' =>
      if Str.contains "/" p' then String c (head_upto_last_slash p')
      else if Ascii.eqb c "/" then String c EmptyString else EmptyString
  end.

Fixpoint all_slashes (s : string) : bool :=
  match s with
  | EmptyString => true
  | String c s' => Ascii.eqb c "/" && all_slashes s'
  end.

Fixpoint rstrip_slashes (s : string) : string :=
  match s with
  | EmptyString => EmptyString
  | String c s' =>
      match rstrip_slashes s' with
      | EmptyString => if Ascii.eqb c "/" then EmptyString else String c EmptyString
      | r => String c r
      end
  end.

Definition dirname (p : string) : string :=
  let head := head_upto_last_slash p in
  if all_slashes head then head else rstrip_slashes head.

End OsPath.

(** A directory as [os.walk] finds it: its name, its files and its
    sub-directories. *)
Unset Elimination Schemes.
Inductive dir_tree : Type :=
| Dir (name : string) (files : list string) (subdirs : list dir_tree).
Set Elimination Schemes.

Definition dir_name (t : dir_tree) : string :=
  match t with Dir name _ _ => name end.

(** [os.walk(top)], top-down: the triples (root, dirs, files).  The root of
    the tree is reported under the path [top] it was asked for. *)
Fixpoint os_walk (top : string) (t : dir_tree)
  : list (string * list string * list string) :=
  match t with
  | Dir _ files subdirs =>
      (top, map dir_name subdirs, files)
        :: flat_map (fun d => os_walk (OsPath.join top (dir_name d)) d) subdirs
  end.

(* ================================================================== *)
(** * Effects: the log, the files written, and exceptions *)

(** One constructor per logging call of the pipelines. *)
Inductive log_msg : Type :=
| StartingTraversal (bids_root scan_type : string)
| Processing (filepath : string)
| FinishedProcessing (filepath : string)
| FinishedAll
| AnalyzeFailed (filepath : string) (e : exn)
| SkippingNotAccepted (fullpath : string).

Inductive event : Type :=
| LogInfo (m : log_msg)
| LogError (m : log_msg)
| MadeDirs (path : string)
| SavedFigure (path : string)
| WroteCsv (path : string).

Definition M (A : Type) : Type := list event -> list event * result A.

Definition ret {A : Type} (a : A) : M A := fun tr => (tr, Ok a).

Definition bind {A B : Type} (m : M A) (k : A -> M B) : M B :=
  fun tr =>
    match m tr with
    | (tr', Ok a) => k a tr'
    | (tr', Raise e) => (tr', Raise e)
    end.

Definition emit (ev : event) : M unit := fun tr => (tr ++ [ev], Ok tt).

(** Lift a call that returns or raises. *)
Definition lift {A : Type} (r : result A) : M A := fun tr => (tr, r).

(** [try: m except Exception as e: handler e] *)
Definition try_except {A : Type} (m : M A) (handler : exn -> M A) : M A :=
  fun tr =>
    match m tr with
    | (tr', Ok a) => (tr', Ok a)
    | (tr', Raise e) => handler e tr'
    end.

Notation "x <~ m ;; k" := (bind m (fun x => k))
  (at level 61, m at next level, right associativity).
Notation "m ;;; k" := (bind m (fun _ => k))
  (at level 61, right associativity).

(** [for x in l: body x] *)
Fixpoint for_each {A : Type} (l : list A) (body : A -> M unit) : M unit :=
  match l with
  | [] => ret tt
  | x :: l' => body x ;;; for_each l' body
  end.

(* ================================================================== *)
(** * The environment of the pipelines *)

(** The five intensity statistics of a volume. *)
Record stats (F : Type) : Type := {
  st_mean : F;
  st_median : F;
  st_max : F;
  st_min : F;
  st_std : F
}.

(** What the pipelines call outside this repository: nibabel, the numpy
    statistics, matplotlib and seaborn, pandas and the file system.  Each
    call returns or raises. *)
Record Env (T : Type) : Type := {
  (** [nib.load(path).get_fdata()] *)
  nib_load : string -> result (Numpy.ndarray3 T);
  (** [np.mean], [np.median], [np.max], [np.min], [np.std] of a volume *)
  np_statistics : Numpy.ndarray3 T -> result (stats T);
  (** [os.path.relpath(path, start)] *)
  os_path_relpath : string -> string -> string;
  (** [os.makedirs(path, exist_ok=True)] *)
  os_makedirs : string -> result unit;
  (** the matplotlib body of [plot_slices], ending in [savefig] *)
  plt_plot_slices : Numpy.ndarray3 T -> list Z -> string -> string -> result unit;
  (** the seaborn body of [create_density_plot_and_save] *)
  sns_density_plot : Numpy.ndarray3 T -> string -> string -> result unit;
  (** [pd.DataFrame([stats]).to_csv(path, index=False)] *)
  pd_to_csv : stats T -> string -> result unit;
  (** [load_accepted_csv]: the (subject, session) pairs of the accepted list *)
  pd_read_accepted : string -> result (list (string * string));
  (** [process_scan_final]: skull stripping through the external container,
      then slices, statistics and plots *)
  run_process_scan_final : string -> string -> Z -> M unit
}.
Arguments nib_load {T} _ _.
Arguments np_statistics {T} _ _.
Arguments os_path_relpath {T} _ _ _.
Arguments os_makedirs {T} _ _.
Arguments plt_plot_slices {T} _ _ _ _ _.
Arguments sns_density_plot {T} _ _ _ _.
Arguments pd_to_csv {T} _ _ _.
Arguments pd_read_accepted {T} _ _.
Arguments run_process_scan_final {T} _ _ _ _.

(** The test of both traversals on a file name. *)
Definition is_scan_file (scan_type fname : string) : bool :=
  (Str.endswith fname ".nii" || Str.endswith fname ".nii.gz")
  && Str.contains scan_type fname.

(* ================================================================== *)
(** * struct_pipeline_initial.py *)

Module Initial.

Section Pipeline.
Context {T : Type} `{Numpy.Scalar T}.
Variable env : Env T.

Definition find_slices_of_interest (data : Numpy.ndarray3 T) (num_slices : Z)
  : result (list Z) :=
  let slice_sums := Numpy.sum_axis01 data in
  best_idx <- Numpy.argmax slice_sums ;;
  let margin := num_slices * 5 in
  let zsize := Z.of_nat (Numpy.shape2 data) in
  let start_idx := Z.max 0 (best_idx - margin) in
  let end_idx := Z.min (zsize - 1) (best_idx + margin) in
  slice_indices <- Numpy.linspace start_idx end_idx num_slices ;;
  Ok (Numpy.unique slice_indices).

Definition plot_slices (data : Numpy.ndarray3 T) (slice_indices : list Z)
  (output_path title : string) : M unit :=
  lift (plt_plot_slices env data slice_indices output_path title) ;;;
  emit (SavedFigure output_path).

Definition ensure_results_dir (bids_root filepath : string) : M string :=
  let rel_path := os_path_relpath env (OsPath.dirname filepath) bids_root in
  let results_dir := OsPath.join (OsPath.join bids_root "results") rel_path in
  lift (os_makedirs env results_dir) ;;;
  emit (MadeDirs results_dir) ;;;
  ret results_dir.

(** The statistics dictionary, or [None] for the empty dictionary. *)
Definition analyze_nifti (filepath : string) : M (option (stats T)) :=
  try_except
    (data <~ lift (nib_load env filepath) ;;
     st <~ lift (np_statistics env data) ;;
     ret (Some st))
    (fun e =>
       emit (LogError (AnalyzeFailed filepath e)) ;;;
       ret None).

Definition create_density_plot_and_save (data : Numpy.ndarray3 T)
  (output_path title : string) : M unit :=
  lift (sns_density_plot env data output_path title) ;;;
  emit (SavedFigure output_path).

Definition strip_nii_gz (basename : string) : string :=
  if Str.endswith basename ".nii.gz" then Str.drop_last 7 basename
  else if Str.endswith basename ".nii" then Str.drop_last 4 basename
  else basename.

Definition process_scan_initial (bids_root filepath : string) (num_slices : Z)
  : M unit :=
  let filename := OsPath.basename filepath in
  let base_no_ext := strip_nii_gz filename in
  emit (LogInfo (Processing filepath)) ;;;
  (* 1) load the original data *)
  data <~ lift (nib_load env filepath) ;;
  (* 2) slices of interest *)
  slice_indices <~ lift (find_slices_of_interest data num_slices) ;;
  (* 3) plot and save *)
  results_dir <~ ensure_results_dir bids_root filepath ;;
  let original_png :=
    OsPath.join results_dir (base_no_ext ++ "_original_slices.png")%string in
  plot_slices data slice_indices original_png
              (base_no_ext ++ " - Original")%string ;;;
  (* 4) statistics and density *)
  intensity_stats <~ analyze_nifti filepath ;;
  match intensity_stats with
  | Some st =>
      let stats_csv_path :=
        OsPath.join results_dir (base_no_ext ++ "_stats.csv")%string in
      lift (pd_to_csv env st stats_csv_path) ;;;
      emit (WroteCsv stats_csv_path) ;;;
      let density_svg_path :=
        OsPath.join results_dir (base_no_ext ++ "_density.svg")%string in
      create_density_plot_and_save data density_svg_path
        ("Density Plot - " ++ base_no_ext)%string
  | None => ret tt
  end ;;;
  emit (LogInfo (FinishedProcessing filepath)).

Definition traverse_bids_initial (bids_root : string) (tree : dir_tree)
  (scan_type : string) (num_slices : Z) : M unit :=
  emit (LogInfo (StartingTraversal bids_root scan_type)) ;;;
  for_each (os_walk bids_root tree)
    (fun '(root, dirs, files) =>
       if Str.contains "results" root then ret tt
       else
         for_each files
           (fun fname =>
              if is_scan_file scan_type fname
              then
                let fullpath := OsPath.join root fname in
                process_scan_initial bids_root fullpath num_slices
              else ret tt)) ;;;
  emit (LogInfo FinishedAll).

End Pipeline.

End Initial.

(* ================================================================== *)
(** * struct_pipeline_final.py *)

Module Final.

Section Pipeline.
Context {T : Type} `{Numpy.Scalar T}.
Variable env : Env T.

Definition find_slices_of_interest (data : Numpy.ndarray3 T) (num_slices : Z)
  : result (list Z) :=
  let slice_sums := Numpy.sum_axis01 data in
  best_idx <- Numpy.argmax slice_sums ;;
  let margin := num_slices * 5 in
  let zsize := Z.of_nat (Numpy.shape2 data) in
  let start_idx := Z.max 0 (best_idx - margin) in
  let end_idx := Z.min (zsize - 1) (best_idx + margin) in
  slice_indices <- Numpy.linspace start_idx end_idx num_slices ;;
  let slice_indices := Numpy.unique slice_indices in
  Ok slice_indices.

(** [sub-\d+] or [ses-\d+] at the head of [s]: the text matched and the
    rest. *)
Definition match_numbered (lit s : string) : option (string * string) :=
  if String.prefix lit s
  then
    let after := String.substring (String.length lit)
                   (String.length s - String.length lit) s in
    match Str.take_while Str.isdigit after with
    | EmptyString => None
    | digits => Some ((lit ++ digits)%string, Str.drop_while Str.isdigit after)
    end
  else None.

(** [(sub-\d+)_?(ses-\d+)?] at the head of [s]: groups 1 and 2. *)
Definition match_sub_ses_here (s : string) : option (string * option string) :=
  match match_numbered "sub-" s with
  | None => None
  | Some (sub_id, rest) =>
      let rest := match rest with
                  | String "_" r => r
                  | _ => rest
                  end in
      match match_numbered "ses-" rest with
      | Some (ses_id, _) => Some (sub_id, Some ses_id)
      | None => Some (sub_id, None)
      end
  end.

(** [pattern.search(s)] *)
Fixpoint search_sub_ses (s : string) : option (string * option string) :=
  match match_sub_ses_here s with
  | Some m => Some m
  | None =>
      match s with
      | EmptyString => None
      | String _ s' => search_sub_ses s'
      end
  end.

(** [extract_sub_ses]; [None] stands for the pair (None, None). *)
Definition extract_sub_ses (filepath : string) : option (string * string) :=
  let basename := OsPath.basename filepath in
  match search_sub_ses basename with
  | Some (sub_id, g2) =>
      Some (sub_id, match g2 with Some ses_id => ses_id | None => "ses-01" end)
  | None => None
  end.

Definition pair_eqb (a b : string * string) : bool :=
  String.eqb (fst a) (fst b) && String.eqb (snd a) (snd b).

(** [sub_ses_key in accepted] *)
Definition in_accepted (key : option (string * string))
  (accepted : list (string * string)) : bool :=
  match key with
  | Some k => existsb (pair_eqb k) accepted
  | None => false
  end.

Definition traverse_bids_final (bids_root : string) (tree : dir_tree)
  (accepted_csv scan_type : string) (num_slices : Z) : M unit :=
  emit (LogInfo (StartingTraversal bids_root scan_type)) ;;;
  accepted <~ lift (pd_read_accepted env accepted_csv) ;;
  for_each (os_walk bids_root tree)
    (fun '(root, dirs, files) =>
       if Str.contains "results" root then ret tt
       else
         for_each files
           (fun fname =>
              if is_scan_file scan_type fname
              then
                let fullpath := OsPath.join root fname in
                let sub_ses_key := extract_sub_ses fullpath in
                if in_accepted sub_ses_key accepted
                then run_process_scan_final env bids_root fullpath num_slices
                else emit (LogInfo (SkippingNotAccepted fullpath))
              else ret tt)) ;;;
  emit (LogInfo FinishedAll).

End Pipeline.

End Final.

(* ================================================================== *)
(** * Rendering helpers shared by both report generators *)

Definition dquote : string := String (ascii_of_nat 34) EmptyString.
Definition nl : string := String (ascii_of_nat 10) EmptyString.

(** [str(e)] *)
Definition exn_str (e : exn) : string :=
  match e with
  | ValueError msg => msg
  | KeyError key => ("'" ++ key ++ "'")%string
  | IndexError msg => msg
  | OSError msg => msg
  end.

(** [try: r except Exception as e: handler e] for a pure body *)
Definition rcatch {A : Type} (r : result A) (handler : exn -> result A) : result A :=
  match r with
  | Ok a => Ok a
  | Raise e => handler e
  end.

(** [lines[i]] *)
Definition list_index (lines : list string) (i : nat) : result string :=
  match nth_error lines i with
  | Some x => Ok x
  | None => Raise (IndexError "list index out of range")
  end.

(** [[line.strip() for line in f if line.strip()]] *)
Definition stripped_lines (raw : list string) : list string :=
  map Str.strip
      (filter (fun line => negb (String.eqb (Str.strip line) "")) raw).

(** [all_numeric(vals)]: every item is accepted by [float]; [float_ok]
    tells whether [float(v)] returns (it raises ValueError otherwise). *)
Definition all_numeric (float_ok : string -> bool) (vals : list string) : bool :=
  forallb float_ok vals.

Definition not_found (title : string) : string :=
  ("<h3>" ++ title ++ "</h3><p style='color:red;'>No file found.</p>")%string.

(* ================================================================== *)
(** * struct_generate_html_reports.py *)

Module GenerateHtml.

(** ** The review ledger *)

Record row : Type := {
  filename : string;
  status : string;
  notes : string
}.

(** The [status] argument of [update_csv]: a string, or a dictionary that
    may hold the keys "status" and "notes". *)
Inductive status_arg : Type :=
| StatusStr (s : string)
| StatusDict (st : option string) (nt : option string).

(** The body of the loop over the rows for the row that matches. *)
Definition update_row (r : row) (st : status_arg) : result row :=
  match st with
  | StatusStr s => Ok {| filename := filename r; status := s; notes := notes r |}
  | StatusDict s nt =>
      let notes' := match nt with Some n => n | None => notes r end in
      match s with
      | Some s' => Ok {| filename := filename r; status := s'; notes := notes' |}
      | None => Raise (KeyError "status")
      end
  end.

(** The loop [for r in rows: if r["filename"] == filename: ...; break];
    the boolean is [found]. *)
Fixpoint update_rows (rows : list row) (fname : string) (st : status_arg)
  : result (list row * bool) :=
  match rows with
  | [] => Ok ([], false)
  | r :: rows' =>
      if String.eqb (filename r) fname
      then r' <- update_row r st ;; Ok (r' :: rows', true)
      else
        res <- update_rows rows' fname st ;;
        Ok (r :: fst res, snd res)
  end.

Definition new_row (fname : string) (st : status_arg) : result row :=
  match st with
  | StatusDict s nt =>
      match s with
      | Some s' =>
          Ok {| filename := fname; status := s';
                notes := match nt with Some n => n | None => "" end |}
      | None => Raise (KeyError "status")
      end
  | StatusStr s => Ok {| filename := fname; status := s; notes := "" |}
  end.

(** [update_csv]: [file] is the ledger on disk ([None] when the path does
    not exist); the result is the ledger written back. *)
Definition update_csv (file : option (list row)) (fname : string)
  (st : status_arg) : result (list row) :=
  let rows := match file with Some rows => rows | None => [] end in
  res <- update_rows rows fname st ;;
  if snd res then Ok (fst res)
  else
    nr <- new_row fname st ;;
    Ok (fst res ++ [nr]).

(** The call made by the [/qc_update] endpoint. *)
Definition upsert (file : option (list row)) (fname st nt : string)
  : result (list row) :=
  update_csv file fname (StatusDict (Some st) (Some nt)).

(** ** Scan keys *)

(** A literal of the pattern under IGNORECASE: the text matched and the
    rest.  [lit] is in lower case. *)
Fixpoint match_literal (lit s : string) : option (string * string) :=
  match lit with
  | EmptyString => Some (EmptyString, s)
  | String l lit' =>
      match s with
      | EmptyString => None
      | String c s' =>
          if Ascii.eqb (Str.lower c) l
          then match match_literal lit' s' with
               | Some (m, r) => Some (String c m, r)
               | None => None
               end
          else None
      end
  end.

(** [[^_]] *)
Definition not_underscore (c : ascii) : bool := negb (Ascii.eqb c "_").

(** [sub-[^_]+] (and the like) at the head of [s]: the greedy match. *)
Definition match_segment (lit s : string) : option (string * string) :=
  match match_literal lit s with
  | None => None
  | Some (m, r) =>
      match Str.take_while not_underscore r with
      | EmptyString => None
      | tok => Some ((m ++ tok)%string, Str.drop_while not_underscore r)
      end
  end.

(** [(?:_(ses-[^_]+))?]: the group if it is there, and the rest. *)
Definition match_optional (lit s : string) : option string * string :=
  match s with
  | String "_" r =>
      match match_segment lit r with
      | Some (g, r') => (Some g, r')
      | None => (None, s)
      end
  | _ => (None, s)
  end.

(** [(sub-[^_]+)(?:_(ses-[^_]+))?(?:_(run-[^_]+))?] at the head of [s]:
    groups 1, 2 and 3.  Whatever follows group 1 is optional, so the greedy
    choice is never undone. *)
Definition pattern_match (s : string)
  : option (string * option string * option string) :=
  match match_segment "sub-" s with
  | None => None
  | Some (g1, r1) =>
      let (g2, r2) := match_optional "ses-" r1 in
      let (g3, _) := match_optional "run-" r2 in
      Some (g1, g2, g3)
  end.

(** [pattern.search(fname)]: the leftmost match. *)
Fixpoint pattern_search (s : string)
  : option (string * option string * option string) :=
  match pattern_match s with
  | Some m => Some m
  | None =>
      match s with
      | EmptyString => None
      | String _ s' => pattern_search s'
      end
  end.

Definition scan_key_of : Type := (string * string * string)%type.

(** The key (subject, session, run) of a file name, [None] when the pattern
    does not match. *)
Definition scan_key (fname : string) : option scan_key_of :=
  match pattern_search fname with
  | None => None
  | Some (g1, g2, g3) =>
      let subject := g1 in
      let session := match g2 with Some s => s | None => "ses-01" end in
      let run := match g3 with Some r => r | None => "" end in
      Some (subject, session, run)
  end.

(** ** Grouping *)

Record slots : Type := {
  orig : option string;
  strip : option string;
  dens : option string;
  stats : option string
}.

Definition empty_slots : slots :=
  {| orig := None; strip := None; dens := None; stats := None |}.

Definition key_eqb (a b : scan_key_of) : bool :=
  String.eqb (fst (fst a)) (fst (fst b))
  && String.eqb (snd (fst a)) (snd (fst b))
  && String.eqb (snd a) (snd b).

(** [data_map]: a dictionary in insertion order. *)
Definition data_map_of : Type := list (scan_key_of * slots).

Definition has_key (key : scan_key_of) (m : data_map_of) : bool :=
  existsb (fun kv => key_eqb key (fst kv)) m.

(** [data_map[key][slot] = ...] *)
Definition update_slots (key : scan_key_of) (f : slots -> slots) (m : data_map_of)
  : data_map_of :=
  map (fun kv => if key_eqb key (fst kv) then (fst kv, f (snd kv)) else kv) m.

Definition relevant_suffixes : list string :=
  ["_original_slices.png"; "_skullstripped_slices.png"; "_density.svg";
   "_stats.csv"; "T1w.nii.gz"].

(** The body of the loop over the file names of a directory. *)
Definition group_file (dirpath fname : string) (data_map : data_map_of)
  : data_map_of :=
  let fullpath := OsPath.join dirpath fname in
  if negb (existsb (fun x => Str.contains x fname) relevant_suffixes)
  then data_map
  else
    match scan_key fname with
    | None => data_map
    | Some key =>
        let data_map :=
          if has_key key data_map then data_map
          else data_map ++ [(key, empty_slots)] in
        if Str.endswith fname "_original_slices.png" then
          update_slots key
            (fun s => {| orig := Some fullpath; strip := strip s;
                         dens := dens s; stats := stats s |}) data_map
        else if Str.endswith fname "_skullstripped_slices.png" then
          update_slots key
            (fun s => {| orig := orig s; strip := Some fullpath;
                         dens := dens s; stats := stats s |}) data_map
        else if Str.endswith fname "_density.svg" then
          update_slots key
            (fun s => {| orig := orig s; strip := strip s;
                         dens := Some fullpath; stats := stats s |}) data_map
        else if Str.endswith fname "_stats.csv" then
          update_slots key
            (fun s => {| orig := orig s; strip := strip s;
                         dens := dens s; stats := Some fullpath |}) data_map
        else data_map
    end.

(** The two loops of [generate_in_memory_pages] over [os.walk(root_dir)]. *)
Definition collect (walk : list (string * list string * list string))
  : data_map_of :=
  fold_left
    (fun data_map '(dirpath, _, filenames) =>
       fold_left (fun m fname => group_file dirpath fname m) filenames data_map)
    walk [].

(** ** The sort key *)

(** [parse_int]: [re.search(r'(\d+)', s)], the first run of digits, as an
    integer; 0 without a digit. *)
Fixpoint parse_int (s : string) : Z :=
  match s with
  | EmptyString => 0
  | String c s' =>
      if Str.isdigit c then Str.int (Str.take_while Str.isdigit s)
      else parse_int s'
  end.

Definition numeric_sort_key (k : scan_key_of) : Z * Z * Z :=
  let '(subject, session, run) := k in
  let sub_num := parse_int (Str.replace "sub-" "" subject) in
  let ses_num := parse_int (Str.replace "ses-" "" session) in
  let run_num := parse_int (Str.replace "run-" "" run) in
  (sub_num, ses_num, run_num).

(** Python's [<=] on 3-tuples of integers. *)
Definition tuple_leb (a b : Z * Z * Z) : bool :=
  let '(a1, a2, a3) := a in
  let '(b1, b2, b3) := b in
  if a1 =? b1 then (if a2 =? b2 then a3 <=? b3 else a2 <? b2) else a1 <? b1.

(** [sorted(l, key=key)]: a stable sort; an item goes in front of the first
    item already placed whose key is not smaller. *)
Fixpoint insert_by {A : Type} (key : A -> Z * Z * Z) (x : A) (l : list A) : list A :=
  match l with
  | [] => [x]
  | y :: l' =>
      if tuple_leb (key x) (key y) then x :: l else y :: insert_by key x l'
  end.

Fixpoint sorted_by {A : Type} (key : A -> Z * Z * Z) (l : list A) : list A :=
  match l with
  | [] => []
  | x :: l' => insert_by key x (sorted_by key l')
  end.

(** [sorted(data_map.keys(), key=numeric_sort_key)] *)
Definition sorted_keys (data_map : data_map_of) : list scan_key_of :=
  sorted_by numeric_sort_key (map fst data_map).

(** ** Statistics block *)

Section EmbedStats.
Variable float_ok : string -> bool.
(** [open(path, 'r', encoding='utf-8')] and the iteration over its lines *)
Variable read_lines : string -> result (list string).

Definition embed_stats (abs_path : option string) : result string :=
  match abs_path with
  | None => Ok (not_found "Stats")
  | Some EmptyString => Ok (not_found "Stats")
  | Some abs_path =>
      rcatch
        (raw <- read_lines abs_path ;;
         let lines := stripped_lines raw in
         if (length lines =? 0)%nat then Ok "<h3>Stats</h3><p>Empty CSV</p>"
         else
           second_numeric <-
             (if (2 <=? length lines)%nat
              then l1 <- list_index lines 1 ;;
                   Ok (all_numeric float_ok (Str.split "," l1))
              else Ok false) ;;
           parts <-
             (if second_numeric
              then l1 <- list_index lines 1 ;; Ok (Str.split "," l1)
              else l0 <- list_index lines 0 ;; Ok (Str.split "," l0)) ;;
           if negb (length parts =? 5)%nat
           then Ok ("<h3>Stats</h3><p>Expected 5 columns, found "
                    ++ Str.of_nat (length parts) ++ ". CSV: " ++ abs_path
                    ++ "</p>")%string
           else
             p0 <- list_index parts 0 ;;
             p1 <- list_index parts 1 ;;
             p2 <- list_index parts 2 ;;
             p3 <- list_index parts 3 ;;
             p4 <- list_index parts 4 ;;
             Ok (nl ++ "        <h3>Statistics</h3>" ++ nl
                 ++ "        <p>Mean: " ++ p0 ++ ", Median: " ++ p1
                 ++ ", Max: " ++ p2 ++ ", Min: " ++ p3 ++ ", Std: " ++ p4
                 ++ "</p>" ++ nl ++ "        ")%string)
        (fun e =>
           Ok ("<h3>Stats</h3><p>Error reading CSV: " ++ exn_str e ++ "</p>")%string)
  end.

End EmbedStats.

End GenerateHtml.

(* ================================================================== *)
(** * struct_report_generator.py *)

Module ReportGenerator.

Section EmbedStats.
Variable float_ok : string -> bool.
Variable read_lines : string -> result (list string).

Definition headers : list string := ["mean"; "median"; "max"; "min"; "std"].

Definition embed_stats (csv_path : option string) : result string :=
  match csv_path with
  | None => Ok (not_found "Stats")
  | Some EmptyString => Ok (not_found "Stats")
  | Some csv_path =>
      let fname := OsPath.basename csv_path in
      match
        (raw <- read_lines csv_path ;;
         let lines := stripped_lines raw in
         second_numeric <-
           (if (2 <=? length lines)%nat
            then l1 <- list_index lines 1 ;;
                 Ok (all_numeric float_ok (Str.split "," l1))
            else Ok false) ;;
         data_line <-
           (if second_numeric then list_index lines 1 else list_index lines 0) ;;
         Ok (Str.split "," data_line))
      with
      | Raise e =>
          Ok ("<h3>Stats</h3><p>Unable to read CSV: " ++ exn_str e ++ "</p>")%string
      | Ok values =>
          if negb (length values =? 5)%nat
          then
            Ok (nl ++ "        <h3>Stats</h3>" ++ nl
                ++ "        <p>Unexpected format: found "
                ++ Str.of_nat (length values) ++ " columns instead of 5.</p>" ++ nl
                ++ "        <p><a href=" ++ dquote ++ fname ++ dquote
                ++ " download>Download CSV</a></p>" ++ nl ++ "        ")%string
          else
            Ok (nl ++ "    <h3>Statistics</h3>" ++ nl
                ++ "    <table class=" ++ dquote ++ "stats-table" ++ dquote ++ ">" ++ nl
                ++ "      <tr>"
                ++ String.concat "" (map (fun h => "<th>" ++ h ++ "</th>") headers)
                ++ "</tr>" ++ nl
                ++ "      <tr>"
                ++ String.concat "" (map (fun v => "<td>" ++ v ++ "</td>") values)
                ++ "</tr>" ++ nl
                ++ "    </table>" ++ nl
                ++ "    <p><a href=" ++ dquote ++ fname ++ dquote
                ++ " download>Download CSV</a></p>" ++ nl ++ "    ")%string
      end
  end.

End EmbedStats.

(** ** The pages *)

(** [int(s)] for a string in base 10: blanks around, a sign, then decimal
    digits with single underscores between them; at most 4300 digits
    ([sys.int_max_str_digits]).  The messages are abridged. *)
Fixpoint int_digits (prev_digit : bool) (s : string) : option string :=
  match s with
  | EmptyString => if prev_digit then Some EmptyString else None
  | String c s' =>
      if Str.isdigit c
      then match int_digits true s' with
           | Some d => Some (String c d)
           | None => None
           end
      else if Ascii.eqb c "_" && prev_digit then int_digits false s'
      else None
  end.

(** The blanks that [int] skips at both ends of its argument: the white
    space of [str.strip] but for the separators of code 28 to 31, on which
    [int] raises ValueError. *)
Definition int_blank (c : ascii) : bool :=
  let n := nat_of_ascii c in
  ((9 <=? n) && (n <=? 13) || (n =? 32) || (n =? 133) || (n =? 160))%nat.

Fixpoint int_lstrip (s : string) : string :=
  match s with
  | EmptyString => EmptyString
  | String c s' => if int_blank c then int_lstrip s' else s
  end.

Fixpoint int_rstrip (s : string) : string :=
  match s with
  | EmptyString => EmptyString
  | String c s' =>
      match int_rstrip s' with
      | EmptyString => if int_blank c then EmptyString else String c EmptyString
      | r => String c r
      end
  end.

Definition int (s : string) : result Z :=
  let s := int_rstrip (int_lstrip s) in
  let '(negative, body) :=
    match s with
    | String "-" b => (true, b)
    | String "+" b => (false, b)
    | _ => (false, s)
    end in
  match int_digits false body with
  | None => Raise (ValueError "invalid literal for int() with base 10")
  | Some d =>
      if (4300 <? String.length d)%nat
      then Raise (ValueError "Exceeds the limit (4300 digits) for integer string conversion")
      else Ok (if negative then - Str.int d else Str.int d)
  end.

(** A value of [data_map]. *)
Record entry : Type := {
  orig : option string;
  strip : option string;
  dens : option string;
  stats : option string;
  directory : string
}.

Definition key_of : Type := (string * string)%type.

Definition data_map_of : Type := list (key_of * entry).

Definition key_eqb (a b : key_of) : bool :=
  String.eqb (fst a) (fst b) && String.eqb (snd a) (snd b).

(** [key in data_map] *)
Definition has_key (key : key_of) (m : data_map_of) : bool :=
  existsb (fun kv => key_eqb key (fst kv)) m.

(** [data_map[key]] *)
Fixpoint data_map_get (key : key_of) (m : data_map_of) : result entry :=
  match m with
  | [] => Raise (KeyError "key")
  | (k, e) :: m' => if key_eqb key k then Ok e else data_map_get key m'
  end.

(** [data_map[key][slot] = value], for the first entry under [key] *)
Fixpoint update_entry (key : key_of) (f : entry -> entry) (m : data_map_of)
  : data_map_of :=
  match m with
  | [] => []
  | (k, e) :: m' =>
      if key_eqb key k then (k, f e) :: m' else (k, e) :: update_entry key f m'
  end.

(** The truth value of a path or [None]. *)
Definition truthy (o : option string) : bool :=
  match o with
  | Some (String _ _) => true
  | _ => false
  end.

(** [a or b] *)
Definition or_else (a b : option string) : option string :=
  if truthy a then a else b.

(** The four variables of the loop over a directory. *)
Record found : Type := {
  orig_file : option string;
  strip_file : option string;
  dens_file : option string;
  stats_file : option string
}.

(** The body of the loop over the file names of a directory. *)
Definition note_file (dirpath : string) (fd : found) (fname : string) : found :=
  let fullpath := OsPath.join dirpath fname in
  if Str.endswith fname "_original_slices.png" then
    {| orig_file := Some fullpath; strip_file := strip_file fd;
       dens_file := dens_file fd; stats_file := stats_file fd |}
  else if Str.endswith fname "_skullstripped_slices.png" then
    {| orig_file := orig_file fd; strip_file := Some fullpath;
       dens_file := dens_file fd; stats_file := stats_file fd |}
  else if Str.endswith fname "_density.svg" then
    {| orig_file := orig_file fd; strip_file := strip_file fd;
       dens_file := Some fullpath; stats_file := stats_file fd |}
  else if Str.endswith fname "_stats.csv" then
    {| orig_file := orig_file fd; strip_file := strip_file fd;
       dens_file := dens_file fd; stats_file := Some fullpath |}
  else fd.

Definition set_if (value : option string) (f : option string -> entry -> entry)
  (key : key_of) (m : data_map_of) : data_map_of :=
  if truthy value then update_entry key (f value) m else m.

(** The body of the loop over [os.walk(root_dir)], after its print.  The
    pattern is that of [extract_sub_ses]. *)
Definition group_dir (dirpath : string) (filenames : list string)
  (data_map : data_map_of) : data_map_of :=
  let fd := fold_left (note_file dirpath) filenames
              {| orig_file := None; strip_file := None; dens_file := None;
                 stats_file := None |} in
  let candidate_file :=
    or_else (orig_file fd)
      (or_else (strip_file fd) (or_else (dens_file fd) (stats_file fd))) in
  match candidate_file with
  | Some (String c p) =>
      match Final.search_sub_ses (OsPath.basename (String c p)) with
      | Some (subject, g2) =>
          let session := match g2 with Some s => s | None => "ses-01" end in
          let key := (subject, session) in
          let data_map :=
            if has_key key data_map then data_map
            else data_map ++ [(key, {| orig := None; strip := None; dens := None;
                                       stats := None; directory := dirpath |})] in
          let data_map :=
            set_if (orig_file fd)
              (fun v e => {| orig := v; strip := strip e; dens := dens e;
                             stats := stats e; directory := directory e |})
              key data_map in
          let data_map :=
            set_if (strip_file fd)
              (fun v e => {| orig := orig e; strip := v; dens := dens e;
                             stats := stats e; directory := directory e |})
              key data_map in
          let data_map :=
            set_if (dens_file fd)
              (fun v e => {| orig := orig e; strip := strip e; dens := v;
                             stats := stats e; directory := directory e |})
              key data_map in
          set_if (stats_file fd)
            (fun v e => {| orig := orig e; strip := strip e; dens := dens e;
                           stats := v; directory := directory e |})
            key data_map
      | None => data_map
      end
  | _ => data_map
  end.

(** The data map after the walk. *)
Definition collect (walk : list (string * list string * list string))
  : data_map_of :=
  fold_left (fun data_map '(dirpath, _, filenames) =>
               group_dir dirpath filenames data_map)
            walk [].

Definition numeric_sort_key (k : key_of) : result (Z * Z) :=
  let '(sub_str, ses_str) := k in
  sub_num <- int (Str.replace "sub-" "" sub_str) ;;
  ses_num <-
    (if negb (String.eqb ses_str "") && String.prefix "ses-" ses_str
     then int (Str.replace "ses-" "" ses_str)
     else Ok 1) ;;
  Ok (sub_num, ses_num).

Definition pair_leb (a b : Z * Z) : bool :=
  if fst a =? fst b then snd a <=? snd b else fst a <? fst b.

(** The keys of the items are computed first, in the order of the list. *)
Fixpoint with_keys {A : Type} (key : A -> result (Z * Z)) (l : list A)
  : result (list (Z * Z * A)) :=
  match l with
  | [] => Ok []
  | x :: l' =>
      n <- key x ;;
      rest <- with_keys key l' ;;
      Ok ((n, x) :: rest)
  end.

Fixpoint insert_keyed {A : Type} (x : Z * Z * A) (l : list (Z * Z * A))
  : list (Z * Z * A) :=
  match l with
  | [] => [x]
  | y :: l' =>
      if pair_leb (fst x) (fst y) then x :: l else y :: insert_keyed x l'
  end.

Fixpoint sort_keyed {A : Type} (l : list (Z * Z * A)) : list (Z * Z * A) :=
  match l with
  | [] => []
  | x :: l' => insert_keyed x (sort_keyed l')
  end.

(** [sorted(data_map.keys(), key=numeric_sort_key)]: a stable sort *)
Definition sorted_keys (data_map : data_map_of) : result (list key_of) :=
  keyed <- with_keys numeric_sort_key (map fst data_map) ;;
  Ok (map snd (sort_keyed keyed)).

Definition report_name (key : key_of) (phase : string) : string :=
  let '(subject, session) := key in
  if String.eqb session "ses-01"
  then (subject ++ "_T1w_report_" ++ phase ++ ".html")%string
  else (subject ++ "_" ++ session ++ "_T1w_report_" ++ phase ++ ".html")%string.

(** The loop that fills [key_html_paths]. *)
Fixpoint key_html_paths (data_map : data_map_of) (phase : string)
  (keys : list key_of) : result (list (key_of * string)) :=
  match keys with
  | [] => Ok []
  | key :: keys' =>
      e <- data_map_get key data_map ;;
      let out_dir := directory e in
      let html_path := OsPath.join out_dir (report_name key phase) in
      rest <- key_html_paths data_map phase keys' ;;
      Ok ((key, html_path) :: rest)
  end.

Definition embed_png (png_path : option string) (title : string) : string :=
  match png_path with
  | Some (String c p) =>
      let fname := OsPath.basename (String c p) in
      String.concat ""
       [nl;
        "    <h3>"; title; "</h3>"; nl;
        "    <div class="; dquote; "annotation-container"; dquote; ">"; nl;
        "        <img class="; dquote; "png-image"; dquote; " src="; dquote;
        fname; dquote; " onload="; dquote; "resizeCanvas(this)"; dquote;
        " />"; nl;
        "        <canvas class="; dquote; "annot-canvas"; dquote;
        "></canvas>"; nl;
        "    </div>"; nl;
        "    <script>"; nl;
        "    // Resize the canvas to match the image dimensions"; nl;
        "    function resizeCanvas(imgElem) {"; nl;
        "        let canvas = imgElem.parentNode.querySelector('.annot-canvas');"; nl;
        "        if (canvas) {"; nl;
        "            canvas.width = imgElem.width;"; nl;
        "            canvas.height = imgElem.height;"; nl;
        "        }"; nl;
        "    }"; nl;
        "    </script>"; nl;
        "    "]
  | _ => not_found title
  end.

Definition embed_svg (svg_path : option string) (title : string) : string :=
  match svg_path with
  | Some (String c p) =>
      let fname := OsPath.basename (String c p) in
      String.concat ""
       [nl;
        "    <h3>"; title; "</h3>"; nl;
        "    <div class="; dquote; "annotation-container"; dquote; ">"; nl;
        "        <!-- For an SVG, we embed it in an <object> or <img> -->";
        nl;
        "        <object class="; dquote; "svg-image"; dquote; " type=";
        dquote; "image/svg+xml"; dquote; " data="; dquote; fname; dquote;
        " onload="; dquote; "resizeSvgCanvas(this)"; dquote; "></object>"; nl;
        "        <canvas class="; dquote; "annot-canvas"; dquote;
        "></canvas>"; nl;
        "    </div>"; nl;
        "    <script>"; nl;
        "    // Rough approach to resizing the canvas after the SVG loads";
        nl;
        "    function resizeSvgCanvas(objElem) {"; nl;
        "        let canvas = objElem.parentNode.querySelector('.annot-canvas');"; nl;
        "        if (canvas) {"; nl;
        "            // We can't easily get the rendered width/height of an <object> with an SVG,"; nl;
        "            // so you might want a more robust approach or fixed size."; nl;
        "            canvas.width = 600;"; nl;
        "            canvas.height = 400;"; nl;
        "        }"; nl;
        "    }"; nl;
        "    </script>"; nl;
        "    "]
  | _ => not_found title
  end.

(** The text of a report. *)
Definition html_content (subject session phase prev_link next_link
  orig_png strip_png dens_svg stats_tbl : string) : string :=
  String.concat ""
   ["<!DOCTYPE html>"; nl;
    "<html>"; nl;
    "<head>"; nl;
    "    <meta charset="; dquote; "utf-8"; dquote; " />"; nl;
    "    <title>"; subject; " "; session; " Report ("; phase; ")</title>"; nl;
    "    <style>"; nl;
    "        body {"; nl;
    "            font-family: Arial, sans-serif;"; nl;
    "            margin: 20px;"; nl;
    "        }"; nl;
    "        .nav {"; nl;
    "            margin-bottom: 20px;"; nl;
    "        }"; nl;
    "        .nav span, .nav a {"; nl;
    "            margin-right: 20px;"; nl;
    "            font-weight: bold;"; nl;
    "        }"; nl;
    "        .section {"; nl;
    "            margin-bottom: 30px;"; nl;
    "        }"; nl;
    "        .png-image, .svg-image {"; nl;
    "            max-width: 90%;"; nl;
    "            border: 1px solid #ccc;"; nl;
    "            margin-bottom: 10px;"; nl;
    "            display: block;"; nl;
    "            position: relative;"; nl;
    "        }"; nl;
    "        .stats-table {"; nl;
    "            border-collapse: collapse;"; nl;
    "            margin-top: 10px;"; nl;
    "        }"; nl;
    "        .stats-table td, .stats-table th {"; nl;
    "            border: 1px solid #999;"; nl;
    "            padding: 6px 10px;"; nl;
    "        }"; nl;
    "        /* Annotation canvas overlay */"; nl;
    "        .annotation-container {"; nl;
    "            position: relative;"; nl;
    "            display: inline-block;"; nl;
    "        }"; nl;
    "        .annot-canvas {"; nl;
    "            position: absolute;"; nl;
    "            top: 0;"; nl;
    "            left: 0;"; nl;
    "            border: 1px solid #ccc;"; nl;
    "            opacity: 0.6;  /* Adjust transparency as needed */"; nl;
    "        }"; nl;
    "        .qc-buttons {"; nl;
    "            margin: 20px 0;"; nl;
    "        }"; nl;
    "        .qc-buttons button {"; nl;
    "            margin-right: 10px;"; nl;
    "            padding: 8px 12px;"; nl;
    "            font-size: 14px;"; nl;
    "            cursor: pointer;"; nl;
    "        }"; nl;
    "        .qc-status {"; nl;
    "            font-weight: bold;"; nl;
    "            margin-left: 20px;"; nl;
    "        }"; nl;
    "    </style>"; nl;
    "</head>"; nl;
    "<body>"; nl;
    nl;
    "    <!-- Navigation -->"; nl;
    "    <div class="; dquote; "nav"; dquote; ">"; nl;
    "        "; prev_link; " "; next_link; nl;
    "    </div>"; nl;
    nl;
    "    <h2>Subject: "; subject; " | Session: "; session; " | Phase: ";
    phase; "</h2>"; nl;
    nl;
    "    <div class="; dquote; "qc-buttons"; dquote; ">"; nl;
    "        <button onclick="; dquote; "markQC('GOOD')"; dquote;
    ">Mark Good</button>"; nl;
    "        <button onclick="; dquote; "markQC('BAD')"; dquote;
    ">Mark Bad</button>"; nl;
    "        <button onclick="; dquote; "markQC('UNCLEAR')"; dquote;
    ">Mark Unclear</button>"; nl;
    "        <span class="; dquote; "qc-status"; dquote; " id="; dquote;
    "qcStatusDisplay"; dquote; ">Status: UNKNOWN</span>"; nl;
    "        <label for="; dquote; "qcNotes"; dquote; " style="; dquote;
    "margin-left: 20px;"; dquote; ">Notes:</label>"; nl;
    "        <input type="; dquote; "text"; dquote; " id="; dquote; "qcNotes";
    dquote; " style="; dquote;
    "width: 200px; margin-left: 5px; padding: 5px;"; dquote; " onchange=";
    dquote; "saveNotes()"; dquote; " placeholder="; dquote;
    "Add notes here..."; dquote; "/>"; nl;
    "    </div>"; nl;
    nl;
    "    <div class="; dquote; "section"; dquote; ">"; nl;
    "        "; orig_png; nl;
    "    </div>"; nl;
    nl;
    "    <div class="; dquote; "section"; dquote; ">"; nl;
    "        "; strip_png; nl;
    "    </div>"; nl;
    nl;
    "    <div class="; dquote; "section"; dquote; ">"; nl;
    "        "; dens_svg; nl;
    "    </div>"; nl;
    nl;
    "    <div class="; dquote; "section"; dquote; ">"; nl;
    "        "; stats_tbl; nl;
    "    </div>"; nl;
    nl;
    "    <!-- Minimal annotation JavaScript snippet -->"; nl;
    "    <script>"; nl;
    "    // For each annotation container:"; nl;
    "    // We attach an event listener to the canvas to allow freehand drawing."; nl;
    "    document.addEventListener('DOMContentLoaded', function() {"; nl;
    "        const containers = document.querySelectorAll('.annotation-container');"; nl;
    "        containers.forEach(container => {"; nl;
    "            const canvas = container.querySelector('.annot-canvas');";
    nl;
    "            if (!canvas) return;"; nl;
    nl;
    "            const ctx = canvas.getContext('2d');"; nl;
    "            let drawing = false;"; nl;
    nl;
    "            function startDraw(e) {"; nl;
    "                drawing = true;"; nl;
    "                ctx.beginPath();"; nl;
    "                ctx.moveTo(e.offsetX, e.offsetY);"; nl;
    "            }"; nl;
    "            function draw(e) {"; nl;
    "                if (!drawing) return;"; nl;
    "                ctx.lineWidth = 2;"; nl;
    "                ctx.lineCap = 'round';"; nl;
    "                ctx.strokeStyle = 'red';"; nl;
    "                ctx.lineTo(e.offsetX, e.offsetY);"; nl;
    "                ctx.stroke();"; nl;
    "            }"; nl;
    "            function endDraw(e) {"; nl;
    "                drawing = false;"; nl;
    "            }"; nl;
    nl;
    "            canvas.addEventListener('mousedown', startDraw);"; nl;
    "            canvas.addEventListener('mousemove', draw);"; nl;
    "            canvas.addEventListener('mouseup', endDraw);"; nl;
    "            canvas.addEventListener('mouseleave', endDraw);"; nl;
    "        });"; nl;
    nl;
    "        // On load, retrieve stored QC status and notes from localStorage"; nl;
    "        loadQCStatus();"; nl;
    "        loadNotes();"; nl;
    "    });"; nl;
    nl;
    "    // Store Good/Bad/Unclear decision in localStorage"; nl;
    "    function markQC(status) {"; nl;
    "        const subject = "; dquote; subject; dquote; ";"; nl;
    "        const session = "; dquote; session; dquote; ";"; nl;
    "        const phase   = "; dquote; phase; dquote; ";"; nl;
    "        const key = `QC_${subject}_${session}_${phase}`;"; nl;
    "        localStorage.setItem(key, status);"; nl;
    "        document.getElementById('qcStatusDisplay').innerHTML = `Status: ${status}`;"; nl;
    "        "; nl;
    "        // Save notes along with the status"; nl;
    "        saveNotes();"; nl;
    "    }"; nl;
    nl;
    "    // Save notes to localStorage"; nl;
    "    function saveNotes() {"; nl;
    "        const subject = "; dquote; subject; dquote; ";"; nl;
    "        const session = "; dquote; session; dquote; ";"; nl;
    "        const phase   = "; dquote; phase; dquote; ";"; nl;
    "        const notes = document.getElementById('qcNotes').value;"; nl;
    "        const notesKey = `QC_NOTES_${subject}_${session}_${phase}`;"; nl;
    "        localStorage.setItem(notesKey, notes);"; nl;
    "    }"; nl;
    nl;
    "    // On page load, display the previously selected QC status"; nl;
    "    function loadQCStatus() {"; nl;
    "        const subject = "; dquote; subject; dquote; ";"; nl;
    "        const session = "; dquote; session; dquote; ";"; nl;
    "        const phase   = "; dquote; phase; dquote; ";"; nl;
    "        const key = `QC_${subject}_${session}_${phase}`;"; nl;
    "        const storedValue = localStorage.getItem(key);"; nl;
    "        if (storedValue) {"; nl;
    "            document.getElementById('qcStatusDisplay').innerHTML = `Status: ${storedValue}`;"; nl;
    "        }"; nl;
    "    }"; nl;
    nl;
    "    // On page load, load any previously saved notes"; nl;
    "    function loadNotes() {"; nl;
    "        const subject = "; dquote; subject; dquote; ";"; nl;
    "        const session = "; dquote; session; dquote; ";"; nl;
    "        const phase   = "; dquote; phase; dquote; ";"; nl;
    "        const notesKey = `QC_NOTES_${subject}_${session}_${phase}`;"; nl;
    "        const storedNotes = localStorage.getItem(notesKey);"; nl;
    "        if (storedNotes) {"; nl;
    "            document.getElementById('qcNotes').value = storedNotes;"; nl;
    "        }"; nl;
    "    }"; nl;
    "    </script>"; nl;
    nl;
    "</body>"; nl;
    "</html>"].

(** What the generator does to the outside. *)
Inductive output : Type :=
| Printed (line : string)
| Wrote (path content : string).

Definition W (A : Type) : Type := list output -> list output * result A.

Definition wret {A : Type} (a : A) : W A := fun tr => (tr, Ok a).

Definition wbind {A B : Type} (m : W A) (k : A -> W B) : W B :=
  fun tr =>
    match m tr with
    | (tr', Ok a) => k a tr'
    | (tr', Raise e) => (tr', Raise e)
    end.

Definition print (line : string) : W unit :=
  fun tr => (tr ++ [Printed line], Ok tt).

Definition wlift {A : Type} (r : result A) : W A := fun tr => (tr, r).

Section Reports.
Variable float_ok : string -> bool.
Variable read_lines : string -> result (list string).
(** [os.path.relpath(path, start)] *)
Variable os_path_relpath : string -> string -> result string.
(** [open(path, 'w', encoding='utf-8')] and the writing of the text *)
Variable write_text : string -> string -> result unit.

(** The loop over [os.walk(root_dir)]. *)
Fixpoint walk_dirs (walk : list (string * list string * list string))
  (data_map : data_map_of) : W data_map_of :=
  match walk with
  | [] => wret data_map
  | (dirpath, _, filenames) :: walk' =>
      wbind (print ("Walking " ++ dirpath))
        (fun _ => walk_dirs walk' (group_dir dirpath filenames data_map))
  end.

(** [key_html_paths[i]] *)
Definition path_at (paths : list (key_of * string)) (i : nat)
  : result (key_of * string) :=
  match nth_error paths i with
  | Some kp => Ok kp
  | None => Raise (IndexError "list index out of range")
  end.

(** The body of the loop that writes the reports. *)
Definition write_report (data_map : data_map_of) (phase : string)
  (paths : list (key_of * string)) (i : nat) (key : key_of)
  (html_path : string) : W unit :=
  let '(subject, session) := key in
  wbind (wlift (data_map_get key data_map)) (fun files_info =>
  wbind
    (if (0 <? i)%nat
     then
       wbind (wlift (path_at paths (i - 1))) (fun '(_, prev_html) =>
       wbind (wlift (os_path_relpath prev_html (OsPath.dirname html_path)))
         (fun rel_prev =>
            wret ("<a href=" ++ dquote ++ rel_prev ++ dquote
                  ++ ">Previous</a>")%string))
     else wret ("<span style=" ++ dquote ++ "color:gray;" ++ dquote
                ++ ">Previous</span>")%string)
    (fun prev_link =>
  wbind
    (if Z.of_nat i <? Z.of_nat (length paths) - 1
     then
       wbind (wlift (path_at paths (i + 1))) (fun '(_, next_html) =>
       wbind (wlift (os_path_relpath next_html (OsPath.dirname html_path)))
         (fun rel_next =>
            wret ("<a href=" ++ dquote ++ rel_next ++ dquote
                  ++ ">Next</a>")%string))
     else wret ("<span style=" ++ dquote ++ "color:gray;" ++ dquote
                ++ ">Next</span>")%string)
    (fun next_link =>
  let orig_png :=
    if truthy (orig files_info)
    then embed_png (orig files_info) "Original Slices"
    else not_found "Original Slices" in
  let strip_png :=
    if truthy (strip files_info)
    then embed_png (strip files_info) "Skull-Stripped Slices"
    else not_found "Skull-Stripped Slices" in
  let dens_svg :=
    if truthy (dens files_info)
    then embed_svg (dens files_info) "Density Plot"
    else not_found "Density Plot" in
  wbind
    (wlift (if truthy (stats files_info)
            then embed_stats float_ok read_lines (stats files_info)
            else Ok (not_found "Stats")))
    (fun stats_tbl =>
  let html_content :=
    html_content subject session phase prev_link next_link
      orig_png strip_png dens_svg stats_tbl in
  wbind (wlift (write_text html_path html_content)) (fun _ =>
  fun tr => (tr ++ [Wrote html_path html_content], Ok tt)))))).

(** [for i, (key, html_path) in enumerate(key_html_paths)] from [i] on *)
Fixpoint write_reports (data_map : data_map_of) (phase : string)
  (paths : list (key_of * string)) (i : nat) (todo : list (key_of * string))
  : W unit :=
  match todo with
  | [] => wret tt
  | (key, html_path) :: todo' =>
      wbind (write_report data_map phase paths i key html_path)
        (fun _ => write_reports data_map phase paths (i + 1) todo')
  end.

(** [generate_html_reports]: [tree] is the directory at [root_dir]. *)
Definition generate_html_reports (root_dir : string) (tree : dir_tree)
  (phase : string) : W unit :=
  wbind (print ("Walking " ++ root_dir)) (fun _ =>
  wbind (walk_dirs (os_walk root_dir tree) []) (fun data_map =>
  wbind (wlift (sorted_keys data_map)) (fun sorted_keys =>
  wbind (wlift (key_html_paths data_map phase sorted_keys)) (fun paths =>
  wbind (print ("Generated " ++ Str.of_nat (length paths) ++ " HTML reports"))
    (fun _ =>
  wbind (write_reports data_map phase paths 0 paths) (fun _ =>
  print "HTML reports generated successfully!")))))).

End Reports.

End ReportGenerator.
(* ================================================================== *)
(** * struct_generate_html_reports.py: the review server *)

Module ReviewServer.

Import GenerateHtml.

(** [str(n)] for an integer *)
Definition str_of_Z (z : Z) : string := NilZero.string_of_int (Z.to_int z).

(** [c.lower()] on code points below 256 *)
Definition lower_char (c : ascii) : ascii :=
  let n := nat_of_ascii c in
  if ((65 <=? n) && (n <=? 90) || (192 <=? n) && (n <=? 214)
      || (216 <=? n) && (n <=? 222))%nat
  then ascii_of_nat (n + 32) else c.

(** [s.lower()] *)
Fixpoint lower (s : string) : string :=
  match s with
  | EmptyString => EmptyString
  | String c s' => String (lower_char c) (lower s')
  end.

(** [FILE_MAP]: a dictionary from file ids to absolute paths, in insertion
    order. *)
Definition file_map_of : Type := list (Z * string).

(** [FILE_MAP[k]], [None] when [k not in FILE_MAP] *)
Fixpoint dict_get (k : Z) (m : file_map_of) : option string :=
  match m with
  | [] => None
  | (k', v) :: m' => if k =? k' then Some v else dict_get k m'
  end.

(** [FILE_MAP[k] = v] *)
Fixpoint dict_set (k : Z) (v : string) (m : file_map_of) : file_map_of :=
  match m with
  | [] => [(k, v)]
  | (k', v') :: m' =>
      if k =? k' then (k', v) :: m' else (k', v') :: dict_set k v m'
  end.

(** The globals of the module that the handlers share. *)
Record globals : Type := {
  PAGES : list (string * Z);
  FILE_MAP : file_map_of;
  FILE_ID_COUNTER : Z
}.

(** What a handler answers; [ServerError e] is the answer 500 that Flask
    gives when the exception [e] leaves the view. *)
Inductive response : Type :=
| Body (html : string) (code : Z)
| RedirectTo (location : string)
| JsonBody (key value : string) (code : Z)
| SendFile (path mimetype : string)
| Abort (code : Z) (description : string)
| ServerError (e : exn).

(** [index]: the route "/" *)
Definition index (g : globals) : response :=
  match PAGES g with
  | [] => Body "<h1>No reports found.</h1>" 200
  | _ => RedirectTo "/report/0"
  end.

(** [show_report]: the route "/report/<int:page_id>" *)
Definition show_report (g : globals) (page_id : Z) : response :=
  if (page_id <? 0) || (Z.of_nat (length (PAGES g)) <=? page_id)
  then Body "<h1>Invalid page index</h1>" 404
  else
    match nth_error (PAGES g) (Z.to_nat page_id) with
    | Some (page_html, _) => Body page_html 200
    | None => Body "<h1>Invalid page index</h1>" 404
    end.

(** The JSON body of a request to "/qc_update": each key is absent or
    holds a string. *)
Record qc_request : Type := {
  req_filename : option string;
  req_status : option string;
  req_notes : option string
}.

(** [not x] for [x = data.get(key)] *)
Definition falsy (o : option string) : bool :=
  match o with
  | Some (String _ _) => false
  | _ => true
  end.

Definition get_or (o : option string) (default : string) : string :=
  match o with Some s => s | None => default end.

(** [qc_update]: the answer and, when the ledger was written, its new
    rows.  [file] is the ledger at MASTER_CSV. *)
Definition qc_update (file : option (list row)) (data : qc_request)
  : result (response * option (list row)) :=
  let filename := req_filename data in
  let status := req_status data in
  let notes := get_or (req_notes data) "" in
  if falsy filename || falsy status
  then Ok (JsonBody "error" "Missing filename or status" 400, None)
  else
    rows <- update_csv file (get_or filename "")
              (StatusDict (Some (get_or status "")) (Some notes)) ;;
    Ok (JsonBody "message" "QC updated successfully" 200, Some rows).

(** [get_image]: the route "/get_image/<int:file_id>".  [exists_on_disk] is
    [os.path.exists], which looks from the working directory.  [send_file]
    is Flask's [send_file]: it resolves a relative path against the root of
    the application, not the working directory, and answers with the file,
    or raises when it finds no file there or cannot read it; an exception
    that leaves the view is answered with 500. *)
Definition get_image (exists_on_disk : string -> bool)
  (send_file : string -> string -> result unit) (g : globals)
  (file_id : Z) : response :=
  match dict_get file_id (FILE_MAP g) with
  | None => Abort 404 "File ID not found"
  | Some abs_path =>
      if negb (exists_on_disk abs_path)
      then Abort 404 ("File not found on disk: " ++ abs_path)%string
      else
        let ext := lower abs_path in
        let mimetype :=
          if Str.endswith ext ".png" then "image/png"
          else if Str.endswith ext ".svg" then "image/svg+xml"
          else "application/octet-stream" in
        match send_file abs_path mimetype with
        | Ok _ => SendFile abs_path mimetype
        | Raise e => ServerError e
        end
  end.

(** [store_file]: the id handed out and the globals afterwards. *)
Definition store_file (g : globals) (abs_path : string) : Z * globals :=
  let file_map := dict_set (FILE_ID_COUNTER g) abs_path (FILE_MAP g) in
  let this_id := FILE_ID_COUNTER g in
  (this_id,
   {| PAGES := PAGES g; FILE_MAP := file_map;
      FILE_ID_COUNTER := FILE_ID_COUNTER g + 1 |}).

Definition embed_png (g : globals) (abs_path : option string) (title : string)
  : string * globals :=
  match abs_path with
  | Some (String c p) =>
      let '(file_id, g) := store_file g (String c p) in
      (String.concat ""
     [nl;
      "    <h3>"; title; "</h3>"; nl;
      "    <div class="; dquote; "annotation-container"; dquote; ">"; nl;
      "        <img class="; dquote; "png-image"; dquote; " src="; dquote;
      "/get_image/"; str_of_Z file_id; dquote; " onload="; dquote;
      "resizeCanvas(this)"; dquote; " />"; nl;
      "        <canvas class="; dquote; "annot-canvas"; dquote; "></canvas>";
      nl;
      "    </div>"; nl;
      "    <script>"; nl;
      "    function resizeCanvas(imgElem) {"; nl;
      "        let canvas = imgElem.parentNode.querySelector('.annot-canvas');"; nl;
      "        if (canvas) {"; nl;
      "            canvas.width = imgElem.width;"; nl;
      "            canvas.height = imgElem.height;"; nl;
      "        }"; nl;
      "    }"; nl;
      "    </script>"; nl;
      "    "],
       g)
  | _ => (not_found title, g)
  end.

Definition embed_svg (g : globals) (abs_path : option string) (title : string)
  : string * globals :=
  match abs_path with
  | Some (String c p) =>
      let '(file_id, g) := store_file g (String c p) in
      (String.concat ""
     [nl;
      "    <h3>"; title; "</h3>"; nl;
      "    <div class="; dquote; "annotation-container"; dquote; ">"; nl;
      "        <object class="; dquote; "svg-image"; dquote; " type="; dquote;
      "image/svg+xml"; dquote; " data="; dquote; "/get_image/";
      str_of_Z file_id; dquote; " onload="; dquote; "resizeSvgCanvas(this)";
      dquote; "></object>"; nl;
      "        <canvas class="; dquote; "annot-canvas"; dquote; "></canvas>";
      nl;
      "    </div>"; nl;
      "    <script>"; nl;
      "    function resizeSvgCanvas(objElem) {"; nl;
      "        let canvas = objElem.parentNode.querySelector('.annot-canvas');"; nl;
      "        if (canvas) {"; nl;
      "            // You can refine logic to match the rendered size of the SVG"; nl;
      "            canvas.width = 600;"; nl;
      "            canvas.height = 400;"; nl;
      "        }"; nl;
      "    }"; nl;
      "    </script>"; nl;
      "    "],
       g)
  | _ => (not_found title, g)
  end.

(** The "Previous" link of [build_html_page] *)
Definition prev_link (page_id : Z) : string :=
  let prev_id := page_id - 1 in
  if 0 <=? prev_id
  then ("<a href=" ++ dquote ++ "/report/" ++ str_of_Z prev_id ++ dquote
        ++ ">Previous</a>")%string
  else ("<span style=" ++ dquote ++ "color:gray;" ++ dquote
        ++ ">Previous</span>")%string.

(** The "Next" link of [build_html_page] *)
Definition next_link (page_id total_pages : Z) : string :=
  let next_id := page_id + 1 in
  if next_id <? total_pages
  then ("<a href=" ++ dquote ++ "/report/" ++ str_of_Z next_id ++ dquote
        ++ ">Next</a>")%string
  else ("<span style=" ++ dquote ++ "color:gray;" ++ dquote
        ++ ">Next</span>")%string.

(** The key under which the decisions on a page go to the ledger. *)
Definition csv_filename_key (subject session run : string) (files_info : slots)
  : string :=
  if negb (falsy (orig files_info))
  then OsPath.basename (get_or (orig files_info) "")
  else if negb (falsy (strip files_info))
  then OsPath.basename (get_or (strip files_info) "")
  else if negb (falsy (dens files_info))
  then OsPath.basename (get_or (dens files_info) "")
  else if negb (falsy (stats files_info))
  then OsPath.basename (get_or (stats files_info) "")
  else (subject ++ "_" ++ session ++ "_" ++ run)%string.

(** The text of the page. *)
Definition page_text (subject session run phase prev_link next_link
  orig_html strip_html dens_html stats_html csv_filename_key : string)
  : string :=
  String.concat ""
   ["<!DOCTYPE html>"; nl;
    "<html>"; nl;
    "<head>"; nl;
    "    <meta charset="; dquote; "utf-8"; dquote; " />"; nl;
    "    <title>"; subject; " "; session; " "; run; " Report ("; phase;
    ")</title>"; nl;
    "    <style>"; nl;
    "        body {"; nl;
    "            font-family: Arial, sans-serif;"; nl;
    "            margin: 20px;"; nl;
    "        }"; nl;
    "        .nav {"; nl;
    "            margin-bottom: 20px;"; nl;
    "        }"; nl;
    "        .nav span, .nav a {"; nl;
    "            margin-right: 20px;"; nl;
    "            font-weight: bold;"; nl;
    "        }"; nl;
    "        .section {"; nl;
    "            margin-bottom: 30px;"; nl;
    "        }"; nl;
    "        .png-image, .svg-image {"; nl;
    "            max-width: 90%;"; nl;
    "            border: 1px solid #ccc;"; nl;
    "            margin-bottom: 10px;"; nl;
    "            display: block;"; nl;
    "            position: relative;"; nl;
    "        }"; nl;
    "        .stats-table {"; nl;
    "            border-collapse: collapse;"; nl;
    "            margin-top: 10px;"; nl;
    "        }"; nl;
    "        .stats-table td, .stats-table th {"; nl;
    "            border: 1px solid #999;"; nl;
    "            padding: 6px 10px;"; nl;
    "        }"; nl;
    "        .annotation-container {"; nl;
    "            position: relative;"; nl;
    "            display: inline-block;"; nl;
    "        }"; nl;
    "        .annot-canvas {"; nl;
    "            position: absolute;"; nl;
    "            top: 0;"; nl;
    "            left: 0;"; nl;
    "            border: 1px solid #ccc;"; nl;
    "            opacity: 0.6;"; nl;
    "        }"; nl;
    "        .qc-buttons {"; nl;
    "            margin: 20px 0;"; nl;
    "        }"; nl;
    "        .qc-buttons button {"; nl;
    "            margin-right: 10px;"; nl;
    "            padding: 8px 12px;"; nl;
    "            font-size: 14px;"; nl;
    "            cursor: pointer;"; nl;
    "        }"; nl;
    "        .qc-status {"; nl;
    "            font-weight: bold;"; nl;
    "            margin-left: 20px;"; nl;
    "        }"; nl;
    "    </style>"; nl;
    "</head>"; nl;
    "<body>"; nl;
    nl;
    "<div class="; dquote; "nav"; dquote; ">"; nl;
    "    "; prev_link; " "; next_link; nl;
    "</div>"; nl;
    nl;
    "<h2>Subject: "; subject; " | Session: "; session; " | Run: "; run;
    " | Phase: "; phase; "</h2>"; nl;
    nl;
    "<div class="; dquote; "qc-buttons"; dquote; ">"; nl;
    "    <button onclick="; dquote; "markQC('GOOD')"; dquote;
    ">Good</button>"; nl;
    "    <button onclick="; dquote; "markQC('BAD')"; dquote; ">Bad</button>";
    nl;
    "    <button onclick="; dquote; "markQC('UNCLEAR')"; dquote;
    ">Unclear</button>"; nl;
    "    <span class="; dquote; "qc-status"; dquote; " id="; dquote;
    "qcStatusDisplay"; dquote; ">Status: UNKNOWN</span>"; nl;
    "    <label for="; dquote; "qcNotes"; dquote; " style="; dquote;
    "margin-left: 20px;"; dquote; ">Notes:</label>"; nl;
    "    <input type="; dquote; "text"; dquote; " id="; dquote; "qcNotes";
    dquote; " style="; dquote;
    "width: 200px; margin-left: 5px; padding: 5px;"; dquote; " onchange=";
    dquote; "saveNotes()"; dquote; " placeholder="; dquote;
    "Add notes here..."; dquote; "/>"; nl;
    "</div>"; nl;
    nl;
    "<div class="; dquote; "section"; dquote; ">"; nl;
    "    "; orig_html; nl;
    "</div>"; nl;
    "<div class="; dquote; "section"; dquote; ">"; nl;
    "    "; strip_html; nl;
    "</div>"; nl;
    "<div class="; dquote; "section"; dquote; ">"; nl;
    "    "; dens_html; nl;
    "</div>"; nl;
    "<div class="; dquote; "section"; dquote; ">"; nl;
    "    "; stats_html; nl;
    "</div>"; nl;
    nl;
    "<script>"; nl;
    "function markQC(status) {"; nl;
    "    document.getElementById('qcStatusDisplay').innerText = "; dquote;
    "Status: "; dquote; " + status;"; nl;
    "    const notes = document.getElementById('qcNotes').value;"; nl;
    "    fetch("; dquote; "/qc_update"; dquote; ", {"; nl;
    "        method: "; dquote; "POST"; dquote; ","; nl;
    "        headers: {"; nl;
    "            "; dquote; "Content-Type"; dquote; ": "; dquote;
    "application/json"; dquote; nl;
    "        },"; nl;
    "        body: JSON.stringify({ filename: "; dquote; csv_filename_key;
    dquote; ", status: status, notes: notes })"; nl;
    "    })"; nl;
    "    .then(r => r.json())"; nl;
    "    .then(d => console.log(d))"; nl;
    "    .catch(err => console.error("; dquote; "Error:"; dquote; ", err));";
    nl;
    "}"; nl;
    nl;
    "// For each annotation container, freehand drawing"; nl;
    "document.addEventListener('DOMContentLoaded', function() {"; nl;
    "    const containers = document.querySelectorAll('.annotation-container');"; nl;
    "    containers.forEach(container => {"; nl;
    "        const canvas = container.querySelector('.annot-canvas');"; nl;
    "        if (!canvas) return;"; nl;
    "        const ctx = canvas.getContext('2d');"; nl;
    "        let drawing = false;"; nl;
    "        function startDraw(e) {"; nl;
    "            drawing = true;"; nl;
    "            ctx.beginPath();"; nl;
    "            ctx.moveTo(e.offsetX, e.offsetY);"; nl;
    "        }"; nl;
    "        function draw(e) {"; nl;
    "            if (!drawing) return;"; nl;
    "            ctx.lineWidth = 2;"; nl;
    "            ctx.lineCap = 'round';"; nl;
    "            ctx.strokeStyle = 'red';"; nl;
    "            ctx.lineTo(e.offsetX, e.offsetY);"; nl;
    "            ctx.stroke();"; nl;
    "        }"; nl;
    "        function endDraw(e) {"; nl;
    "            drawing = false;"; nl;
    "        }"; nl;
    "        canvas.addEventListener('mousedown', startDraw);"; nl;
    "        canvas.addEventListener('mousemove', draw);"; nl;
    "        canvas.addEventListener('mouseup', endDraw);"; nl;
    "        canvas.addEventListener('mouseleave', endDraw);"; nl;
    "    });"; nl;
    "});"; nl;
    "</script>"; nl;
    nl;
    "</body>"; nl;
    "</html>"; nl].

Section Pages.
Variable float_ok : string -> bool.
Variable read_lines : string -> result (list string).

Definition build_html_page (subject session run : string) (files_info : slots)
  (phase : string) (page_id total_pages : Z) (g : globals)
  : result (string * globals) :=
  let prev_link := prev_link page_id in
  let next_link := next_link page_id total_pages in
  let '(orig_html, g) :=
    if negb (falsy (orig files_info))
    then embed_png g (orig files_info) "Original Slices"
    else (not_found "Original Slices", g) in
  let '(strip_html, g) :=
    if negb (falsy (strip files_info))
    then embed_png g (strip files_info) "Skull-Stripped Slices"
    else (not_found "Skull-Stripped Slices", g) in
  let '(dens_html, g) :=
    if negb (falsy (dens files_info))
    then embed_svg g (dens files_info) "Density Plot"
    else (not_found "Density Plot", g) in
  stats_html <-
    (if negb (falsy (stats files_info))
     then embed_stats float_ok read_lines (stats files_info)
     else Ok (not_found "Stats")) ;;
  let csv_filename_key := csv_filename_key subject session run files_info in
  Ok (page_text subject session run phase prev_link next_link
        orig_html strip_html dens_html stats_html csv_filename_key,
      g).

(** [data_map[key]] *)
Fixpoint data_map_get (key : scan_key_of) (m : data_map_of) : result slots :=
  match m with
  | [] => Raise (KeyError "key")
  | (k, s) :: m' => if key_eqb key k then Ok s else data_map_get key m'
  end.

(** The loop [for idx, key in enumerate(sorted_keys)] from index [idx] on. *)
Fixpoint build_pages (phase : string) (data_map : data_map_of)
  (total_pages idx : Z) (keys : list scan_key_of) (g : globals)
  : result globals :=
  match keys with
  | [] => Ok g
  | key :: keys' =>
      let '(subject, session, run) := key in
      files_info <- data_map_get key data_map ;;
      page <- build_html_page subject session run files_info phase idx
                total_pages g ;;
      let '(page_html, g) := page in
      build_pages phase data_map total_pages (idx + 1) keys'
        {| PAGES := PAGES g ++ [(page_html, idx)];
           FILE_MAP := FILE_MAP g;
           FILE_ID_COUNTER := FILE_ID_COUNTER g |}
  end.

(** [generate_in_memory_pages]: [tree] is the directory at [root_dir]. *)
Definition generate_in_memory_pages (root_dir : string) (tree : dir_tree)
  (phase : string) (g : globals) : result globals :=
  let data_map := collect (os_walk root_dir tree) in
  let sorted_keys := sorted_keys data_map in
  (* clear the globals *)
  let g := {| PAGES := []; FILE_MAP := []; FILE_ID_COUNTER := 0 |} in
  build_pages phase data_map (Z.of_nat (length sorted_keys)) 0 sorted_keys g.

End Pages.

End ReviewServer.


(* ================================================================== *)
(** * struct_pipeline_final.py: skull stripping and the final pass on one
      scan *)

Module FinalScan.

(** What a call of this file can raise: an exception of a library, or the
    NameError of a global name that the module does not define. *)
Inductive exception : Type :=
| Library (e : exn)
| NameError (name : string).

(** [str(e)] *)
Definition exception_str (e : exception) : string :=
  match e with
  | Library e => exn_str e
  | NameError name => ("name '" ++ name ++ "' is not defined")%string
  end.

Inductive outcome (A : Type) : Type :=
| Returned (a : A)
| Raised (e : exception).
Arguments Returned {A} a.
Arguments Raised {A} e.

Definition of_result {A : Type} (r : result A) : outcome A :=
  match r with
  | Ok a => Returned a
  | Raise e => Raised (Library e)
  end.

Inductive level : Type := INFO | WARNING | ERROR.

(** What the final pass does to the outside: the records of its logger,
    the commands it runs and the files it saves. *)
Inductive event : Type :=
| Logged (lvl : level) (text : string)
| System (cmd : string)
| Popen (cmd : string)
| SavedFigure (path : string)
| WroteCsv (path : string).

Definition M (A : Type) : Type := list event -> list event * outcome A.

Definition ret {A : Type} (a : A) : M A := fun tr => (tr, Returned a).

Definition raise {A : Type} (e : exception) : M A := fun tr => (tr, Raised e).

Definition bind {A B : Type} (m : M A) (k : A -> M B) : M B :=
  fun tr =>
    match m tr with
    | (tr', Returned a) => k a tr'
    | (tr', Raised e) => (tr', Raised e)
    end.

Definition emit (ev : event) : M unit := fun tr => (tr ++ [ev], Returned tt).

Definition log (lvl : level) (text : string) : M unit := emit (Logged lvl text).

(** A library call that returns or raises. *)
Definition call {A : Type} (r : result A) : M A := fun tr => (tr, of_result r).

(** [try: m except Exception as e: handler e] *)
Definition try_except {A : Type} (m : M A) (handler : exception -> M A) : M A :=
  fun tr =>
    match m tr with
    | (tr', Returned a) => (tr', Returned a)
    | (tr', Raised e) => handler e tr'
    end.

Declare Scope final_scope.
Delimit Scope final_scope with final.
Notation "x <~ m ;; k" := (bind m (fun x => k))
  (at level 61, m at next level, right associativity) : final_scope.
Notation "m ;;; k" := (bind m (fun _ => k))
  (at level 61, right associativity) : final_scope.
Local Open Scope final_scope.

(** The machine the pass runs on.  What a command or a test of the file
    system gives depends on what was done before it. *)
Record Host (T : Type) : Type := {
  (** [os.system(cmd)]: the exit status *)
  os_system : list event -> string -> result Z;
  (** [os.popen(cmd).read()] *)
  os_popen_read : list event -> string -> result string;
  (** [os.path.exists(path)] *)
  os_path_exists : list event -> string -> bool;
  (** [os.path.abspath(path)] *)
  os_path_abspath : string -> result string;
  (** the matplotlib body of [plot_slices] with its grid, ending in
      [savefig] *)
  plt_plot_grid :
    Numpy.ndarray3 T -> list Z -> string -> string -> Z -> Z -> result unit
}.
Arguments os_system {T} _ _ _.
Arguments os_popen_read {T} _ _ _.
Arguments os_path_exists {T} _ _ _.
Arguments os_path_abspath {T} _ _.
Arguments plt_plot_grid {T} _ _ _ _ _ _ _.

(** [p.rfind(c)], -1 when [c] does not occur in [p] *)
Fixpoint rfind (c : ascii) (p : string) : Z :=
  match p with
  | EmptyString => -1
  | String d p' =>
      let i := rfind c p' in
      if 0 <=? i then i + 1 else if Ascii.eqb d c then 0 else -1
  end.

Fixpoint all_dots (s : string) : bool :=
  match s with
  | EmptyString => true
  | String c s' => Ascii.eqb c "." && all_dots s'
  end.

(** [os.path.splitext(p)] on POSIX: the extension starts at the last dot
    of the last component, unless only dots come before it there. *)
Definition splitext (p : string) : string * string :=
  let sepIndex := rfind "/" p in
  let dotIndex := rfind "." p in
  if sepIndex <? dotIndex
  then
    let filenameIndex := sepIndex + 1 in
    if negb (all_dots (String.substring (Z.to_nat filenameIndex)
                         (Z.to_nat (dotIndex - filenameIndex)) p))
    then (String.substring 0 (Z.to_nat dotIndex) p,
          String.substring (Z.to_nat dotIndex)
            (String.length p - Z.to_nat dotIndex) p)
    else (p, EmptyString)
  else (p, EmptyString).

(** [os.path.splitext(os.path.splitext(p)[0])[0]] *)
Definition base_no_ext (p : string) : string :=
  fst (splitext (fst (splitext p))).

Definition check_cmd : string := "docker images -q freesurfer/synthstrip:latest".

Definition pull_cmd : string :=
  "docker pull --platform linux/amd64 freesurfer/synthstrip:latest".

(** The command of [process_skull_stripping]. *)
Definition run_cmd (parent_dir filename stripped_filename : string) : string :=
  String.concat ""
    [nl; "        docker run --platform linux/amd64         -v "; dquote;
     parent_dir; dquote;
     ":/data         freesurfer/synthstrip:latest         -i /data/";
     filename; "         -o /data/"; stripped_filename; nl; "        "].

Section Pipeline.
Context {T : Type} `{Numpy.Scalar T}.
Variable env : Env T.
Variable host : Host T.

Definition system (cmd : string) : M Z :=
  fun tr => (tr ++ [System cmd], of_result (os_system host tr cmd)).

Definition popen_read (cmd : string) : M string :=
  fun tr => (tr ++ [Popen cmd], of_result (os_popen_read host tr cmd)).

Definition path_exists (path : string) : M bool :=
  fun tr => (tr, Returned (os_path_exists host tr path)).

Definition ensure_docker_image : M bool :=
  try_except
    (status <~ system check_cmd ;;
     image_exists <~
       (if status =? 0
        then out <~ popen_read check_cmd ;;
             ret (negb (String.eqb (Str.strip out) ""))
        else ret false) ;;
     if negb image_exists
     then
       log INFO
         "SynthStrip Docker image not found locally. Pulling from Docker Hub..." ;;;
       status <~ system pull_cmd ;;
       if negb (status =? 0)
       then log ERROR "Failed to pull SynthStrip Docker image" ;;; ret false
       else log INFO "Successfully pulled SynthStrip Docker image" ;;; ret true
     else ret true)
    (fun e =>
       log ERROR ("Error checking/pulling Docker image: " ++ exception_str e) ;;;
       ret false).

(** The path of the skull-stripped file, [None] on an error. *)
Definition process_skull_stripping (filepath : string) : M (option string) :=
  try_except
    (available <~ ensure_docker_image ;;
     if negb available
     then log ERROR "Could not ensure Docker image availability" ;;; ret None
     else
       let base_no_ext := base_no_ext filepath in
       let output_path := (base_no_ext ++ "_skullstripped.nii.gz")%string in
       abs_filepath <~ call (os_path_abspath host filepath) ;;
       let parent_dir := OsPath.dirname abs_filepath in
       let filename := OsPath.basename abs_filepath in
       let stripped_filename := OsPath.basename output_path in
       let cmd := run_cmd parent_dir filename stripped_filename in
       log INFO ("Running SynthStrip on " ++ filepath ++ "...") ;;;
       exit_code <~ system cmd ;;
       if negb (exit_code =? 0)
       then
         log ERROR ("Skull stripping failed with exit code "
                    ++ ReviewServer.str_of_Z exit_code) ;;;
         ret None
       else ret (Some output_path))
    (fun e =>
       log ERROR ("process_skull_stripping failed for " ++ filepath ++ ": "
                  ++ exception_str e) ;;;
       ret None).

Definition plot_slices (data : Numpy.ndarray3 T) (slice_indices : list Z)
  (output_path title : string) (nrows ncols : Z) : M unit :=
  call (plt_plot_grid host data slice_indices output_path title nrows ncols) ;;;
  emit (SavedFigure output_path).

(** The statistics dictionary, or [None] for the empty dictionary. *)
Definition analyze_nifti (filepath : string) : M (option (stats T)) :=
  try_except
    (data <~ call (nib_load env filepath) ;;
     st <~ call (np_statistics env data) ;;
     ret (Some st))
    (fun e =>
       log ERROR ("analyze_nifti failed for " ++ filepath ++ ": "
                  ++ exception_str e) ;;;
       ret None).

Definition create_density_plot_and_save (data : Numpy.ndarray3 T)
  (output_path title : string) : M unit :=
  call (sns_density_plot env data output_path title) ;;;
  emit (SavedFigure output_path).

(** The name of the skull-stripped file of a scan, as step 1 of
    [process_scan_final] forms it. *)
Definition stripped_filename (filepath : string) : string :=
  (base_no_ext (OsPath.basename filepath) ++ "_skullstripped.nii.gz")%string.

(** Step 1 of [process_scan_final]: the skull-stripped file to go on with,
    [None] where the function returns. *)
Definition find_or_strip (filepath : string) : M (option string) :=
  let stripped_filename := stripped_filename filepath in
  let stripped_path := OsPath.join (OsPath.dirname filepath) stripped_filename in
  found <~ path_exists stripped_path ;;
  if found
  then
    log INFO ("Found existing skull-stripped file: " ++ stripped_path) ;;;
    ret (Some stripped_path)
  else
    available <~ ensure_docker_image ;;
    if negb available
    then
      log ERROR "Could not ensure Docker image availability. Skipping." ;;;
      ret None
    else
      log INFO ("No skull-stripped file found. Running skull stripping on "
                ++ filepath ++ "...") ;;;
      result_path <~ process_skull_stripping filepath ;;
      produced <~
        match result_path with
        | Some (String c p) => path_exists (String c p)
        | _ => ret false
        end ;;
      if negb produced
      then
        log WARNING ("No skull-stripped file produced for " ++ filepath
                     ++ ". Skipping further analysis.") ;;;
        ret None
      else ret result_path.

(** [process_scan_final].  The module defines no [ensure_results_dir] and
    imports none, so the call of that name in step 3 raises NameError. *)
Definition process_scan_final (bids_root filepath : string) (num_slices : Z)
  : M unit :=
  let base_no_ext := base_no_ext (OsPath.basename filepath) in
  log INFO ("[Final QC] Processing " ++ filepath ++ " ...") ;;;
  (* 1) the skull-stripped file *)
  stripped <~ find_or_strip filepath ;;
  match stripped with
  | None => ret tt
  | Some stripped_path =>
      (* 2) load the stripped data and find the slices *)
      stripped_data <~ call (nib_load env stripped_path) ;;
      slice_indices <~
        call (Final.find_slices_of_interest stripped_data num_slices) ;;
      (* 3) plot and save *)
      results_dir <~ raise (NameError "ensure_results_dir") ;;
      let stripped_png :=
        OsPath.join results_dir
          (base_no_ext ++ "_skullstripped_slices.png")%string in
      let original_png :=
        OsPath.join results_dir (base_no_ext ++ "_original_slices.png")%string in
      plot_slices stripped_data slice_indices stripped_png
        (base_no_ext ++ " - Skull Stripped")%string 2 5 ;;;
      original_data <~ call (nib_load env filepath) ;;
      plot_slices original_data slice_indices original_png
        (base_no_ext ++ " - Original")%string 2 5 ;;;
      (* 4) statistics and density of the original *)
      intensity_stats <~ analyze_nifti filepath ;;
      match intensity_stats with
      | Some st =>
          let stats_csv_path :=
            OsPath.join results_dir (base_no_ext ++ "_stats.csv")%string in
          call (pd_to_csv env st stats_csv_path) ;;;
          emit (WroteCsv stats_csv_path) ;;;
          let density_svg_path :=
            OsPath.join results_dir (base_no_ext ++ "_density.svg")%string in
          create_density_plot_and_save original_data density_svg_path
            ("Density Plot - " ++ base_no_ext)%string
      | None => ret tt
      end ;;;
      log INFO ("[Final QC] Finished processing " ++ filepath ++ "." ++ nl)
  end.

End Pipeline.

End FinalScan.

(* ================================================================== *)
(** * Specification-side definitions *)

(** ** Slice selection *)

(** The product at index [i] of [np.linspace(start, stop, num)], as the
    vectorised operations of [Numpy.linspace] leave it before [start] is
    added. *)
Definition product_at (start stop num i : Z) : Q :=
  let div := num - 1 in
  let delta := Float64.sub (Float64.of_int stop) (Float64.of_int start) in
  let v := Float64.of_int i in
  if 0 <? div
  then
    let step := Float64.div delta (Float64.of_int div) in
    if Qeq_bool step 0
    then Float64.mul (Float64.div v (Float64.of_int div)) delta
    else Float64.mul v step
  else Float64.mul v delta.

(** Sample [i] of [np.linspace(start, stop, num, dtype=int)], before the
    last sample is overwritten. *)
Definition sample_at (start stop num i : Z) : Z :=
  Float64.to_int
    (Float64.floor
       (Float64.add (product_at start stop num i) (Float64.of_int start))).

(** The samples: [sample_at] below the last index, [stop] at the last. *)
Definition samples (start stop num : Z) : list Z :=
  if 1 <? num
  then map (sample_at start stop num) (Numpy.arange (num - 1)) ++
       [Float64.to_int (Float64.floor (Float64.of_int stop))]
  else map (sample_at start stop num) (Numpy.arange num).

(** A small volume with its brightest slice at z = 120. *)
Definition vol_example : Numpy.ndarray3 Z :=
  {| Numpy.shape0 := 2; Numpy.shape1 := 2; Numpy.shape2 := 200;
     Numpy.item := fun i j k =>
       if (Z.of_nat k =? 120) then 9 else Z.of_nat (i + j);
     Numpy.shape2_fits := eq_refl |}.

(** A column of [z_size] voxels, dark but for the voxel at [bright]. *)
Definition column (z_size bright : nat)
  (fits : Z.of_nat z_size < 2 ^ 48) : Numpy.ndarray3 Z :=
  {| Numpy.shape0 := 1; Numpy.shape1 := 1; Numpy.shape2 := z_size;
     Numpy.item := fun _ _ k => if Nat.eqb k bright then 1 else 0;
     Numpy.shape2_fits := fits |}.


(** 431 slices, the brightest in the middle, at z = 215: the window of 43
    slices is [0, 430], not clamped. *)
Definition vol_431 : Numpy.ndarray3 Z := column 431 215 eq_refl.

(** A float64 intensity: a number or NaN (the infinities are left out). *)
Inductive voxel : Type :=
| Finite (q : Q)
| NaN.

#[export] Instance Scalar_voxel : Numpy.Scalar voxel := {|
  Numpy.zero := Finite 0;
  Numpy.add := fun a b =>
    match a, b with
    | Finite x, Finite y => Finite (Float64.add x y)
    | _, _ => NaN
    end;
  Numpy.le := fun a b =>
    match a, b with
    | Finite x, Finite y => Qle_bool x y
    | _, _ => false
    end;
  Numpy.isnan := fun a => match a with NaN => true | Finite _ => false end
|}.


Section SliceSelectionSpec.
Context {T : Type} `{Numpy.Scalar T}.

(** [f 0 + ... + f (n - 1)], added from the left. *)
Fixpoint sum_below (f : nat -> T) (n : nat) : T :=
  match n with
  | O => Numpy.zero
  | S k => Numpy.add (sum_below f k) (f k)
  end.

(** Step 1: the sum of the intensities of slice [z], over x and y. *)
Definition slice_sum (data : Numpy.ndarray3 T) (z : nat) : T :=
  sum_below
    (fun x => sum_below (fun y => Numpy.item data x y z) (Numpy.shape1 data))
    (Numpy.shape0 data).

(** Step 2: [best] indexes a maximal sum and no earlier index reaches it. *)
Definition first_maximum (sums : nat -> T) (n best : nat) : Prop :=
  (best < n)%nat /\
  (forall j, (j < n)%nat -> Numpy.le (sums j) (sums best) = true) /\
  (forall j, (j < best)%nat -> Numpy.le (sums best) (sums j) = false).



End SliceSelectionSpec.









(** ** Scan keys *)

Fixpoint all_chars (p : ascii -> bool) (s : string) : bool :=
  match s with
  | EmptyString => true
  | String c s' => p c && all_chars p s'
  end.

Fixpoint lower_string (s : string) : string :=
  match s with
  | EmptyString => EmptyString
  | String c s' => String (Str.lower c) (lower_string s')
  end.

(** [seg] is the literal [lit], in any case, followed by a token: a
    non-empty run of characters other than the separator [_]. *)
Definition is_segment (lit seg : string) : Prop :=
  exists p tok,
    seg = (p ++ tok)%string /\ lower_string p = lit /\
    tok <> EmptyString /\ all_chars GenerateHtml.not_underscore tok = true.

(** A token ends where the name ends or at a separator. *)
Definition token_end (rest : string) : Prop :=
  rest = EmptyString \/ exists r, rest = String "_" r.

(** A subject segment starts somewhere in [fname]. *)
Definition has_subject_segment (fname : string) : Prop :=
  exists pre seg rest,
    fname = (pre ++ seg ++ rest)%string /\ is_segment "sub-" seg.

(** A [lit] segment starts at the head of [s]. *)
Definition segment_at_head (lit s : string) : Prop :=
  exists seg rest, s = (seg ++ rest)%string /\ is_segment lit seg.

(** [s] is the separator and the [lit] segment [seg], whose token runs up to
    the next separator or to the end of the name, and then [rest]. *)
Definition follows (lit seg s rest : string) : Prop :=
  s = ("_" ++ seg ++ rest)%string /\ is_segment lit seg /\ token_end rest.

(** No [lit] segment follows: [s] is not the separator and a [lit]
    segment. *)
Definition none_follows (lit s : string) : Prop :=
  ~ exists r, s = String "_" r /\ segment_at_head lit r.

(** [sub] is the first subject segment of [fname]: it stands behind [pre],
    its token runs up to the next separator or to the end, and no subject
    segment starts within [pre]. *)
Definition first_subject (fname pre sub rest : string) : Prop :=
  fname = (pre ++ sub ++ rest)%string /\
  is_segment "sub-" sub /\ token_end rest /\
  (forall a b, pre = (a ++ b)%string -> b <> EmptyString ->
     ~ segment_at_head "sub-" (b ++ sub ++ rest)).

(** The key of a file name as the specification words it: the first
    subject segment; the session segment that follows it, else ses-01; the
    run segment that follows these, else the empty string. *)
Definition key_of_name (fname : string) (key : string * string * string)
  : Prop :=
  let '(sub, ses, run) := key in
  exists pre r1 r2 r3,
    first_subject fname pre sub r1 /\
    (follows "ses-" ses r1 r2 \/
     (none_follows "ses-" r1 /\ ses = "ses-01" /\ r2 = r1)) /\
    (follows "run-" run r2 r3 \/
     (none_follows "run-" r2 /\ run = EmptyString /\ r3 = r2)).

(** A character other than s and S: no match of the pattern starts there. *)
Definition not_s (c : ascii) : bool := negb (Ascii.eqb (Str.lower c) "s").

(** ** The numeric sort key *)

Definition not_digit (c : ascii) : bool := negb (Str.isdigit c).

(** The first run of digits found in [token], as an integer; 0 when there
    is none. *)
Definition first_digit_run (token : string) : Z :=
  Str.int (Str.take_while Str.isdigit (Str.drop_while not_digit token)).

(** The key as the specification words it: the first run of digits of each
    of the three tokens. *)
Definition token_digits_key (k : GenerateHtml.scan_key_of) : Z * Z * Z :=
  let '(subject, session, run) := k in
  (first_digit_run subject, first_digit_run session, first_digit_run run).

(** Lexicographic order on 3-tuples. *)
Definition lex_le (a b : Z * Z * Z) : Prop :=
  let '(a1, a2, a3) := a in
  let '(b1, b2, b3) := b in
  a1 < b1 \/ (a1 = b1 /\ (a2 < b2 \/ (a2 = b2 /\ a3 <= b3))).

(** Two statistics files as [os.walk] reports them. *)
Definition walk_example : list (string * list string * list string) :=
  [("/results", [], ["sub-1sub-2_stats.csv"; "sub-5_stats.csv"])].

(** ** The review ledger *)

(** The file of a ledger: its rows, none when the file does not exist. *)
Definition ledger_rows (file : option (list GenerateHtml.row)) : list GenerateHtml.row :=
  match file with Some rows => rows | None => [] end.

(** The entries of a ledger under the key [k], and the others. *)
Definition entries_for (k : string) (rows : list GenerateHtml.row)
  : list GenerateHtml.row :=
  filter (fun r => String.eqb (GenerateHtml.filename r) k) rows.

Definition entries_besides (k : string) (rows : list GenerateHtml.row)
  : list GenerateHtml.row :=
  filter (fun r => negb (String.eqb (GenerateHtml.filename r) k)) rows.

Definition entry (k st nt : string) : GenerateHtml.row :=
  {| GenerateHtml.filename := k; GenerateHtml.status := st;
     GenerateHtml.notes := nt |}.

(** ** Statistics records *)

(** The lines of a statistics record: the lines of the file, stripped, that
    are not empty. *)
Definition record_lines (raw : list string) : list string :=
  filter (fun line => negb (String.eqb line "")) (map Str.strip raw).

(** Every field of [row] is read as a number by [float]. *)
Definition numeric_row (float_ok : string -> bool) (row : string) : Prop :=
  Forall (fun v => float_ok v = true) (Str.split "," row).

(** The line that the renderers show: of the lines of the record the second
    when all its fields are numbers (the first is then a header), else the
    first. *)
Definition data_row (float_ok : string -> bool) (raw : list string)
  : option string :=
  match record_lines raw with
  | [] => None
  | [l0] => Some l0
  | l0 :: l1 :: _ =>
      if forallb float_ok (Str.split "," l1) then Some l1 else Some l0
  end.

(** The number of comma-separated columns of a row. *)
Definition columns (row : string) : nat := length (Str.split "," row).

(** Python's [float] on the fields of the examples: decimal digits only. *)
Definition float_ok_digits (v : string) : bool :=
  negb (String.eqb v "") && all_chars Str.isdigit v.

(** ** Traversals *)

(** The scans of one directory that a traversal hands on: none when the
    path of the directory contains "results". *)
Definition dir_targets (scan_type : string)
  (entry : string * list string * list string) : list string :=
  let '(root, _, files) := entry in
  if Str.contains "results" root then []
  else map (OsPath.join root) (filter (is_scan_file scan_type) files).

Definition scan_targets (bids_root : string) (tree : dir_tree)
  (scan_type : string) : list string :=
  flat_map (dir_targets scan_type) (os_walk bids_root tree).

(** The names of a directory listing hold no slash. *)
Fixpoint wf_tree (t : dir_tree) : bool :=
  match t with
  | Dir _ _ subdirs =>
      forallb (fun d => negb (Str.contains "/" (dir_name d)) && wf_tree d) subdirs
  end.

(** Two computations with the same effect on every trace. *)
Definition same_effect {A : Type} (m1 m2 : M A) : Prop :=
  forall tr, m1 tr = m2 tr.

(** [os.path.relpath] for a path below [start]. *)
Definition relpath_below (path start : string) : string :=
  String.substring (String.length start + 1)
    (String.length path - String.length start - 1) path.

(** An environment in which no volume can be loaded. *)
Definition env_unreadable : Env Z :=
  {| nib_load := fun _ => Raise (OSError "cannot load");
     np_statistics := fun _ =>
       Ok {| st_mean := 0; st_median := 0; st_max := 0; st_min := 0; st_std := 0 |};
     os_path_relpath := relpath_below;
     os_makedirs := fun _ => Ok tt;
     plt_plot_slices := fun _ _ _ _ => Ok tt;
     sns_density_plot := fun _ _ _ => Ok tt;
     pd_to_csv := fun _ _ => Ok tt;
     pd_read_accepted := fun _ => Ok [];
     run_process_scan_final := fun _ _ _ => ret tt |}.

(** An environment in which every volume loads as [vol_example] and the
    computation of its statistics raises. *)
Definition env_no_statistics : Env Z :=
  {| nib_load := fun _ => Ok vol_example;
     np_statistics := fun _ => Raise (ValueError "no statistics");
     os_path_relpath := relpath_below;
     os_makedirs := fun _ => Ok tt;
     plt_plot_slices := fun _ _ _ _ => Ok tt;
     sns_density_plot := fun _ _ _ => Ok tt;
     pd_to_csv := fun _ _ => Ok tt;
     pd_read_accepted := fun _ => Ok [];
     run_process_scan_final := fun _ _ _ => ret tt |}.

(** A data set of two scans. *)
Definition tree_two_scans : dir_tree :=
  Dir "data" []
    [Dir "sub-01" ["sub-01_T1w.nii.gz"] [];
     Dir "sub-02" ["sub-02_T1w.nii.gz"] []].

(** A data set with a sub-directory whose name contains "results". *)
Definition tree_results_named : dir_tree :=
  Dir "data" ["sub-03_T1w.nii"]
    [Dir "sub-01_results_old" ["sub-01_T1w.nii.gz"]
       [Dir "anat" ["sub-01_acq-2_T1w.nii.gz"] []];
     Dir "sub-02" ["sub-02_T1w.nii.gz"] []].

(* ================================================================== *)
(** * Further specification-side definitions *)

(** [s] is the text [lit] followed by one or more decimal digits. *)
Definition is_numbered (lit s : string) : Prop :=
  exists d, s = (lit ++ d)%string /\ d <> EmptyString /\
            all_chars Str.isdigit d = true.

(** The text sub- directly followed by a digit occurs in [name]. *)
Definition has_numbered_subject (name : string) : Prop :=
  exists pre c rest,
    name = (pre ++ "sub-" ++ String c rest)%string /\ Str.isdigit c = true.

(** ** Grouping *)

(** The test [any(x in fname for x in [...])] of the grouping loop. *)
Definition is_relevant (fname : string) : bool :=
  existsb (fun x => Str.contains x fname) GenerateHtml.relevant_suffixes.

(** The file [fname] is listed in the directory [dirpath] of the walk. *)
Definition seen_in (walk : list (string * list string * list string))
  (dirpath fname : string) : Prop :=
  exists dirs files, In (dirpath, dirs, files) walk /\ In fname files.

(** A slot that is filled names a file of the walk whose key is [k] and
    whose name ends in [suffix]. *)
Definition slot_holds (seen : string -> string -> Prop)
  (k : GenerateHtml.scan_key_of) (suffix : string) (slot : option string)
  : Prop :=
  forall p, slot = Some p ->
    exists dirpath fname,
      seen dirpath fname /\ p = OsPath.join dirpath fname /\
      GenerateHtml.scan_key fname = Some k /\ Str.endswith fname suffix = true.

Definition entry_ok (seen : string -> string -> Prop)
  (kv : GenerateHtml.scan_key_of * GenerateHtml.slots) : Prop :=
  (exists dirpath fname,
     seen dirpath fname /\ is_relevant fname = true /\
     GenerateHtml.scan_key fname = Some (fst kv)) /\
  slot_holds seen (fst kv) "_original_slices.png" (GenerateHtml.orig (snd kv)) /\
  slot_holds seen (fst kv) "_skullstripped_slices.png" (GenerateHtml.strip (snd kv)) /\
  slot_holds seen (fst kv) "_density.svg" (GenerateHtml.dens (snd kv)) /\
  slot_holds seen (fst kv) "_stats.csv" (GenerateHtml.stats (snd kv)).

Definition data_map_ok (seen : string -> string -> Prop)
  (m : GenerateHtml.data_map_of) : Prop :=
  NoDup (map fst m) /\ Forall (entry_ok seen) m.

(** ** The review server *)

(** The ids 0, 1, ..., n - 1. *)
Definition ids_upto (n : nat) : list Z := map Z.of_nat (seq 0 n).

(** The file ids in use are exactly those below the counter, in order. *)
Definition file_map_ok (g : ReviewServer.globals) : Prop :=
  map fst (ReviewServer.FILE_MAP g)
    = ids_upto (length (ReviewServer.FILE_MAP g)) /\
  ReviewServer.FILE_ID_COUNTER g
    = Z.of_nat (length (ReviewServer.FILE_MAP g)).

(** The path in a slot, if the slot is filled. *)
Definition filled (slot : option string) : list string :=
  match slot with
  | Some (String c p) => [String c p]
  | _ => []
  end.

(** The files a page registers for serving, in the order of registration. *)
Definition page_files (s : GenerateHtml.slots) : list string :=
  filled (GenerateHtml.orig s) ++ filled (GenerateHtml.strip s)
  ++ filled (GenerateHtml.dens s).

(** [store_file] on each of [paths] in turn. *)
Definition register (g : ReviewServer.globals) (paths : list string)
  : ReviewServer.globals :=
  fold_left (fun g p => snd (ReviewServer.store_file g p)) paths g.

(** The slots of [key] in [data_map], empty when the key is missing. *)
Definition slots_at (data_map : GenerateHtml.data_map_of)
  (key : GenerateHtml.scan_key_of) : GenerateHtml.slots :=
  match ReviewServer.data_map_get key data_map with
  | Ok s => s
  | Raise _ => GenerateHtml.empty_slots
  end.

(** Every field of every row of a ledger is filled in. *)
Definition rows_keyed (rows : list GenerateHtml.row) : Prop :=
  Forall (fun r => GenerateHtml.filename r <> EmptyString /\
                   GenerateHtml.status r <> EmptyString) rows.

(** The file names of a directory listing hold no slash. *)
Definition file_names_ok (walk : list (string * list string * list string))
  : Prop :=
  forall d dirs files f,
    In (d, dirs, files) walk -> In f files -> Str.contains "/" f = false.

(** ** The final pass on one scan *)

(** Events that save no file: records of the logger and commands. *)
Definition saves_nothing (evs : list FinalScan.event) : Prop :=
  Forall (fun ev =>
            match ev with
            | FinalScan.SavedFigure _ | FinalScan.WroteCsv _ => False
            | _ => True
            end) evs.

(** The last of [evs] is an error record of the logger. *)
Definition ends_in_error (evs : list FinalScan.event) : Prop :=
  exists evs' text, evs = evs' ++ [FinalScan.Logged FinalScan.ERROR text].

(** The last of [evs] is one of the two records with which
    [process_scan_final] gives up a scan. *)
Definition ends_in_skip (filepath : string) (evs : list FinalScan.event)
  : Prop :=
  exists evs',
    evs = evs' ++ [FinalScan.Logged FinalScan.ERROR
                     "Could not ensure Docker image availability. Skipping."]
    \/ evs = evs' ++ [FinalScan.Logged FinalScan.WARNING
                        ("No skull-stripped file produced for " ++ filepath
                         ++ ". Skipping further analysis.")].

(** A machine on which docker succeeds and every file asked for is
    there. *)
Definition host_all_present : FinalScan.Host Z :=
  {| FinalScan.os_system := fun _ _ => Ok 0;
     FinalScan.os_popen_read := fun _ _ => Ok "sha256";
     FinalScan.os_path_exists := fun _ _ => true;
     FinalScan.os_path_abspath := fun p => Ok p;
     FinalScan.plt_plot_grid := fun _ _ _ _ _ _ => Ok tt |}.

(** ** The static reports *)

(** The numbers of a key (sub-<digits>, ses-<digits>). *)
Definition key_numbers (k : ReportGenerator.key_of) : Z * Z :=
  (first_digit_run (fst k), first_digit_run (snd k)).

Definition pair_le (a b : Z * Z) : Prop :=
  fst a < fst b \/ (fst a = fst b /\ snd a <= snd b).

(** No file name of the walk is longer than [n]. *)
Definition names_at_most (n : nat)
  (walk : list (string * list string * list string)) : Prop :=
  forall d dirs files f,
    In (d, dirs, files) walk -> In f files -> (String.length f <= n)%nat.

(** The key of a file of the walk, as the report generator reads it. *)
Definition key_in_walk (walk : list (string * list string * list string))
  (key : ReportGenerator.key_of) : Prop :=
  exists d dirs files f,
    In (d, dirs, files) walk /\ In f files /\
    Final.extract_sub_ses (OsPath.join d f) = Some key.

(** The paths written, in order. *)
Definition written (tr : list ReportGenerator.output) : list string :=
  flat_map (fun o =>
              match o with
              | ReportGenerator.Wrote p _ => [p]
              | ReportGenerator.Printed _ => []
              end) tr.

(** A variable of the loop that is set holds the path of a file of the
    directory. *)
Definition from_dir (dirpath : string) (filenames : list string)
  (o : option string) : Prop :=
  forall p, o = Some p -> exists f, In f filenames /\ p = OsPath.join dirpath f.


(** Result files of three subjects, one of them with two sessions. *)
Definition tree_reports : dir_tree :=
  Dir "results" ["junk.txt"]
    [Dir "sub-02" ["sub-02_T1w_original_slices.png"; "sub-02_T1w_stats.csv"] [];
     Dir "sub-01" []
       [Dir "ses-02" ["sub-01_ses-02_T1w_density.svg"] [];
        Dir "ses-01" ["sub-01_ses-01_T1w_density.svg"] []];
     Dir "sub-10" ["sub-10_T1w_original_slices.png"] []].

(** [html] is the page of [key] built for position [page_id] of
    [total_pages]: the text of the page with the navigation of that
    position and the ledger key of the slots of [key]. *)
Definition shows_key (phase : string) (total_pages : Z)
  (data_map : GenerateHtml.data_map_of) (key : GenerateHtml.scan_key_of)
  (page_id : Z) (html : string) : Prop :=
  exists orig_html strip_html dens_html stats_html,
    html = ReviewServer.page_text (fst (fst key)) (snd (fst key)) (snd key) phase
             (ReviewServer.prev_link page_id)
             (ReviewServer.next_link page_id total_pages)
             orig_html strip_html dens_html stats_html
             (ReviewServer.csv_filename_key (fst (fst key)) (snd (fst key))
                (snd key) (slots_at data_map key)).

(* ================================================================== *)
(** * Facts about float64 rounding *)

Section Float64Facts.
Import Float64.
Local Open Scope Q_scope.

Lemma pow2_pos (e : Z) : 0 < pow2 e.
Proof. apply Qpower_0_lt. reflexivity. Qed.

Lemma pow2_plus (a b : Z) : pow2 (a + b) == pow2 a * pow2 b.
Proof. apply Qpower_plus. discriminate. Qed.

Lemma pow2_succ (a : Z) : pow2 (a + 1) == 2 * pow2 a.
Proof. rewrite pow2_plus. unfold pow2 at 2. rewrite Qpower_1_r. ring. Qed.

Lemma pow2_pred (a : Z) : pow2 a == 2 * pow2 (a - 1).
Proof. rewrite <- pow2_succ. replace (a - 1 + 1)%Z with a by lia. reflexivity. Qed.

Lemma pow2_le (a b : Z) : (a <= b)%Z -> pow2 a <= pow2 b.
Proof. intros H. apply Qpower_le_compat_l; [exact H | discriminate]. Qed.

Lemma pow2_lt (a b : Z) : (a < b)%Z -> pow2 a < pow2 b.
Proof. intros H. apply Qpower_lt_compat_l; [exact H | reflexivity]. Qed.

Lemma pow2_lt_inv (a b : Z) : pow2 a < pow2 b -> (a < b)%Z.
Proof. intros H. eapply Qpower_lt_compat_l_inv; [exact H | reflexivity]. Qed.

Lemma pow2_Z (e : Z) : (0 <= e)%Z -> pow2 e == inject_Z (2 ^ e).
Proof. intros H. unfold pow2. rewrite Zpower_Qpower by exact H. reflexivity. Qed.

Lemma pow2_minus (a b : Z) : pow2 (a - b) == pow2 a / pow2 b.
Proof. apply Qpower_minus. discriminate. Qed.

Lemma ilog2_spec (q : Q) :
  0 < q -> pow2 (ilog2 q) <= q /\ q < pow2 (ilog2 q + 1).
Proof.
  intros Hq. unfold ilog2.
  destruct q as [n d]. cbn [Qnum Qden].
  assert (Hn : (0 < n)%Z) by (unfold Qlt in Hq; simpl in Hq; lia).
  set (a := Z.log2 n). set (b := Z.log2 (Z.pos d)).
  destruct (Z.log2_spec n Hn) as [Ha1 Ha2]. fold a in Ha1, Ha2.
  destruct (Z.log2_spec (Z.pos d) ltac:(lia)) as [Hb1 Hb2]. fold b in Hb1, Hb2.
  assert (Ha0 : (0 <= a)%Z) by apply Z.log2_nonneg.
  assert (Hb0 : (0 <= b)%Z) by apply Z.log2_nonneg.
  assert (EA : pow2 a == inject_Z (2 ^ a)) by (apply pow2_Z; lia).
  assert (EB : pow2 b == inject_Z (2 ^ b)) by (apply pow2_Z; lia).
  assert (Eq : n # d == inject_Z n / inject_Z (Z.pos d)) by apply Qmake_Qdiv.
  assert (HN1 : pow2 a <= inject_Z n) by (rewrite EA, <- Zle_Qle; lia).
  assert (HN2 : inject_Z n < 2 * pow2 a).
  { rewrite <- pow2_succ, pow2_Z by lia. rewrite <- Zlt_Qlt.
    replace (a + 1)%Z with (Z.succ a) by lia. lia. }
  assert (HD1 : pow2 b <= inject_Z (Z.pos d)) by (rewrite EB, <- Zle_Qle; lia).
  assert (HD2 : inject_Z (Z.pos d) < 2 * pow2 b).
  { rewrite <- pow2_succ, pow2_Z by lia. rewrite <- Zlt_Qlt.
    replace (b + 1)%Z with (Z.succ b) by lia. lia. }
  pose proof (pow2_pos a) as PA. pose proof (pow2_pos b) as PB.
  assert (PD : 0 < inject_Z (Z.pos d)) by (change 0 with (inject_Z 0); rewrite <- Zlt_Qlt; lia).
  assert (Ek : pow2 (a - b) == pow2 a / pow2 b) by apply pow2_minus.
  assert (Hlow : pow2 (a - b - 1) <= n # d).
  { rewrite Eq. apply Qle_shift_div_l; [exact PD|].
    assert (E1 : pow2 (a - b) == 2 * pow2 (a - b - 1)) by apply pow2_pred.
    assert (E2 : pow2 (a - b - 1) * pow2 b * 2 == pow2 a).
    { rewrite (Qmult_comm _ 2), Qmult_assoc, <- E1, Ek. field.
      intros E. rewrite E in PB. discriminate. }
    set (X := pow2 (a - b - 1)) in *.
    assert (PX : 0 < X) by apply pow2_pos.
    nra. }
  assert (Hhigh : n # d < pow2 (a - b + 1)).
  { rewrite Eq. apply Qlt_shift_div_r; [exact PD|].
    rewrite pow2_succ, Ek.
    assert (E2 : 2 * (pow2 a / pow2 b) * inject_Z (Z.pos d) ==
                 2 * pow2 a * (inject_Z (Z.pos d) / pow2 b)).
    { field. intros E. rewrite E in PB. discriminate. }
    rewrite E2.
    assert (H1 : 1 <= inject_Z (Z.pos d) / pow2 b).
    { apply Qle_shift_div_l; [exact PB | lra]. }
    nra. }
  destruct (Qle_bool (pow2 (a - b)) (n # d)) eqn:E.
  - apply Qle_bool_iff in E. split; [exact E | exact Hhigh].
  - split; [exact Hlow|].
    replace (a - b - 1 + 1)%Z with (a - b)%Z by lia.
    apply Qnot_le_lt. intros H. apply Qle_bool_iff in H. congruence.
Qed.

Lemma ilog2_unique (q : Q) (k : Z) :
  pow2 k <= q -> q < pow2 (k + 1) -> ilog2 q = k.
Proof.
  intros H1 H2.
  assert (Hq : 0 < q) by (pose proof (pow2_pos k); lra).
  destruct (ilog2_spec q Hq) as [H3 H4].
  assert (A : (k < ilog2 q + 1)%Z) by (apply pow2_lt_inv; lra).
  assert (B : (ilog2 q < k + 1)%Z) by (apply pow2_lt_inv; lra).
  lia.
Qed.

Lemma ilog2_comp (q q' : Q) : 0 < q -> q == q' -> ilog2 q = ilog2 q'.
Proof.
  intros Hq E. symmetry. apply ilog2_unique; rewrite <- E; apply ilog2_spec; exact Hq.
Qed.

(** ** Rounding to the nearest integer *)

Lemma rne_comp (q q' : Q) : q == q' -> rne q = rne q'.
Proof.
  intros E. unfold rne. rewrite (Qfloor_comp _ _ E).
  assert (E' : q - inject_Z (Qfloor q') == q' - inject_Z (Qfloor q')) by (rewrite E; reflexivity).
  rewrite (Qcompare_comp _ _ E' (1#2) (1#2) (Qeq_refl _)). reflexivity.
Qed.

Lemma Qfloor_bounds (q : Q) : inject_Z (Qfloor q) <= q /\ q < inject_Z (Qfloor q) + 1.
Proof.
  split; [apply Qfloor_le|].
  pose proof (Qlt_floor q) as H. rewrite inject_Z_plus in H. exact H.
Qed.

Lemma rne_cases (q : Q) :
  (rne q = Qfloor q /\ q - inject_Z (Qfloor q) <= 1 # 2) \/
  (rne q = (Qfloor q + 1)%Z /\ 1 # 2 <= q - inject_Z (Qfloor q)).
Proof.
  unfold rne. destruct (Qcompare_spec (q - inject_Z (Qfloor q)) (1 # 2)) as [E|E|E].
  - destruct (Z.even (Qfloor q)); [left | right]; split; try reflexivity; rewrite E; apply Qle_refl.
  - left. split; [reflexivity | lra].
  - right. split; [reflexivity | lra].
Qed.

Lemma rne_error (q : Q) : q - (1 # 2) <= inject_Z (rne q) /\ inject_Z (rne q) <= q + (1 # 2).
Proof.
  destruct (Qfloor_bounds q) as [H1 H2].
  destruct (rne_cases q) as [[-> H]|[-> H]].
  - split; lra.
  - rewrite inject_Z_plus. change (inject_Z 1) with 1. split; lra.
Qed.

Lemma rne_Z (z : Z) : rne (inject_Z z) = z.
Proof.
  unfold rne. rewrite Qfloor_Z.
  assert (E : inject_Z z - inject_Z z == 0) by ring.
  rewrite (Qcompare_comp _ _ E (1#2) (1#2) (Qeq_refl _)). reflexivity.
Qed.

Lemma rne_monotone (a b : Q) : a <= b -> (rne a <= rne b)%Z.
Proof.
  intros Hab.
  pose proof (Qfloor_resp_le _ _ Hab) as Hf.
  destruct (Z.eq_dec (Qfloor a) (Qfloor b)) as [E|NE].
  - unfold rne. rewrite E.
    destruct (Qcompare_spec (a - inject_Z (Qfloor b)) (1 # 2)) as [Ea|Ea|Ea];
    destruct (Qcompare_spec (b - inject_Z (Qfloor b)) (1 # 2)) as [Eb|Eb|Eb];
      try destruct (Z.even (Qfloor b)); try lia; exfalso; lra.
  - assert (Hlt : (Qfloor a < Qfloor b)%Z) by lia.
    destruct (rne_cases b) as [[-> Hb]|[-> Hb]];
    destruct (rne_cases a) as [[-> Ha]|[-> Ha]]; lia.
Qed.




Lemma pow2_nonzero (e : Z) : ~ pow2 e == 0.
Proof. pose proof (pow2_pos e). intros E. rewrite E in H. discriminate. Qed.

(** The scaled significand lies in [2^52, 2^53). *)
Lemma scaled_bounds (q : Q) :
  0 < q ->
  inject_Z (2 ^ 52) <= q / pow2 (ilog2 q - 52) /\
  q / pow2 (ilog2 q - 52) < inject_Z (2 ^ 53).
Proof.
  intros Hq. destruct (ilog2_spec q Hq) as [H1 H2].
  set (e := (ilog2 q - 52)%Z).
  pose proof (pow2_pos e) as Pe.
  assert (E1 : pow2 (ilog2 q) == inject_Z (2 ^ 52) * pow2 e).
  { rewrite <- pow2_Z by lia. rewrite <- pow2_plus. unfold e.
    replace (52 + (ilog2 q - 52))%Z with (ilog2 q) by lia. reflexivity. }
  assert (E2 : pow2 (ilog2 q + 1) == inject_Z (2 ^ 53) * pow2 e).
  { rewrite <- pow2_Z by lia. rewrite <- pow2_plus. unfold e.
    replace (53 + (ilog2 q - 52))%Z with (ilog2 q + 1)%Z by lia. reflexivity. }
  split.
  - apply Qle_shift_div_l; [exact Pe | lra].
  - apply Qlt_shift_div_r; [exact Pe | lra].
Qed.

Lemma significand_bounds (q : Q) :
  0 < q ->
  (2 ^ 52 <= rne (q / pow2 (ilog2 q - 52)) <= 2 ^ 53)%Z.
Proof.
  intros Hq. destruct (scaled_bounds q Hq) as [H1 H2]. split.
  - rewrite <- (rne_Z (2 ^ 52)). apply rne_monotone. exact H1.
  - rewrite <- (rne_Z (2 ^ 53)). apply rne_monotone. lra.
Qed.

Lemma round_pos_comp (q q' : Q) : 0 < q -> q == q' -> round_pos q == round_pos q'.
Proof.
  intros Hq E. unfold round_pos. rewrite <- (ilog2_comp q q' Hq E).
  assert (E' : q / pow2 (ilog2 q - 52) == q' / pow2 (ilog2 q - 52))
    by (apply Qdiv_comp; [exact E | reflexivity]).
  rewrite (rne_comp _ _ E'). reflexivity.
Qed.

Lemma round_pos_positive (q : Q) : 0 < q -> 0 < round_pos q.
Proof.
  intros Hq. unfold round_pos.
  pose proof (significand_bounds q Hq) as [H _].
  pose proof (pow2_pos (ilog2 q - 52)) as Pe.
  assert (0 < inject_Z (rne (q / pow2 (ilog2 q - 52)))).
  { change 0 with (inject_Z 0). rewrite <- Zlt_Qlt. lia. }
  nra.
Qed.

Lemma round_pos_error (q : Q) :
  0 < q -> q * (1 - unit_roundoff) <= round_pos q /\ round_pos q <= q * (1 + unit_roundoff).
Proof.
  intros Hq. unfold round_pos.
  set (e := (ilog2 q - 52)%Z).
  pose proof (pow2_pos e) as Pe.
  destruct (rne_error (q / pow2 e)) as [H1 H2].
  destruct (scaled_bounds q Hq) as [H3 _]. fold e in H3.
  set (m := inject_Z (rne (q / pow2 e))) in *.
  assert (Et : q == q / pow2 e * pow2 e) by (field; apply pow2_nonzero).
  set (t := q / pow2 e) in *.
  assert (H4 : (1 # 2) <= t * unit_roundoff).
  { change (inject_Z (2 ^ 52)) with (4503599627370496 # 1) in H3.
    unfold unit_roundoff. lra. }
  split.
  - rewrite Et at 1. nra.
  - rewrite Et at 1. nra.
Qed.

Lemma round_positive (q : Q) : 0 < q -> round q == round_pos q.
Proof.
  intros Hq. unfold round.
  destruct (Qcompare_spec q 0) as [E|E|E]; [rewrite E in Hq; discriminate | lra |].
  apply Qred_correct.
Qed.

Lemma round_zero (q : Q) : q == 0 -> round q == 0.
Proof.
  intros Hq. unfold round.
  destruct (Qcompare_spec q 0) as [E|E|E]; [reflexivity | lra | lra].
Qed.

Lemma round_comp (q q' : Q) : q == q' -> round q == round q'.
Proof.
  intros E. unfold round.
  rewrite (Qcompare_comp _ _ E 0 0 (Qeq_refl 0)).
  destruct (Qcompare_spec q' 0) as [E0|E0|E0]; [reflexivity | |].
  - rewrite !Qred_correct. apply Qopp_comp. apply round_pos_comp; lra.
  - rewrite !Qred_correct. apply round_pos_comp; lra.
Qed.

Lemma round_nonneg (q : Q) : 0 <= q -> 0 <= round q.
Proof.
  intros Hq. destruct (Qlt_le_dec 0 q) as [H|H].
  - rewrite round_positive by exact H. apply Qlt_le_weak, round_pos_positive, H.
  - rewrite round_zero by lra. apply Qle_refl.
Qed.

(** The relative error of a rounding is at most 2^-53. *)
Lemma round_error (q : Q) :
  0 <= q -> q * (1 - unit_roundoff) <= round q /\ round q <= q * (1 + unit_roundoff).
Proof.
  intros Hq. destruct (Qlt_le_dec 0 q) as [H|H].
  - rewrite round_positive by exact H. now apply round_pos_error.
  - assert (E : q == 0) by lra. rewrite (round_zero q E), E. split; lra.
Qed.

Lemma ilog2_monotone (a b : Q) : 0 < a -> a <= b -> (ilog2 a <= ilog2 b)%Z.
Proof.
  intros Ha Hab.
  destruct (ilog2_spec a Ha) as [A1 A2].
  destruct (ilog2_spec b ltac:(lra)) as [B1 B2].
  assert (H : (ilog2 a < ilog2 b + 1)%Z) by (apply pow2_lt_inv; lra).
  lia.
Qed.

Lemma round_pos_monotone (a b : Q) : 0 < a -> a <= b -> round_pos a <= round_pos b.
Proof.
  intros Ha Hab. assert (Hb : 0 < b) by lra.
  pose proof (ilog2_monotone a b Ha Hab) as Hlog.
  destruct (Z.eq_dec (ilog2 a) (ilog2 b)) as [E|NE].
  - unfold round_pos. rewrite E. set (e := (ilog2 b - 52)%Z).
    pose proof (pow2_pos e) as Pe.
    assert (Hs : a / pow2 e <= b / pow2 e).
    { apply Qle_shift_div_l; [exact Pe|].
      assert (Et : a / pow2 e * pow2 e == a) by (field; apply pow2_nonzero).
      rewrite Et. exact Hab. }
    pose proof (rne_monotone _ _ Hs) as Hm.
    rewrite Zle_Qle in Hm.
    apply Qmult_le_compat_r; [exact Hm | lra].
  - unfold round_pos.
    pose proof (significand_bounds a Ha) as [_ HA].
    pose proof (significand_bounds b Hb) as [HB _].
    set (ea := (ilog2 a - 52)%Z) in *. set (eb := (ilog2 b - 52)%Z) in *.
    rewrite Zle_Qle in HA, HB.
    set (ma := inject_Z (rne (a / pow2 ea))) in *.
    set (mb := inject_Z (rne (b / pow2 eb))) in *.
    pose proof (pow2_pos ea) as Pa. pose proof (pow2_pos eb) as Pb.
    assert (Hp : 2 * pow2 ea <= pow2 eb).
    { rewrite <- pow2_succ. apply pow2_le. unfold ea, eb. lia. }
    change (inject_Z (2 ^ 53)) with (9007199254740992 # 1) in HA.
    change (inject_Z (2 ^ 52)) with (4503599627370496 # 1) in HB.
    assert (H1 : ma * pow2 ea <= (9007199254740992 # 1) * pow2 ea) by nra.
    assert (H2 : (4503599627370496 # 1) * pow2 eb <= mb * pow2 eb) by nra.
    lra.
Qed.

(** Rounding is monotone. *)
Lemma round_monotone (a b : Q) : 0 <= a -> a <= b -> round a <= round b.
Proof.
  intros Ha Hab. destruct (Qlt_le_dec 0 a) as [H|H].
  - rewrite !round_positive by lra. now apply round_pos_monotone.
  - rewrite (round_zero a) by lra. apply round_nonneg. lra.
Qed.

(** An integer below 2^53 is a float64 value. *)
Lemma round_int (z : Z) : (0 <= z < 2 ^ 53)%Z -> round (inject_Z z) == inject_Z z.
Proof.
  intros Hz. destruct (Z.eq_dec z 0) as [->|NZ]; [reflexivity|].
  assert (Hpos : 0 < inject_Z z) by (change 0 with (inject_Z 0); rewrite <- Zlt_Qlt; lia).
  rewrite round_positive by exact Hpos. unfold round_pos.
  destruct (Z.log2_spec z ltac:(lia)) as [L1 L2].
  assert (L0 : (0 <= Z.log2 z)%Z) by apply Z.log2_nonneg.
  assert (L3 : (Z.log2 z < 53)%Z) by (apply Z.log2_lt_pow2; lia).
  assert (El : ilog2 (inject_Z z) = Z.log2 z).
  { apply ilog2_unique.
    - rewrite pow2_Z by lia. rewrite <- Zle_Qle. lia.
    - rewrite pow2_Z by lia. rewrite <- Zlt_Qlt.
      replace (Z.log2 z + 1)%Z with (Z.succ (Z.log2 z)) by lia. lia. }
  rewrite El. set (k := (52 - Z.log2 z)%Z).
  replace (Z.log2 z - 52)%Z with (- k)%Z by (unfold k; lia).
  assert (Hk : (0 <= k)%Z) by (unfold k; lia).
  assert (Ep : pow2 (- k) == / inject_Z (2 ^ k)).
  { unfold pow2. rewrite Qpower_opp. fold (pow2 k). rewrite pow2_Z by lia. reflexivity. }
  assert (P2 : 0 < inject_Z (2 ^ k)).
  { change 0 with (inject_Z 0). rewrite <- Zlt_Qlt. lia. }
  assert (Et : inject_Z z / pow2 (- k) == inject_Z (z * 2 ^ k)).
  { rewrite Ep, inject_Z_mult. field. lra. }
  rewrite (rne_comp _ _ Et), rne_Z, Ep, inject_Z_mult. field. lra.
Qed.

(** Rounding does not cross an integer below 2^53. *)
Lemma round_le_int (x : Q) (k : Z) :
  0 <= x -> x <= inject_Z k -> (k < 2 ^ 53)%Z -> round x <= inject_Z k.
Proof.
  intros Hx Hk Hb.
  assert (Hk0 : (0 <= k)%Z) by (rewrite Zle_Qle; change (inject_Z 0) with 0; lra).
  rewrite <- (round_int k) by lia. apply round_monotone; assumption.
Qed.

Lemma round_ge_int (x : Q) (k : Z) :
  (0 <= k < 2 ^ 53)%Z -> inject_Z k <= x -> inject_Z k <= round x.
Proof.
  intros Hk Hx. rewrite <- (round_int k) by lia. apply round_monotone.
  - change 0 with (inject_Z 0). rewrite <- Zle_Qle. lia.
  - exact Hx.
Qed.

(** A number with a significand of 53 bits is a float64 value. *)
Lemma round_scaled (m e : Z) :
  (2 ^ 52 <= m <= 2 ^ 53)%Z -> round (inject_Z m * pow2 e) == inject_Z m * pow2 e.
Proof.
  intros Hm. pose proof (pow2_pos e) as Pe.
  assert (HM : 0 < inject_Z m) by (change 0 with (inject_Z 0); rewrite <- Zlt_Qlt; lia).
  assert (Hq : 0 < inject_Z m * pow2 e) by nra.
  rewrite round_positive by exact Hq. unfold round_pos.
  destruct (Z.eq_dec m (2 ^ 53)) as [->|Hne].
  - assert (Eq : inject_Z (2 ^ 53) * pow2 e == pow2 (e + 53)).
    { rewrite <- pow2_Z by lia. rewrite <- pow2_plus.
      replace (53 + e)%Z with (e + 53)%Z by lia. reflexivity. }
    assert (El : ilog2 (inject_Z (2 ^ 53) * pow2 e) = (e + 53)%Z).
    { apply ilog2_unique; rewrite Eq; [apply Qle_refl | apply pow2_lt; lia]. }
    rewrite El. replace (e + 53 - 52)%Z with (e + 1)%Z by lia.
    assert (Et : inject_Z (2 ^ 53) * pow2 e / pow2 (e + 1) == inject_Z (2 ^ 52)).
    { rewrite pow2_succ. change (inject_Z (2 ^ 53)) with (2 * inject_Z (2 ^ 52)).
      field. apply pow2_nonzero. }
    rewrite (rne_comp _ _ Et), rne_Z, pow2_succ.
    change (inject_Z (2 ^ 53)) with (2 * inject_Z (2 ^ 52)). ring.
  - assert (El : ilog2 (inject_Z m * pow2 e) = (e + 52)%Z).
    { apply ilog2_unique.
      - rewrite pow2_plus, (pow2_Z 52) by lia.
        assert (inject_Z (2 ^ 52) <= inject_Z m) by (rewrite <- Zle_Qle; lia).
        nra.
      - replace (e + 52 + 1)%Z with (e + 53)%Z by lia.
        rewrite pow2_plus, (pow2_Z 53) by lia.
        assert (inject_Z m < inject_Z (2 ^ 53)) by (rewrite <- Zlt_Qlt; lia).
        nra. }
    rewrite El. replace (e + 52 - 52)%Z with e by lia.
    assert (Et : inject_Z m * pow2 e / pow2 e == inject_Z m)
      by (field; apply pow2_nonzero).
    rewrite (rne_comp _ _ Et), rne_Z. reflexivity.
Qed.

(** A rounded number is a float64 value. *)
Lemma round_idempotent (x : Q) : 0 <= x -> round (round x) == round x.
Proof.
  intros Hx. destruct (Qlt_le_dec 0 x) as [H|H].
  - rewrite (round_comp (round x) (round_pos x)) by (apply round_positive, H).
    rewrite (round_positive x H). unfold round_pos.
    apply round_scaled. apply significand_bounds, H.
  - assert (E : round x == 0) by (apply round_zero; lra).
    rewrite (round_comp _ _ E), E. reflexivity.
Qed.

Lemma rne_ge_even (t : Q) (m : Z) :
  Z.even m = true -> inject_Z m - (1 # 2) <= t -> (m <= rne t)%Z.
Proof.
  intros Heven Ht. destruct (Qfloor_bounds t) as [F1 F2].
  destruct (rne_cases t) as [[E Hc]|[E Hc]]; rewrite E.
  - (* rounded down: the fraction is at most a half *)
    destruct (Z_lt_le_dec (Qfloor t) m) as [Hlt|Hle]; [|exact Hle].
    exfalso.
    assert (Hf : inject_Z (Qfloor t) + 1 <= inject_Z m).
    { change 1 with (inject_Z 1). rewrite <- inject_Z_plus, <- Zle_Qle. lia. }
    assert (Et : t - inject_Z (Qfloor t) == 1 # 2) by lra.
    assert (Em : Qfloor t = (m - 1)%Z).
    { assert (A : inject_Z m <= inject_Z (Qfloor t) + 1) by lra.
      change 1 with (inject_Z 1) in A. rewrite <- inject_Z_plus, <- Zle_Qle in A.
      lia. }
    unfold rne in E. rewrite (Qcompare_comp _ _ Et (1 # 2) (1 # 2) (Qeq_refl _)) in E.
    change ((1 # 2) ?= (1 # 2)) with Eq in E. rewrite Em in E.
    replace (m - 1)%Z with (Z.pred m) in E by lia. rewrite Z.even_pred in E.
    rewrite <- Z.negb_even, Heven in E. cbn in E. lia.
  - assert (A : inject_Z m < inject_Z (Qfloor t + 1 + 1)).
    { rewrite !inject_Z_plus. change (inject_Z 1) with 1. lra. }
    rewrite <- Zlt_Qlt in A. lia.
Qed.

(** A number that is rounded up to the integer [a] stays that close to the
    next integer when 1 is added: it is rounded up to [a + 1]. *)
Lemma round_next_integer (a : Z) (v : Q) :
  (1 <= a)%Z -> (a + 1 < 2 ^ 52)%Z -> 0 <= v -> v < inject_Z a ->
  inject_Z a <= round v -> inject_Z (a + 1) <= round (v + 1).
Proof.
  intros Ha Hb Hv0 Hva Hr.
  assert (Hv : 0 < v).
  { destruct (Qlt_le_dec 0 v) as [H|H]; [exact H|]. exfalso.
    rewrite round_zero in Hr by lra.
    assert (0 < inject_Z a) by (change 0 with (inject_Z 0); rewrite <- Zlt_Qlt; lia).
    lra. }
  assert (Hra : round v == inject_Z a).
  { apply Qle_antisym; [|exact Hr]. apply round_le_int; [lra | lra | lia]. }
  assert (H52 : inject_Z (a + 1) < pow2 52).
  { rewrite pow2_Z by lia. rewrite <- Zlt_Qlt. exact Hb. }
  rewrite inject_Z_plus in H52 |- *. change (inject_Z 1) with 1 in *.
  (* the first rounding *)
  rewrite round_positive in Hra by exact Hv. unfold round_pos in Hra.
  set (e := (ilog2 v - 52)%Z) in *.
  destruct (rne_error (v / pow2 e)) as [_ Herr].
  pose proof (pow2_pos e) as Pe.
  assert (Ev : v == v / pow2 e * pow2 e) by (field; apply pow2_nonzero).
  assert (Hgap : (inject_Z a - v) <= (1 # 2) * pow2 e).
  { rewrite <- Hra. rewrite Ev at 2. nra. }
  (* the second rounding *)
  assert (Hv1 : 0 < v + 1) by lra.
  rewrite (round_positive (v + 1) Hv1). unfold round_pos.
  destruct (ilog2_spec (v + 1) Hv1) as [L1 _].
  assert (HL : (ilog2 (v + 1) < 52)%Z) by (apply pow2_lt_inv; lra).
  pose proof (ilog2_monotone v (v + 1) Hv ltac:(lra)) as Hmono.
  set (e' := (ilog2 (v + 1) - 52)%Z) in *.
  assert (He' : (e <= e' < 0)%Z) by (unfold e, e'; lia).
  pose proof (pow2_pos e') as Pe'.
  pose proof (pow2_le e e' ltac:(lia)) as Ple.
  set (j := (- e')%Z). assert (Hj : (1 <= j)%Z) by (unfold j; lia).
  assert (Ep : pow2 e' == / inject_Z (2 ^ j)).
  { replace e' with (- j)%Z by (unfold j; lia).
    unfold pow2. rewrite Qpower_opp. fold (pow2 j). rewrite pow2_Z by lia.
    reflexivity. }
  assert (P2 : 0 < inject_Z (2 ^ j)).
  { change 0 with (inject_Z 0). rewrite <- Zlt_Qlt. lia. }
  set (m' := ((a + 1) * 2 ^ j)%Z).
  assert (Em' : inject_Z m' * pow2 e' == inject_Z a + 1).
  { unfold m'. rewrite inject_Z_mult, inject_Z_plus, Ep.
    change (inject_Z 1) with 1. field. lra. }
  assert (Heven : Z.even m' = true).
  { unfold m'. rewrite Z.even_mul.
    replace j with (Z.succ (j - 1)) by lia. rewrite Z.pow_succ_r by lia.
    rewrite Z.even_mul. cbn. apply orb_true_r. }
  assert (Ht' : inject_Z m' - (1 # 2) <= (v + 1) / pow2 e').
  { apply Qle_shift_div_l; [exact Pe'|].
    assert (E1 : (inject_Z m' - (1 # 2)) * pow2 e' ==
                 inject_Z a + 1 - (1 # 2) * pow2 e') by (rewrite <- Em'; ring).
    rewrite E1. nra. }
  pose proof (rne_ge_even _ _ Heven Ht') as Hm.
  rewrite Zle_Qle in Hm. rewrite <- Em'.
  apply Qmult_le_compat_r; [exact Hm | lra].
Qed.

End Float64Facts.

(* ================================================================== *)
(** * Facts about the numpy model *)

Section ArgmaxFacts.
Context {T : Type} `{Numpy.Scalar T}.

Lemma argmax_from_range (l : list T) : forall mp best i,
  (best < i)%nat ->
  Numpy.argmax_from mp best i l = best \/
  (i <= Numpy.argmax_from mp best i l < i + length l)%nat.
Proof.
  induction l as [|x l IH]; intros mp best i Hlt; simpl.
  - left; reflexivity.
  - destruct (negb (Numpy.le x mp)).
    + destruct (Numpy.isnan x).
      * right; lia.
      * destruct (IH x i (S i)) as [E|E]; [lia | right; lia | right; lia].
    + destruct (IH mp best (S i)) as [E|E]; [lia | left; exact E | right; lia].
Qed.

Lemma argmax_range (a : list T) :
  a <> [] ->
  exists b, Numpy.argmax a = Ok b /\ 0 <= b < Z.of_nat (length a).
Proof.
  destruct a as [|x l]; [congruence|]; intros _; simpl.
  destruct (Numpy.isnan x).
  - exists 0; split; [reflexivity | lia].
  - eexists; split; [reflexivity|].
    destruct (argmax_from_range l x 0%nat 1%nat) as [E|E]; lia.
Qed.

Lemma sum_axis01_length (data : Numpy.ndarray3 T) :
  length (Numpy.sum_axis01 data) = Numpy.shape2 data.
Proof. unfold Numpy.sum_axis01. now rewrite length_map, length_seq. Qed.

End ArgmaxFacts.




Lemma arange_snoc (n : Z) : 0 <= n -> Numpy.arange (n + 1) = Numpy.arange n ++ [n].
Proof.
  intros Hn. unfold Numpy.arange.
  replace (Z.to_nat (n + 1)) with (Z.to_nat n + 1)%nat by lia.
  rewrite seq_app, map_app. simpl. now rewrite Z2Nat.id.
Qed.

Lemma arange_bounds (n i : Z) : In i (Numpy.arange n) -> 0 <= i < n.
Proof.
  unfold Numpy.arange. rewrite in_map_iff. intros [k [<- Hk]].
  apply in_seq in Hk. lia.
Qed.

Lemma arange_length (n : Z) : length (Numpy.arange n) = Z.to_nat n.
Proof. unfold Numpy.arange. now rewrite length_map, length_seq. Qed.

Lemma set_last_snoc {A : Type} (l : list A) (x v : A) :
  Numpy.set_last (l ++ [x]) v = l ++ [v].
Proof.
  unfold Numpy.set_last. rewrite removelast_last.
  destruct l; reflexivity.
Qed.

(** [np.linspace] returns [samples]. *)
Lemma linspace_returns_samples (start stop num : Z) :
  0 <= num -> Numpy.linspace start stop num = Ok (samples start stop num).
Proof.
  intros Hnum. unfold Numpy.linspace, samples.
  destruct (Z.ltb_spec num 0) as [?|_]; [lia|]. f_equal.
  destruct (Z.ltb_spec 1 num) as [H1|H1].
  - remember (num - 1) as div eqn:Ediv.
    assert (Enum : num = div + 1) by lia. clear Ediv. subst num.
    rewrite arange_snoc by lia.
    unfold sample_at, product_at. replace (div + 1 - 1) with div by lia.
    destruct (Z.ltb_spec 0 div) as [_|?]; [|lia].
    destruct (Qeq_bool _ 0);
      rewrite !map_app; cbn [map]; rewrite set_last_snoc, !map_app; cbn [map];
      f_equal; rewrite !map_map; reflexivity.
  - unfold sample_at, product_at.
    destruct (Z.ltb_spec 0 (num - 1)) as [?|_]; [lia|].
    rewrite !map_map. reflexivity.
Qed.

Lemma samples_length (start stop num : Z) :
  0 <= num -> length (samples start stop num) = Z.to_nat num.
Proof.
  intros Hnum. unfold samples. destruct (Z.ltb_spec 1 num).
  - rewrite length_app, length_map, arange_length. simpl. lia.
  - now rewrite length_map, arange_length.
Qed.

(* ------------------------------------------------------------------ *)
(** ** The samples of [np.linspace] *)

Lemma to_int_floor (a : Q) : Float64.to_int (Float64.floor a) = Qfloor a.
Proof. unfold Float64.to_int, Float64.floor. simpl. apply Z.quot_1_r. Qed.

Lemma Qfloor_between (a : Q) (k : Z) :
  (inject_Z k <= a)%Q -> (a < inject_Z k + 1)%Q -> Qfloor a = k.
Proof.
  intros H1 H2. destruct (Qfloor_bounds a) as [H3 H4].
  assert (A : (inject_Z k < inject_Z (Qfloor a + 1))%Q)
    by (rewrite inject_Z_plus; change (inject_Z 1) with 1%Q; lra).
  assert (B : (inject_Z (Qfloor a) < inject_Z (k + 1))%Q)
    by (rewrite inject_Z_plus; change (inject_Z 1) with 1%Q; lra).
  rewrite <- Zlt_Qlt in A, B. lia.
Qed.

Lemma inject_Z_nonneg (z : Z) : 0 <= z -> (0 <= inject_Z z)%Q.
Proof. intros H. change 0%Q with (inject_Z 0). now rewrite <- Zle_Qle. Qed.

Lemma of_int_exact (z : Z) :
  0 <= z < 2 ^ 53 -> (Float64.of_int z == inject_Z z)%Q.
Proof. apply round_int. Qed.

Lemma of_int_nonneg (z : Z) : 0 <= z -> (0 <= Float64.of_int z)%Q.
Proof. intros H. apply round_nonneg. now apply inject_Z_nonneg. Qed.

Lemma of_int_monotone (a b : Z) :
  0 <= a <= b -> (Float64.of_int a <= Float64.of_int b)%Q.
Proof.
  intros H. apply round_monotone.
  - apply inject_Z_nonneg; lia.
  - rewrite <- Zle_Qle; lia.
Qed.

Lemma of_int_ge_1 (z : Z) : 1 <= z -> (1 <= Float64.of_int z)%Q.
Proof.
  intros H. assert (E : (Float64.of_int 1 == 1)%Q) by (apply of_int_exact; lia).
  rewrite <- E. apply of_int_monotone. lia.
Qed.

Section Samples.
Variables start stop : Z.
Hypothesis Hstart : 0 <= start <= stop.
Hypothesis Hstop : stop < 2 ^ 51.

Lemma fstart_exact : (Float64.of_int start == inject_Z start)%Q.
Proof. apply of_int_exact. lia. Qed.

Lemma fstop_exact : (Float64.of_int stop == inject_Z stop)%Q.
Proof. apply of_int_exact. lia. Qed.

Lemma delta_exact :
  (Float64.sub (Float64.of_int stop) (Float64.of_int start) ==
   inject_Z (stop - start))%Q.
Proof.
  unfold Float64.sub.
  rewrite (round_comp _ (inject_Z (stop - start))).
  - apply round_int. lia.
  - rewrite fstart_exact, fstop_exact. unfold Zminus.
    rewrite inject_Z_plus, inject_Z_opp. reflexivity.
Qed.

Lemma Qdiv_bounds (a b : Q) :
  (0 <= a)%Q -> (0 < b)%Q -> (0 <= a / b)%Q /\ (a / b * b == a)%Q.
Proof.
  intros Ha Hb. split.
  - apply Qle_shift_div_l; [exact Hb | lra].
  - field. intros E. rewrite E in Hb. discriminate.
Qed.

(** The product lies between 0 and delta, up to two roundings. *)
Lemma product_bounds (num i : Z) :
  0 <= i <= num - 1 ->
  (0 <= product_at start stop num i)%Q /\
  (product_at start stop num i <=
   inject_Z (stop - start) * (1 + Float64.unit_roundoff)
                           * (1 + Float64.unit_roundoff))%Q.
Proof.
  intros Hi. unfold product_at.
  pose proof delta_exact as ED.
  set (dl := Float64.sub (Float64.of_int stop) (Float64.of_int start)) in *.
  pose proof (inject_Z_nonneg (stop - start) ltac:(lia)) as HD.
  set (D := inject_Z (stop - start)) in *.
  pose proof (of_int_nonneg i ltac:(lia)) as Hfi.
  pose proof (of_int_monotone i (num - 1) ltac:(lia)) as Hfd.
  set (fi := Float64.of_int i) in *. set (fd := Float64.of_int (num - 1)) in *.
  destruct (Z.ltb_spec 0 (num - 1)) as [Hdiv|Hdiv].
  - pose proof (of_int_ge_1 (num - 1) ltac:(lia)) as Hfd1. fold fd in Hfd1.
    destruct (Qeq_bool (Float64.div dl fd) 0).
    + unfold Float64.mul, Float64.div.
      destruct (Qdiv_bounds fi fd Hfi ltac:(lra)) as [Hq Eq].
      set (q := (fi / fd)%Q) in *.
      assert (Hq1 : (q <= 1)%Q) by nra.
      destruct (round_error q Hq) as [_ Hc]. pose proof (round_nonneg q Hq) as Hc0.
      set (c := Float64.round q) in *.
      assert (Hx : (0 <= c * dl)%Q) by nra.
      destruct (round_error _ Hx) as [_ Hr]. pose proof (round_nonneg _ Hx) as Hr0.
      set (r := Float64.round (c * dl)) in *.
      unfold Float64.unit_roundoff in *. split; [exact Hr0 | nra].
    + unfold Float64.mul, Float64.div.
      destruct (Qdiv_bounds dl fd ltac:(lra) ltac:(lra)) as [Hq Eq].
      set (q := (dl / fd)%Q) in *.
      destruct (round_error q Hq) as [_ Hc]. pose proof (round_nonneg q Hq) as Hc0.
      set (st := Float64.round q) in *.
      assert (Hx : (0 <= fi * st)%Q) by nra.
      destruct (round_error _ Hx) as [_ Hr]. pose proof (round_nonneg _ Hx) as Hr0.
      set (r := Float64.round (fi * st)) in *.
      unfold Float64.unit_roundoff in *. split; [exact Hr0|].
      assert (H1 : (fi * st <= fd * st)%Q) by nra.
      assert (H2 : (fd * st <= D * (1 + (1 # 9007199254740992)))%Q) by nra.
      nra.
  - assert (i = 0) by lia. subst i.
    assert (E : (Float64.mul fi dl == 0)%Q).
    { unfold Float64.mul. apply round_zero.
      assert (E0 : (fi == 0)%Q) by (apply round_zero; reflexivity).
      rewrite E0. ring. }
    rewrite E. unfold Float64.unit_roundoff. split; [lra | nra].
Qed.

Lemma product_monotone (num i j : Z) :
  0 <= i <= j ->
  (product_at start stop num i <= product_at start stop num j)%Q.
Proof.
  intros Hij. unfold product_at.
  pose proof delta_exact as ED.
  set (dl := Float64.sub (Float64.of_int stop) (Float64.of_int start)) in *.
  pose proof (inject_Z_nonneg (stop - start) ltac:(lia)) as HD.
  set (D := inject_Z (stop - start)) in *.
  pose proof (of_int_nonneg i ltac:(lia)) as Hfi.
  pose proof (of_int_monotone i j ltac:(lia)) as Hfj.
  set (fi := Float64.of_int i) in *. set (fj := Float64.of_int j) in *.
  set (fd := Float64.of_int (num - 1)).
  destruct (Z.ltb_spec 0 (num - 1)) as [Hdiv|Hdiv].
  - pose proof (of_int_ge_1 (num - 1) ltac:(lia)) as Hfd1. fold fd in Hfd1.
    destruct (Qeq_bool (Float64.div dl fd) 0).
    + unfold Float64.mul, Float64.div.
      destruct (Qdiv_bounds fi fd Hfi ltac:(lra)) as [Hqi Eqi].
      destruct (Qdiv_bounds fj fd ltac:(lra) ltac:(lra)) as [Hqj Eqj].
      assert (Hq : (fi / fd <= fj / fd)%Q).
      { apply Qle_shift_div_l; [lra|]. rewrite Eqi. exact Hfj. }
      pose proof (round_monotone _ _ Hqi Hq) as Hc.
      pose proof (round_nonneg _ Hqi) as Hc0.
      apply round_monotone; nra.
    + unfold Float64.mul, Float64.div.
      destruct (Qdiv_bounds dl fd ltac:(lra) ltac:(lra)) as [Hq _].
      pose proof (round_nonneg _ Hq) as Hst.
      apply round_monotone; nra.
  - unfold Float64.mul. apply round_monotone; nra.
Qed.

Lemma product_first (num : Z) : (product_at start stop num 0 == 0)%Q.
Proof.
  unfold product_at.
  assert (E0 : (Float64.of_int 0 == 0)%Q) by (apply round_zero; reflexivity).
  destruct (0 <? num - 1); [destruct (Qeq_bool _ 0)|];
    unfold Float64.mul; apply round_zero.
  - assert (E1 : (Float64.div (Float64.of_int 0) (Float64.of_int (num - 1)) == 0)%Q).
    { unfold Float64.div. apply round_zero. rewrite E0. unfold Qdiv. ring. }
    rewrite E1. ring.
  - rewrite E0. ring.
  - rewrite E0. ring.
Qed.

Lemma sample_lower (num i : Z) :
  0 <= i <= num - 1 -> start <= sample_at start stop num i.
Proof.
  intros Hi. unfold sample_at. rewrite to_int_floor.
  destruct (product_bounds num i Hi) as [Hp _].
  pose proof fstart_exact as Es.
  pose proof (inject_Z_nonneg start ltac:(lia)) as HS.
  unfold Float64.add.
  assert (E : (Float64.round (Float64.of_int start) == inject_Z start)%Q).
  { rewrite (round_comp _ _ Es). apply round_int. lia. }
  assert (Hy : (inject_Z start <=
                Float64.round (product_at start stop num i + Float64.of_int start))%Q).
  { rewrite <- E. apply round_monotone; lra. }
  apply Qfloor_resp_le in Hy. rewrite Qfloor_Z in Hy. exact Hy.
Qed.

Lemma sample_upper (num i : Z) :
  0 <= i <= num - 1 -> sample_at start stop num i <= stop.
Proof.
  intros Hi. unfold sample_at. rewrite to_int_floor.
  destruct (product_bounds num i Hi) as [Hp0 Hp].
  pose proof fstart_exact as Es.
  pose proof (inject_Z_nonneg start ltac:(lia)) as HS.
  pose proof (inject_Z_nonneg (stop - start) ltac:(lia)) as HD.
  assert (HE : (inject_Z (stop - start) + inject_Z start <= inject_Z (2 ^ 51 - 1))%Q).
  { rewrite <- inject_Z_plus, <- Zle_Qle. lia. }
  change (inject_Z (2 ^ 51 - 1)) with (2251799813685247 # 1)%Q in HE.
  assert (ES : (inject_Z stop == inject_Z (stop - start) + inject_Z start)%Q).
  { rewrite <- inject_Z_plus. apply inject_Z_injective. lia. }
  unfold Float64.add.
  set (p := product_at start stop num i) in *.
  set (D := inject_Z (stop - start)) in *.
  destruct (round_error (p + Float64.of_int start) ltac:(lra)) as [_ Hy].
  set (y := Float64.round (p + Float64.of_int start)) in *.
  assert (Hlt : (y < inject_Z (stop + 1))%Q).
  { rewrite inject_Z_plus, ES. change (inject_Z 1) with 1%Q.
    unfold Float64.unit_roundoff in *. nra. }
  pose proof (Qfloor_le y) as Hf.
  assert (H : (inject_Z (Qfloor y) < inject_Z (stop + 1))%Q) by lra.
  rewrite <- Zlt_Qlt in H. lia.
Qed.

Lemma sample_monotone (num i j : Z) :
  0 <= i <= j -> sample_at start stop num i <= sample_at start stop num j.
Proof.
  intros Hij. unfold sample_at. rewrite !to_int_floor.
  apply Qfloor_resp_le. unfold Float64.add.
  pose proof (product_monotone num i j Hij) as Hp.
  pose proof (product_monotone num 0 i ltac:(lia)) as Hp0.
  rewrite product_first in Hp0.
  pose proof (of_int_nonneg start ltac:(lia)) as HS.
  apply round_monotone; lra.
Qed.

Lemma sample_first (num : Z) : sample_at start stop num 0 = start.
Proof.
  unfold sample_at. rewrite to_int_floor. unfold Float64.add.
  assert (E : (Float64.round (product_at start stop num 0 + Float64.of_int start)
               == inject_Z start)%Q).
  { rewrite (round_comp _ (inject_Z start)).
    - apply round_int. lia.
    - rewrite product_first, fstart_exact. ring. }
  rewrite (Qfloor_comp _ _ E). apply Qfloor_Z.
Qed.

Lemma sample_last : Float64.to_int (Float64.floor (Float64.of_int stop)) = stop.
Proof.
  rewrite to_int_floor, (Qfloor_comp _ _ fstop_exact). apply Qfloor_Z.
Qed.

(** With exact conversions the product is [i * delta / div] up to two
    roundings. *)
Lemma product_error (num i : Z) :
  2 <= num <= 2 ^ 53 -> 0 <= i <= num - 1 ->
  let w := (inject_Z i * inject_Z (stop - start) / inject_Z (num - 1))%Q in
  (w * (1 - Float64.unit_roundoff) * (1 - Float64.unit_roundoff) <=
   product_at start stop num i)%Q /\
  (product_at start stop num i <=
   w * (1 + Float64.unit_roundoff) * (1 + Float64.unit_roundoff))%Q.
Proof.
  intros Hnum Hi w. unfold product_at.
  pose proof delta_exact as ED.
  set (dl := Float64.sub (Float64.of_int stop) (Float64.of_int start)) in *.
  pose proof (inject_Z_nonneg (stop - start) ltac:(lia)) as HD.
  pose proof (of_int_exact i ltac:(lia)) as Ei.
  pose proof (of_int_exact (num - 1) ltac:(lia)) as Ed.
  pose proof (inject_Z_nonneg i ltac:(lia)) as HI.
  assert (HV : (1 <= inject_Z (num - 1))%Q)
    by (change 1%Q with (inject_Z 1); rewrite <- Zle_Qle; lia).
  set (fi := Float64.of_int i) in *. set (fd := Float64.of_int (num - 1)) in *.
  destruct (Z.ltb_spec 0 (num - 1)) as [_|?]; [|lia].
  destruct (Qeq_bool (Float64.div dl fd) 0).
  - unfold Float64.mul, Float64.div.
    destruct (Qdiv_bounds fi fd ltac:(lra) ltac:(lra)) as [Hq Eq].
    assert (Ew : (fi / fd * dl == w)%Q).
    { unfold w. rewrite Ei, Ed, ED. field. lra. }
    set (q := (fi / fd)%Q) in *.
    destruct (round_error q Hq) as [Hc1 Hc2]. pose proof (round_nonneg q Hq) as Hc0.
    set (c := Float64.round q) in *.
    assert (Hx : (0 <= c * dl)%Q) by nra.
    destruct (round_error _ Hx) as [Hr1 Hr2].
    set (r := Float64.round (c * dl)) in *.
    unfold Float64.unit_roundoff in *.
    assert (Hx1 : (w * (1 - (1 # 9007199254740992)) <= c * dl)%Q) by nra.
    assert (Hx2 : (c * dl <= w * (1 + (1 # 9007199254740992)))%Q) by nra.
    split; nra.
  - unfold Float64.mul, Float64.div.
    destruct (Qdiv_bounds dl fd ltac:(lra) ltac:(lra)) as [Hq Eq].
    assert (Ew : (fi * (dl / fd) == w)%Q).
    { unfold w. rewrite Ei, Ed, ED. field. lra. }
    set (q := (dl / fd)%Q) in *.
    destruct (round_error q Hq) as [Hc1 Hc2]. pose proof (round_nonneg q Hq) as Hc0.
    set (st := Float64.round q) in *.
    assert (Hx : (0 <= fi * st)%Q) by nra.
    destruct (round_error _ Hx) as [Hr1 Hr2].
    set (r := Float64.round (fi * st)) in *.
    unfold Float64.unit_roundoff in *.
    assert (Hfi : (0 <= fi)%Q) by lra.
    assert (Hx1 : (w * (1 - (1 # 9007199254740992)) <= fi * st)%Q) by nra.
    assert (Hx2 : (fi * st <= w * (1 + (1 # 9007199254740992)))%Q) by nra.
    split; nra.
Qed.

(** A sample is the exact value [start + i * delta / div] rounded down,
    except that an exact value that is an integer may come out one lower. *)
Lemma sample_near_exact (num i : Z) :
  2 <= num <= 2 ^ 50 -> stop * num <= 2 ^ 50 -> 0 <= i <= num - 1 ->
  sample_at start stop num i = start + i * (stop - start) / (num - 1) \/
  ((i * (stop - start)) mod (num - 1) = 0 /\
   sample_at start stop num i = start + i * (stop - start) / (num - 1) - 1).
Proof.
  intros Hnum Hsize Hi.
  destruct (product_error num i ltac:(lia) Hi) as [Hp1 Hp2]. cbv zeta in Hp1, Hp2.
  unfold sample_at. rewrite to_int_floor. unfold Float64.add.
  pose proof fstart_exact as Es.
  pose proof (inject_Z_nonneg start ltac:(lia)) as HS.
  pose proof (inject_Z_nonneg (stop - start) ltac:(lia)) as HD.
  pose proof (inject_Z_nonneg i ltac:(lia)) as HI.
  set (dv := num - 1) in *.
  assert (HV : (1 <= inject_Z dv)%Q)
    by (change 1%Q with (inject_Z 1); rewrite <- Zle_Qle; lia).
  assert (HIV : (inject_Z i <= inject_Z dv)%Q) by (rewrite <- Zle_Qle; lia).
  destruct (Qdiv_bounds (inject_Z i * inject_Z (stop - start)) (inject_Z dv)
              ltac:(nra) ltac:(lra)) as [Hw Ew].
  set (w := (inject_Z i * inject_Z (stop - start) / inject_Z dv)%Q) in *.
  set (p := product_at start stop num i) in *.
  assert (Hp0 : (0 <= p)%Q) by (unfold Float64.unit_roundoff in *; nra).
  destruct (round_error (p + Float64.of_int start) ltac:(lra)) as [Hy1 Hy2].
  set (y := Float64.round (p + Float64.of_int start)) in *.
  set (A := i * (stop - start)).
  assert (EA : (inject_Z A == w * inject_Z dv)%Q)
    by (unfold A; rewrite inject_Z_mult, Ew; reflexivity).
  assert (HwD : (w <= inject_Z (stop - start))%Q) by nra.
  assert (HE : ((inject_Z (stop - start) + inject_Z start) * inject_Z dv
                <= inject_Z (2 ^ 50))%Q).
  { rewrite <- inject_Z_plus, <- inject_Z_mult, <- Zle_Qle. unfold dv. nia. }
  change (inject_Z (2 ^ 50)) with (1125899906842624 # 1)%Q in HE.
  (* the error of the sample, scaled by the divisor *)
  assert (Herr1 : (inject_Z (A + start * dv) - (1 # 2) <= y * inject_Z dv)%Q).
  { rewrite inject_Z_plus, inject_Z_mult, EA.
    unfold Float64.unit_roundoff in *. nra. }
  assert (Herr2 : (y * inject_Z dv <= inject_Z (A + start * dv) + (1 # 2))%Q).
  { rewrite inject_Z_plus, inject_Z_mult, EA.
    unfold Float64.unit_roundoff in *. nra. }
  assert (Hdv : 0 < dv) by (unfold dv; lia).
  pose proof (Z.div_mod A dv ltac:(lia)) as Hdm.
  pose proof (Z.mod_pos_bound A dv Hdv) as Hr.
  set (f := A / dv) in *. set (r := A mod dv) in *.
  assert (EM : (inject_Z (A + start * dv) ==
                inject_Z (start + f) * inject_Z dv + inject_Z r)%Q).
  { rewrite <- inject_Z_mult, <- inject_Z_plus. apply inject_Z_injective. lia. }
  rewrite EM in Herr1, Herr2.
  assert (Hr1 : (0 <= inject_Z r)%Q) by (apply inject_Z_nonneg; lia).
  assert (Hr2 : (inject_Z r + 1 <= inject_Z dv)%Q).
  { change 1%Q with (inject_Z 1). rewrite <- inject_Z_plus, <- Zle_Qle. lia. }
  destruct (Z.eq_dec r 0) as [Er|Nr].
  - rewrite Er in *. change (inject_Z 0) with 0%Q in *.
    destruct (Qlt_le_dec y (inject_Z (start + f))) as [Hlt|Hge].
    + right. split; [reflexivity|].
      apply Qfloor_between.
      * unfold Z.sub. rewrite inject_Z_plus. change (inject_Z (- (1))) with (- (1))%Q.
        nra.
      * unfold Z.sub. rewrite inject_Z_plus. change (inject_Z (- (1))) with (- (1))%Q.
        lra.
    + left. apply Qfloor_between; [exact Hge | nra].
  - left. assert (Hr3 : (1 <= inject_Z r)%Q).
    { change 1%Q with (inject_Z 1). rewrite <- Zle_Qle. lia. }
    apply Qfloor_between; nra.
Qed.

(** When the span holds exactly [num] integers the step is 1 and every
    sample is exact. *)
Lemma sample_unit_step (num i : Z) :
  2 <= num -> stop - start = num - 1 -> 0 <= i <= num - 1 ->
  sample_at start stop num i = start + i.
Proof.
  intros Hnum Hspan Hi. unfold sample_at, product_at.
  rewrite to_int_floor.
  pose proof delta_exact as ED. rewrite Hspan in ED.
  set (dl := Float64.sub (Float64.of_int stop) (Float64.of_int start)) in *.
  pose proof (of_int_exact i ltac:(lia)) as Ei.
  pose proof (of_int_exact (num - 1) ltac:(lia)) as Ed.
  pose proof fstart_exact as Es.
  assert (HV : (1 <= inject_Z (num - 1))%Q)
    by (change 1%Q with (inject_Z 1); rewrite <- Zle_Qle; lia).
  destruct (Z.ltb_spec 0 (num - 1)) as [_|?]; [|lia].
  assert (Estep : (Float64.div dl (Float64.of_int (num - 1)) == 1)%Q).
  { unfold Float64.div. rewrite (round_comp _ (inject_Z 1)).
    - apply round_int. lia.
    - rewrite ED, Ed. change (inject_Z 1) with 1%Q. field. lra. }
  destruct (Qeq_bool (Float64.div dl (Float64.of_int (num - 1))) 0) eqn:Ez.
  { apply Qeq_bool_iff in Ez. rewrite Estep in Ez. discriminate. }
  assert (Ep : (Float64.mul (Float64.of_int i)
                  (Float64.div dl (Float64.of_int (num - 1))) == inject_Z i)%Q).
  { unfold Float64.mul. rewrite (round_comp _ (inject_Z i)).
    - apply round_int. lia.
    - rewrite Estep, Ei. ring. }
  assert (Ey : (Float64.add
                  (Float64.mul (Float64.of_int i)
                     (Float64.div dl (Float64.of_int (num - 1))))
                  (Float64.of_int start) == inject_Z (start + i))%Q).
  { unfold Float64.add. rewrite (round_comp _ (inject_Z (start + i))).
    - apply round_int. lia.
    - rewrite Ep, Es, inject_Z_plus. ring. }
  rewrite (Qfloor_comp _ _ Ey). apply Qfloor_Z.
Qed.

(** When the span holds at least [num] integers the step is at least 1 and
    the product is [i * step]. *)
Lemma product_step (num i : Z) :
  2 <= num -> num - 1 <= stop - start ->
  exists step : Q,
    product_at start stop num i = Float64.mul (Float64.of_int i) step /\
    (step == Float64.round (inject_Z (stop - start) / inject_Z (num - 1)))%Q /\
    (1 <= inject_Z (stop - start) / inject_Z (num - 1))%Q /\
    (1 <= step)%Q.
Proof.
  intros Hnum Hspan. unfold product_at.
  pose proof delta_exact as ED.
  pose proof (of_int_exact (num - 1) ltac:(lia)) as Ed.
  assert (HV : (1 <= inject_Z (num - 1))%Q)
    by (change 1%Q with (inject_Z 1); rewrite <- Zle_Qle; lia).
  assert (HDV : (inject_Z (num - 1) <= inject_Z (stop - start))%Q)
    by (rewrite <- Zle_Qle; lia).
  set (step := Float64.div
                 (Float64.sub (Float64.of_int stop) (Float64.of_int start))
                 (Float64.of_int (num - 1))).
  assert (Hq : (1 <= inject_Z (stop - start) / inject_Z (num - 1))%Q).
  { apply Qle_shift_div_l; lra. }
  assert (Estep : (step == Float64.round
                             (inject_Z (stop - start) / inject_Z (num - 1)))%Q).
  { unfold step, Float64.div. apply round_comp. rewrite ED, Ed. reflexivity. }
  assert (H1 : (1 <= step)%Q).
  { rewrite Estep. apply (round_ge_int _ 1); [lia | exact Hq]. }
  destruct (Z.ltb_spec 0 (num - 1)) as [_|?]; [|lia].
  destruct (Qeq_bool step 0) eqn:Ez.
  { apply Qeq_bool_iff in Ez. exfalso. lra. }
  exists step. repeat split; assumption.
Qed.

(** The sample as the floor of rounded sums of exact numbers. *)
Lemma sample_step (num i : Z) :
  2 <= num -> num - 1 <= stop - start -> 0 <= i <= num - 1 ->
  exists step : Q,
    sample_at start stop num i =
      Qfloor (Float64.round (Float64.round (inject_Z i * step) + inject_Z start)) /\
    (step == Float64.round (inject_Z (stop - start) / inject_Z (num - 1)))%Q /\
    (1 <= inject_Z (stop - start) / inject_Z (num - 1))%Q /\
    (1 <= step)%Q.
Proof.
  intros Hnum Hspan Hi.
  destruct (product_step num i Hnum Hspan) as [step [Ep [Es [Hq H1]]]].
  exists step. split; [|repeat split; assumption].
  unfold sample_at. rewrite to_int_floor, Ep. apply Qfloor_comp.
  unfold Float64.add, Float64.mul. apply round_comp.
  apply Qplus_comp; [|apply fstart_exact].
  apply round_comp. rewrite (of_int_exact i) by lia. reflexivity.
Qed.

(** The sample before the last is below [stop]. *)
Lemma sample_below_stop (num i : Z) :
  2 <= num -> num - 1 <= stop - start -> 0 <= i < num - 1 ->
  sample_at start stop num i < stop.
Proof.
  intros Hnum Hspan Hi.
  destruct (sample_step num i Hnum Hspan ltac:(lia)) as [step [-> [Es [Hq H1]]]].
  assert (Hq0 : (0 <= inject_Z (stop - start) / inject_Z (num - 1))%Q) by lra.
  destruct (round_error _ Hq0) as [_ Hst].
  rewrite <- Es in Hst.
  pose proof (inject_Z_nonneg i ltac:(lia)) as HI.
  pose proof (inject_Z_nonneg start ltac:(lia)) as HS.
  assert (HV : (1 <= inject_Z (num - 1))%Q)
    by (change 1%Q with (inject_Z 1); rewrite <- Zle_Qle; lia).
  assert (HIV : (inject_Z i + 1 <= inject_Z (num - 1))%Q).
  { change 1%Q with (inject_Z 1). rewrite <- inject_Z_plus, <- Zle_Qle. lia. }
  destruct (Qdiv_bounds (inject_Z (stop - start)) (inject_Z (num - 1))
              ltac:(apply inject_Z_nonneg; lia) ltac:(lra)) as [_ Eq].
  set (q := (inject_Z (stop - start) / inject_Z (num - 1))%Q) in *.
  set (D := inject_Z (stop - start)) in *.
  assert (HE : (D + inject_Z start <= inject_Z (2 ^ 51 - 1))%Q).
  { unfold D. rewrite <- inject_Z_plus, <- Zle_Qle. lia. }
  change (inject_Z (2 ^ 51 - 1)) with (2251799813685247 # 1)%Q in HE.
  assert (ES : (inject_Z stop == D + inject_Z start)%Q).
  { unfold D. rewrite <- inject_Z_plus. apply inject_Z_injective. lia. }
  unfold Float64.unit_roundoff in *.
  assert (Hx0 : (0 <= inject_Z i * step)%Q) by nra.
  assert (Hiq : (inject_Z i * q <= D - 1)%Q) by nra.
  assert (Hx : (inject_Z i * step <= (D - 1) * (1 + (1 # 9007199254740992)))%Q)
    by nra.
  destruct (round_error _ Hx0) as [_ Hp]. pose proof (round_nonneg _ Hx0) as Hp0.
  set (p := Float64.round (inject_Z i * step)) in *.
  destruct (round_error (p + inject_Z start) ltac:(lra)) as [_ Hy].
  set (y := Float64.round (p + inject_Z start)) in *.
  unfold Float64.unit_roundoff in *.
  assert (HD1 : (1 <= D)%Q) by nra.
  assert (Hlt : (y < inject_Z stop)%Q) by (rewrite ES; lra).
  pose proof (Qfloor_le y) as Hf.
  assert (H : (inject_Z (Qfloor y) < inject_Z stop)%Q) by lra.
  rewrite <- Zlt_Qlt in H. exact H.
Qed.

(** With a step of 5 or more consecutive samples differ. *)
Lemma sample_next_wide (num i : Z) :
  2 <= num -> 5 * (num - 1) <= stop - start -> 0 <= i -> i + 1 <= num - 1 ->
  sample_at start stop num i < sample_at start stop num (i + 1).
Proof.
  intros Hnum Hspan Hi Hi1.
  destruct (sample_step num i Hnum ltac:(lia) ltac:(lia)) as [step [-> [Es [Hq H1]]]].
  destruct (sample_step num (i + 1) Hnum ltac:(lia) ltac:(lia))
    as [step' [-> [Es' _]]].
  assert (HV : (1 <= inject_Z (num - 1))%Q)
    by (change 1%Q with (inject_Z 1); rewrite <- Zle_Qle; lia).
  assert (Hq5 : (inject_Z 5 <= inject_Z (stop - start) / inject_Z (num - 1))%Q).
  { apply Qle_shift_div_l; [lra|].
    rewrite <- inject_Z_mult, <- Zle_Qle. lia. }
  assert (H5 : (5 <= step)%Q).
  { rewrite Es. change 5%Q with (inject_Z 5). apply round_ge_int; [lia | exact Hq5]. }
  assert (E' : (step' == step)%Q) by (rewrite Es, Es'; reflexivity).
  assert (Hq0 : (0 <= inject_Z (stop - start) / inject_Z (num - 1))%Q) by lra.
  destruct (round_error _ Hq0) as [_ Hst].
  rewrite <- Es in Hst.
  pose proof (inject_Z_nonneg i ltac:(lia)) as HI.
  pose proof (inject_Z_nonneg start ltac:(lia)) as HS.
  assert (HIV : (inject_Z i + 1 <= inject_Z (num - 1))%Q).
  { change 1%Q with (inject_Z 1). rewrite <- inject_Z_plus, <- Zle_Qle. lia. }
  destruct (Qdiv_bounds (inject_Z (stop - start)) (inject_Z (num - 1))
              ltac:(apply inject_Z_nonneg; lia) ltac:(lra)) as [_ Eq].
  set (q := (inject_Z (stop - start) / inject_Z (num - 1))%Q) in *.
  assert (HD : (inject_Z (stop - start) <= inject_Z (2 ^ 51))%Q)
    by (rewrite <- Zle_Qle; lia).
  change (inject_Z (2 ^ 51)) with (2251799813685248 # 1)%Q in HD.
  unfold Float64.unit_roundoff in *.
  set (x := (inject_Z i * step)%Q) in *.
  assert (Hx0 : (0 <= x)%Q) by (unfold x; nra).
  assert (Hxu : (x <= inject_Z (2 ^ 52))%Q).
  { change (inject_Z (2 ^ 52)) with (4503599627370496 # 1)%Q.
    assert (inject_Z i * q <= inject_Z (stop - start))%Q by nra.
    unfold x. nra. }
  assert (Ex' : (inject_Z (i + 1) * step' == x + step)%Q).
  { rewrite E', inject_Z_plus. change (inject_Z 1) with 1%Q. unfold x. ring. }
  destruct (Qfloor_bounds x) as [F1 F2].
  assert (Hfx : 0 <= Qfloor x <= 2 ^ 52).
  { split.
    - rewrite <- (Qfloor_Z 0). apply Qfloor_resp_le. exact Hx0.
    - rewrite <- (Qfloor_Z (2 ^ 52)). apply Qfloor_resp_le. exact Hxu. }
  assert (P52 : 2 ^ 52 + 6 + 2 ^ 51 < 2 ^ 53) by reflexivity.
  set (k := Qfloor x + 1).
  assert (Hk1 : (x <= inject_Z k)%Q).
  { unfold k. rewrite inject_Z_plus. change (inject_Z 1) with 1%Q. lra. }
  assert (Hk2 : (inject_Z k <= x + 1)%Q).
  { unfold k. rewrite inject_Z_plus. change (inject_Z 1) with 1%Q. lra. }
  (* sample i is at most k + start *)
  pose proof (round_le_int x k Hx0 Hk1 ltac:(unfold k; lia)) as Hp.
  pose proof (round_nonneg x Hx0) as Hp0.
  assert (Hy : (Float64.round (Float64.round x + inject_Z start)
                <= inject_Z (k + start))%Q).
  { apply round_le_int; [lra | rewrite inject_Z_plus; lra | unfold k; lia]. }
  assert (Hs : Qfloor (Float64.round (Float64.round x + inject_Z start))
               <= k + start).
  { rewrite <- (Qfloor_Z (k + start)). apply Qfloor_resp_le. exact Hy. }
  (* sample i + 1 is at least k + 4 + start *)
  assert (Hp' : (inject_Z (k + 4) <= Float64.round (inject_Z (i + 1) * step'))%Q).
  { apply round_ge_int; [unfold k; lia|]. rewrite Ex', inject_Z_plus.
    change (inject_Z 4) with 4%Q. lra. }
  assert (Hy' : (inject_Z (k + 4 + start) <=
                 Float64.round (Float64.round (inject_Z (i + 1) * step')
                                + inject_Z start))%Q).
  { apply round_ge_int; [unfold k; lia|].
    rewrite (inject_Z_plus (k + 4)). lra. }
  apply Qfloor_resp_le in Hy'. rewrite Qfloor_Z in Hy'. lia.
Qed.

(** From [start = 0] consecutive samples differ. *)
Lemma sample_next_from_zero (num i : Z) :
  start = 0 ->
  2 <= num -> num - 1 <= stop -> 0 <= i -> i + 1 <= num - 1 ->
  sample_at start stop num i < sample_at start stop num (i + 1).
Proof.
  intros E0 Hnum Hspan Hi Hi1.
  destruct (sample_step num i Hnum ltac:(lia) ltac:(lia)) as [step [-> [Es [Hq H1]]]].
  destruct (sample_step num (i + 1) Hnum ltac:(lia) ltac:(lia))
    as [step' [-> [Es' _]]].
  assert (E' : (step' == step)%Q) by (rewrite Es, Es'; reflexivity).
  assert (HV : (1 <= inject_Z (num - 1))%Q)
    by (change 1%Q with (inject_Z 1); rewrite <- Zle_Qle; lia).
  assert (Hq0 : (0 <= inject_Z (stop - start) / inject_Z (num - 1))%Q) by lra.
  destruct (round_error _ Hq0) as [_ Hst].
  rewrite <- Es in Hst.
  pose proof (inject_Z_nonneg i ltac:(lia)) as HI.
  assert (HIV : (inject_Z i + 1 <= inject_Z (num - 1))%Q).
  { change 1%Q with (inject_Z 1). rewrite <- inject_Z_plus, <- Zle_Qle. lia. }
  destruct (Qdiv_bounds (inject_Z (stop - start)) (inject_Z (num - 1))
              ltac:(apply inject_Z_nonneg; lia) ltac:(lra)) as [_ Eq].
  set (q := (inject_Z (stop - start) / inject_Z (num - 1))%Q) in *.
  assert (HD : (inject_Z (stop - start) <= inject_Z (2 ^ 51))%Q)
    by (rewrite <- Zle_Qle; lia).
  change (inject_Z (2 ^ 51)) with (2251799813685248 # 1)%Q in HD.
  unfold Float64.unit_roundoff in *.
  set (x := (inject_Z i * step)%Q) in *.
  assert (Hx0 : (0 <= x)%Q) by (unfold x; nra).
  assert (Hxu : (x <= (2251799813685249 # 1))%Q).
  { assert (inject_Z i * q <= inject_Z (stop - start))%Q by nra.
    unfold x. nra. }
  assert (Ex' : (inject_Z (i + 1) * step' == x + step)%Q).
  { rewrite E', inject_Z_plus. change (inject_Z 1) with 1%Q. unfold x. ring. }
  (* with start = 0 the second rounding changes nothing *)
  assert (Ey : forall v, (0 <= v)%Q ->
            (Float64.round (Float64.round v + inject_Z start)
             == Float64.round v)%Q).
  { intros v Hv. rewrite <- (round_idempotent v Hv) at 2.
    apply round_comp. rewrite E0. change (inject_Z 0) with 0%Q. ring. }
  rewrite (Qfloor_comp _ _ (Ey x Hx0)).
  rewrite (Qfloor_comp _ _ (Ey (inject_Z (i + 1) * step')%Q ltac:(rewrite Ex'; lra))).
  rewrite (Qfloor_comp _ _ (round_comp _ _ Ex')).
  destruct (round_error x Hx0) as [_ Hpu].
  unfold Float64.unit_roundoff in Hpu.
  pose proof (round_nonneg x Hx0) as Hp0.
  destruct (Qfloor_bounds (Float64.round x)) as [F1 F2].
  set (a := Qfloor (Float64.round x)) in *.
  assert (Ha : 0 <= a <= 2 ^ 51 + 2).
  { split.
    - unfold a. rewrite <- (Qfloor_Z 0). apply Qfloor_resp_le. exact Hp0.
    - unfold a. rewrite <- (Qfloor_Z (2 ^ 51 + 2)). apply Qfloor_resp_le.
      change (inject_Z (2 ^ 51 + 2)) with (2251799813685250 # 1)%Q. lra. }
  assert (P : 2 ^ 51 + 2 + 1 < 2 ^ 52) by reflexivity.
  assert (Hnext : (inject_Z (a + 1) <= Float64.round (x + step))%Q).
  { destruct (Qlt_le_dec x (inject_Z a)) as [Hlt|Hge].
    - assert (Ha1 : 1 <= a).
      { assert (H0 : (inject_Z 0 < inject_Z a)%Q)
          by (change (inject_Z 0) with 0%Q; lra).
        rewrite <- Zlt_Qlt in H0. lia. }
      pose proof (round_next_integer a x Ha1 ltac:(lia) Hx0 Hlt F1) as Hn.
      eapply Qle_trans; [exact Hn|]. apply round_monotone; lra.
    - apply round_ge_int; [lia|]. rewrite inject_Z_plus.
      change (inject_Z 1) with 1%Q. lra. }
  apply Qfloor_resp_le in Hnext. rewrite Qfloor_Z in Hnext. lia.
Qed.

End Samples.

Lemma StronglySorted_map_seq (R : Z -> Z -> Prop) (f : Z -> Z) (k : nat) :
  forall a : nat,
  (forall i j, Z.of_nat a <= i -> i < j -> j < Z.of_nat (a + k) -> R (f i) (f j)) ->
  StronglySorted R (map f (map Z.of_nat (seq a k))).
Proof.
  induction k as [|k IH]; intros a HR; simpl.
  - constructor.
  - constructor.
    + apply IH. intros i j Hi Hij Hj. apply HR; lia.
    + rewrite Forall_forall. intros v Hv.
      rewrite map_map in Hv. apply in_map_iff in Hv.
      destruct Hv as [m [<- Hm]]. apply in_seq in Hm. apply HR; lia.
Qed.

Lemma StronglySorted_map_arange (R : Z -> Z -> Prop) (f : Z -> Z) (n : Z) :
  (forall i j, 0 <= i -> i < j -> j < n -> R (f i) (f j)) ->
  StronglySorted R (map f (Numpy.arange n)).
Proof.
  intros HR. unfold Numpy.arange. apply StronglySorted_map_seq.
  intros i j Hi Hij Hj. apply HR; lia.
Qed.

Lemma StronglySorted_snoc (R : Z -> Z -> Prop) (l : list Z) (v : Z) :
  StronglySorted R l -> Forall (fun x => R x v) l -> StronglySorted R (l ++ [v]).
Proof.
  induction 1 as [|x l Hs IH HF]; simpl; intros Hv.
  - repeat constructor.
  - apply Forall_cons_iff in Hv. destruct Hv as [Hx Hv]. constructor.
    + now apply IH.
    + apply Forall_app. split; [exact HF | constructor; [exact Hx | constructor]].
Qed.

Section SampleLists.
Variables start stop : Z.
Hypothesis Hstart : 0 <= start <= stop.
Hypothesis Hstop : stop < 2 ^ 51.

Lemma samples_bounds (num : Z) :
  Forall (fun v => start <= v <= stop) (samples start stop num).
Proof.
  assert (Hin : forall n v, n <= num ->
            In v (map (sample_at start stop num) (Numpy.arange n)) ->
            start <= v <= stop).
  { intros n v Hn Hv. apply in_map_iff in Hv. destruct Hv as [i [<- Hi]].
    apply arange_bounds in Hi. split.
    - apply sample_lower; lia.
    - apply sample_upper; lia. }
  unfold samples. destruct (Z.ltb_spec 1 num).
  - apply Forall_app. split.
    + rewrite Forall_forall. intros v Hv. apply (Hin (num - 1)); [lia | exact Hv].
    + constructor; [|constructor]. rewrite (sample_last start stop Hstart Hstop). lia.
  - rewrite Forall_forall. intros v Hv. apply (Hin num); [lia | exact Hv].
Qed.

Lemma samples_sorted (num : Z) : StronglySorted Z.le (samples start stop num).
Proof.
  unfold samples. destruct (Z.ltb_spec 1 num).
  - apply StronglySorted_snoc.
    + apply StronglySorted_map_arange. intros i j Hi Hij Hj.
      apply sample_monotone; lia.
    + rewrite Forall_forall. intros v Hv. apply in_map_iff in Hv.
      destruct Hv as [i [<- Hi]]. apply arange_bounds in Hi.
      rewrite (sample_last start stop Hstart Hstop). apply sample_upper; lia.
  - apply StronglySorted_map_arange. intros i j Hi Hij Hj.
    apply sample_monotone; lia.
Qed.

Lemma samples_ends (num : Z) (d : Z) :
  2 <= num ->
  hd d (samples start stop num) = start /\
  last (samples start stop num) d = stop.
Proof.
  intros Hnum. unfold samples. destruct (Z.ltb_spec 1 num); [|lia].
  rewrite last_last, (sample_last start stop Hstart Hstop). split; [|reflexivity].
  unfold Numpy.arange. destruct (Z.to_nat (num - 1)) as [|k] eqn:Ek; [lia|].
  cbn [seq map app hd]. apply sample_first; lia.
Qed.

Lemma samples_one : samples start stop 1 = [start].
Proof.
  unfold samples. change (1 <? 1) with false. change (Numpy.arange 1) with [0].
  cbn [map]. rewrite sample_first by lia. reflexivity.
Qed.

(** When the span holds at least [num] integers, and starts at 0 or is five
    times as long, the samples are strictly ascending. *)
Lemma samples_strict (num : Z) :
  1 <= num -> num - 1 <= stop - start ->
  start = 0 \/ 5 * (num - 1) <= stop - start ->
  StronglySorted Z.lt (samples start stop num).
Proof.
  intros Hnum Hspan Hcase.
  destruct (Z.eq_dec num 1) as [->|H1].
  { rewrite samples_one. repeat constructor. }
  assert (Hnext : forall i, 0 <= i -> i + 1 <= num - 1 ->
            sample_at start stop num i < sample_at start stop num (i + 1)).
  { intros i Hi Hi1. destruct Hcase as [E0|Hwide].
    - apply sample_next_from_zero; try assumption; lia.
    - apply sample_next_wide; try assumption; lia. }
  assert (Hlt : forall i j, 0 <= i -> i < j -> j < num - 1 ->
            sample_at start stop num i < sample_at start stop num j).
  { intros i j Hi Hij Hj.
    pose proof (Hnext i Hi ltac:(lia)).
    pose proof (sample_monotone start stop Hstart Hstop num (i + 1) j ltac:(lia)).
    lia. }
  unfold samples. destruct (Z.ltb_spec 1 num); [|lia].
  apply StronglySorted_snoc.
  - apply StronglySorted_map_arange. exact Hlt.
  - rewrite Forall_forall. intros v Hv. apply in_map_iff in Hv.
    destruct Hv as [i [<- Hi]]. apply arange_bounds in Hi.
    rewrite (sample_last start stop Hstart Hstop).
    apply sample_below_stop; try assumption; lia.
Qed.

End SampleLists.

Lemma insert_head (x : Z) (l : list Z) :
  Forall (Z.le x) l -> Numpy.insert x l = x :: l.
Proof.
  destruct l as [|y l]; [reflexivity|]. intros HF. simpl.
  apply Forall_inv in HF. destruct (Z.leb_spec x y); [reflexivity | lia].
Qed.

Lemma sort_sorted (l : list Z) : StronglySorted Z.le l -> Numpy.sort l = l.
Proof.
  induction 1 as [|x l Hs IH HF]; simpl; [reflexivity|].
  rewrite IH. now apply insert_head.
Qed.

Lemma keep_changes_incl (l : list Z) :
  forall prev v, In v (Numpy.keep_changes prev l) -> In v l.
Proof.
  induction l as [|x l IH]; intros prev v; simpl; [tauto|].
  destruct (x =? prev); simpl; intros Hin.
  - right; eauto.
  - destruct Hin; [left; assumption | right; eauto].
Qed.

Lemma keep_changes_length (l : list Z) :
  forall prev, (length (Numpy.keep_changes prev l) <= length l)%nat.
Proof.
  induction l as [|x l IH]; intros prev; simpl; [lia|].
  destruct (x =? prev); simpl; specialize (IH x); lia.
Qed.

Lemma keep_changes_ascending (l : list Z) :
  forall x, StronglySorted Z.le (x :: l) ->
  StronglySorted Z.lt (x :: Numpy.keep_changes x l).
Proof.
  induction l as [|y l IH]; intros x Hs; simpl.
  - repeat constructor.
  - apply StronglySorted_inv in Hs. destruct Hs as [Hs HF].
    pose proof (Forall_inv HF) as Hxy.
    destruct (Z.eqb_spec y x) as [->|Hne].
    + apply IH. exact Hs.
    + specialize (IH y Hs). constructor; [exact IH|].
      constructor; [lia|].
      apply StronglySorted_inv in IH. destruct IH as [_ HF'].
      eapply Forall_impl; [|exact HF']. simpl; intros; lia.
Qed.

Lemma keep_changes_strict (l : list Z) :
  forall x, StronglySorted Z.lt (x :: l) -> Numpy.keep_changes x l = l.
Proof.
  induction l as [|y l IH]; intros x Hs; simpl; [reflexivity|].
  apply StronglySorted_inv in Hs. destruct Hs as [Hs HF].
  pose proof (Forall_inv HF) as Hxy.
  destruct (Z.eqb_spec y x); [lia|]. f_equal. now apply IH.
Qed.

Lemma unique_sorted (l : list Z) :
  StronglySorted Z.le l ->
  StronglySorted Z.lt (Numpy.unique l) /\
  (forall v, In v (Numpy.unique l) -> In v l) /\
  (length (Numpy.unique l) <= length l)%nat /\
  (l <> [] -> Numpy.unique l <> []).
Proof.
  intros Hs. unfold Numpy.unique. rewrite (sort_sorted l Hs).
  destruct l as [|x l].
  - repeat split; auto. constructor.
  - repeat split.
    + now apply keep_changes_ascending.
    + simpl. intros v [Hv|Hv]; [left; exact Hv|].
      right. eapply keep_changes_incl; eauto.
    + simpl. pose proof (keep_changes_length l x). lia.
    + discriminate.
Qed.

Lemma StronglySorted_lt_le (l : list Z) :
  StronglySorted Z.lt l -> StronglySorted Z.le l.
Proof.
  induction 1; constructor; auto.
  eapply Forall_impl; [|eassumption]. simpl; intros; lia.
Qed.

Lemma unique_strict (l : list Z) : StronglySorted Z.lt l -> Numpy.unique l = l.
Proof.
  intros Hs. unfold Numpy.unique.
  rewrite (sort_sorted l (StronglySorted_lt_le l Hs)).
  destruct l as [|x l]; [reflexivity|]. f_equal. now apply keep_changes_strict.
Qed.

(* ================================================================== *)
(** * Slice selection *)

Section SliceSelectionFacts.
Context {T : Type} `{Numpy.Scalar T}.

(** The window around the brightest slice lies within the volume. *)
Lemma window_bounds (data : Numpy.ndarray3 T) (best N : Z) :
  0 <= best < Z.of_nat (Numpy.shape2 data) -> 0 <= N ->
  0 <= Z.max 0 (best - N * 5)
    <= Z.min (Z.of_nat (Numpy.shape2 data) - 1) (best + N * 5) /\
  Z.min (Z.of_nat (Numpy.shape2 data) - 1) (best + N * 5) < 2 ^ 51.
Proof.
  intros Hb HN. pose proof (Numpy.shape2_fits data) as Hfit.
  assert (2 ^ 48 < 2 ^ 51) by reflexivity. lia.
Qed.

(** With at least one slice and a non-negative count the function returns:
    it is the sorted, deduplicated sample list around the argmax. *)
Lemma find_slices_of_interest_unfold (data : Numpy.ndarray3 T) (N : Z) :
  (1 <= Numpy.shape2 data)%nat -> 0 <= N ->
  exists best,
    Numpy.argmax (Numpy.sum_axis01 data) = Ok best /\
    0 <= best < Z.of_nat (Numpy.shape2 data) /\
    Initial.find_slices_of_interest data N =
      Ok (Numpy.unique
            (samples
               (Z.max 0 (best - N * 5))
               (Z.min (Z.of_nat (Numpy.shape2 data) - 1) (best + N * 5)) N)).
Proof.
  intros Hz HN.
  destruct (argmax_range (Numpy.sum_axis01 data)) as [best [Ebest Hbest]].
  { intros E. apply (f_equal (@length T)) in E.
    rewrite sum_axis01_length in E. simpl in E. lia. }
  rewrite sum_axis01_length in Hbest.
  exists best. repeat split; try tauto.
  unfold Initial.find_slices_of_interest. rewrite Ebest. simpl.
  rewrite linspace_returns_samples by exact HN. reflexivity.
Qed.

(** C1: for a volume with z_size >= 1 and a count N >= 1 slice selection
    returns a strictly ascending list of indices, each in
    [0, z_size - 1], of length between 1 and N; when z_size = 1 the list
    is exactly [0]. *)
Theorem find_slices_of_interest_ascending_in_range
  (data : Numpy.ndarray3 T) (N : Z) :
  (1 <= Numpy.shape2 data)%nat -> 1 <= N ->
  exists l,
    Initial.find_slices_of_interest data N = Ok l /\
    StronglySorted Z.lt l /\
    Forall (fun i => 0 <= i <= Z.of_nat (Numpy.shape2 data) - 1) l /\
    1 <= Z.of_nat (length l) <= N /\
    (Numpy.shape2 data = 1%nat -> l = [0]).
Proof.
  intros Hz HN.
  destruct (find_slices_of_interest_unfold data N Hz) as [best [_ [Hb E]]];
    [lia|].
  destruct (window_bounds data best N Hb ltac:(lia)) as [Hlohi Hfit].
  set (lo := Z.max 0 (best - N * 5)) in *.
  set (hi := Z.min (Z.of_nat (Numpy.shape2 data) - 1) (best + N * 5)) in *.
  destruct (unique_sorted _ (samples_sorted lo hi Hlohi Hfit N))
    as [Hasc [Hincl [Hlen Hne]]].
  set (l := Numpy.unique (samples lo hi N)) in *.
  assert (Hrange : Forall (fun i => 0 <= i <= Z.of_nat (Numpy.shape2 data) - 1) l).
  { rewrite Forall_forall. intros v Hv. apply Hincl in Hv.
    pose proof (samples_bounds lo hi Hlohi Hfit N) as HB.
    rewrite Forall_forall in HB. specialize (HB v Hv). unfold lo, hi in HB. lia. }
  assert (Hlen1 : 1 <= Z.of_nat (length l) <= N).
  { rewrite samples_length in Hlen by lia. split; [|lia].
    destruct l as [|x l'] eqn:El; [|simpl; lia].
    exfalso. apply Hne; [|reflexivity].
    intros E0. apply (f_equal (@length Z)) in E0.
    rewrite samples_length in E0 by lia. simpl in E0. lia. }
  exists l. repeat split; try assumption; try lia.
  intros Hz1. destruct l as [|x [|y l']]; simpl in Hlen1; [lia| |].
  - apply Forall_inv in Hrange. f_equal. lia.
  - exfalso. apply StronglySorted_inv in Hasc. destruct Hasc as [_ HF].
    apply Forall_inv in HF. apply Forall_inv in Hrange as Hx.
    apply Forall_inv_tail, Forall_inv in Hrange. lia.
Qed.

End SliceSelectionFacts.

(** The theorem at [vol_example] with ten slices asked for. *)
Lemma find_slices_of_interest_ascending_in_range_witness :
  exists l,
    Initial.find_slices_of_interest vol_example 10 = Ok l /\
    StronglySorted Z.lt l /\
    Forall (fun i => 0 <= i <= Z.of_nat (Numpy.shape2 vol_example) - 1) l /\
    1 <= Z.of_nat (length l) <= 10 /\
    (Numpy.shape2 vol_example = 1%nat -> l = [0]).
Proof.
  apply (find_slices_of_interest_ascending_in_range vol_example 10).
  - simpl; lia.
  - lia.
Defined.
(* ------------------------------------------------------------------ *)
(** ** The algorithm of section 4.2 *)

Section ArgmaxBrightest.
Context {T : Type} `{Numpy.Scalar T}.
Hypothesis le_total : forall x y : T,
  Numpy.isnan x = false -> Numpy.isnan y = false ->
  Numpy.le x y = true \/ Numpy.le y x = true.
Hypothesis le_trans : forall x y z : T,
  Numpy.le x y = true -> Numpy.le y z = true -> Numpy.le x z = true.
Hypothesis nan_le : forall x y : T, Numpy.isnan x = true -> Numpy.le x y = false.




End ArgmaxBrightest.











Section SliceSelectionAlgorithm.
Context {T : Type} `{Numpy.Scalar T}.


(** C8: the initial and the final pipeline define the same slice
    selection: on every volume and every count they return the same
    result. *)
Theorem find_slices_of_interest_initial_eq_final
  (data : Numpy.ndarray3 T) (N : Z) :
  Initial.find_slices_of_interest data N = Final.find_slices_of_interest data N.
Proof. reflexivity. Qed.

End SliceSelectionAlgorithm.

(** The sums of a column are its voxels. *)
Lemma column_slice_sum (z_size bright : nat) fits (z : nat) :
  slice_sum (column z_size bright fits) z = if Nat.eqb z bright then 1 else 0.
Proof. unfold slice_sum. cbn. destruct (Nat.eqb z bright); reflexivity. Qed.

Lemma column_first_maximum (z_size bright : nat) fits :
  (bright < z_size)%nat ->
  first_maximum (slice_sum (column z_size bright fits)) z_size bright.
Proof.
  intros Hb. repeat split; [exact Hb | |]; intros j Hj;
    rewrite !column_slice_sum, Nat.eqb_refl;
    destruct (Nat.eqb_spec j bright); try reflexivity; lia.
Qed.







(* ------------------------------------------------------------------ *)
(** ** The number of slices returned *)

Lemma StronglySorted_lt_NoDup (l : list Z) : StronglySorted Z.lt l -> NoDup l.
Proof.
  induction 1 as [|x l Hs IH HF]; constructor; [|exact IH].
  intros Hin. rewrite Forall_forall in HF. specialize (HF x Hin). lia.
Qed.

Section SliceCount.
Context {T : Type} `{Numpy.Scalar T}.

(** C9: when z_size >= N >= 1 the clamped span [lo, hi] holds at least
    min(z_size, N * 5 + 1) >= N integers, the N samples that
    [np.linspace] returns are pairwise distinct, and slice selection
    returns exactly these N indices; the result is shorter than N only
    when z_size < N.  The samples are those of float64 arithmetic: they
    differ because rounding does not cross an integer and the window
    starts at 0 or is at least 5 * N long. *)
Theorem find_slices_of_interest_exact_count
  (data : Numpy.ndarray3 T) (N : Z) :
  1 <= N -> N <= Z.of_nat (Numpy.shape2 data) ->
  exists best l,
    Numpy.argmax (Numpy.sum_axis01 data) = Ok best /\
    (let zsize := Z.of_nat (Numpy.shape2 data) in
     let lo := Z.max 0 (best - N * 5) in
     let hi := Z.min (zsize - 1) (best + N * 5) in
     N <= Z.min zsize (N * 5 + 1) <= hi - lo + 1 /\
     Numpy.linspace lo hi N = Ok l) /\
    Initial.find_slices_of_interest data N = Ok l /\
    Z.of_nat (length l) = N /\
    NoDup l.
Proof.
  intros HN Hz.
  destruct (find_slices_of_interest_unfold data N) as [best [Ebest [Hb E]]];
    [lia | lia |].
  destruct (window_bounds data best N Hb ltac:(lia)) as [Hlohi Hfit].
  set (lo := Z.max 0 (best - N * 5)) in *.
  set (hi := Z.min (Z.of_nat (Numpy.shape2 data) - 1) (best + N * 5)) in *.
  assert (Hspan : N <= Z.min (Z.of_nat (Numpy.shape2 data)) (N * 5 + 1)
                    <= hi - lo + 1) by (unfold lo, hi; lia).
  assert (Hstrict : StronglySorted Z.lt (samples lo hi N)).
  { apply samples_strict; try assumption; lia. }
  rewrite (unique_strict _ Hstrict) in E.
  exists best, (samples lo hi N).
  split; [exact Ebest|]. split; [|split; [exact E|split]].
  - cbv zeta. fold lo hi. split; [lia|].
    apply linspace_returns_samples. lia.
  - rewrite samples_length by lia. lia.
  - now apply StronglySorted_lt_NoDup.
Qed.

End SliceCount.

(** The theorem at [vol_example]: ten of its 200 slices. *)
Lemma find_slices_of_interest_exact_count_witness :
  exists best l,
    Numpy.argmax (Numpy.sum_axis01 vol_example) = Ok best /\
    (let zsize := Z.of_nat (Numpy.shape2 vol_example) in
     let lo := Z.max 0 (best - 10 * 5) in
     let hi := Z.min (zsize - 1) (best + 10 * 5) in
     10 <= Z.min zsize (10 * 5 + 1) <= hi - lo + 1 /\
     Numpy.linspace lo hi 10 = Ok l) /\
    Initial.find_slices_of_interest vol_example 10 = Ok l /\
    Z.of_nat (length l) = 10 /\
    NoDup l.
Proof.
  apply (find_slices_of_interest_exact_count vol_example 10).
  - lia.
  - simpl; lia.
Defined.

(* ================================================================== *)
(** * Strings *)

Lemma append_nil_r (s : string) : (s ++ "")%string = s.
Proof. induction s as [|c s IH]; simpl; [reflexivity | now rewrite IH]. Qed.

Lemma append_assoc (a b c : string) :
  ((a ++ b) ++ c)%string = (a ++ (b ++ c))%string.
Proof. induction a as [|x a IH]; simpl; [reflexivity | now rewrite IH]. Qed.

Lemma take_drop_while (p : ascii -> bool) (s : string) :
  s = (Str.take_while p s ++ Str.drop_while p s)%string.
Proof.
  induction s as [|c s IH]; simpl; [reflexivity|].
  destruct (p c); simpl; [now rewrite <- IH | reflexivity].
Qed.

Lemma take_while_all (p : ascii -> bool) (s : string) :
  all_chars p (Str.take_while p s) = true.
Proof.
  induction s as [|c s IH]; simpl; [reflexivity|].
  destruct (p c) eqn:E; simpl; [now rewrite E | reflexivity].
Qed.

Lemma take_while_app (p : ascii -> bool) (tok rest : string) :
  all_chars p tok = true ->
  Str.take_while p (tok ++ rest) = (tok ++ Str.take_while p rest)%string /\
  Str.drop_while p (tok ++ rest) = Str.drop_while p rest.
Proof.
  induction tok as [|c tok IH]; simpl; intros Hall; [split; reflexivity|].
  apply andb_true_iff in Hall. destruct Hall as [Hc Hall].
  rewrite Hc. destruct (IH Hall) as [E1 E2]. now rewrite E1, E2.
Qed.

Lemma drop_while_token_end (rest : string) :
  token_end rest ->
  Str.take_while GenerateHtml.not_underscore rest = EmptyString /\
  Str.drop_while GenerateHtml.not_underscore rest = rest.
Proof. intros [->|[r ->]]; split; reflexivity. Qed.

(* ================================================================== *)
(** * Scan keys *)

Import GenerateHtml.

Lemma match_literal_sound (lit : string) : forall s m r,
  match_literal lit s = Some (m, r) ->
  s = (m ++ r)%string /\ lower_string m = lit.
Proof.
  induction lit as [|l lit IH]; intros s m r; simpl.
  - intros E; inversion E; subst. split; reflexivity.
  - destruct s as [|c s]; [discriminate|].
    destruct (Ascii.eqb_spec (Str.lower c) l) as [El|]; [|discriminate].
    destruct (match_literal lit s) as [[m' r']|] eqn:Em; [|discriminate].
    intros E; inversion E; subst. destruct (IH _ _ _ Em) as [-> <-].
    split; reflexivity.
Qed.

Lemma match_literal_complete (p : string) : forall r,
  match_literal (lower_string p) (p ++ r) = Some (p, r).
Proof.
  induction p as [|c p IH]; intros r; simpl; [reflexivity|].
  now rewrite Ascii.eqb_refl, IH.
Qed.

Lemma match_segment_sound (lit s g r : string) :
  match_segment lit s = Some (g, r) ->
  s = (g ++ r)%string /\ is_segment lit g.
Proof.
  unfold match_segment.
  destruct (match_literal lit s) as [[m r0]|] eqn:Em; [|discriminate].
  destruct (match_literal_sound _ _ _ _ Em) as [-> Hlow].
  destruct (Str.take_while not_underscore r0) as [|c tok] eqn:Et; [discriminate|].
  intros E; inversion E; subst. split.
  - rewrite append_assoc, <- Et. f_equal. apply take_drop_while.
  - exists m, (String c tok). repeat split; [discriminate|].
    rewrite <- Et. apply take_while_all.
Qed.

(** A segment at the head of the name is found, with the longest token. *)
Lemma match_segment_prefix (lit seg rest : string) :
  is_segment lit seg ->
  exists more,
    match_segment lit (seg ++ rest) =
      Some ((seg ++ more)%string, Str.drop_while not_underscore rest) /\
    more = Str.take_while not_underscore rest.
Proof.
  intros [p [tok [-> [<- [Hne Hall]]]]].
  exists (Str.take_while not_underscore rest). split; [|reflexivity].
  unfold match_segment. rewrite append_assoc, match_literal_complete.
  destruct (take_while_app not_underscore tok rest Hall) as [E1 E2].
  rewrite E1, E2. destruct tok as [|c tok]; [congruence|].
  simpl. now rewrite append_assoc.
Qed.

Lemma match_segment_exact (lit seg rest : string) :
  is_segment lit seg -> token_end rest ->
  match_segment lit (seg ++ rest) = Some (seg, rest).
Proof.
  intros Hseg Hend.
  destruct (match_segment_prefix lit seg rest Hseg) as [more [E ->]].
  destruct (drop_while_token_end rest Hend) as [E1 E2].
  now rewrite E, E1, E2, append_nil_r.
Qed.

Lemma match_optional_sound (lit s : string) (g : option string) (r : string) :
  match_optional lit s = (g, r) ->
  (g = None /\ r = s) \/
  (exists seg, g = Some seg /\ s = ("_" ++ seg ++ r)%string /\ is_segment lit seg).
Proof.
  unfold match_optional.
  destruct s as [|c s]; [intros E; inversion E; left; split; reflexivity|].
  destruct (Ascii.eqb_spec c "_") as [->|Hc].
  - destruct (match_segment lit s) as [[seg r']|] eqn:Em.
    + intros E; inversion E; subst. right. exists seg.
      destruct (match_segment_sound _ _ _ _ Em) as [-> Hseg].
      repeat split; assumption.
    + intros E; inversion E; left; split; reflexivity.
  - assert (E0 : (match c with
                  | "_"%char =>
                      match match_segment lit s with
                      | Some (g0, r') => (Some g0, r')
                      | None => (None, String c s)
                      end
                  | _ => (None, String c s)
                  end) = (None, String c s)).
    { destruct c as [[] [] [] [] [] [] [] []]; try reflexivity.
      exfalso; apply Hc; reflexivity. }
    rewrite E0. intros E; inversion E; left; split; reflexivity.
Qed.

Lemma match_optional_present (lit seg rest : string) :
  is_segment lit seg -> token_end rest ->
  match_optional lit ("_" ++ seg ++ rest) = (Some seg, rest).
Proof.
  intros Hseg Hend. simpl. now rewrite match_segment_exact.
Qed.

Lemma pattern_match_sound (s g1 : string) (g2 g3 : option string) :
  pattern_match s = Some (g1, g2, g3) ->
  exists ses_part run_part rest,
    s = (g1 ++ ses_part ++ run_part ++ rest)%string /\
    is_segment "sub-" g1 /\
    ((g2 = None /\ ses_part = EmptyString) \/
     (exists ses, g2 = Some ses /\ ses_part = ("_" ++ ses)%string /\
                  is_segment "ses-" ses)) /\
    ((g3 = None /\ run_part = EmptyString) \/
     (exists run, g3 = Some run /\ run_part = ("_" ++ run)%string /\
                  is_segment "run-" run)).
Proof.
  unfold pattern_match.
  destruct (match_segment "sub-" s) as [[g r1]|] eqn:E1; [|discriminate].
  destruct (match_optional "ses-" r1) as [o2 r2] eqn:E2.
  destruct (match_optional "run-" r2) as [o3 r3] eqn:E3.
  intros E; inversion E; subst.
  destruct (match_segment_sound _ _ _ _ E1) as [-> Hsub].
  apply match_optional_sound in E2. apply match_optional_sound in E3.
  destruct E2 as [[-> ->]|[ses [-> [-> Hses]]]];
    destruct E3 as [[-> ->]|[run [-> [E3 Hrun]]]].
  - exists EmptyString, EmptyString, r1. repeat split; auto.
  - subst r1. exists EmptyString, ("_" ++ run)%string, r3.
    repeat split; auto. right. exists run. auto.
  - exists ("_" ++ ses)%string, EmptyString, r2. split.
    + simpl. rewrite ?append_assoc. reflexivity.
    + repeat split; auto. right. exists ses. auto.
  - subst r2. exists ("_" ++ ses)%string, ("_" ++ run)%string, r3. split.
    + simpl. rewrite ?append_assoc. reflexivity.
    + repeat split; auto; right; eexists; eauto.
Qed.

Lemma pattern_search_sound (s g1 : string) (g2 g3 : option string) :
  pattern_search s = Some (g1, g2, g3) ->
  exists pre tail, s = (pre ++ tail)%string /\ pattern_match tail = Some (g1, g2, g3).
Proof.
  induction s as [|c s IH]; simpl.
  - discriminate.
  - destruct (pattern_match (String c s)) as [m|] eqn:Em.
    + intros E; inversion E; subst. exists EmptyString, (String c s). auto.
    + intros E. destruct (IH E) as [pre [tail [-> Ht]]].
      exists (String c pre), tail. auto.
Qed.

Lemma pattern_search_head (s : string) m :
  pattern_match s = Some m -> pattern_search s = Some m.
Proof.
  intros E. destruct s; cbn [pattern_search]; rewrite E; reflexivity.
Qed.

Lemma pattern_search_found (pre s : string) :
  pattern_match s <> None -> pattern_search (pre ++ s) <> None.
Proof.
  intros Hs. induction pre as [|c pre IH]; simpl.
  - destruct (pattern_match s) as [m|] eqn:Em; [|congruence].
    rewrite (pattern_search_head s m Em). discriminate.
  - cbn [pattern_search].
    destruct (pattern_match (String c (pre ++ s))); [discriminate | exact IH].
Qed.

Lemma pattern_match_subject (seg rest : string) :
  is_segment "sub-" seg -> pattern_match (seg ++ rest) <> None.
Proof.
  intros Hseg. unfold pattern_match.
  destruct (match_segment_prefix "sub-" seg rest Hseg) as [more [E _]].
  rewrite E. destruct (match_optional "ses-" _) as [o2 r2].
  destruct (match_optional "run-" r2). discriminate.
Qed.

Lemma pattern_search_skip (pre s : string) :
  all_chars not_s pre = true -> pattern_search (pre ++ s) = pattern_search s.
Proof.
  induction pre as [|c pre IH]; simpl; intros Hall; [reflexivity|].
  apply andb_true_iff in Hall. destruct Hall as [Hc Hall].
  unfold pattern_match, match_segment. simpl.
  unfold not_s in Hc. apply negb_true_iff in Hc. rewrite Hc. now apply IH.
Qed.

Lemma token_end_underscore (s : string) : token_end ("_" ++ s).
Proof. right. exists s. reflexivity. Qed.

Lemma scan_key_full (pre sub ses run rest : string) :
  all_chars not_s pre = true ->
  is_segment "sub-" sub -> is_segment "ses-" ses -> is_segment "run-" run ->
  token_end rest ->
  scan_key (pre ++ sub ++ "_" ++ ses ++ "_" ++ run ++ rest) = Some (sub, ses, run).
Proof.
  intros Hpre Hsub Hses Hrun Hend. unfold scan_key.
  rewrite pattern_search_skip by exact Hpre.
  rewrite (pattern_search_head _ (sub, Some ses, Some run)); [reflexivity|].
  unfold pattern_match.
  rewrite (match_segment_exact "sub-" sub) by (auto using token_end_underscore).
  rewrite (match_optional_present "ses-" ses) by (auto using token_end_underscore).
  now rewrite (match_optional_present "run-" run).
Qed.

Lemma scan_key_none_iff (fname : string) :
  scan_key fname = None <-> ~ has_subject_segment fname.
Proof.
  unfold scan_key. split.
  - intros E [pre [seg [rest [-> Hseg]]]].
    pose proof (pattern_search_found pre (seg ++ rest)
                  (pattern_match_subject seg rest Hseg)) as Hne.
    destruct (pattern_search (pre ++ seg ++ rest)) as [[[g1 g2] g3]|];
      [discriminate | congruence].
  - intros Hno.
    destruct (pattern_search fname) as [[[g1 g2] g3]|] eqn:E; [|reflexivity].
    exfalso. apply Hno.
    destruct (pattern_search_sound _ _ _ _ E) as [pre [tail [-> Ht]]].
    destruct (pattern_match_sound _ _ _ _ Ht)
      as [ses_part [run_part [rest [-> [Hsub _]]]]].
    exists pre, g1, (ses_part ++ run_part ++ rest)%string. auto.
Qed.

Lemma drop_while_end (s : string) :
  token_end (Str.drop_while not_underscore s).
Proof.
  induction s as [|c s IH]; simpl; [left; reflexivity|].
  destruct (Ascii.eqb_spec c "_") as [->|Hc]; simpl.
  - right. exists s. reflexivity.
  - unfold not_underscore.
    destruct (Ascii.eqb_spec c "_") as [E|_]; [contradiction|]. exact IH.
Qed.

(** The token of a segment matched is the longest. *)
Lemma match_segment_end (lit s g r : string) :
  match_segment lit s = Some (g, r) -> token_end r.
Proof.
  unfold match_segment.
  destruct (match_literal lit s) as [[m r0]|]; [|discriminate].
  destruct (Str.take_while not_underscore r0); [discriminate|].
  intros E; inversion E; subst. apply drop_while_end.
Qed.

Lemma match_segment_none (lit s : string) :
  match_segment lit s = None <-> ~ segment_at_head lit s.
Proof.
  split.
  - intros E [seg [rest [-> Hseg]]].
    destruct (match_segment_prefix lit seg rest Hseg) as [more [E' _]].
    congruence.
  - intros Hno. destruct (match_segment lit s) as [[g r]|] eqn:E; [|reflexivity].
    exfalso. apply Hno. destruct (match_segment_sound _ _ _ _ E) as [-> Hseg].
    exists g, r. split; [reflexivity | exact Hseg].
Qed.

Lemma pattern_match_none (s : string) :
  pattern_match s = None <-> ~ segment_at_head "sub-" s.
Proof.
  rewrite <- match_segment_none. unfold pattern_match.
  destruct (match_segment "sub-" s) as [[g1 r1]|].
  - destruct (match_optional "ses-" r1) as [g2 r2].
    destruct (match_optional "run-" r2) as [g3 r3].
    split; discriminate.
  - split; reflexivity.
Qed.

(** The optional group: the segment that follows, or nothing when none
    follows. *)
Lemma match_optional_spec (lit s : string) (g : option string) (r : string) :
  match_optional lit s = (g, r) ->
  (g = None /\ r = s /\ none_follows lit s) \/
  (exists seg, g = Some seg /\ follows lit seg s r).
Proof.
  intros E. destruct (match_optional_sound lit s g r E)
    as [[-> ->]|[seg [-> [Es Hseg]]]].
  - left. repeat split. intros [r' [-> Hhead]].
    simpl in E.
    destruct (match_segment lit r') as [[g' r'']|] eqn:Em; [discriminate E|].
    exact (proj1 (match_segment_none lit r') Em Hhead).
  - right. exists seg. repeat split; try assumption.
    subst s. simpl in E.
    destruct (match_segment lit (seg ++ r)) as [[g' r']|] eqn:Em;
      [|discriminate E].
    inversion E; subst. eapply match_segment_end; eassumption.
Qed.

Lemma match_optional_absent (lit s : string) :
  none_follows lit s -> match_optional lit s = (None, s).
Proof.
  intros Hno. destruct (match_optional lit s) as [g r] eqn:E.
  destruct (match_optional_spec lit s g r E)
    as [[-> [-> _]]|[seg [_ [-> [Hseg _]]]]]; [reflexivity|].
  exfalso. apply Hno. exists (seg ++ r)%string. split; [reflexivity|].
  exists seg, r. split; [reflexivity | exact Hseg].
Qed.

(** The search returns the match at the first position that has one. *)
Lemma pattern_search_first (s : string) m :
  pattern_search s = Some m ->
  exists pre tail,
    s = (pre ++ tail)%string /\ pattern_match tail = Some m /\
    (forall a b, pre = (a ++ b)%string -> b <> EmptyString ->
       pattern_match (b ++ tail) = None).
Proof.
  induction s as [|c s IH]; simpl.
  - discriminate.
  - destruct (pattern_match (String c s)) as [m'|] eqn:Em.
    + intros E; inversion E; subst. exists EmptyString, (String c s).
      repeat split; [exact Em|].
      intros a b Hab Hb. destruct a; destruct b; try discriminate Hab.
      congruence.
    + intros E. destruct (IH E) as [pre [tail [-> [Ht Hnone]]]].
      exists (String c pre), tail. repeat split; [exact Ht|].
      intros a b Hab Hb. destruct a as [|x a].
      * simpl in Hab. subst b. exact Em.
      * inversion Hab; subst. now apply (Hnone a b).
Qed.

Lemma pattern_search_behind (pre tail : string) :
  (forall a b, pre = (a ++ b)%string -> b <> EmptyString ->
     pattern_match (b ++ tail) = None) ->
  pattern_search (pre ++ tail) = pattern_search tail.
Proof.
  induction pre as [|c pre IH]; intros Hnone; [reflexivity|].
  pose proof (Hnone EmptyString (String c pre) eq_refl ltac:(discriminate))
    as H0.
  cbn [append] in H0 |- *. cbn [pattern_search]. rewrite H0.
  apply IH. intros a b Hab Hb. apply (Hnone (String c a) b); [|exact Hb].
  simpl. now rewrite Hab.
Qed.

(** The key returned is the key of the name, and only that. *)
Lemma scan_key_iff (fname : string) (key : string * string * string) :
  scan_key fname = Some key <-> key_of_name fname key.
Proof.
  destruct key as [[sub ses] run]. unfold scan_key, key_of_name. split.
  - destruct (pattern_search fname) as [[[g1 g2] g3]|] eqn:E; [|discriminate].
    intros Ek; inversion Ek; subst; clear Ek.
    destruct (pattern_search_first _ _ E) as [pre [tail [-> [Ht Hnone]]]].
    unfold pattern_match in Ht.
    destruct (match_segment "sub-" tail) as [[g r1]|] eqn:E1; [|discriminate].
    destruct (match_optional "ses-" r1) as [o2 r2] eqn:E2.
    destruct (match_optional "run-" r2) as [o3 r3] eqn:E3.
    inversion Ht; subst; clear Ht.
    destruct (match_segment_sound _ _ _ _ E1) as [-> Hsub].
    exists pre, r1, r2, r3. split; [|split].
    + repeat split; [exact Hsub | eapply match_segment_end; eassumption |].
      intros a b Hab Hb. apply pattern_match_none. now apply (Hnone a b).
    + destruct (match_optional_spec _ _ _ _ E2) as [[-> [-> Hno]]|[seg [-> Hf]]];
        [right; auto | left; exact Hf].
    + destruct (match_optional_spec _ _ _ _ E3) as [[-> [-> Hno]]|[seg [-> Hf]]];
        [right; auto | left; exact Hf].
  - intros [pre [r1 [r2 [r3 [[-> [Hsub [Hend Hfirst]]] [Hses Hrun]]]]]].
    rewrite pattern_search_behind
      by (intros a b Hab Hb; apply pattern_match_none; now apply (Hfirst a b)).
    assert (Em : exists g2 g3,
              pattern_match (sub ++ r1) = Some (sub, g2, g3) /\
              match g2 with Some s => s | None => "ses-01" end = ses /\
              match g3 with Some r => r | None => EmptyString end = run).
    { unfold pattern_match. rewrite (match_segment_exact "sub-" sub r1 Hsub Hend).
      destruct Hses as [[-> [Hseg He]]|[Hno [-> ->]]].
      - rewrite (match_optional_present "ses-" ses r2 Hseg He).
        destruct Hrun as [[-> [Hseg' He']]|[Hno' [-> ->]]].
        + rewrite (match_optional_present "run-" run r3 Hseg' He').
          exists (Some ses), (Some run). auto.
        + rewrite (match_optional_absent "run-" r2 Hno').
          exists (Some ses), None. auto.
      - rewrite (match_optional_absent "ses-" r1 Hno).
        destruct Hrun as [[-> [Hseg' He']]|[Hno' [-> ->]]].
        + rewrite (match_optional_present "run-" run r3 Hseg' He').
          exists None, (Some run). auto.
        + rewrite (match_optional_absent "run-" r1 Hno').
          exists None, None. auto. }
    destruct Em as [g2 [g3 [Em [<- <-]]]].
    rewrite (pattern_search_head _ _ Em). reflexivity.
Qed.

(** C3: scan-key extraction.  The two names of the specification give
    (sub-001, ses-02, run-3) and (sub-007, ses-01, empty); the segments are
    recognised in any case, and a session or a run that stands alone
    behind the subject is reported.  In general the key returned is
    exactly the key of the name: its first subject segment, whose token
    runs up to the next separator; the session segment that follows it, or
    ses-01 when none follows; the run segment that follows these, or the
    empty string when none follows.  A subject, session and run segment
    in a row are all reported; the key is missing exactly when no subject
    segment occurs in the name, and such a file leaves the grouping
    untouched. *)
Theorem scan_key_extraction :
  scan_key "sub-001_ses-02_run-3_T1w.nii.gz" = Some ("sub-001", "ses-02", "run-3")
  /\ scan_key "sub-007_T1w.nii.gz" = Some ("sub-007", "ses-01", "")
  /\ scan_key "SUB-7_Ses-A_RUN-2_T1w.nii.gz" = Some ("SUB-7", "Ses-A", "RUN-2")
  /\ scan_key "sub-01_ses-02_T1w.nii.gz" = Some ("sub-01", "ses-02", "")
  /\ scan_key "sub-01_run-2_T1w.nii.gz" = Some ("sub-01", "ses-01", "run-2")
  /\ (forall fname key, scan_key fname = Some key <-> key_of_name fname key)
  /\ (forall pre sub ses run rest,
        all_chars not_s pre = true ->
        is_segment "sub-" sub -> is_segment "ses-" ses -> is_segment "run-" run ->
        token_end rest ->
        scan_key (pre ++ sub ++ "_" ++ ses ++ "_" ++ run ++ rest)
          = Some (sub, ses, run))
  /\ (forall fname, scan_key fname = None <-> ~ has_subject_segment fname)
  /\ (forall fname dirpath data_map,
        scan_key fname = None -> group_file dirpath fname data_map = data_map).
Proof.
  split; [reflexivity|]. split; [reflexivity|]. split; [reflexivity|].
  split; [reflexivity|]. split; [reflexivity|].
  split; [exact scan_key_iff|].
  split; [exact scan_key_full | split; [exact scan_key_none_iff|]].
  intros fname dirpath data_map E. unfold group_file. rewrite E.
  destruct (negb _); reflexivity.
Qed.

(** A name without a subject segment is left out of the grouping. *)
Lemma scan_key_extraction_witness :
  scan_key "T1w.nii.gz" = None /\
  group_file "/results/misc" "T1w.nii.gz" [] = [].
Proof.
  split; [reflexivity|].
  apply (proj2 (proj2 (proj2 (proj2 (proj2 (proj2 (proj2 (proj2
           scan_key_extraction)))))))).
  reflexivity.
Defined.

(* ================================================================== *)
(** * The order of the grouped output *)

Lemma tuple_leb_spec (a b : Z * Z * Z) : tuple_leb a b = true <-> lex_le a b.
Proof.
  destruct a as [[a1 a2] a3], b as [[b1 b2] b3]. unfold tuple_leb, lex_le.
  destruct (Z.eqb_spec a1 b1); [destruct (Z.eqb_spec a2 b2)|];
    rewrite ?Z.leb_le, ?Z.ltb_lt; lia.
Qed.

Lemma lex_le_total (a b : Z * Z * Z) : lex_le a b \/ lex_le b a.
Proof.
  destruct a as [[a1 a2] a3], b as [[b1 b2] b3]. unfold lex_le. lia.
Qed.

Lemma lex_le_trans (a b c : Z * Z * Z) : lex_le a b -> lex_le b c -> lex_le a c.
Proof.
  destruct a as [[a1 a2] a3], b as [[b1 b2] b3], c as [[c1 c2] c3].
  unfold lex_le. lia.
Qed.

Section SortedBy.
Context {A : Type} (key : A -> Z * Z * Z).

Let key_le (x y : A) : Prop := lex_le (key x) (key y).

Lemma insert_by_perm (x : A) (l : list A) :
  Permutation (x :: l) (insert_by key x l).
Proof.
  induction l as [|y l IH]; simpl; [apply Permutation_refl|].
  destruct (tuple_leb (key x) (key y)); [apply Permutation_refl|].
  eapply perm_trans; [apply perm_swap|]. now apply perm_skip.
Qed.

Lemma sorted_by_perm (l : list A) : Permutation l (sorted_by key l).
Proof.
  induction l as [|x l IH]; simpl; [apply perm_nil|].
  eapply perm_trans; [apply perm_skip, IH | apply insert_by_perm].
Qed.

Lemma insert_by_sorted (x : A) (l : list A) :
  Sorted key_le l -> Sorted key_le (insert_by key x l).
Proof.
  induction 1 as [|y l Hs IH Hhd]; simpl.
  - repeat constructor.
  - destruct (tuple_leb (key x) (key y)) eqn:E.
    + constructor; [constructor; assumption|].
      constructor. apply tuple_leb_spec. exact E.
    + assert (Hyx : key_le y x).
      { destruct (lex_le_total (key x) (key y)) as [Hxy|Hyx]; [|exact Hyx].
        apply tuple_leb_spec in Hxy. congruence. }
      constructor; [exact IH|].
      destruct l as [|z l]; simpl.
      * constructor. exact Hyx.
      * destruct (tuple_leb (key x) (key z)); constructor;
          [exact Hyx | now apply HdRel_inv in Hhd].
Qed.

Lemma sorted_by_sorted (l : list A) : StronglySorted key_le (sorted_by key l).
Proof.
  apply Sorted_StronglySorted.
  - intros a b c. apply lex_le_trans.
  - induction l as [|x l IH]; simpl; [constructor|].
    now apply insert_by_sorted.
Qed.

End SortedBy.

Lemma parse_int_first_digit_run (s : string) : parse_int s = first_digit_run s.
Proof.
  unfold first_digit_run. induction s as [|c s IH]; [reflexivity|].
  cbn [parse_int Str.drop_while]. unfold not_digit at 1.
  destruct (Str.isdigit c) eqn:E; cbn [negb]; [reflexivity | exact IH].
Qed.

Lemma first_digit_run_no_digit (s : string) :
  all_chars not_digit s = true -> first_digit_run s = 0.
Proof.
  unfold first_digit_run. induction s as [|c s IH]; [reflexivity|].
  cbn [all_chars Str.drop_while]. intros Hall.
  apply andb_true_iff in Hall. destruct Hall as [Hc Hall].
  rewrite Hc. now apply IH.
Qed.

(** C4 as stated fails: the subject sub-1sub-2 of the file
    sub-1sub-2_stats.csv has 1 as its first run of digits, yet its sort
    number is 12, so that it is placed after sub-5. *)
Lemma numeric_sort_key_not_token_digits :
  scan_key "sub-1sub-2_stats.csv" = Some ("sub-1sub-2", "ses-01", "")
  /\ token_digits_key ("sub-1sub-2", "ses-01", "") = (1, 1, 0)
  /\ numeric_sort_key ("sub-1sub-2", "ses-01", "") = (12, 1, 0)
  /\ sorted_keys (collect walk_example)
       = [("sub-5", "ses-01", ""); ("sub-1sub-2", "ses-01", "")]
  /\ ~ StronglySorted
         (fun a b => lex_le (token_digits_key a) (token_digits_key b))
         (sorted_keys (collect walk_example)).
Proof.
  split; [reflexivity|]. split; [reflexivity|]. split; [reflexivity|].
  split; [reflexivity|].
  intros Hs. change (sorted_keys (collect walk_example))
    with [("sub-5", "ses-01", ""); ("sub-1sub-2", "ses-01", "")] in Hs.
  apply StronglySorted_inv in Hs. destruct Hs as [_ HF].
  apply Forall_inv in HF.
  change (lex_le (5, 1, 0) (1, 1, 0)) in HF. unfold lex_le in HF. lia.
Qed.

(** C4, amended: the grouped output is a rearrangement of the keys in
    ascending lexicographic order of their 3-tuples (subject_num,
    session_num, run_num); each number is the first run of digits (0
    without a digit) of the subject, session or run string after every
    occurrence of the text sub-, ses- or run- is deleted from it; so
    sub-2, sub-10, sub-1 come out as 1, 2, 10. *)
Theorem sorted_keys_numeric_order :
  (forall data_map : data_map_of,
     Permutation (map fst data_map) (sorted_keys data_map) /\
     StronglySorted
       (fun a b => lex_le (numeric_sort_key a) (numeric_sort_key b))
       (sorted_keys data_map))
  /\ (forall subject session run,
        numeric_sort_key (subject, session, run) =
          (first_digit_run (Str.replace "sub-" "" subject),
           first_digit_run (Str.replace "ses-" "" session),
           first_digit_run (Str.replace "run-" "" run)))
  /\ (forall s, all_chars not_digit s = true -> first_digit_run s = 0)
  /\ sorted_by numeric_sort_key
       [("sub-2", "ses-01", ""); ("sub-10", "ses-01", ""); ("sub-1", "ses-01", "")]
     = [("sub-1", "ses-01", ""); ("sub-2", "ses-01", ""); ("sub-10", "ses-01", "")]
  /\ map (fun k => fst (fst (numeric_sort_key k)))
       [("sub-1", "ses-01", ""); ("sub-2", "ses-01", ""); ("sub-10", "ses-01", "")]
     = [1; 2; 10].
Proof.
  split; [|split; [|split; [exact first_digit_run_no_digit | split; reflexivity]]].
  - intros data_map. split.
    + apply sorted_by_perm.
    + apply (sorted_by_sorted numeric_sort_key).
  - intros subject session run. unfold numeric_sort_key.
    now rewrite !parse_int_first_digit_run.
Qed.

(** A token without a digit counts as 0. *)
Lemma sorted_keys_numeric_order_witness :
  first_digit_run "run-" = 0.
Proof.
  apply (proj1 (proj2 (proj2 sorted_keys_numeric_order))). reflexivity.
Defined.

(* ================================================================== *)
(** * The review ledger *)

Lemma first_entry (k : string) (rows : list row) :
  (forall r, In r rows -> filename r <> k) \/
  (exists pre r post,
     rows = pre ++ r :: post /\ (forall r', In r' pre -> filename r' <> k) /\
     filename r = k).
Proof.
  induction rows as [|r rows IH].
  - left. intros r [].
  - destruct (String.eqb_spec (filename r) k) as [E|E].
    + right. exists [], r, rows. repeat split; auto.
    + destruct IH as [Habs|[pre [r0 [post [-> [Hpre Hk]]]]]].
      * left. intros r' [<-|Hin]; auto.
      * right. exists (r :: pre), r0, post. repeat split; auto.
        intros r' [<-|Hin]; auto.
Qed.

Lemma update_rows_absent (rows : list row) (k : string) (st : status_arg) :
  (forall r, In r rows -> filename r <> k) ->
  update_rows rows k st = Ok (rows, false).
Proof.
  induction rows as [|r rows IH]; intros Habs; simpl; [reflexivity|].
  destruct (String.eqb_spec (filename r) k) as [E|E].
  - exfalso. apply (Habs r); [left; reflexivity | exact E].
  - rewrite IH by (intros r' Hin; apply Habs; right; exact Hin). reflexivity.
Qed.

Lemma update_rows_present (pre post : list row) (r : row) (k s n : string) :
  (forall r', In r' pre -> filename r' <> k) -> filename r = k ->
  update_rows (pre ++ r :: post) k (StatusDict (Some s) (Some n)) =
    Ok (pre ++ entry k s n :: post, true).
Proof.
  induction pre as [|r0 pre IH]; intros Hpre Hk; simpl.
  - rewrite Hk, String.eqb_refl. reflexivity.
  - destruct (String.eqb_spec (filename r0) k) as [E|E].
    + exfalso. apply (Hpre r0); [left; reflexivity | exact E].
    + rewrite IH;
        [reflexivity | intros r' Hin; apply Hpre; right; exact Hin | exact Hk].
Qed.

Lemma upsert_absent (file : option (list row)) (k s n : string) :
  (forall r, In r (ledger_rows file) -> filename r <> k) ->
  upsert file k s n = Ok (ledger_rows file ++ [entry k s n]).
Proof.
  intros Habs. unfold upsert, update_csv. fold (ledger_rows file).
  rewrite update_rows_absent by exact Habs. reflexivity.
Qed.

Lemma upsert_present (pre post : list row) (r : row) (k s n : string) :
  (forall r', In r' pre -> filename r' <> k) -> filename r = k ->
  upsert (Some (pre ++ r :: post)) k s n = Ok (pre ++ entry k s n :: post).
Proof.
  intros Hpre Hk. unfold upsert, update_csv.
  rewrite update_rows_present by assumption. reflexivity.
Qed.

Lemma entries_for_absent (k : string) (rows : list row) :
  (forall r, In r rows -> filename r <> k) -> entries_for k rows = [].
Proof.
  induction rows as [|r rows IH]; intros Habs; simpl; [reflexivity|].
  destruct (String.eqb_spec (filename r) k) as [E|E].
  - exfalso. apply (Habs r); [left; reflexivity | exact E].
  - apply IH. intros r' Hin. apply Habs. right. exact Hin.
Qed.

Lemma entries_besides_absent (k : string) (rows : list row) :
  (forall r, In r rows -> filename r <> k) -> entries_besides k rows = rows.
Proof.
  induction rows as [|r rows IH]; intros Habs; simpl; [reflexivity|].
  destruct (String.eqb_spec (filename r) k) as [E|E]; simpl.
  - exfalso. apply (Habs r); [left; reflexivity | exact E].
  - f_equal. apply IH. intros r' Hin. apply Habs. right. exact Hin.
Qed.

(** C5: the ledger update is a create-or-overwrite.  It always returns;
    without an entry under the key it appends one; otherwise it replaces
    the status and the notes of the first entry under the key, in place;
    entries under other keys are kept; a second identical call changes
    nothing; a ledger with at most one entry under the key holds exactly
    the new entry under it afterwards, so that upsert(a.png, GOOD, empty)
    then upsert(a.png, BAD, x) leaves the single entry (a.png, BAD, x). *)
Theorem update_csv_upsert :
  (forall file k s n, exists rows', upsert file k s n = Ok rows')
  /\ (forall file k s n,
        (forall r, In r (ledger_rows file) -> filename r <> k) ->
        upsert file k s n = Ok (ledger_rows file ++ [entry k s n]))
  /\ (forall pre r post k s n,
        (forall r', In r' pre -> filename r' <> k) -> filename r = k ->
        upsert (Some (pre ++ r :: post)) k s n = Ok (pre ++ entry k s n :: post))
  /\ (forall file k s n rows',
        upsert file k s n = Ok rows' ->
        entries_besides k rows' = entries_besides k (ledger_rows file))
  /\ (forall file k s n rows',
        upsert file k s n = Ok rows' -> upsert (Some rows') k s n = Ok rows')
  /\ (forall file k s n rows',
        (length (entries_for k (ledger_rows file)) <= 1)%nat ->
        upsert file k s n = Ok rows' ->
        entries_for k rows' = [entry k s n])
  /\ (forall file,
        (length (entries_for "a.png" (ledger_rows file)) <= 1)%nat ->
        exists l1 l2,
          upsert file "a.png" "GOOD" "" = Ok l1 /\
          upsert (Some l1) "a.png" "BAD" "x" = Ok l2 /\
          entries_for "a.png" l2 = [entry "a.png" "BAD" "x"]).
Proof.
  assert (Hcases : forall file k s n,
    (upsert file k s n = Ok (ledger_rows file ++ [entry k s n]) /\
     forall r, In r (ledger_rows file) -> filename r <> k) \/
    (exists pre r post,
       ledger_rows file = pre ++ r :: post /\
       (forall r', In r' pre -> filename r' <> k) /\ filename r = k /\
       upsert file k s n = Ok (pre ++ entry k s n :: post))).
  { intros file k s n.
    destruct (first_entry k (ledger_rows file))
      as [Habs|[pre [r [post [E [Hpre Hk]]]]]].
    - left. split; [now apply upsert_absent | exact Habs].
    - right. exists pre, r, post. repeat split; auto.
      destruct file as [rows|]; simpl in E.
      + subst rows. now apply upsert_present.
      + destruct pre; discriminate. }
  assert (Hkeep : forall file k s n rows',
    upsert file k s n = Ok rows' ->
    entries_besides k rows' = entries_besides k (ledger_rows file)).
  { intros file k s n rows' E.
    destruct (Hcases file k s n)
      as [[E' _]|[pre [r [post [Er [_ [Hk E']]]]]]];
      rewrite E' in E; inversion E; subst rows'; unfold entries_besides.
    - rewrite filter_app. simpl. rewrite String.eqb_refl. simpl.
      now rewrite app_nil_r.
    - rewrite Er, !filter_app. simpl. rewrite Hk, String.eqb_refl. reflexivity. }
  assert (Hone : forall file k s n rows',
    (length (entries_for k (ledger_rows file)) <= 1)%nat ->
    upsert file k s n = Ok rows' -> entries_for k rows' = [entry k s n]).
  { intros file k s n rows' Hlen E.
    destruct (Hcases file k s n)
      as [[E' Habs]|[pre [r [post [Er [Hpre [Hk E']]]]]]];
      rewrite E' in E; inversion E; subst rows'; unfold entries_for in *.
    - rewrite filter_app. fold (entries_for k (ledger_rows file)).
      rewrite entries_for_absent by exact Habs. simpl.
      now rewrite String.eqb_refl.
    - rewrite Er in Hlen. rewrite filter_app in *. simpl in *.
      rewrite Hk, String.eqb_refl in Hlen. rewrite String.eqb_refl.
      fold (entries_for k pre) in *.
      rewrite (entries_for_absent k pre Hpre) in *. simpl in *.
      destruct (filter _ post); [reflexivity | simpl in Hlen; lia]. }
  split; [|split; [exact upsert_absent
                  | split; [intros; now apply upsert_present|]]].
  { intros file k s n.
    destruct (Hcases file k s n) as [[E _]|[pre [r [post [_ [_ [_ E]]]]]]];
      rewrite E; eexists; reflexivity. }
  split; [exact Hkeep|]. split; [|split; [exact Hone|]].
  - intros file k s n rows' E.
    destruct (Hcases file k s n)
      as [[E' Habs]|[pre [r [post [_ [Hpre [_ E']]]]]]];
      rewrite E' in E; inversion E; subst rows'.
    + apply (upsert_present (ledger_rows file) [] (entry k s n));
        [exact Habs | reflexivity].
    + apply upsert_present; [exact Hpre | reflexivity].
  - intros file Hlen.
    destruct (Hcases file "a.png" "GOOD" "") as [[E _]|[pre [r [post [_ [_ [_ E]]]]]]].
    + destruct (Hcases (Some (ledger_rows file ++ [entry "a.png" "GOOD" ""]))
                  "a.png" "BAD" "x") as [[E2 _]|[p [q [t [_ [_ [_ E2]]]]]]];
        do 2 eexists; (split; [exact E|]); (split; [exact E2|]);
        apply (Hone (Some (ledger_rows file ++ [entry "a.png" "GOOD" ""]))
                 "a.png" "BAD" "x"); try exact E2;
        simpl; rewrite (Hone file "a.png" "GOOD" "" _ Hlen E); simpl; lia.
    + destruct (Hcases (Some (pre ++ entry "a.png" "GOOD" "" :: post))
                  "a.png" "BAD" "x") as [[E2 _]|[p [q [t [_ [_ [_ E2]]]]]]];
        do 2 eexists; (split; [exact E|]); (split; [exact E2|]);
        apply (Hone (Some (pre ++ entry "a.png" "GOOD" "" :: post))
                 "a.png" "BAD" "x"); try exact E2;
        simpl; rewrite (Hone file "a.png" "GOOD" "" _ Hlen E); simpl; lia.
Qed.

(** The two calls of the specification on a ledger that does not exist
    yet. *)
Lemma update_csv_upsert_witness :
  exists l1 l2,
    upsert None "a.png" "GOOD" "" = Ok l1 /\
    upsert (Some l1) "a.png" "BAD" "x" = Ok l2 /\
    entries_for "a.png" l2 = [entry "a.png" "BAD" "x"].
Proof.
  apply (proj2 (proj2 (proj2 (proj2 (proj2 (proj2 update_csv_upsert))))) None).
  simpl; lia.
Defined.

(* ================================================================== *)
(** * Rendering a statistics record *)

Lemma stripped_lines_record_lines (raw : list string) :
  stripped_lines raw = record_lines raw.
Proof.
  unfold stripped_lines, record_lines.
  induction raw as [|l raw IH]; [reflexivity|]. cbn [filter map].
  destruct (negb (String.eqb (Str.strip l) "")); cbn [map]; now rewrite IH.
Qed.

Lemma all_numeric_true (float_ok : string -> bool) (row : string) :
  numeric_row float_ok row -> all_numeric float_ok (Str.split "," row) = true.
Proof.
  unfold numeric_row, all_numeric. rewrite Forall_forall. intros Hall.
  apply forallb_forall. exact Hall.
Qed.

Lemma all_numeric_false (float_ok : string -> bool) (row : string) :
  Exists (fun v => float_ok v = false) (Str.split "," row) ->
  all_numeric float_ok (Str.split "," row) = false.
Proof.
  unfold all_numeric. rewrite Exists_exists. intros [v [Hin Hv]].
  destruct (forallb float_ok (Str.split "," row)) eqn:E; [|reflexivity].
  rewrite forallb_forall in E. rewrite (E v Hin) in Hv. discriminate.
Qed.

Section EmbedStatsFacts.
Variable float_ok : string -> bool.
Variable read_lines : string -> result (list string).

Lemma embed_stats_returns (path : option string) :
  (exists html, GenerateHtml.embed_stats float_ok read_lines path = Ok html) /\
  (exists html, ReportGenerator.embed_stats float_ok read_lines path = Ok html).
Proof.
  split.
  - unfold GenerateHtml.embed_stats.
    destruct path as [[|c p]|]; try (eexists; reflexivity).
    destruct (_ <- read_lines (String c p) ;; _) as [html|e];
      eexists; reflexivity.
  - unfold ReportGenerator.embed_stats.
    destruct path as [[|c p]|]; try (eexists; reflexivity).
    destruct (_ <- read_lines (String c p) ;; _) as [values|e];
      [destruct (negb _)|]; eexists; reflexivity.
Qed.

(** The line that both renderers split, for a record of at least one
    line. *)
Lemma embed_stats_line (path : string) (raw : list string) (line : string) :
  path <> EmptyString ->
  read_lines path = Ok raw ->
  data_row float_ok raw = Some line ->
  GenerateHtml.embed_stats float_ok read_lines (Some path) =
    rcatch
      (let parts := Str.split "," line in
       if negb (length parts =? 5)%nat
       then Ok ("<h3>Stats</h3><p>Expected 5 columns, found "
                ++ Str.of_nat (length parts) ++ ". CSV: " ++ path
                ++ "</p>")%string
       else
         p0 <- list_index parts 0 ;;
         p1 <- list_index parts 1 ;;
         p2 <- list_index parts 2 ;;
         p3 <- list_index parts 3 ;;
         p4 <- list_index parts 4 ;;
         Ok (nl ++ "        <h3>Statistics</h3>" ++ nl
             ++ "        <p>Mean: " ++ p0 ++ ", Median: " ++ p1
             ++ ", Max: " ++ p2 ++ ", Min: " ++ p3 ++ ", Std: " ++ p4
             ++ "</p>" ++ nl ++ "        ")%string)
      (fun e =>
         Ok ("<h3>Stats</h3><p>Error reading CSV: " ++ exn_str e ++ "</p>")%string)
  /\ ReportGenerator.embed_stats float_ok read_lines (Some path) =
    (let values := Str.split "," line in
     if negb (length values =? 5)%nat
     then
       Ok (nl ++ "        <h3>Stats</h3>" ++ nl
           ++ "        <p>Unexpected format: found "
           ++ Str.of_nat (length values) ++ " columns instead of 5.</p>" ++ nl
           ++ "        <p><a href=" ++ dquote ++ OsPath.basename path ++ dquote
           ++ " download>Download CSV</a></p>" ++ nl ++ "        ")%string
     else
       Ok (nl ++ "    <h3>Statistics</h3>" ++ nl
           ++ "    <table class=" ++ dquote ++ "stats-table" ++ dquote ++ ">" ++ nl
           ++ "      <tr>"
           ++ String.concat ""
                (map (fun h => "<th>" ++ h ++ "</th>") ReportGenerator.headers)
           ++ "</tr>" ++ nl
           ++ "      <tr>"
           ++ String.concat "" (map (fun v => "<td>" ++ v ++ "</td>") values)
           ++ "</tr>" ++ nl
           ++ "    </table>" ++ nl
           ++ "    <p><a href=" ++ dquote ++ OsPath.basename path ++ dquote
           ++ " download>Download CSV</a></p>" ++ nl ++ "    ")%string).
Proof.
  intros Hpath Hread Hrow. unfold data_row in Hrow.
  unfold GenerateHtml.embed_stats, ReportGenerator.embed_stats.
  destruct path as [|c p]; [congruence|]. rewrite Hread. cbn [rbind].
  rewrite stripped_lines_record_lines. unfold all_numeric.
  destruct (record_lines raw) as [|l0 [|l1 rest]]; [discriminate| |].
  - inversion Hrow; subst line.
    cbn [length Nat.eqb Nat.leb rbind list_index nth_error].
    split; [reflexivity|]. destruct (negb _); reflexivity.
  - cbn [length Nat.eqb Nat.leb rbind list_index nth_error].
    destruct (forallb float_ok (Str.split "," l1));
      inversion Hrow; subst line; cbn [rbind list_index nth_error];
      (split; [reflexivity|]); destruct (negb _); reflexivity.
Qed.

(** C7: a statistics record whose data row has a number of columns other
    than 5.  Nothing is raised, for this and for every other record.  When
    the record is that row alone, or the row stands in the second line and
    all its fields are numbers, both report generators render a message
    that states the number of columns found.  When the row stands in the
    second line and one of its fields is not a number, the renderers take
    the first line for the data instead: under a header of five names they
    show the names of the header as the five statistics, and no message. *)
Theorem embed_stats_malformed_record (path : string) (raw : list string) :
  path <> EmptyString ->
  read_lines path = Ok raw ->
  (forall row,
     record_lines raw = [row] \/
     (exists header rest,
        record_lines raw = header :: row :: rest /\ numeric_row float_ok row) ->
     columns row <> 5%nat ->
     GenerateHtml.embed_stats float_ok read_lines (Some path) =
       Ok ("<h3>Stats</h3><p>Expected 5 columns, found "
           ++ Str.of_nat (columns row) ++ ". CSV: " ++ path ++ "</p>")%string
     /\ ReportGenerator.embed_stats float_ok read_lines (Some path) =
       Ok (nl ++ "        <h3>Stats</h3>" ++ nl
           ++ "        <p>Unexpected format: found "
           ++ Str.of_nat (columns row) ++ " columns instead of 5.</p>" ++ nl
           ++ "        <p><a href=" ++ dquote ++ OsPath.basename path ++ dquote
           ++ " download>Download CSV</a></p>" ++ nl ++ "        ")%string)
  /\ (forall header row rest h0 h1 h2 h3 h4,
        record_lines raw = header :: row :: rest ->
        Exists (fun v => float_ok v = false) (Str.split "," row) ->
        Str.split "," header = [h0; h1; h2; h3; h4] ->
        GenerateHtml.embed_stats float_ok read_lines (Some path) =
          Ok (nl ++ "        <h3>Statistics</h3>" ++ nl
              ++ "        <p>Mean: " ++ h0 ++ ", Median: " ++ h1
              ++ ", Max: " ++ h2 ++ ", Min: " ++ h3 ++ ", Std: " ++ h4
              ++ "</p>" ++ nl ++ "        ")%string
        /\ ReportGenerator.embed_stats float_ok read_lines (Some path) =
          Ok (nl ++ "    <h3>Statistics</h3>" ++ nl
              ++ "    <table class=" ++ dquote ++ "stats-table" ++ dquote ++ ">" ++ nl
              ++ "      <tr><th>mean</th><th>median</th><th>max</th><th>min</th>"
              ++ "<th>std</th></tr>" ++ nl
              ++ "      <tr><td>" ++ h0 ++ "</td><td>" ++ h1 ++ "</td><td>" ++ h2
              ++ "</td><td>" ++ h3 ++ "</td><td>" ++ h4 ++ "</td></tr>" ++ nl
              ++ "    </table>" ++ nl
              ++ "    <p><a href=" ++ dquote ++ OsPath.basename path ++ dquote
              ++ " download>Download CSV</a></p>" ++ nl ++ "    ")%string)
  /\ (forall p,
        (exists html, GenerateHtml.embed_stats float_ok read_lines p = Ok html) /\
        (exists html, ReportGenerator.embed_stats float_ok read_lines p = Ok html)).
Proof.
  intros Hpath Hread.
  split; [|split; [|exact embed_stats_returns]].
  - intros row Hrow Hcols.
    assert (Hline : data_row float_ok raw = Some row).
    { unfold data_row. destruct Hrow as [->|[header [rest [-> Hnum]]]];
        [reflexivity|].
      apply all_numeric_true in Hnum. unfold all_numeric in Hnum.
      now rewrite Hnum. }
    destruct (embed_stats_line path raw row Hpath Hread Hline) as [-> ->].
    unfold columns in *. cbv zeta.
    destruct (Nat.eqb_spec (length (Str.split "," row)) 5); [contradiction|].
    split; reflexivity.
  - intros header row rest h0 h1 h2 h3 h4 Hlines Hnot Hsplit.
    assert (Hline : data_row float_ok raw = Some header).
    { unfold data_row. rewrite Hlines.
      apply all_numeric_false in Hnot. unfold all_numeric in Hnot.
      now rewrite Hnot. }
    destruct (embed_stats_line path raw header Hpath Hread Hline) as [-> ->].
    cbv zeta. rewrite Hsplit. split; [reflexivity|]. f_equal.
    repeat (cbn [String.append String.concat map length Nat.eqb negb
                 ReportGenerator.headers];
            rewrite ?append_assoc). reflexivity.
Qed.

End EmbedStatsFacts.

(** The header and a row of three fields, the last one empty: the review
    server shows the names of the header as the statistics. *)
Lemma embed_stats_malformed_record_witness :
  GenerateHtml.embed_stats float_ok_digits
    (fun _ => Ok ["mean,median,max,min,std"; "1,2,"])
    (Some "/results/sub-01_stats.csv")
  = Ok (nl ++ "        <h3>Statistics</h3>" ++ nl
        ++ "        <p>Mean: mean, Median: median, Max: max, Min: min, Std: std</p>"
        ++ nl ++ "        ")%string.
Proof.
  apply (proj1 (proj2 (embed_stats_malformed_record float_ok_digits
           (fun _ => Ok ["mean,median,max,min,std"; "1,2,"])
           "/results/sub-01_stats.csv" ["mean,median,max,min,std"; "1,2,"]
           ltac:(discriminate) eq_refl))
         "mean,median,max,min,std" "1,2," []
         "mean" "median" "max" "min" "std").
  - reflexivity.
  - vm_compute. apply Exists_cons_tl, Exists_cons_tl, Exists_cons_hd. reflexivity.
  - reflexivity.
Defined.

(* ================================================================== *)
(** * Traversals *)

Lemma dir_tree_ind (P : dir_tree -> Prop) :
  (forall name files subdirs, Forall P subdirs -> P (Dir name files subdirs)) ->
  forall t, P t.
Proof.
  intros HP. fix IH 1. intros [name files subdirs]. apply HP.
  induction subdirs as [|d ds IHds]; constructor; [apply IH | exact IHds].
Qed.

Lemma prefix_app (n s t : string) :
  String.prefix n s = true -> String.prefix n (s ++ t) = true.
Proof.
  revert s. induction n as [|a n IH]; intros s.
  - intros _. destruct (s ++ t)%string; reflexivity.
  - destruct s as [|b s]; simpl; [discriminate|].
    destruct (ascii_dec a b); [apply IH | discriminate].
Qed.

Lemma contains_app_r (n s t : string) :
  Str.contains n s = true -> Str.contains n (s ++ t) = true.
Proof.
  induction s as [|c s IH]; cbn [Str.contains String.append].
  - destruct n; simpl; [|discriminate]. intros _. destruct t; reflexivity.
  - destruct (String.prefix n (String c s)) eqn:E.
    + intros _. apply (prefix_app n (String c s) t) in E.
      cbn [String.append] in E. now rewrite E.
    + intros Hs. rewrite (IH Hs).
      destruct (String.prefix n (String c (s ++ t))); reflexivity.
Qed.

Lemma contains_app_l (n s t : string) :
  Str.contains n t = true -> Str.contains n (s ++ t) = true.
Proof.
  intros Ht. induction s as [|c s IH]; cbn [Str.contains String.append];
    [exact Ht|].
  rewrite IH. destruct (String.prefix n (String c (s ++ t))); reflexivity.
Qed.

Lemma contains_join (n a b : string) :
  Str.contains n a = true -> Str.contains "/" b = false ->
  Str.contains n (OsPath.join a b) = true.
Proof.
  intros Ha Hb. unfold OsPath.join.
  assert (E : String.prefix "/" b = false).
  { destruct b as [|c b]; [reflexivity|]. cbn [Str.contains] in Hb.
    destruct (String.prefix "/" (String c b)); [discriminate Hb | reflexivity]. }
  rewrite E. destruct (_ || _); now apply contains_app_r.
Qed.

(** Below a path that contains [n] every directory path contains [n]. *)
Lemma os_walk_contains (n : string) (t : dir_tree) : forall top,
  wf_tree t = true -> Str.contains n top = true ->
  forall root dirs files,
    In (root, dirs, files) (os_walk top t) -> Str.contains n root = true.
Proof.
  induction t as [name fs subdirs IH] using dir_tree_ind.
  intros top Hwf Htop root dirs files. simpl. intros [E|Hin].
  - inversion E; subst. exact Htop.
  - apply in_flat_map in Hin. destruct Hin as [d [Hd Hin]].
    rewrite Forall_forall in IH. simpl in Hwf.
    rewrite forallb_forall in Hwf. specialize (Hwf d Hd).
    apply andb_true_iff in Hwf. destruct Hwf as [Hname Hwf].
    apply negb_true_iff in Hname.
    eapply (IH d Hd (OsPath.join top (dir_name d)) Hwf);
      [now apply contains_join | exact Hin].
Qed.

Section ForEach.
Context {A : Type}.

Lemma for_each_app (l1 l2 : list A) (body : A -> M unit) :
  same_effect (for_each (l1 ++ l2) body)
              (for_each l1 body ;;; for_each l2 body).
Proof.
  intros tr. revert tr.
  induction l1 as [|x l1 IH]; intros tr; cbn [for_each app]; unfold bind in *.
  - reflexivity.
  - destruct (body x tr) as [tr' [u|e]]; [apply IH | reflexivity].
Qed.

Lemma for_each_guarded {B : Type} (p : B -> bool) (f : B -> A)
  (l : list B) (body : A -> M unit) :
  same_effect (for_each l (fun x => if p x then body (f x) else ret tt))
              (for_each (map f (filter p l)) body).
Proof.
  intros tr. revert tr.
  induction l as [|x l IH]; intros tr; cbn [for_each filter]; [reflexivity|].
  destruct (p x); cbn [for_each map]; unfold bind.
  - destruct (body (f x) tr) as [tr' [u|e]]; [apply IH | reflexivity].
  - apply IH.
Qed.

End ForEach.

(** The double loop of a traversal runs the body on [scan_targets], in
    order. *)
Lemma traversal_loop (scan_type : string)
  (walk : list (string * list string * list string))
  (body : string -> M unit) :
  same_effect
    (for_each walk
       (fun '(root, dirs, files) =>
          if Str.contains "results" root then ret tt
          else for_each files
                 (fun fname =>
                    if is_scan_file scan_type fname
                    then body (OsPath.join root fname)
                    else ret tt)))
    (for_each (flat_map (dir_targets scan_type) walk) body).
Proof.
  intros tr. revert tr.
  induction walk as [|[[root dirs] files] walk IH]; intros tr;
    cbn [for_each flat_map]; [reflexivity|].
  rewrite for_each_app. unfold bind. cbn [dir_targets].
  destruct (Str.contains "results" root).
  - apply IH.
  - rewrite (for_each_guarded (is_scan_file scan_type) (OsPath.join root)).
    destruct (for_each _ body tr) as [tr' [u|e]]; [apply IH | reflexivity].
Qed.

Section TraversalFacts.
Context {T : Type} `{Numpy.Scalar T}.
Variable env : Env T.

(** C10: both traversals test the path of a directory for the substring
    "results".  Each of them runs its per-scan step on [scan_targets] and
    on nothing else; a directory whose path contains "results" contributes
    no target; every target lies directly in a directory whose path is
    free of "results"; and below a root whose path contains "results"
    there is no target at all. *)
Theorem traversals_skip_results_paths
  (bids_root : string) (tree : dir_tree) (scan_type : string) (N : Z) :
  same_effect
    (Initial.traverse_bids_initial env bids_root tree scan_type N)
    (emit (LogInfo (StartingTraversal bids_root scan_type)) ;;;
     for_each (scan_targets bids_root tree scan_type)
       (fun fullpath => Initial.process_scan_initial env bids_root fullpath N) ;;;
     emit (LogInfo FinishedAll))
  /\ (forall accepted_csv,
        same_effect
          (Final.traverse_bids_final env bids_root tree accepted_csv scan_type N)
          (emit (LogInfo (StartingTraversal bids_root scan_type)) ;;;
           accepted <~ lift (pd_read_accepted env accepted_csv) ;;
           for_each (scan_targets bids_root tree scan_type)
             (fun fullpath =>
                if Final.in_accepted (Final.extract_sub_ses fullpath) accepted
                then run_process_scan_final env bids_root fullpath N
                else emit (LogInfo (SkippingNotAccepted fullpath))) ;;;
           emit (LogInfo FinishedAll)))
  /\ (forall root dirs files,
        In (root, dirs, files) (os_walk bids_root tree) ->
        Str.contains "results" root = true ->
        dir_targets scan_type (root, dirs, files) = [])
  /\ (forall fullpath,
        In fullpath (scan_targets bids_root tree scan_type) ->
        exists root dirs files fname,
          In (root, dirs, files) (os_walk bids_root tree) /\
          In fname files /\ fullpath = OsPath.join root fname /\
          Str.contains "results" root = false)
  /\ (wf_tree tree = true -> Str.contains "results" bids_root = true ->
      scan_targets bids_root tree scan_type = []).
Proof.
  split; [|split; [|split; [|split]]].
  - intros tr. unfold Initial.traverse_bids_initial, scan_targets, bind.
    destruct (emit _ tr) as [tr1 [[]|e]]; [|reflexivity].
    rewrite (traversal_loop scan_type (os_walk bids_root tree)
               (fun fullpath => Initial.process_scan_initial env bids_root fullpath N)).
    reflexivity.
  - intros accepted_csv tr.
    unfold Final.traverse_bids_final, scan_targets, bind.
    destruct (emit _ tr) as [tr1 [[]|e]]; [|reflexivity].
    destruct (lift _ tr1) as [tr2 [accepted|e]]; [|reflexivity].
    rewrite (traversal_loop scan_type (os_walk bids_root tree)
               (fun fullpath =>
                  if Final.in_accepted (Final.extract_sub_ses fullpath) accepted
                  then run_process_scan_final env bids_root fullpath N
                  else emit (LogInfo (SkippingNotAccepted fullpath)))).
    reflexivity.
  - intros root dirs files _ Hres. simpl. now rewrite Hres.
  - intros fullpath Hin. unfold scan_targets in Hin.
    apply in_flat_map in Hin. destruct Hin as [[[root dirs] files] [Hw Hin]].
    simpl in Hin. destruct (Str.contains "results" root) eqn:Hres; [destruct Hin|].
    apply in_map_iff in Hin. destruct Hin as [fname [<- Hf]].
    apply filter_In in Hf. destruct Hf as [Hf _].
    exists root, dirs, files, fname. auto.
  - intros Hwf Hroot. unfold scan_targets.
    assert (Hall : forall entry, In entry (os_walk bids_root tree) ->
                                 dir_targets scan_type entry = []).
    { intros [[root dirs] files] Hin. simpl.
      now rewrite (os_walk_contains "results" tree bids_root Hwf Hroot _ _ _ Hin). }
    induction (os_walk bids_root tree) as [|entry walk IH]; [reflexivity|].
    simpl. rewrite (Hall entry) by (left; reflexivity).
    apply IH. intros e He. apply Hall. right. exact He.
Qed.

End TraversalFacts.

(** A data set under /results/data is skipped as a whole; under /data only
    the directory sub-01_results_old and what is below it are skipped. *)
Lemma traversals_skip_results_paths_witness :
  scan_targets "/results/data" tree_results_named "T1w" = [] /\
  scan_targets "/data" tree_results_named "T1w"
    = ["/data/sub-03_T1w.nii"; "/data/sub-02/sub-02_T1w.nii.gz"].
Proof.
  split; [|reflexivity].
  apply (proj2 (proj2 (proj2 (proj2
           (traversals_skip_results_paths env_unreadable
              "/results/data" tree_results_named "T1w" 10)))));
    reflexivity.
Defined.

(* ================================================================== *)
(** * Statistics that are not available *)

Section AnalyzeNifti.
Context {T : Type} `{Numpy.Scalar T}.
Variable env : Env T.

(** [analyze_nifti] returns on every path and every trace. *)
Lemma analyze_nifti_never_raises (filepath : string) (tr : list event) :
  exists tr' d, Initial.analyze_nifti env filepath tr = (tr', Ok d).
Proof.
  unfold Initial.analyze_nifti, try_except, bind, lift, ret, emit.
  destruct (nib_load env filepath) as [data|e]; [|do 2 eexists; reflexivity].
  destruct (np_statistics env data) as [st|e]; do 2 eexists; reflexivity.
Qed.

(** A volume that does not load, or has no statistics, gives the empty
    dictionary and one line in the error log. *)
Lemma analyze_nifti_empty (filepath : string) (e : exn) (tr : list event) :
  (data <- nib_load env filepath ;; np_statistics env data) = Raise e ->
  Initial.analyze_nifti env filepath tr =
    (tr ++ [LogError (AnalyzeFailed filepath e)], Ok None).
Proof.
  unfold Initial.analyze_nifti, try_except, bind, lift, ret, emit, rbind.
  destruct (nib_load env filepath) as [data|e'].
  - destruct (np_statistics env data) as [st|e']; [discriminate|].
    intros E; inversion E; reflexivity.
  - intros E; inversion E; reflexivity.
Qed.

(** The caller loads the volume itself, before anything else, and lets a
    failure of that load through. *)
Lemma process_scan_initial_load_failure
  (bids_root filepath : string) (N : Z) (e : exn) (tr : list event) :
  nib_load env filepath = Raise e ->
  Initial.process_scan_initial env bids_root filepath N tr =
    (tr ++ [LogInfo (Processing filepath)], Raise e).
Proof.
  intros E. unfold Initial.process_scan_initial, bind, emit, lift.
  rewrite E. reflexivity.
Qed.

End AnalyzeNifti.

(** With a volume that loads but has no statistics the caller writes the
    slice image only and finishes. *)
Example process_scan_initial_without_statistics :
  Initial.process_scan_initial env_no_statistics "/data"
    "/data/sub-01/sub-01_T1w.nii.gz" 10 []
  = ([LogInfo (Processing "/data/sub-01/sub-01_T1w.nii.gz");
      MadeDirs "/data/results/sub-01";
      SavedFigure "/data/results/sub-01/sub-01_T1w_original_slices.png";
      LogError (AnalyzeFailed "/data/sub-01/sub-01_T1w.nii.gz"
                  (ValueError "no statistics"));
      LogInfo (FinishedProcessing "/data/sub-01/sub-01_T1w.nii.gz")],
     Ok tt).
Proof. vm_compute. reflexivity. Qed.

(** The traversal then goes on to the next scan. *)
Example traverse_bids_initial_without_statistics :
  Initial.traverse_bids_initial env_no_statistics "/data" tree_two_scans "T1w" 10 []
  = ([LogInfo (StartingTraversal "/data" "T1w");
      LogInfo (Processing "/data/sub-01/sub-01_T1w.nii.gz");
      MadeDirs "/data/results/sub-01";
      SavedFigure "/data/results/sub-01/sub-01_T1w_original_slices.png";
      LogError (AnalyzeFailed "/data/sub-01/sub-01_T1w.nii.gz"
                  (ValueError "no statistics"));
      LogInfo (FinishedProcessing "/data/sub-01/sub-01_T1w.nii.gz");
      LogInfo (Processing "/data/sub-02/sub-02_T1w.nii.gz");
      MadeDirs "/data/results/sub-02";
      SavedFigure "/data/results/sub-02/sub-02_T1w_original_slices.png";
      LogError (AnalyzeFailed "/data/sub-02/sub-02_T1w.nii.gz"
                  (ValueError "no statistics"));
      LogInfo (FinishedProcessing "/data/sub-02/sub-02_T1w.nii.gz");
      LogInfo FinishedAll],
     Ok tt).
Proof. vm_compute. reflexivity. Qed.

(** C6, at a volume that cannot be loaded: [analyze_nifti] returns the
    empty dictionary, but its caller has raised before it gets there, and
    the traversal stops with the exception at the first such scan. *)
Theorem analyze_nifti_caller_raises_on_unloadable_volume :
  Initial.analyze_nifti env_unreadable "/data/sub-01/sub-01_T1w.nii.gz" []
  = ([LogError (AnalyzeFailed "/data/sub-01/sub-01_T1w.nii.gz"
                  (OSError "cannot load"))],
     Ok None)
  /\ Initial.process_scan_initial env_unreadable "/data"
       "/data/sub-01/sub-01_T1w.nii.gz" 10 []
     = ([LogInfo (Processing "/data/sub-01/sub-01_T1w.nii.gz")],
        Raise (OSError "cannot load"))
  /\ Initial.traverse_bids_initial env_unreadable "/data" tree_two_scans "T1w" 10 []
     = ([LogInfo (StartingTraversal "/data" "T1w");
         LogInfo (Processing "/data/sub-01/sub-01_T1w.nii.gz")],
        Raise (OSError "cannot load")).
Proof. repeat split; vm_compute; reflexivity. Qed.

(* ================================================================== *)
(** * Slice selection: edge cases, end points, the brightest slice *)

Lemma keep_changes_last (l : list Z) : forall x d,
  last (x :: Numpy.keep_changes x l) d = last (x :: l) d.
Proof.
  induction l as [|y l IH]; intros x d; [reflexivity|].
  cbn [Numpy.keep_changes]. destruct (Z.eqb_spec y x) as [->|Hne].
  - rewrite IH. reflexivity.
  - change (last (x :: y :: Numpy.keep_changes y l) d)
      with (last (y :: Numpy.keep_changes y l) d).
    rewrite IH. reflexivity.
Qed.

Lemma keep_changes_complete (l : list Z) : forall x v,
  In v (x :: l) -> In v (x :: Numpy.keep_changes x l).
Proof.
  induction l as [|y l IH]; intros x v Hin; [exact Hin|].
  cbn [Numpy.keep_changes]. destruct (Z.eqb_spec y x) as [->|Hne].
  - apply IH. destruct Hin as [E|[E|Hin]]; [left | left | right]; assumption.
  - destruct Hin as [E|Hin]; [left; exact E|].
    right. apply IH. exact Hin.
Qed.

(** On a sorted list [np.unique] keeps the first and the last item and
    loses no value. *)
Lemma unique_sorted_ends (l : list Z) (d : Z) :
  StronglySorted Z.le l ->
  hd d (Numpy.unique l) = hd d l /\
  last (Numpy.unique l) d = last l d /\
  (forall v, In v l -> In v (Numpy.unique l)).
Proof.
  intros Hs. unfold Numpy.unique. rewrite (sort_sorted l Hs).
  destruct l as [|x l]; [repeat split; auto|].
  repeat split.
  - apply keep_changes_last.
  - apply keep_changes_complete.
Qed.

Section SliceSelectionEdges.
Context {T : Type} `{Numpy.Scalar T}.

(** X1: the failures and the empty answer of slice selection.  A volume
    without slices raises ValueError whatever the count, for the argmax is
    taken first; with at least one slice a negative count raises
    ValueError and the count 0 gives the empty list. *)
Theorem find_slices_of_interest_edge_cases (data : Numpy.ndarray3 T) (N : Z) :
  (Numpy.shape2 data = 0%nat ->
   exists msg, Initial.find_slices_of_interest data N = Raise (ValueError msg) /\
               Final.find_slices_of_interest data N = Raise (ValueError msg))
  /\ ((1 <= Numpy.shape2 data)%nat -> N < 0 ->
      exists msg, Initial.find_slices_of_interest data N = Raise (ValueError msg) /\
                  Final.find_slices_of_interest data N = Raise (ValueError msg))
  /\ ((1 <= Numpy.shape2 data)%nat -> N = 0 ->
      Initial.find_slices_of_interest data N = Ok [] /\
      Final.find_slices_of_interest data N = Ok []).
Proof.
  change (Final.find_slices_of_interest data N)
    with (Initial.find_slices_of_interest data N).
  unfold Initial.find_slices_of_interest.
  split; [|split].
  - intros Hz. unfold Numpy.sum_axis01. rewrite Hz. simpl.
    eexists; split; reflexivity.
  - intros Hz HN.
    destruct (argmax_range (Numpy.sum_axis01 data)) as [best [Ebest _]].
    { intros E. apply (f_equal (@length T)) in E.
      rewrite sum_axis01_length in E. simpl in E. lia. }
    rewrite Ebest. simpl. unfold Numpy.linspace.
    destruct (Z.ltb_spec N 0); [|lia]. eexists; split; reflexivity.
  - intros Hz ->.
    destruct (argmax_range (Numpy.sum_axis01 data)) as [best [Ebest _]].
    { intros E. apply (f_equal (@length T)) in E.
      rewrite sum_axis01_length in E. simpl in E. lia. }
    rewrite Ebest. split; reflexivity.
Qed.

(** X2: where the selected slices lie.  With at least one slice and a
    count N >= 1 every selected index is within N * 5 of the brightest
    slice [best]; for N >= 2 the first index is max(0, best - N * 5) and
    the last is min(z_size - 1, best + N * 5); for N = 1 the single index
    is max(0, best - 5). *)
Theorem find_slices_of_interest_window (data : Numpy.ndarray3 T) (N : Z) :
  (1 <= Numpy.shape2 data)%nat -> 1 <= N ->
  exists best l,
    Numpy.argmax (Numpy.sum_axis01 data) = Ok best /\
    Initial.find_slices_of_interest data N = Ok l /\
    Forall (fun i => best - N * 5 <= i <= best + N * 5) l /\
    (2 <= N ->
     hd 0 l = Z.max 0 (best - N * 5) /\
     last l 0 = Z.min (Z.of_nat (Numpy.shape2 data) - 1) (best + N * 5)) /\
    (N = 1 -> l = [Z.max 0 (best - 5)]).
Proof.
  intros Hz HN.
  destruct (find_slices_of_interest_unfold data N Hz) as [best [Ebest [Hb E]]];
    [lia|].
  destruct (window_bounds data best N Hb ltac:(lia)) as [Hlohi Hfit].
  set (lo := Z.max 0 (best - N * 5)) in *.
  set (hi := Z.min (Z.of_nat (Numpy.shape2 data) - 1) (best + N * 5)) in *.
  pose proof (samples_sorted lo hi Hlohi Hfit N) as Hsorted.
  destruct (unique_sorted _ Hsorted) as [_ [Hincl _]].
  destruct (unique_sorted_ends _ 0 Hsorted) as [Hhd [Hlast _]].
  exists best, (Numpy.unique (samples lo hi N)).
  split; [exact Ebest|]. split; [exact E|]. split; [|split].
  - rewrite Forall_forall. intros v Hv. apply Hincl in Hv.
    pose proof (samples_bounds lo hi Hlohi Hfit N) as HB.
    rewrite Forall_forall in HB. specialize (HB v Hv). unfold lo, hi in HB. lia.
  - intros HN2. rewrite Hhd, Hlast.
    destruct (samples_ends lo hi Hlohi Hfit N 0 HN2) as [-> ->]. split; reflexivity.
  - intros ->. rewrite (samples_one lo hi Hlohi Hfit).
    unfold Numpy.unique. cbn [Numpy.sort Numpy.insert Numpy.keep_changes].
    unfold lo. f_equal.
Qed.

(** X3: whether the brightest slice is selected.  When the window is not
    clamped (N * 5 <= best and best + N * 5 <= z_size - 1) and N * z_size
    is at most 2^50, an even count N >= 2 never selects the brightest
    slice [best] itself; for an odd count N >= 3 the middle sample is
    [best] or, by the rounding of float64, [best - 1]. *)
Theorem find_slices_of_interest_brightest (data : Numpy.ndarray3 T)
  (N best : Z) :
  Numpy.argmax (Numpy.sum_axis01 data) = Ok best ->
  2 <= N -> N * 5 <= best ->
  best + N * 5 <= Z.of_nat (Numpy.shape2 data) - 1 ->
  N * Z.of_nat (Numpy.shape2 data) <= 2 ^ 50 ->
  exists l,
    Initial.find_slices_of_interest data N = Ok l /\
    (Z.even N = true -> ~ In best l) /\
    (Z.odd N = true -> In best l \/ In (best - 1) l).
Proof.
  intros Ebest HN Hlo Hhi Hsize.
  pose proof (Numpy.shape2_fits data) as Hfits.
  assert (H51 : 2 ^ 48 < 2 ^ 51) by reflexivity.
  unfold Initial.find_slices_of_interest. rewrite Ebest. simpl.
  rewrite linspace_returns_samples by lia. simpl.
  rewrite Z.max_r by lia. rewrite Z.min_r by lia.
  remember (best - N * 5) as lo eqn:Elo.
  remember (best + N * 5) as hi eqn:Ehi.
  assert (Hspan : hi - lo = N * 10) by lia.
  assert (Hlohi : 0 <= lo <= hi) by lia.
  assert (Hfit : hi < 2 ^ 51) by lia.
  assert (HhiN : hi * N <= 2 ^ 50) by nia.
  assert (HN50 : 2 <= N <= 2 ^ 50) by nia.
  pose proof (samples_sorted lo hi Hlohi Hfit N) as Hsorted.
  destruct (unique_sorted _ Hsorted) as [_ [Hincl _]].
  destruct (unique_sorted_ends _ 0 Hsorted) as [_ [_ Hcompl]].
  eexists; split; [reflexivity|]. split.
  - intros Heven Hin. apply Hincl in Hin.
    unfold samples in Hin. destruct (Z.ltb_spec 1 N) as [_|?]; [|lia].
    apply in_app_iff in Hin. destruct Hin as [Hin|Hin].
    + apply in_map_iff in Hin. destruct Hin as [i [Ei Hi]].
      apply arange_bounds in Hi.
      apply Z.even_spec in Heven. destruct Heven as [m Hm].
      pose proof (sample_near_exact lo hi Hlohi Hfit N i HN50 HhiN ltac:(lia))
        as Hs.
      rewrite Ei, Hspan in Hs.
      pose proof (Z.div_mod (i * (N * 10)) (N - 1) ltac:(lia)) as Hdm.
      pose proof (Z.mod_pos_bound (i * (N * 10)) (N - 1) ltac:(lia)) as Hr.
      remember (i * (N * 10) / (N - 1)) as f eqn:Ef.
      remember ((i * (N * 10)) mod (N - 1)) as r eqn:Er.
      destruct Hs as [Hs|[Hmod Hs]].
      * assert (f = N * 5) by lia. subst f N.
        assert (m <= i \/ i < m) as [Hmi|Hmi] by lia; nia.
      * assert (Hf : f = N * 5 + 1) by lia.
        rewrite Hf, Hmod in Hdm. clear Ef Er Hs Hr Hf. subst N. nia.
    + destruct Hin as [Hin|[]].
      rewrite (sample_last lo hi Hlohi Hfit) in Hin. lia.
  - intros Hodd.
    apply Z.odd_spec in Hodd. destruct Hodd as [m Hm].
    assert (Hmid : In (sample_at lo hi N m) (samples lo hi N)).
    { unfold samples. destruct (Z.ltb_spec 1 N) as [_|?]; [|lia].
      apply in_app_iff. left. apply in_map_iff. exists m. split; [reflexivity|].
      unfold Numpy.arange. apply in_map_iff. exists (Z.to_nat m).
      split; [lia|]. apply in_seq. lia. }
    apply Hcompl in Hmid.
    pose proof (sample_near_exact lo hi Hlohi Hfit N m HN50 HhiN ltac:(lia))
      as Hs.
    rewrite Hspan in Hs.
    replace (m * (N * 10)) with ((N * 5) * (N - 1)) in Hs by nia.
    rewrite Z.div_mul in Hs by lia.
    destruct Hs as [Hs|[_ Hs]]; rewrite Hs in Hmid.
    + left. replace best with (lo + N * 5) by lia. exact Hmid.
    + right. replace (best - 1) with (lo + N * 5 - 1) by lia. exact Hmid.
Qed.

End SliceSelectionEdges.

(** The count 0 on [vol_example]. *)
Lemma find_slices_of_interest_edge_cases_witness :
  Initial.find_slices_of_interest vol_example 0 = Ok [] /\
  Final.find_slices_of_interest vol_example 0 = Ok [].
Proof.
  apply (proj2 (proj2 (find_slices_of_interest_edge_cases vol_example 0)));
    [simpl; lia | reflexivity].
Defined.

(** Ten slices of [vol_example], around its brightest slice 120. *)
Lemma find_slices_of_interest_window_witness :
  exists best l,
    Numpy.argmax (Numpy.sum_axis01 vol_example) = Ok best /\
    Initial.find_slices_of_interest vol_example 10 = Ok l /\
    Forall (fun i => best - 10 * 5 <= i <= best + 10 * 5) l /\
    (2 <= 10 ->
     hd 0 l = Z.max 0 (best - 10 * 5) /\
     last l 0 = Z.min (Z.of_nat (Numpy.shape2 vol_example) - 1) (best + 10 * 5)) /\
    (10 = 1 -> l = [Z.max 0 (best - 5)]).
Proof.
  apply (find_slices_of_interest_window vol_example 10); [simpl; lia | lia].
Defined.

(** With the count 11 the middle sample of [vol_example] is slice 120 or
    slice 119. *)
Lemma find_slices_of_interest_brightest_witness :
  exists l,
    Initial.find_slices_of_interest vol_example 11 = Ok l /\
    (Z.even 11 = true -> ~ In 120 l) /\
    (Z.odd 11 = true -> In 120 l \/ In (120 - 1) l).
Proof.
  apply (find_slices_of_interest_brightest vol_example 11 120);
    [reflexivity | lia | lia | simpl; lia | simpl; lia].
Defined.

(** On 431 slices with the brightest in the middle, slice 215, the count 43
    leaves the window unclamped and the middle sample is slice 214. *)
Lemma find_slices_of_interest_brightest_missed :
  first_maximum (slice_sum vol_431) (Numpy.shape2 vol_431) 215 /\
  exists l,
    Initial.find_slices_of_interest vol_431 43 = Ok l /\
    In 214 l /\ ~ In 215 l.
Proof.
  split; [apply column_first_maximum; simpl; lia|].
  eexists. split; [vm_compute; reflexivity|]. split.
  - simpl. tauto.
  - simpl. intros H. repeat (destruct H as [H|H]; [discriminate H|]). exact H.
Qed.

(* ================================================================== *)
(** * Suffixes of strings *)

Lemma strlen_app (a b : string) :
  String.length (a ++ b) = (String.length a + String.length b)%nat.
Proof. induction a as [|c a IH]; simpl; [reflexivity | now rewrite IH]. Qed.

Lemma substring_prefix_app (a b : string) :
  String.substring 0 (String.length a) (a ++ b) = a.
Proof.
  induction a as [|c a IH]; simpl; [destruct b; reflexivity | now rewrite IH].
Qed.

Lemma substring_0_length (s : string) :
  String.substring 0 (String.length s) s = s.
Proof.
  induction s as [|c s IH]; simpl; [reflexivity | now rewrite IH].
Qed.

Lemma substring_suffix_app (a b : string) :
  String.substring (String.length a) (String.length b) (a ++ b) = b.
Proof.
  induction a as [|c a IH]; simpl; [apply substring_0_length | exact IH].
Qed.

Lemma substring_split (s : string) : forall k,
  (k <= String.length s)%nat ->
  s = (String.substring 0 k s ++
       String.substring k (String.length s - k) s)%string.
Proof.
  induction s as [|c s IH]; intros k Hk.
  - simpl in Hk. assert (k = 0)%nat by lia. subst k. reflexivity.
  - destruct k as [|k].
    + simpl. now rewrite substring_0_length.
    + simpl in Hk |- *. f_equal. apply IH. lia.
Qed.

Lemma append_inj_tail (a : string) : forall b x y,
  String.length x = String.length y ->
  (a ++ x)%string = (b ++ y)%string -> a = b /\ x = y.
Proof.
  induction a as [|c a IH]; intros b x y Hlen E.
  - destruct b as [|d b]; [split; [reflexivity | exact E]|].
    simpl in E. apply (f_equal String.length) in E.
    simpl in E. rewrite strlen_app in E. lia.
  - destruct b as [|d b].
    + simpl in E. apply (f_equal String.length) in E.
      simpl in E. rewrite strlen_app in E. lia.
    + simpl in E. inversion E; subst d.
      destruct (IH b x y Hlen H1) as [-> ->]. split; reflexivity.
Qed.

Lemma endswith_app (pre suf : string) : Str.endswith (pre ++ suf) suf = true.
Proof.
  unfold Str.endswith. rewrite strlen_app.
  replace (String.length pre + String.length suf - String.length suf)%nat
    with (String.length pre) by lia.
  rewrite substring_suffix_app, String.eqb_refl.
  destruct (Nat.leb_spec (String.length suf)
              (String.length pre + String.length suf)); [reflexivity | lia].
Qed.

Lemma endswith_inv (s suf : string) :
  Str.endswith s suf = true ->
  s = (Str.drop_last (String.length suf) s ++ suf)%string.
Proof.
  unfold Str.endswith, Str.drop_last. intros E.
  apply andb_true_iff in E. destruct E as [Hlen E].
  apply Nat.leb_le in Hlen. apply String.eqb_eq in E.
  pose proof (substring_split s (String.length s - String.length suf)
                ltac:(lia)) as Hs.
  replace (String.length s - (String.length s - String.length suf))%nat
    with (String.length suf) in Hs by lia.
  rewrite E in Hs. exact Hs.
Qed.

Lemma drop_last_app (pre suf : string) :
  Str.drop_last (String.length suf) (pre ++ suf) = pre.
Proof.
  unfold Str.drop_last. rewrite strlen_app.
  replace (String.length pre + String.length suf - String.length suf)%nat
    with (String.length pre) by lia.
  apply substring_prefix_app.
Qed.

Lemma endswith_spec (s suf : string) :
  Str.endswith s suf = true <-> exists pre, s = (pre ++ suf)%string.
Proof.
  split.
  - intros E. eexists. apply endswith_inv. exact E.
  - intros [pre ->]. apply endswith_app.
Qed.

(** A name that ends in .nii does not end in .nii.gz. *)
Lemma nii_not_nii_gz (s : string) : Str.endswith (s ++ ".nii") ".nii.gz" = false.
Proof.
  destruct (Str.endswith (s ++ ".nii") ".nii.gz") eqn:E; [|reflexivity].
  apply endswith_spec in E. destruct E as [pre E].
  change (pre ++ ".nii.gz")%string with (pre ++ (".ni" ++ "i.gz"))%string in E.
  rewrite <- append_assoc in E.
  apply append_inj_tail in E; [|reflexivity]. destruct E as [_ E]. discriminate E.
Qed.

(* ================================================================== *)
(** * Names of the result files *)

Lemma strip_nii_gz_decompose (b : string) :
  exists ext,
    b = (Initial.strip_nii_gz b ++ ext)%string /\
    (ext = ".nii.gz" \/ ext = ".nii" \/ ext = EmptyString).
Proof.
  unfold Initial.strip_nii_gz. destruct (Str.endswith b ".nii.gz") eqn:E1.
  - exists ".nii.gz". split; [|auto]. apply (endswith_inv b ".nii.gz" E1).
  - destruct (Str.endswith b ".nii") eqn:E2.
    + exists ".nii". split; [|auto]. apply (endswith_inv b ".nii" E2).
    + exists EmptyString. split; [|auto]. now rewrite append_nil_r.
Qed.

(** X4: [strip_nii_gz] takes off exactly one extension: a trailing .nii.gz
    or else a trailing .nii, and nothing from any other name; so it undoes
    the appending of either extension, and the name is always the result
    followed by the extension taken off. *)
Theorem strip_nii_gz_extension :
  (forall s, Initial.strip_nii_gz (s ++ ".nii.gz") = s)
  /\ (forall s, Initial.strip_nii_gz (s ++ ".nii") = s)
  /\ (forall b,
        Str.endswith b ".nii.gz" = false -> Str.endswith b ".nii" = false ->
        Initial.strip_nii_gz b = b)
  /\ (forall b, exists ext,
        b = (Initial.strip_nii_gz b ++ ext)%string /\
        (ext = ".nii.gz" \/ ext = ".nii" \/ ext = EmptyString)).
Proof.
  split; [|split; [|split; [|exact strip_nii_gz_decompose]]];
    unfold Initial.strip_nii_gz.
  - intros s. rewrite endswith_app. apply (drop_last_app s ".nii.gz").
  - intros s. rewrite nii_not_nii_gz, endswith_app.
    apply (drop_last_app s ".nii").
  - intros b E1 E2. now rewrite E1, E2.
Qed.

(** A name without either extension. *)
Lemma strip_nii_gz_extension_witness :
  Initial.strip_nii_gz "sub-01_T1w.json" = "sub-01_T1w.json".
Proof.
  apply (proj1 (proj2 (proj2 strip_nii_gz_extension))); reflexivity.
Defined.

Lemma prefix_slash (c : ascii) (s : string) :
  String.prefix "/" (String c s) = Ascii.eqb c "/".
Proof.
  change (String.prefix "/" (String c s))
    with (if ascii_dec "/" c then String.prefix "" s else false).
  destruct (ascii_dec "/" c) as [<-|Hne].
  - destruct s; reflexivity.
  - symmetry. apply Ascii.eqb_neq. congruence.
Qed.

Lemma contains_slash_cons (c : ascii) (s : string) :
  Str.contains "/" (String c s) = Ascii.eqb c "/" || Str.contains "/" s.
Proof.
  cbn [Str.contains]. rewrite prefix_slash.
  destruct (Ascii.eqb c "/"); reflexivity.
Qed.

Lemma basename_no_slash (p : string) :
  Str.contains "/" (OsPath.basename p) = false.
Proof.
  induction p as [|c p IH]; [reflexivity|].
  cbn [OsPath.basename]. destruct (Str.contains "/" p) eqn:Ep; [exact IH|].
  destruct (Ascii.eqb c "/") eqn:Ec; [exact Ep|].
  now rewrite contains_slash_cons, Ec, Ep.
Qed.

Lemma contains_app_false (n a b : string) :
  Str.contains n (a ++ b) = false -> Str.contains n a = false.
Proof.
  intros E. destruct (Str.contains n a) eqn:Ea; [|reflexivity].
  rewrite (contains_app_r n a b Ea) in E. discriminate E.
Qed.

Lemma no_slash_app (a b : string) :
  Str.contains "/" a = false -> Str.contains "/" b = false ->
  Str.contains "/" (a ++ b) = false.
Proof.
  intros Ha Hb. induction a as [|c a IH]; [exact Hb|].
  cbn [String.append]. rewrite contains_slash_cons in *.
  apply orb_false_iff in Ha. destruct Ha as [Hc Ha].
  now rewrite Hc, IH.
Qed.

Lemma contains_join_relative (n a b : string) :
  Str.contains n a = true -> String.prefix "/" b = false ->
  Str.contains n (OsPath.join a b) = true.
Proof.
  intros Ha Hb. unfold OsPath.join. rewrite Hb.
  destruct (_ || _); now apply contains_app_r.
Qed.

Lemma results_dir_contains_results (bids_root rel : string) :
  String.prefix "/" rel = false ->
  Str.contains "results"
    (OsPath.join (OsPath.join bids_root "results") rel) = true.
Proof.
  intros Hrel. apply contains_join_relative; [|exact Hrel].
  unfold OsPath.join. simpl String.prefix. cbv iota.
  destruct (_ || _); apply contains_app_l; reflexivity.
Qed.

(** The base name of a scan has no slash, whatever the path. *)
Lemma base_no_ext_no_slash (filepath : string) :
  Str.contains "/" (Initial.strip_nii_gz (OsPath.basename filepath)) = false.
Proof.
  destruct (strip_nii_gz_decompose (OsPath.basename filepath)) as [ext [E _]].
  pose proof (basename_no_slash filepath) as Hb. rewrite E in Hb.
  exact (contains_app_false _ _ _ Hb).
Qed.

Section ResultFiles.
Context {T : Type} `{Numpy.Scalar T}.
Variable env : Env T.

(** X5: where the initial pass writes.  When [os.path.relpath] gives a
    relative path, everything [process_scan_initial] creates is the one
    directory [results_dir], whose path contains "results", and files
    placed directly in it; whether it returns or raises, it writes nowhere
    else. *)
Theorem process_scan_initial_writes_under_results
  (bids_root filepath : string) (N : Z) (tr : list event) :
  String.prefix "/"
    (os_path_relpath env (OsPath.dirname filepath) bids_root) = false ->
  exists results_dir evs,
    Str.contains "results" results_dir = true /\
    fst (Initial.process_scan_initial env bids_root filepath N tr) = tr ++ evs /\
    forall ev, In ev evs ->
      match ev with
      | MadeDirs p => p = results_dir
      | SavedFigure p | WroteCsv p =>
          exists name, p = OsPath.join results_dir name /\
                       Str.contains "/" name = false
      | LogInfo _ | LogError _ => True
      end.
Proof.
  intros Hrel.
  set (rel := os_path_relpath env (OsPath.dirname filepath) bids_root) in *.
  set (results_dir := OsPath.join (OsPath.join bids_root "results") rel).
  set (base := Initial.strip_nii_gz (OsPath.basename filepath)).
  assert (Hbase : Str.contains "/" base = false)
    by apply base_no_ext_no_slash.
  assert (Hname : forall suffix, Str.contains "/" suffix = false ->
            exists name, OsPath.join results_dir (base ++ suffix) =
                         OsPath.join results_dir name /\
                         Str.contains "/" name = false).
  { intros suffix Hs. exists (base ++ suffix)%string. split; [reflexivity|].
    now apply no_slash_app. }
  exists results_dir. 
  unfold Initial.process_scan_initial, Initial.ensure_results_dir,
    Initial.plot_slices, Initial.analyze_nifti,
    Initial.create_density_plot_and_save, try_except, bind, emit, lift, ret.
  fold rel. fold results_dir. fold base.
  destruct (nib_load env filepath) as [data|e];
    [|eexists; split; [now apply results_dir_contains_results|];
      split; [reflexivity|]; intros ev [<-|[]]; exact I].
  destruct (Initial.find_slices_of_interest data N) as [idx|e];
    [|eexists; split; [now apply results_dir_contains_results|];
      split; [reflexivity|]; intros ev [<-|[]]; exact I].
  destruct (os_makedirs env results_dir) as [[]|e];
    [|eexists; split; [now apply results_dir_contains_results|];
      split; [reflexivity|]; intros ev [<-|[]]; exact I].
  destruct (plt_plot_slices env data idx _ _) as [[]|e];
    [|eexists; split; [now apply results_dir_contains_results|];
      split; [rewrite <- app_assoc; reflexivity|];
      intros ev [<-|[<-|[]]]; [exact I | reflexivity]].
  destruct (np_statistics env data) as [st|e].
  - destruct (pd_to_csv env st _) as [[]|e].
    + destruct (sns_density_plot env data _ _) as [[]|e];
        (eexists; split; [now apply results_dir_contains_results|];
         split; [cbn [fst]; rewrite <- ?app_assoc; reflexivity|];
         intros ev Hin; cbn [app In] in Hin;
         repeat (destruct Hin as [<-|Hin]; [try exact I; try reflexivity;
                                            try (apply Hname; reflexivity)|]);
         destruct Hin).
    + eexists; split; [now apply results_dir_contains_results|].
      split; [cbn [fst]; rewrite <- ?app_assoc; reflexivity|].
      intros ev Hin; cbn [app In] in Hin.
      repeat (destruct Hin as [<-|Hin]; [try exact I; try reflexivity;
                                         try (apply Hname; reflexivity)|]).
      destruct Hin.
  - eexists; split; [now apply results_dir_contains_results|].
    split; [cbn [fst]; rewrite <- ?app_assoc; reflexivity|].
    intros ev Hin; cbn [app In] in Hin.
    repeat (destruct Hin as [<-|Hin]; [try exact I; try reflexivity;
                                       try (apply Hname; reflexivity)|]).
    destruct Hin.
Qed.

End ResultFiles.

(** The scan of sub-01 in an environment without statistics. *)
Lemma process_scan_initial_writes_under_results_witness :
  exists results_dir evs,
    Str.contains "results" results_dir = true /\
    fst (Initial.process_scan_initial env_no_statistics "/data"
           "/data/sub-01/sub-01_T1w.nii.gz" 10 []) = [] ++ evs /\
    forall ev, In ev evs ->
      match ev with
      | MadeDirs p => p = results_dir
      | SavedFigure p | WroteCsv p =>
          exists name, p = OsPath.join results_dir name /\
                       Str.contains "/" name = false
      | LogInfo _ | LogError _ => True
      end.
Proof.
  apply (process_scan_initial_writes_under_results env_no_statistics
           "/data" "/data/sub-01/sub-01_T1w.nii.gz" 10 []).
  reflexivity.
Defined.

(* ================================================================== *)
(** * The accepted-list key of the final pass *)

Lemma prefix_cons (a b : ascii) (lit s : string) :
  String.prefix (String a lit) (String b s) =
    if Ascii.eqb a b then String.prefix lit s else false.
Proof.
  change (String.prefix (String a lit) (String b s))
    with (if ascii_dec a b then String.prefix lit s else false).
  destruct (ascii_dec a b) as [->|Hne].
  - now rewrite Ascii.eqb_refl.
  - apply Ascii.eqb_neq in Hne. now rewrite Hne.
Qed.

Lemma prefix_inv (lit : string) : forall s,
  String.prefix lit s = true ->
  s = (lit ++ String.substring (String.length lit)
                (String.length s - String.length lit) s)%string.
Proof.
  induction lit as [|a lit IH]; intros s E.
  - simpl. rewrite Nat.sub_0_r. now rewrite substring_0_length.
  - destruct s as [|b s]; [discriminate E|].
    rewrite prefix_cons in E.
    destruct (Ascii.eqb_spec a b) as [->|]; [|discriminate E].
    simpl. f_equal. apply IH. exact E.
Qed.

Lemma prefix_append (lit r : string) : String.prefix lit (lit ++ r) = true.
Proof.
  induction lit as [|a lit IH]; [destruct r; reflexivity|].
  cbn [String.append]. now rewrite prefix_cons, Ascii.eqb_refl.
Qed.

Lemma substring_after (lit r : string) :
  String.substring (String.length lit)
    (String.length (lit ++ r) - String.length lit) (lit ++ r) = r.
Proof.
  rewrite strlen_app.
  replace (String.length lit + String.length r - String.length lit)%nat
    with (String.length r) by lia.
  apply substring_suffix_app.
Qed.

Lemma match_numbered_sound (lit s m r : string) :
  Final.match_numbered lit s = Some (m, r) ->
  s = (m ++ r)%string /\ is_numbered lit m.
Proof.
  unfold Final.match_numbered.
  destruct (String.prefix lit s) eqn:Ep; [|discriminate].
  apply prefix_inv in Ep.
  set (after := String.substring _ _ s) in *.
  destruct (Str.take_while Str.isdigit after) as [|c d] eqn:Et; [discriminate|].
  intros E; inversion E; subst m r. split.
  - rewrite append_assoc, <- Et, <- take_drop_while. exact Ep.
  - exists (String c d). repeat split; [discriminate|].
    rewrite <- Et. apply take_while_all.
Qed.

Lemma match_numbered_digit (lit : string) (c : ascii) (rest : string) :
  Str.isdigit c = true ->
  Final.match_numbered lit (lit ++ String c rest) <> None.
Proof.
  intros Hc. unfold Final.match_numbered.
  rewrite prefix_append, substring_after. cbn [Str.take_while].
  rewrite Hc. discriminate.
Qed.

Lemma match_sub_ses_here_sound (s sub : string) (g2 : option string) :
  Final.match_sub_ses_here s = Some (sub, g2) ->
  is_numbered "sub-" sub /\
  exists rest, s = (sub ++ rest)%string /\
    match g2 with
    | None => True
    | Some ses =>
        is_numbered "ses-" ses /\
        exists rest', rest = (ses ++ rest')%string \/
                      rest = ("_" ++ ses ++ rest')%string
    end.
Proof.
  unfold Final.match_sub_ses_here.
  destruct (Final.match_numbered "sub-" s) as [[m r]|] eqn:E1; [|discriminate].
  destruct (match_numbered_sound _ _ _ _ E1) as [-> Hsub].
  set (r' := match r with String "_" r0 => r0 | _ => r end).
  assert (Hr : r = r' \/ r = ("_" ++ r')%string).
  { unfold r'. destruct r as [|c r0]; [left; reflexivity|].
    destruct (Ascii.eqb_spec c "_") as [->|Hc]; [right; reflexivity|].
    left. destruct c as [[] [] [] [] [] [] [] []]; try reflexivity.
    exfalso; apply Hc; reflexivity. }
  destruct (Final.match_numbered "ses-" r') as [[ses r2]|] eqn:E2;
    intros E; inversion E; subst; (split; [exact Hsub|]); exists r;
    (split; [reflexivity|]); [|exact I].
  destruct (match_numbered_sound _ _ _ _ E2) as [E3 Hses].
  split; [exact Hses|]. exists r2.
  destruct Hr as [Hr|Hr]; rewrite Hr, E3; [left | right]; reflexivity.
Qed.

Lemma search_sub_ses_sound (s : string) m :
  Final.search_sub_ses s = Some m ->
  exists pre tail, s = (pre ++ tail)%string /\
                   Final.match_sub_ses_here tail = Some m.
Proof.
  induction s as [|c s IH]; cbn [Final.search_sub_ses].
  - destruct (Final.match_sub_ses_here "") eqn:E; [|discriminate].
    intros E'; inversion E'; subst. exists EmptyString, EmptyString. auto.
  - destruct (Final.match_sub_ses_here (String c s)) eqn:E.
    + intros E'; inversion E'; subst. exists EmptyString, (String c s). auto.
    + intros E'. destruct (IH E') as [pre [tail [-> Ht]]].
      exists (String c pre), tail. auto.
Qed.

Lemma search_sub_ses_found (pre s : string) :
  Final.match_sub_ses_here s <> None -> Final.search_sub_ses (pre ++ s) <> None.
Proof.
  intros Hs. induction pre as [|c pre IH].
  - cbn [String.append].
    destruct s; cbn [Final.search_sub_ses];
      destruct (Final.match_sub_ses_here _); congruence.
  - cbn [String.append Final.search_sub_ses].
    destruct (Final.match_sub_ses_here (String c (pre ++ s)));
      [discriminate | exact IH].
Qed.

Lemma match_sub_ses_here_digit (c : ascii) (rest : string) :
  Str.isdigit c = true ->
  Final.match_sub_ses_here ("sub-" ++ String c rest) <> None.
Proof.
  intros Hc. unfold Final.match_sub_ses_here.
  pose proof (match_numbered_digit "sub-" c rest Hc) as Hm.
  destruct (Final.match_numbered "sub-" ("sub-" ++ String c rest))
    as [[m r]|]; [|congruence].
  destruct (Final.match_numbered "ses-" _) as [[ses r2]|]; discriminate.
Qed.

Lemma basename_id (f : string) :
  Str.contains "/" f = false -> OsPath.basename f = f.
Proof.
  destruct f as [|c f]; [reflexivity|].
  rewrite contains_slash_cons. intros E.
  apply orb_false_iff in E. destruct E as [Hc Hf].
  cbn [OsPath.basename]. now rewrite Hf, Hc.
Qed.

Lemma basename_slash_app (a f : string) :
  Str.contains "/" f = false -> OsPath.basename (a ++ "/" ++ f) = f.
Proof.
  intros Hf. induction a as [|c a IH].
  - cbn [String.append OsPath.basename]. now rewrite Hf.
  - cbn [String.append OsPath.basename].
    assert (E : Str.contains "/" (a ++ String "/" f) = true).
    { apply contains_app_l. now rewrite contains_slash_cons. }
    cbn [String.append] in IH. now rewrite E.
Qed.

(** The base name of a joined path is the file name. *)
Lemma basename_join (dir f : string) :
  Str.contains "/" f = false -> OsPath.basename (OsPath.join dir f) = f.
Proof.
  intros Hf. unfold OsPath.join.
  assert (E : String.prefix "/" f = false).
  { destruct f as [|c f]; [reflexivity|]. rewrite prefix_slash.
    rewrite contains_slash_cons in Hf. now apply orb_false_iff in Hf. }
  rewrite E. destruct (String.eqb_spec dir "") as [->|Hd]; cbn [orb].
  - now apply basename_id.
  - destruct (Str.endswith dir "/") eqn:Ee.
    + apply endswith_inv in Ee. rewrite Ee, append_assoc.
      now apply basename_slash_app.
    + now apply basename_slash_app.
Qed.

Lemma extract_sub_ses_sound (filepath sub ses : string) :
  Final.extract_sub_ses filepath = Some (sub, ses) ->
  is_numbered "sub-" sub /\ is_numbered "ses-" ses /\
  exists pre rest,
    OsPath.basename filepath = (pre ++ sub ++ rest)%string /\
    (ses = "ses-01" \/
     exists rest', rest = (ses ++ rest')%string \/
                   rest = ("_" ++ ses ++ rest')%string).
Proof.
  unfold Final.extract_sub_ses.
  destruct (Final.search_sub_ses (OsPath.basename filepath))
    as [[s g2]|] eqn:E; [|discriminate].
  intros E'; inversion E'; subst; clear E'.
  destruct (search_sub_ses_sound _ _ E) as [pre [tail [Eb Ht]]].
  destruct (match_sub_ses_here_sound _ _ _ Ht) as [Hsub [rest [-> Hg]]].
  split; [exact Hsub|]. destruct g2 as [ses|].
  - destruct Hg as [Hses Hrest]. split; [exact Hses|].
    exists pre, rest. split; [exact Eb | right; exact Hrest].
  - split.
    + exists "01". repeat split; discriminate.
    + exists pre, rest. split; [exact Eb | left; reflexivity].
Qed.

Lemma extract_sub_ses_none_iff (filepath : string) :
  Final.extract_sub_ses filepath = None <->
  ~ has_numbered_subject (OsPath.basename filepath).
Proof.
  unfold Final.extract_sub_ses. split.
  - intros E [pre [c [rest [Eb Hc]]]]. rewrite Eb in E.
    pose proof (search_sub_ses_found pre _ (match_sub_ses_here_digit c rest Hc))
      as Hne.
    destruct (Final.search_sub_ses (pre ++ "sub-" ++ String c rest))
      as [[s g2]|]; [discriminate | congruence].
  - intros Hno.
    destruct (Final.search_sub_ses (OsPath.basename filepath))
      as [[s g2]|] eqn:E; [|reflexivity].
    exfalso. apply Hno.
    destruct (search_sub_ses_sound _ _ E) as [pre [tail [Eb Ht]]].
    destruct (match_sub_ses_here_sound _ _ _ Ht)
      as [[d [-> [Hd Hall]]] [rest [-> _]]].
    destruct d as [|c d]; [congruence|].
    cbn [all_chars] in Hall. apply andb_true_iff in Hall.
    exists pre, c, (d ++ rest)%string. split; [|tauto].
    rewrite Eb. now rewrite !append_assoc.
Qed.

(** X6: the key [extract_sub_ses] reads off a path.  It looks at the file
    name only; a key that is returned has a subject sub-<digits> that
    occurs in the name and a session ses-<digits>, which is either ses-01
    or follows the subject directly or after one underscore; no key is
    returned exactly when the name has no sub- followed by a digit. *)
Theorem extract_sub_ses_key :
  (forall dir fname,
     Str.contains "/" fname = false ->
     Final.extract_sub_ses (OsPath.join dir fname) = Final.extract_sub_ses fname)
  /\ (forall filepath sub ses,
        Final.extract_sub_ses filepath = Some (sub, ses) ->
        is_numbered "sub-" sub /\ is_numbered "ses-" ses /\
        exists pre rest,
          OsPath.basename filepath = (pre ++ sub ++ rest)%string /\
          (ses = "ses-01" \/
           exists rest', rest = (ses ++ rest')%string \/
                         rest = ("_" ++ ses ++ rest')%string))
  /\ (forall filepath,
        Final.extract_sub_ses filepath = None <->
        ~ has_numbered_subject (OsPath.basename filepath)).
Proof.
  split; [|split; [exact extract_sub_ses_sound | exact extract_sub_ses_none_iff]].
  intros dir fname Hf. unfold Final.extract_sub_ses.
  now rewrite basename_join, basename_id.
Qed.

(** A scan below a subject directory: the directory does not count. *)
Lemma extract_sub_ses_key_witness :
  Final.extract_sub_ses (OsPath.join "/data/sub-02/anat" "sub-01_ses-3_T1w.nii.gz")
  = Final.extract_sub_ses "sub-01_ses-3_T1w.nii.gz".
Proof.
  apply (proj1 extract_sub_ses_key). reflexivity.
Defined.

Lemma pair_eqb_eq (a b : string * string) : Final.pair_eqb a b = true -> a = b.
Proof.
  destruct a as [a1 a2], b as [b1 b2]. unfold Final.pair_eqb. simpl.
  intros E. apply andb_true_iff in E. destruct E as [E1 E2].
  apply String.eqb_eq in E1. apply String.eqb_eq in E2. now subst.
Qed.

(** X7: what the accepted list can admit.  A scan passes the test of the
    final traversal only through a row of the list that equals its key, a
    subject sub-<digits> with a session ses-<digits>; a scan whose name
    has no sub- followed by a digit passes no list. *)
Theorem in_accepted_numbered_rows
  (accepted : list (string * string)) (filepath : string) :
  (Final.in_accepted (Final.extract_sub_ses filepath) accepted = true ->
   exists sub ses,
     In (sub, ses) accepted /\
     Final.extract_sub_ses filepath = Some (sub, ses) /\
     is_numbered "sub-" sub /\ is_numbered "ses-" ses)
  /\ (~ has_numbered_subject (OsPath.basename filepath) ->
      Final.in_accepted (Final.extract_sub_ses filepath) accepted = false).
Proof.
  split.
  - destruct (Final.extract_sub_ses filepath) as [[sub ses]|] eqn:E;
      [|discriminate].
    cbn [Final.in_accepted]. intros Hin. apply existsb_exists in Hin.
    destruct Hin as [row [Hrow Heq]]. apply pair_eqb_eq in Heq. subst row.
    destruct (extract_sub_ses_sound _ _ _ E) as [Hsub [Hses _]].
    exists sub, ses. auto.
  - intros Hno. apply extract_sub_ses_none_iff in Hno. now rewrite Hno.
Qed.

(** A subject without number, though the list names it. *)
Lemma in_accepted_numbered_rows_witness :
  Final.in_accepted (Final.extract_sub_ses "/data/sub-A01/sub-A01_T1w.nii.gz")
    [("sub-A01", "ses-01")] = false.
Proof.
  apply (proj2 (in_accepted_numbered_rows [("sub-A01", "ses-01")]
                  "/data/sub-A01/sub-A01_T1w.nii.gz")).
  apply (proj1 (extract_sub_ses_none_iff "/data/sub-A01/sub-A01_T1w.nii.gz")).
  reflexivity.
Defined.

(* ================================================================== *)
(** * The review ledger: keys and notes *)

Lemma update_rows_first (pre post : list row) (r : row) (k : string)
  (st : status_arg) :
  (forall r', In r' pre -> filename r' <> k) -> filename r = k ->
  update_rows (pre ++ r :: post) k st =
    (r' <- update_row r st ;; Ok (pre ++ r' :: post, true)).
Proof.
  induction pre as [|r0 pre IH]; intros Hpre Hk; simpl.
  - rewrite Hk, String.eqb_refl. destruct (update_row r st); reflexivity.
  - destruct (String.eqb_spec (filename r0) k) as [E|E].
    + exfalso. apply (Hpre r0); [left; reflexivity | exact E].
    + rewrite IH; [|intros r' Hin; apply Hpre; right; exact Hin | exact Hk].
      destruct (update_row r st); reflexivity.
Qed.

Lemma update_row_filename (r r' : row) (st : status_arg) :
  update_row r st = Ok r' -> filename r' = filename r.
Proof.
  destruct st as [s|[s|] nt]; simpl; intros E; inversion E; reflexivity.
Qed.

Lemma new_row_filename (k : string) (st : status_arg) (r : row) :
  new_row k st = Ok r -> filename r = k.
Proof.
  destruct st as [s|[s|] nt]; simpl; intros E; inversion E; reflexivity.
Qed.

Lemma absent_not_in (k : string) (rows : list row) :
  (forall r, In r rows -> filename r <> k) <-> ~ In k (map filename rows).
Proof.
  rewrite in_map_iff. split.
  - intros Habs [r [E Hin]]. exact (Habs r Hin E).
  - intros Hno r Hin E. apply Hno. exists r. auto.
Qed.

(** What [update_csv] does to the column of keys. *)
Lemma update_csv_keys (file : option (list row)) (k : string)
  (st : status_arg) (rows' : list row) :
  update_csv file k st = Ok rows' ->
  (In k (map filename (ledger_rows file)) ->
   map filename rows' = map filename (ledger_rows file)) /\
  (~ In k (map filename (ledger_rows file)) ->
   map filename rows' = map filename (ledger_rows file) ++ [k]).
Proof.
  unfold update_csv. fold (ledger_rows file). intros E.
  destruct (first_entry k (ledger_rows file))
    as [Habs|[pre [r [post [Er [Hpre Hk]]]]]].
  - rewrite update_rows_absent in E by exact Habs. simpl in E.
    destruct (new_row k st) as [nr|e] eqn:En; [|discriminate].
    simpl in E. inversion E; subst rows'. split.
    + intros Hin. exfalso. apply absent_not_in in Habs. contradiction.
    + intros _. rewrite map_app. simpl.
      now rewrite (new_row_filename _ _ _ En).
  - rewrite Er in *. rewrite update_rows_first in E by assumption.
    destruct (update_row r st) as [r'|e] eqn:Eu; [|discriminate].
    simpl in E. inversion E; subst rows'. split.
    + intros _. rewrite !map_app. simpl.
      now rewrite (update_row_filename _ _ _ Eu).
    + intros Hno. exfalso. apply Hno. rewrite map_app. simpl.
      apply in_or_app; right; left; exact Hk.
Qed.

(** X8: the keys of the ledger under [update_csv], for a string or a
    dictionary as status: when it returns, the key column is the old one,
    in the same order, with the key appended if it was missing; so a
    ledger without duplicate keys stays so, and it grows by at most one
    row. *)
Theorem update_csv_keeps_keys_unique (file : option (list row)) (k : string)
  (st : status_arg) (rows' : list row) :
  update_csv file k st = Ok rows' ->
  (In k (map filename (ledger_rows file)) ->
   map filename rows' = map filename (ledger_rows file))
  /\ (~ In k (map filename (ledger_rows file)) ->
      map filename rows' = map filename (ledger_rows file) ++ [k])
  /\ (NoDup (map filename (ledger_rows file)) -> NoDup (map filename rows'))
  /\ (length (ledger_rows file) <= length rows' <= S (length (ledger_rows file)))%nat.
Proof.
  intros E. destruct (update_csv_keys file k st rows' E) as [Hin Hout].
  split; [exact Hin|]. split; [exact Hout|].
  destruct (in_dec String.string_dec k (map filename (ledger_rows file)))
    as [Hk|Hk].
  - specialize (Hin Hk). split.
    + now rewrite Hin.
    + apply (f_equal (@length string)) in Hin. rewrite !length_map in Hin. lia.
  - specialize (Hout Hk). split.
    + intros Hnd. rewrite Hout. apply NoDup_app.
      * exact Hnd.
      * repeat constructor. intros [].
      * intros x Hx [<-|[]]. contradiction.
    + apply (f_equal (@length string)) in Hout.
      rewrite length_app, !length_map in Hout. simpl in Hout. lia.
Qed.

(** A second key on a ledger of one row. *)
Lemma update_csv_keeps_keys_unique_witness :
  (In "b.png" (map filename [entry "a.png" "GOOD" ""]) ->
   map filename [entry "a.png" "GOOD" ""; entry "b.png" "BAD" ""]
     = map filename [entry "a.png" "GOOD" ""])
  /\ (~ In "b.png" (map filename [entry "a.png" "GOOD" ""]) ->
      map filename [entry "a.png" "GOOD" ""; entry "b.png" "BAD" ""]
        = map filename [entry "a.png" "GOOD" ""] ++ ["b.png"])
  /\ (NoDup (map filename [entry "a.png" "GOOD" ""]) ->
      NoDup (map filename [entry "a.png" "GOOD" ""; entry "b.png" "BAD" ""]))
  /\ (1 <= 2 <= 2)%nat.
Proof.
  apply (update_csv_keeps_keys_unique (Some [entry "a.png" "GOOD" ""])
           "b.png" (StatusStr "BAD")).
  reflexivity.
Defined.

(** X9: updates that carry no notes, and a dictionary without status.
    A string as status, or a dictionary without the key "notes", replaces
    the status of the first entry under the key and keeps its notes; on a
    missing key a string creates the entry with empty notes; a dictionary
    without the key "status" raises KeyError on every ledger, so nothing
    is written. *)
Theorem update_csv_without_notes :
  (forall pre r post k s,
     (forall r', In r' pre -> filename r' <> k) -> filename r = k ->
     update_csv (Some (pre ++ r :: post)) k (StatusStr s) =
       Ok (pre ++ entry k s (notes r) :: post) /\
     update_csv (Some (pre ++ r :: post)) k (StatusDict (Some s) None) =
       Ok (pre ++ entry k s (notes r) :: post))
  /\ (forall file k s,
        ~ In k (map filename (ledger_rows file)) ->
        update_csv file k (StatusStr s) = Ok (ledger_rows file ++ [entry k s ""]) /\
        update_csv file k (StatusDict (Some s) None) =
          Ok (ledger_rows file ++ [entry k s ""]))
  /\ (forall file k nt,
        update_csv file k (StatusDict None nt) = Raise (KeyError "status")).
Proof.
  split; [|split].
  - intros pre r post k s Hpre Hk. unfold update_csv.
    rewrite !update_rows_first by assumption. simpl. rewrite Hk.
    split; reflexivity.
  - intros file k s Hno.
    pose proof (proj2 (absent_not_in k (ledger_rows file)) Hno) as Habs.
    unfold update_csv. fold (ledger_rows file).
    rewrite !update_rows_absent by exact Habs. split; reflexivity.
  - intros file k nt. unfold update_csv. fold (ledger_rows file).
    destruct (first_entry k (ledger_rows file))
      as [Habs|[pre [r [post [Er [Hpre Hk]]]]]].
    + rewrite update_rows_absent by exact Habs. reflexivity.
    + rewrite Er, update_rows_first by assumption. reflexivity.
Qed.

(** The notes of a.png survive a status given as a string. *)
Lemma update_csv_without_notes_witness :
  update_csv (Some ([] ++ entry "a.png" "GOOD" "blurred" :: [])) "a.png"
    (StatusStr "BAD")
  = Ok ([] ++ entry "a.png" "BAD" "blurred" :: []).
Proof.
  apply (proj1 (proj1 update_csv_without_notes [] (entry "a.png" "GOOD" "blurred")
                  [] "a.png" "BAD" (fun r' H => match H with end) eq_refl)).
Defined.

(* ================================================================== *)
(** * Grouping the result files *)

Lemma key_eqb_spec (a b : scan_key_of) : key_eqb a b = true <-> a = b.
Proof.
  destruct a as [[a1 a2] a3], b as [[b1 b2] b3]. unfold key_eqb. simpl.
  rewrite !andb_true_iff, !String.eqb_eq. split.
  - intros [[-> ->] ->]. reflexivity.
  - intros E; inversion E; auto.
Qed.

Lemma key_eqb_refl (a : scan_key_of) : key_eqb a a = true.
Proof. now apply key_eqb_spec. Qed.

Lemma has_key_spec (key : scan_key_of) (m : data_map_of) :
  has_key key m = true <-> In key (map fst m).
Proof.
  unfold has_key. rewrite existsb_exists, in_map_iff. split.
  - intros [kv [Hin E]]. apply key_eqb_spec in E. exists kv. auto.
  - intros [kv [E Hin]]. exists kv. split; [exact Hin|].
    apply key_eqb_spec. auto.
Qed.

Lemma update_slots_keys (key : scan_key_of) (f : slots -> slots)
  (m : data_map_of) :
  map fst (update_slots key f m) = map fst m.
Proof.
  unfold update_slots. rewrite map_map. apply map_ext.
  intros [k s]. simpl. destruct (key_eqb key k); reflexivity.
Qed.

Lemma update_slots_in (key : scan_key_of) (f : slots -> slots)
  (m : data_map_of) (kv : scan_key_of * slots) :
  In kv (update_slots key f m) ->
  exists s, In (fst kv, s) m /\
            ((fst kv = key /\ snd kv = f s) \/ (fst kv <> key /\ snd kv = s)).
Proof.
  unfold update_slots. rewrite in_map_iff. intros [[k s] [E Hin]].
  simpl in E. destruct (key_eqb key k) eqn:Ek.
  - apply key_eqb_spec in Ek. subst. exists s. simpl. split; [exact Hin|].
    left. auto.
  - subst kv. exists s. simpl. split; [exact Hin|]. right. split; [|reflexivity].
    intros ->. rewrite key_eqb_refl in Ek. discriminate.
Qed.

Lemma endswith_contains (s suf : string) :
  Str.endswith s suf = true -> Str.contains suf s = true.
Proof.
  intros E. apply endswith_spec in E. destruct E as [pre ->].
  apply contains_app_l. destruct suf as [|c suf]; [reflexivity|].
  cbn [Str.contains].
  pose proof (prefix_append (String c suf) "") as Hp.
  rewrite append_nil_r in Hp. now rewrite Hp.
Qed.

Section GroupingInvariant.
Variable seen : string -> string -> Prop.

Lemma slot_holds_file (key : scan_key_of) (suffix dirpath fname : string) :
  seen dirpath fname -> scan_key fname = Some key ->
  Str.endswith fname suffix = true ->
  slot_holds seen key suffix (Some (OsPath.join dirpath fname)).
Proof.
  intros Hseen Hk He p E. inversion E; subst p. exists dirpath, fname. auto.
Qed.

Lemma group_file_ok (dirpath fname : string) (m : data_map_of) :
  seen dirpath fname -> data_map_ok seen m ->
  data_map_ok seen (group_file dirpath fname m).
Proof.
  intros Hseen [Hnd Hall]. unfold group_file.
  fold (is_relevant fname).
  destruct (is_relevant fname) eqn:Hrel; cbn [negb]; [|split; assumption].
  destruct (scan_key fname) as [key|] eqn:Ek; [|split; assumption].
  set (m' := if has_key key m then m else m ++ [(key, empty_slots)]).
  assert (Hok' : data_map_ok seen m').
  { unfold m'. destruct (has_key key m) eqn:Hh; [split; assumption|].
    split.
    - rewrite map_app. simpl. apply NoDup_app; [exact Hnd | | ].
      + repeat constructor. intros [].
      + intros x Hx [<-|[]]. apply has_key_spec in Hx. congruence.
    - apply Forall_app. split; [exact Hall|]. constructor; [|constructor].
      split; [exists dirpath, fname; auto|].
      simpl. repeat split; intros p E; discriminate E. }
  destruct Hok' as [Hnd' Hall'].
  assert (Hupd : forall (f : slots -> slots),
            (forall s, entry_ok seen (key, s) -> entry_ok seen (key, f s)) ->
            data_map_ok seen (update_slots key f m')).
  { intros f Hf. split; [now rewrite update_slots_keys|].
    rewrite Forall_forall in *. intros [k s] Hin.
    apply update_slots_in in Hin. destruct Hin as [s0 [Hin0 Hcase]].
    simpl in Hin0, Hcase. specialize (Hall' _ Hin0).
    destruct Hcase as [[-> ->]|[_ ->]]; [now apply Hf | exact Hall']. }
  destruct (Str.endswith fname "_original_slices.png") eqn:E1.
  { apply Hupd. intros s [Hk [H1 [H2 [H3 H4]]]]. split; [exact Hk|].
    simpl in *. repeat split; try assumption; now apply slot_holds_file. }
  destruct (Str.endswith fname "_skullstripped_slices.png") eqn:E2.
  { apply Hupd. intros s [Hk [H1 [H2 [H3 H4]]]]. split; [exact Hk|].
    simpl in *. repeat split; try assumption; now apply slot_holds_file. }
  destruct (Str.endswith fname "_density.svg") eqn:E3.
  { apply Hupd. intros s [Hk [H1 [H2 [H3 H4]]]]. split; [exact Hk|].
    simpl in *. repeat split; try assumption; now apply slot_holds_file. }
  destruct (Str.endswith fname "_stats.csv") eqn:E4.
  { apply Hupd. intros s [Hk [H1 [H2 [H3 H4]]]]. split; [exact Hk|].
    simpl in *. repeat split; try assumption; now apply slot_holds_file. }
  split; assumption.
Qed.

End GroupingInvariant.

Lemma group_file_keys_grow (dirpath fname : string) (m : data_map_of)
  (k : scan_key_of) :
  In k (map fst m) -> In k (map fst (group_file dirpath fname m)).
Proof.
  intros Hin. unfold group_file.
  destruct (negb _); [exact Hin|].
  destruct (scan_key fname) as [key|]; [|exact Hin].
  set (m' := if has_key key m then m else m ++ [(key, empty_slots)]).
  assert (Hin' : In k (map fst m')).
  { unfold m'. destruct (has_key key m); [exact Hin|].
    rewrite map_app. apply in_or_app. left. exact Hin. }
  repeat (match goal with
          | |- context [if ?b then _ else _] => destruct b
          end; [now rewrite update_slots_keys|]).
  exact Hin'.
Qed.

Lemma group_file_adds_key (dirpath fname : string) (m : data_map_of)
  (k : scan_key_of) :
  is_relevant fname = true -> scan_key fname = Some k ->
  In k (map fst (group_file dirpath fname m)).
Proof.
  intros Hrel Hk. unfold group_file. fold (is_relevant fname).
  rewrite Hrel, Hk. cbn [negb].
  set (m' := if has_key k m then m else m ++ [(k, empty_slots)]).
  assert (Hin' : In k (map fst m')).
  { unfold m'. destruct (has_key k m) eqn:Hh; [now apply has_key_spec|].
    rewrite map_app. apply in_or_app. right. left. reflexivity. }
  repeat (match goal with
          | |- context [if ?b then _ else _] => destruct b
          end; [now rewrite update_slots_keys|]).
  exact Hin'.
Qed.

(** The inner and the outer loop of the grouping, from any map on. *)
Lemma collect_files_ok (seen : string -> string -> Prop) (dirpath : string)
  (files : list string) : forall m,
  (forall f, In f files -> seen dirpath f) -> data_map_ok seen m ->
  data_map_ok seen
    (fold_left (fun m fname => group_file dirpath fname m) files m).
Proof.
  induction files as [|f files IH]; intros m Hseen Hok; [exact Hok|].
  simpl. apply IH.
  - intros f' Hf'. apply Hseen. right. exact Hf'.
  - apply group_file_ok; [apply Hseen; left; reflexivity | exact Hok].
Qed.

Lemma collect_walk_ok (seen : string -> string -> Prop)
  (walk : list (string * list string * list string)) : forall m,
  (forall d dirs files f, In (d, dirs, files) walk -> In f files -> seen d f) ->
  data_map_ok seen m ->
  data_map_ok seen
    (fold_left
       (fun data_map '(dirpath, _, filenames) =>
          fold_left (fun m fname => group_file dirpath fname m)
                    filenames data_map)
       walk m).
Proof.
  induction walk as [|[[d dirs] files] walk IH]; intros m Hseen Hok; [exact Hok|].
  simpl. apply IH.
  - intros d' dirs' files' f Hin Hf. apply (Hseen d' dirs' files' f); [|exact Hf].
    right. exact Hin.
  - apply collect_files_ok; [|exact Hok].
    intros f Hf. apply (Hseen d dirs files f); [left; reflexivity | exact Hf].
Qed.

Lemma collect_files_keys (dirpath : string) (files : list string)
  (k : scan_key_of) : forall m,
  In k (map fst m) \/
  (exists f, In f files /\ is_relevant f = true /\ scan_key f = Some k) ->
  In k (map fst (fold_left (fun m fname => group_file dirpath fname m) files m)).
Proof.
  induction files as [|f files IH]; intros m Hcase; simpl.
  - destruct Hcase as [Hin|[f [[] _]]]. exact Hin.
  - apply IH. destruct Hcase as [Hin|[f' [[<-|Hf'] [Hrel Hk]]]].
    + left. now apply group_file_keys_grow.
    + left. now apply group_file_adds_key.
    + right. exists f'. auto.
Qed.

Lemma collect_walk_keys (walk : list (string * list string * list string))
  (k : scan_key_of) : forall m,
  In k (map fst m) \/
  (exists d f, seen_in walk d f /\ is_relevant f = true /\ scan_key f = Some k) ->
  In k (map fst
          (fold_left
             (fun data_map '(dirpath, _, filenames) =>
                fold_left (fun m fname => group_file dirpath fname m)
                          filenames data_map)
             walk m)).
Proof.
  induction walk as [|[[d dirs] files] walk IH]; intros m Hcase; simpl.
  - destruct Hcase as [Hin|[d [f [[dirs [files [[] _]]] _]]]]. exact Hin.
  - apply IH.
    destruct Hcase as [Hin|[d' [f [[dirs' [files' [[E|Hin] Hf]]] [Hrel Hk]]]]].
    + left. apply collect_files_keys. left. exact Hin.
    + inversion E; subst. left. apply collect_files_keys. right.
      exists f. auto.
    + right. exists d', f. split; [|auto]. exists dirs', files'. auto.
Qed.

(** X10: what the grouping builds.  In the map of
    [generate_in_memory_pages] no key occurs twice; every key is the scan
    key of a relevant file of the walk, and every relevant file of the
    walk that has a scan key has its key in the map; a slot that is filled
    holds the path of a file of the walk with that very key whose name
    ends in the suffix of the slot. *)
Theorem collect_groups_by_key
  (walk : list (string * list string * list string)) :
  data_map_ok (seen_in walk) (collect walk)
  /\ (forall d f k,
        seen_in walk d f -> is_relevant f = true -> scan_key f = Some k ->
        In k (map fst (collect walk))).
Proof.
  split.
  - unfold collect. apply collect_walk_ok.
    + intros d dirs files f Hin Hf. exists dirs, files. auto.
    + split; constructor.
  - intros d f k Hseen Hrel Hk. unfold collect. apply collect_walk_keys.
    right. exists d, f. auto.
Qed.

(** The statistics file of sub-5 in [walk_example]. *)
Lemma collect_groups_by_key_witness :
  In ("sub-5", "ses-01", "") (map fst (collect walk_example)).
Proof.
  apply (proj2 (collect_groups_by_key walk_example) "/results" "sub-5_stats.csv").
  - exists [], ["sub-1sub-2_stats.csv"; "sub-5_stats.csv"].
    split; [left; reflexivity | right; left; reflexivity].
  - reflexivity.
  - reflexivity.
Defined.

(* ================================================================== *)
(** * The review server *)

Import ReviewServer.

Lemma falsy_spec (o : option string) :
  falsy o = false <-> exists c p, o = Some (String c p).
Proof.
  destruct o as [[|c p]|]; simpl; split; try discriminate;
    try (intros [c' [p' E]]; discriminate E).
  - intros _. exists c, p. reflexivity.
  - reflexivity.
Qed.

Section QcUpdate.

(** X11: the guard of [/qc_update], for a request whose fields are
    strings or absent.  A request without filename or without status, or
    with either of them empty, is answered with code 400 and the ledger is
    not written; any other request is answered with code 200 after the
    upsert, which on a ledger that can be read and written does not raise;
    and a ledger whose rows all have a filename and a status keeps that
    property. *)
Theorem qc_update_guard (file : option (list row)) (data : qc_request) :
  (falsy (req_filename data) = true \/ falsy (req_status data) = true ->
   qc_update file data
     = Ok (JsonBody "error" "Missing filename or status" 400, None))
  /\ (falsy (req_filename data) = false -> falsy (req_status data) = false ->
      exists rows',
        qc_update file data
          = Ok (JsonBody "message" "QC updated successfully" 200, Some rows') /\
        upsert file (get_or (req_filename data) "")
          (get_or (req_status data) "") (get_or (req_notes data) "") = Ok rows' /\
        (rows_keyed (ledger_rows file) -> rows_keyed rows')).
Proof.
  unfold qc_update. split.
  - intros [E|E]; rewrite E; [reflexivity|].
    now rewrite orb_true_r.
  - intros E1 E2. rewrite E1, E2. cbn [orb].
    apply falsy_spec in E1. destruct E1 as [c1 [p1 E1]].
    apply falsy_spec in E2. destruct E2 as [c2 [p2 E2]].
    rewrite E1, E2. cbn [get_or].
    set (k := String c1 p1). set (s := String c2 p2).
    set (n := get_or (req_notes data) "").
    fold (upsert file k s n).
    destruct (first_entry k (ledger_rows file))
      as [Habs|[pre [r [post [Er [Hpre Hk]]]]]].
    + rewrite (upsert_absent file k s n Habs). eexists.
      split; [reflexivity|]. split; [reflexivity|].
      intros Hok. apply Forall_app. split; [exact Hok|].
      constructor; [|constructor]. split; discriminate.
    + destruct file as [rows|]; simpl in Er; [|destruct pre; discriminate].
      subst rows. rewrite (upsert_present pre post r k s n Hpre Hk).
      eexists. split; [reflexivity|]. split; [reflexivity|].
      unfold rows_keyed. cbn [ledger_rows]. rewrite !Forall_app.
      intros [Hp Hr]. split; [exact Hp|].
      apply Forall_cons_iff in Hr. destruct Hr as [_ Hpost].
      constructor; [split; discriminate | exact Hpost].
Qed.

End QcUpdate.

(** A request without status on a ledger that does not exist. *)
Lemma qc_update_guard_witness :
  qc_update None
    {| req_filename := Some "a.png"; req_status := None; req_notes := None |}
  = Ok (JsonBody "error" "Missing filename or status" 400, None).
Proof.
  apply (proj1 (qc_update_guard None
           {| req_filename := Some "a.png"; req_status := None;
              req_notes := None |})).
  right. reflexivity.
Defined.

(* ------------------------------------------------------------------ *)
(** ** File ids *)

Lemma ids_upto_snoc (n : nat) : ids_upto (S n) = ids_upto n ++ [Z.of_nat n].
Proof.
  unfold ids_upto. rewrite seq_S, map_app. reflexivity.
Qed.

Lemma ids_upto_in (n : nat) (id : Z) :
  In id (ids_upto n) <-> 0 <= id < Z.of_nat n.
Proof.
  unfold ids_upto. rewrite in_map_iff. split.
  - intros [k [<- Hk]]. apply in_seq in Hk. lia.
  - intros Hid. exists (Z.to_nat id). split; [lia|]. apply in_seq. lia.
Qed.

Lemma dict_get_in (id : Z) (m : file_map_of) :
  dict_get id m <> None <-> In id (map fst m).
Proof.
  induction m as [|[k v] m IH]; simpl.
  - split; [congruence | intros []].
  - destruct (Z.eqb_spec id k) as [->|Hne].
    + split; [auto | discriminate].
    + rewrite IH. split; [auto | intros [E|Hin]; [congruence | exact Hin]].
Qed.

Lemma dict_set_fresh (k : Z) (v : string) (m : file_map_of) :
  ~ In k (map fst m) -> dict_set k v m = m ++ [(k, v)].
Proof.
  induction m as [|[k' v'] m IH]; simpl; intros Hno; [reflexivity|].
  destruct (Z.eqb_spec k k') as [->|Hne]; [tauto|].
  rewrite IH by tauto. reflexivity.
Qed.

Lemma dict_get_app_fresh (id k : Z) (v : string) (m : file_map_of) :
  ~ In k (map fst m) ->
  dict_get id (m ++ [(k, v)]) = if id =? k then Some v else dict_get id m.
Proof.
  induction m as [|[k' v'] m IH]; simpl; intros Hno; [reflexivity|].
  destruct (Z.eqb_spec id k') as [->|Hne].
  - destruct (Z.eqb_spec k' k) as [->|_]; [tauto | reflexivity].
  - apply IH. tauto.
Qed.

Lemma counter_fresh (g : globals) :
  file_map_ok g -> ~ In (FILE_ID_COUNTER g) (map fst (FILE_MAP g)).
Proof.
  intros [Hids Hc]. rewrite Hids, ids_upto_in. lia.
Qed.

Lemma store_file_map (g : globals) (path : string) :
  file_map_ok g ->
  FILE_MAP (snd (store_file g path))
    = FILE_MAP g ++ [(FILE_ID_COUNTER g, path)] /\
  file_map_ok (snd (store_file g path)).
Proof.
  intros Hok. pose proof (counter_fresh g Hok) as Hfresh.
  unfold store_file. cbn [snd FILE_MAP FILE_ID_COUNTER].
  rewrite (dict_set_fresh _ _ _ Hfresh). split; [reflexivity|].
  destruct Hok as [Hids Hc]. unfold file_map_ok. cbn [FILE_MAP FILE_ID_COUNTER].
  rewrite length_app, map_app. cbn [length map fst].
  rewrite Nat.add_1_r, ids_upto_snoc, Hids, Hc. split; [reflexivity | lia].
Qed.

(** X12: file ids.  When the ids in use are exactly 0, ..., counter - 1,
    [store_file] hands out the counter, an id that was free; the path can
    be read back under it and every other id reads as before; the pages
    are untouched and the ids in use are again exactly those below the
    new counter. *)
Theorem store_file_fresh_id (g : globals) (path : string) :
  file_map_ok g ->
  fst (store_file g path) = FILE_ID_COUNTER g
  /\ dict_get (FILE_ID_COUNTER g) (FILE_MAP g) = None
  /\ dict_get (FILE_ID_COUNTER g) (FILE_MAP (snd (store_file g path)))
     = Some path
  /\ (forall id, id <> FILE_ID_COUNTER g ->
        dict_get id (FILE_MAP (snd (store_file g path)))
        = dict_get id (FILE_MAP g))
  /\ FILE_ID_COUNTER (snd (store_file g path)) = FILE_ID_COUNTER g + 1
  /\ PAGES (snd (store_file g path)) = PAGES g
  /\ file_map_ok (snd (store_file g path)).
Proof.
  intros Hok. pose proof (counter_fresh g Hok) as Hfresh.
  destruct (store_file_map g path Hok) as [Emap Hok'].
  split; [reflexivity|]. split.
  { destruct (dict_get (FILE_ID_COUNTER g) (FILE_MAP g)) eqn:E; [|reflexivity].
    exfalso. apply Hfresh. apply dict_get_in. congruence. }
  split.
  { rewrite Emap, dict_get_app_fresh by exact Hfresh. now rewrite Z.eqb_refl. }
  split.
  { intros id Hid. rewrite Emap, dict_get_app_fresh by exact Hfresh.
    destruct (Z.eqb_spec id (FILE_ID_COUNTER g)); [contradiction | reflexivity]. }
  split; [reflexivity|]. split; [reflexivity | exact Hok'].
Qed.

(** The first file of a server that has none. *)
Lemma store_file_fresh_id_witness :
  dict_get 0
    (FILE_MAP (snd (store_file
                      {| PAGES := []; FILE_MAP := []; FILE_ID_COUNTER := 0 |}
                      "/results/a.png")))
  = Some "/results/a.png".
Proof.
  apply (proj1 (proj2 (proj2 (store_file_fresh_id
           {| PAGES := []; FILE_MAP := []; FILE_ID_COUNTER := 0 |}
           "/results/a.png" (conj eq_refl eq_refl))))).
Defined.

(* ------------------------------------------------------------------ *)
(** ** Page generation *)

Lemma register_app (g : globals) (a b : list string) :
  register g (a ++ b) = register (register g a) b.
Proof. apply fold_left_app. Qed.

Lemma register_ok (paths : list string) : forall g,
  file_map_ok g ->
  file_map_ok (register g paths) /\
  map snd (FILE_MAP (register g paths)) = map snd (FILE_MAP g) ++ paths /\
  PAGES (register g paths) = PAGES g.
Proof.
  induction paths as [|p paths IH]; intros g Hok; cbn [register fold_left].
  - now rewrite app_nil_r.
  - destruct (store_file_map g p Hok) as [Emap Hok'].
    destruct (IH _ Hok') as [H1 [H2 H3]]. unfold register in *.
    split; [exact H1|]. split; [|exact H3].
    rewrite H2, Emap, map_app, <- app_assoc. reflexivity.
Qed.

Lemma embed_png_registers (g : globals) (o : option string) (title : string) :
  snd (if negb (falsy o) then embed_png g o title else (not_found title, g))
  = register g (filled o).
Proof. destruct o as [[|c p]|]; reflexivity. Qed.

Lemma embed_svg_registers (g : globals) (o : option string) (title : string) :
  snd (if negb (falsy o) then embed_svg g o title else (not_found title, g))
  = register g (filled o).
Proof. destruct o as [[|c p]|]; reflexivity. Qed.

Section PageGeneration.
Variable float_ok : string -> bool.
Variable read_lines : string -> result (list string).

Lemma build_html_page_registers (subject session run : string)
  (files_info : slots) (phase : string) (page_id total_pages : Z) (g : globals) :
  exists html,
    build_html_page float_ok read_lines subject session run files_info phase
      page_id total_pages g
    = Ok (html, register g (page_files files_info)).
Proof.
  unfold build_html_page, page_files.
  pose proof (embed_png_registers g (orig files_info) "Original Slices") as E1.
  destruct (if negb (falsy (orig files_info)) then _ else _) as [oh g1].
  cbn [snd] in E1. subst g1.
  pose proof (embed_png_registers (register g (filled (orig files_info)))
                (strip files_info) "Skull-Stripped Slices") as E2.
  destruct (if negb (falsy (strip files_info)) then _ else _) as [sh g2].
  cbn [snd] in E2. subst g2.
  pose proof (embed_svg_registers
                (register (register g (filled (orig files_info)))
                   (filled (strip files_info)))
                (dens files_info) "Density Plot") as E3.
  destruct (if negb (falsy (dens files_info)) then _ else _) as [dh g3].
  cbn [snd] in E3. subst g3.
  rewrite !register_app.
  destruct (negb (falsy (stats files_info))).
  - destruct (proj1 (embed_stats_returns float_ok read_lines (stats files_info)))
      as [html ->].
    eexists. reflexivity.
  - eexists. reflexivity.
Qed.

Lemma data_map_get_in (key : scan_key_of) (m : data_map_of) :
  In key (map fst m) ->
  exists s, data_map_get key m = Ok s /\ In (key, s) m.
Proof.
  induction m as [|[k s] m IH]; simpl; [intros []|].
  intros Hin. destruct (key_eqb key k) eqn:E.
  - apply key_eqb_spec in E. subst k. exists s. auto.
  - destruct Hin as [->|Hin]; [now rewrite key_eqb_refl in E|].
    destruct (IH Hin) as [s' [E' Hs']]. exists s'. auto.
Qed.

Lemma slots_at_in (key : scan_key_of) (m : data_map_of) :
  In key (map fst m) -> In (key, slots_at m key) m.
Proof.
  intros Hin. destruct (data_map_get_in key m Hin) as [s [E Hs]].
  unfold slots_at. now rewrite E.
Qed.

Lemma build_pages_ok (phase : string) (data_map : data_map_of) (total : Z)
  (keys : list scan_key_of) : forall idx g,
  (forall k, In k keys -> In k (map fst data_map)) ->
  file_map_ok g ->
  exists g',
    build_pages float_ok read_lines phase data_map total idx keys g = Ok g' /\
    file_map_ok g' /\
    map snd (PAGES g')
      = map snd (PAGES g) ++ map (fun i => idx + i) (ids_upto (length keys)) /\
    map snd (FILE_MAP g')
      = map snd (FILE_MAP g)
        ++ flat_map (fun k => page_files (slots_at data_map k)) keys.
Proof.
  induction keys as [|[[subject session] run] keys IH]; intros idx g Hkeys Hok.
  - exists g. cbn. rewrite !app_nil_r. auto.
  - cbn [build_pages].
    assert (Hk : In (subject, session, run) (map fst data_map))
      by (apply Hkeys; now left).
    destruct (data_map_get_in _ _ Hk) as [s [Es _]].
    assert (Eat : slots_at data_map (subject, session, run) = s)
      by (unfold slots_at; now rewrite Es).
    rewrite Es. cbn [rbind].
    destruct (build_html_page_registers subject session run s phase idx total g)
      as [html ->].
    cbn [rbind].
    destruct (register_ok (page_files s) g Hok) as [Hok' [Emap Epages]].
    set (g1 := {| PAGES := PAGES (register g (page_files s)) ++ [(html, idx)];
                  FILE_MAP := FILE_MAP (register g (page_files s));
                  FILE_ID_COUNTER := FILE_ID_COUNTER (register g (page_files s)) |}).
    destruct (IH (idx + 1) g1) as [g' [E [Hg' [Hp Hf]]]].
    { intros k Hin. apply Hkeys. now right. }
    { exact Hok'. }
    exists g'. split; [exact E|]. split; [exact Hg'|]. split.
    + rewrite Hp. unfold g1. cbn [PAGES]. rewrite Epages, map_app, <- app_assoc.
      f_equal. cbn [map snd app length]. unfold ids_upto.
      cbn [seq map]. rewrite Z.add_0_r. f_equal.
      rewrite <- seq_shift, !map_map. apply map_ext. intros i. lia.
    + rewrite Hf. unfold g1. cbn [FILE_MAP flat_map].
      rewrite Emap, Eat, <- app_assoc. reflexivity.
Qed.

Lemma sorted_keys_in (data_map : data_map_of) (k : scan_key_of) :
  In k (sorted_keys data_map) <-> In k (map fst data_map).
Proof.
  unfold sorted_keys. split; intros Hin.
  - eapply Permutation_in; [apply Permutation_sym, sorted_by_perm | exact Hin].
  - eapply Permutation_in; [apply sorted_by_perm | exact Hin].
Qed.

Lemma sorted_keys_length (data_map : data_map_of) :
  length (sorted_keys data_map) = length data_map.
Proof.
  unfold sorted_keys.
  rewrite <- (Permutation_length (sorted_by_perm numeric_sort_key (map fst data_map))).
  apply length_map.
Qed.

Lemma generate_in_memory_pages_ok (root_dir : string) (tree : dir_tree)
  (phase : string) (g : globals) :
  let data_map := collect (os_walk root_dir tree) in
  exists g',
    generate_in_memory_pages float_ok read_lines root_dir tree phase g = Ok g' /\
    file_map_ok g' /\
    map snd (PAGES g') = ids_upto (length data_map) /\
    map snd (FILE_MAP g')
      = flat_map (fun k => page_files (slots_at data_map k))
          (sorted_keys data_map).
Proof.
  intros data_map. unfold generate_in_memory_pages. fold data_map.
  destruct (build_pages_ok phase data_map
              (Z.of_nat (length (sorted_keys data_map)))
              (sorted_keys data_map) 0
              {| PAGES := []; FILE_MAP := []; FILE_ID_COUNTER := 0 |})
    as [g' [E [Hok [Hp Hf]]]].
  { intros k. apply sorted_keys_in. }
  { split; reflexivity. }
  exists g'. split; [exact E|]. split; [exact Hok|]. split.
  - rewrite Hp. cbn [PAGES map app]. rewrite sorted_keys_length.
    rewrite <- (map_id (ids_upto (length data_map))) at 2.
    apply map_ext. intros i. lia.
  - rewrite Hf. reflexivity.
Qed.

End PageGeneration.

(* ------------------------------------------------------------------ *)
(** ** What the server answers *)

Lemma dict_get_some_in (id : Z) (path : string) (m : file_map_of) :
  dict_get id m = Some path -> In path (map snd m).
Proof.
  induction m as [|[k v] m IH]; simpl; [discriminate|].
  destruct (id =? k); [intros E; inversion E; now left | auto].
Qed.

Lemma lower_app (a b : string) : lower (a ++ b) = (lower a ++ lower b)%string.
Proof. induction a as [|c a IH]; simpl; [reflexivity | now rewrite IH]. Qed.

Lemma endswith_trans (s t u : string) :
  Str.endswith s t = true -> Str.endswith t u = true -> Str.endswith s u = true.
Proof.
  rewrite !endswith_spec. intros [p ->] [q ->].
  exists (p ++ q)%string. now rewrite append_assoc.
Qed.

Lemma endswith_lower (s t : string) :
  Str.endswith s t = true -> Str.endswith (lower s) (lower t) = true.
Proof.
  rewrite !endswith_spec. intros [p ->]. exists (lower p). apply lower_app.
Qed.

Lemma endswith_same_length (s t u : string) :
  String.length t = String.length u ->
  Str.endswith s t = true -> Str.endswith s u = true -> t = u.
Proof.
  intros Hlen Ht Hu. apply endswith_spec in Ht. destruct Ht as [p ->].
  apply endswith_spec in Hu. destruct Hu as [q E].
  now destruct (append_inj_tail p q t u Hlen E).
Qed.

Lemma join_endswith (a b : string) : Str.endswith (OsPath.join a b) b = true.
Proof.
  unfold OsPath.join. destruct (String.prefix "/" b).
  - apply (endswith_app "" b).
  - destruct (_ || _).
    + apply endswith_app.
    + change (a ++ "/" ++ b)%string with (a ++ ("/" ++ b))%string.
      rewrite <- append_assoc. apply endswith_app.
Qed.

(** The type asked of [send_file] for a path that ends in [suffix], itself
    ending in the lower-case extension .png or .svg. *)
Lemma get_image_mimetype (exists_on_disk : string -> bool)
  (send_file : string -> string -> result unit) (g : globals)
  (file_id : Z) (path dirpath fname suffix : string) :
  dict_get file_id (FILE_MAP g) = Some path ->
  path = OsPath.join dirpath fname ->
  Str.endswith fname suffix = true ->
  exists_on_disk path = true ->
  (Str.endswith suffix ".png" = true ->
   lower suffix = suffix ->
   get_image exists_on_disk send_file g file_id =
     match send_file path "image/png" with
     | Ok _ => SendFile path "image/png"
     | Raise e => ServerError e
     end) /\
  (Str.endswith suffix ".svg" = true ->
   lower suffix = suffix ->
   get_image exists_on_disk send_file g file_id =
     match send_file path "image/svg+xml" with
     | Ok _ => SendFile path "image/svg+xml"
     | Raise e => ServerError e
     end).
Proof.
  intros Eget -> Hsuf Hex. unfold get_image. rewrite Eget, Hex. cbn [negb].
  assert (Hlow : Str.endswith (lower (OsPath.join dirpath fname)) (lower suffix)
                 = true).
  { apply endswith_lower. eapply endswith_trans; [apply join_endswith | exact Hsuf]. }
  split; intros Hext Elow; rewrite Elow in Hlow.
  - now rewrite (endswith_trans _ _ _ Hlow Hext).
  - pose proof (endswith_trans _ _ _ Hlow Hext) as Hsvg. rewrite Hsvg.
    destruct (Str.endswith (lower (OsPath.join dirpath fname)) ".png") eqn:Hpng;
      [|reflexivity].
    pose proof (endswith_same_length _ ".png" ".svg" eq_refl Hpng Hsvg) as E.
    discriminate E.
Qed.

Lemma collect_ok (walk : list (string * list string * list string)) :
  data_map_ok (seen_in walk) (collect walk).
Proof.
  unfold collect. apply collect_walk_ok.
  - intros d dirs files f Hin Hf. exists dirs, files. auto.
  - split; constructor.
Qed.

Lemma filled_in (o : option string) (p : string) :
  In p (filled o) -> o = Some p.
Proof.
  destruct o as [[|c q]|]; simpl; try tauto. intros [<-|[]]. reflexivity.
Qed.

Lemma show_report_spec (g : globals) (page_id : Z) :
  (0 <= page_id < Z.of_nat (length (PAGES g)) ->
   exists html idx,
     nth_error (PAGES g) (Z.to_nat page_id) = Some (html, idx) /\
     show_report g page_id = Body html 200) /\
  (~ 0 <= page_id < Z.of_nat (length (PAGES g)) ->
   show_report g page_id = Body "<h1>Invalid page index</h1>" 404).
Proof.
  unfold show_report. split; intros H.
  - destruct (Z.ltb_spec page_id 0); [lia|].
    destruct (Z.leb_spec (Z.of_nat (length (PAGES g))) page_id); [lia|].
    cbn [orb].
    destruct (nth_error (PAGES g) (Z.to_nat page_id)) as [[html idx]|] eqn:E.
    + exists html, idx. auto.
    + apply nth_error_None in E. lia.
  - destruct (Z.ltb_spec page_id 0); [reflexivity|].
    destruct (Z.leb_spec (Z.of_nat (length (PAGES g))) page_id);
      [reflexivity | lia].
Qed.

Lemma nth_error_ids_upto (n i : nat) :
  (i < n)%nat -> nth_error (ids_upto n) i = Some (Z.of_nat i).
Proof.
  intros Hi. unfold ids_upto. rewrite nth_error_map, nth_error_nth' with (d := 0%nat).
  - now rewrite seq_nth.
  - now rewrite length_seq.
Qed.

Section Serving.
Variable float_ok : string -> bool.
Variable read_lines : string -> result (list string).

(** X13: one page per scan.  Whatever the directory holds, whatever the
    statistics files contain and whatever the server held before, page
    generation returns; it leaves one page for each key of the grouping,
    numbered 0, 1, ... in order; /report/i answers 200 with page i exactly
    for those numbers and 404 for every other; and / redirects to the first
    page exactly when the grouping is not empty.  ([parse_int] converts a
    run of digits of any length; the limit of 4300 digits of [int] is out
    of reach of a file name.) *)
Theorem generate_in_memory_pages_one_page_per_key (root_dir : string)
  (tree : dir_tree) (phase : string) (g : globals) :
  exists g',
    generate_in_memory_pages float_ok read_lines root_dir tree phase g = Ok g' /\
    length (PAGES g') = length (collect (os_walk root_dir tree)) /\
    (forall page_id,
       0 <= page_id < Z.of_nat (length (PAGES g')) ->
       exists html,
         nth_error (PAGES g') (Z.to_nat page_id) = Some (html, page_id) /\
         show_report g' page_id = Body html 200) /\
    (forall page_id,
       ~ 0 <= page_id < Z.of_nat (length (PAGES g')) ->
       show_report g' page_id = Body "<h1>Invalid page index</h1>" 404) /\
    (index g' = RedirectTo "/report/0"
       <-> collect (os_walk root_dir tree) <> []) /\
    (index g' = Body "<h1>No reports found.</h1>" 200
       <-> collect (os_walk root_dir tree) = []).
Proof.
  destruct (generate_in_memory_pages_ok float_ok read_lines root_dir tree phase g)
    as [g' [E [_ [Hp _]]]].
  set (data_map := collect (os_walk root_dir tree)) in *.
  assert (Hlen : length (PAGES g') = length data_map).
  { apply (f_equal (@length Z)) in Hp.
    unfold ids_upto in Hp. now rewrite !length_map, length_seq in Hp. }
  exists g'. split; [exact E|]. split; [exact Hlen|]. split; [|split].
  - intros page_id Hid.
    destruct (proj1 (show_report_spec g' page_id) Hid) as [html [idx [En Es]]].
    exists html. split; [|exact Es].
    assert (Ei : nth_error (map snd (PAGES g')) (Z.to_nat page_id) = Some idx)
      by (now rewrite nth_error_map, En).
    rewrite Hp, nth_error_ids_upto in Ei by lia.
    inversion Ei. rewrite En. do 2 f_equal. lia.
  - intros page_id Hid. now apply show_report_spec.
  - unfold index. destruct (PAGES g') as [|p ps]; destruct data_map as [|kv m];
      try discriminate Hlen; split; split; congruence.
Qed.

(** X14: what /get_image serves.  After page generation the file ids in
    use are exactly 0, ..., FILE_ID_COUNTER - 1; any other id is answered
    with 404.  Each id in use names a file of the walked directory that is
    a slice image or a density plot: a statistics file or a volume is never
    served.  When [os.path.exists] does not find the file the answer is
    404.  When it does, the file is handed to Flask's [send_file] as
    image/png (a slice image) or image/svg+xml (a density plot), never as
    application/octet-stream; the answer is the file when [send_file]
    delivers it and 500 when [send_file] raises, as it does for a path
    stored relative to a working directory that is not the root of the
    application. *)
Theorem get_image_serves_slices_and_plots (exists_on_disk : string -> bool)
  (send_file : string -> string -> result unit)
  (root_dir : string) (tree : dir_tree) (phase : string) (g : globals) :
  exists g',
    generate_in_memory_pages float_ok read_lines root_dir tree phase g = Ok g' /\
    (forall file_id,
       ~ 0 <= file_id < FILE_ID_COUNTER g' ->
       get_image exists_on_disk send_file g' file_id
       = Abort 404 "File ID not found") /\
    (forall file_id,
       0 <= file_id < FILE_ID_COUNTER g' ->
       exists dirpath fname mimetype,
         seen_in (os_walk root_dir tree) dirpath fname /\
         dict_get file_id (FILE_MAP g') = Some (OsPath.join dirpath fname) /\
         (((Str.endswith fname "_original_slices.png" = true \/
            Str.endswith fname "_skullstripped_slices.png" = true) /\
           mimetype = "image/png")
          \/
          (Str.endswith fname "_density.svg" = true /\
           mimetype = "image/svg+xml")) /\
         (exists_on_disk (OsPath.join dirpath fname) = false ->
          get_image exists_on_disk send_file g' file_id
          = Abort 404 ("File not found on disk: " ++ OsPath.join dirpath fname)) /\
         (exists_on_disk (OsPath.join dirpath fname) = true ->
          send_file (OsPath.join dirpath fname) mimetype = Ok tt ->
          get_image exists_on_disk send_file g' file_id
          = SendFile (OsPath.join dirpath fname) mimetype) /\
         (forall e,
            exists_on_disk (OsPath.join dirpath fname) = true ->
            send_file (OsPath.join dirpath fname) mimetype = Raise e ->
            get_image exists_on_disk send_file g' file_id = ServerError e)).
Proof.
  destruct (generate_in_memory_pages_ok float_ok read_lines root_dir tree phase g)
    as [g' [E [[Hids Hc] [_ Hf]]]].
  set (walk := os_walk root_dir tree) in *.
  exists g'. split; [exact E|]. split.
  - intros file_id Hid. unfold get_image.
    destruct (dict_get file_id (FILE_MAP g')) eqn:Eg; [|reflexivity].
    exfalso. apply Hid. rewrite Hc. apply ids_upto_in. rewrite <- Hids.
    apply dict_get_in. congruence.
  - intros file_id Hid.
    destruct (dict_get file_id (FILE_MAP g')) as [path|] eqn:Eg.
    2:{ exfalso. rewrite Hc in Hid. apply ids_upto_in in Hid.
        rewrite <- Hids in Hid. apply dict_get_in in Hid. congruence. }
    pose proof (dict_get_some_in _ _ _ Eg) as Hin. rewrite Hf in Hin.
    apply in_flat_map in Hin. destruct Hin as [k [Hk Hin]].
    apply sorted_keys_in in Hk. apply slots_at_in in Hk.
    destruct (collect_ok walk) as [_ Hall].
    rewrite Forall_forall in Hall. specialize (Hall _ Hk).
    destruct Hall as [_ [Ho [Hs [Hd _]]]]. cbn [fst snd] in *.
    assert (Hmiss : exists_on_disk path = false ->
              get_image exists_on_disk send_file g' file_id
              = Abort 404 ("File not found on disk: " ++ path)).
    { intros Hex. unfold get_image. rewrite Eg, Hex. reflexivity. }
    assert (Hserve : forall d f suffix mimetype,
              path = OsPath.join d f ->
              Str.endswith f suffix = true ->
              get_image exists_on_disk send_file g' file_id =
                match send_file path mimetype with
                | Ok _ => SendFile path mimetype
                | Raise e => ServerError e
                end ->
              (exists_on_disk path = true ->
               send_file path mimetype = Ok tt ->
               get_image exists_on_disk send_file g' file_id
               = SendFile path mimetype) /\
              (forall e,
                 exists_on_disk path = true ->
                 send_file path mimetype = Raise e ->
                 get_image exists_on_disk send_file g' file_id = ServerError e)).
    { intros d f suffix mimetype _ _ Hget. split.
      - intros _ Hs'. now rewrite Hget, Hs'.
      - intros e _ Hs'. now rewrite Hget, Hs'. }
    unfold page_files in Hin. rewrite !in_app_iff in Hin.
    destruct Hin as [Hin|[Hin|Hin]]; apply filled_in in Hin.
    + destruct (Ho _ Hin) as [d [f [Hseen [Ep [_ Hsuf]]]]].
      exists d, f, "image/png". split; [exact Hseen|]. rewrite <- Ep.
      split; [reflexivity|]. split; [left; split; [now left | reflexivity]|].
      split; [exact Hmiss|].
      destruct (exists_on_disk path) eqn:Hex.
      * apply (Hserve d f "_original_slices.png" "image/png" Ep Hsuf).
        now apply (proj1 (get_image_mimetype exists_on_disk send_file g' file_id
                            path d f "_original_slices.png" Eg Ep Hsuf Hex)).
      * split; [discriminate | intros e Hd'; discriminate Hd'].
    + destruct (Hs _ Hin) as [d [f [Hseen [Ep [_ Hsuf]]]]].
      exists d, f, "image/png". split; [exact Hseen|]. rewrite <- Ep.
      split; [reflexivity|]. split; [left; split; [now right | reflexivity]|].
      split; [exact Hmiss|].
      destruct (exists_on_disk path) eqn:Hex.
      * apply (Hserve d f "_skullstripped_slices.png" "image/png" Ep Hsuf).
        now apply (proj1 (get_image_mimetype exists_on_disk send_file g' file_id
                            path d f "_skullstripped_slices.png" Eg Ep Hsuf Hex)).
      * split; [discriminate | intros e Hd'; discriminate Hd'].
    + destruct (Hd _ Hin) as [d [f [Hseen [Ep [_ Hsuf]]]]].
      exists d, f, "image/svg+xml". split; [exact Hseen|]. rewrite <- Ep.
      split; [reflexivity|]. split; [right; split; [exact Hsuf | reflexivity]|].
      split; [exact Hmiss|].
      destruct (exists_on_disk path) eqn:Hex.
      * apply (Hserve d f "_density.svg" "image/svg+xml" Ep Hsuf).
        now apply (proj2 (get_image_mimetype exists_on_disk send_file g' file_id
                            path d f "_density.svg" Eg Ep Hsuf Hex)).
      * split; [discriminate | intros e Hd'; discriminate Hd'].
Qed.

End Serving.

(* ------------------------------------------------------------------ *)
(** ** The ledger key of a page *)

Lemma scan_key_shape (fname subject session run : string) :
  scan_key fname = Some (subject, session, run) ->
  is_segment "sub-" subject /\ is_segment "ses-" session /\
  (run = EmptyString \/ is_segment "run-" run).
Proof.
  unfold scan_key.
  destruct (pattern_search fname) as [[[g1 g2] g3]|] eqn:E; [|discriminate].
  intros Ek. inversion Ek; subst; clear Ek.
  destruct (pattern_search_sound _ _ _ _ E) as [pre [tail [_ Hm]]].
  destruct (pattern_match_sound _ _ _ _ Hm)
    as [sp [rp [rest [_ [Hsub [Hses Hrun]]]]]].
  split; [exact Hsub|]. split.
  - destruct Hses as [[-> _]|[ses [-> [_ Hs]]]]; [|exact Hs].
    exists "ses-", "01". repeat split. discriminate.
  - destruct Hrun as [[-> _]|[r [-> [_ Hr]]]]; [now left | now right].
Qed.

Lemma scan_key_of_key (subject session run : string) :
  is_segment "sub-" subject -> is_segment "ses-" session ->
  run = EmptyString \/ is_segment "run-" run ->
  scan_key (subject ++ "_" ++ session ++ "_" ++ run)
  = Some (subject, session, run).
Proof.
  intros Hsub Hses [->|Hrun].
  - unfold scan_key.
    rewrite (pattern_search_head _ (subject, Some session, None)); [reflexivity|].
    unfold pattern_match.
    rewrite (match_segment_exact "sub-" subject)
      by (auto using token_end_underscore).
    rewrite (match_optional_present "ses-" session)
      by (auto using token_end_underscore).
    reflexivity.
  - pose proof (scan_key_full "" subject session run "" eq_refl Hsub Hses Hrun
                  (or_introl eq_refl)) as E.
    now rewrite append_nil_r in E.
Qed.

Lemma csv_filename_key_scan_key
  (walk : list (string * list string * list string))
  (subject session run : string) (files_info : slots) :
  file_names_ok walk ->
  In ((subject, session, run), files_info) (collect walk) ->
  scan_key (csv_filename_key subject session run files_info)
  = Some (subject, session, run).
Proof.
  intros Hnames Hin.
  assert (Hok : data_map_ok
                  (fun d f => seen_in walk d f /\ Str.contains "/" f = false)
                  (collect walk)).
  { unfold collect. apply collect_walk_ok.
    - intros d dirs files f Hd Hf. split; [exists dirs, files; auto|].
      exact (Hnames d dirs files f Hd Hf).
    - split; constructor. }
  destruct Hok as [_ Hall]. rewrite Forall_forall in Hall.
  destruct (Hall _ Hin) as [[d0 [f0 [_ [_ Hk0]]]] [Ho [Hs [Hd Hst]]]].
  cbn [fst snd] in *.
  assert (Hslot : forall suffix slot c p,
            slot_holds (fun d f => seen_in walk d f /\ Str.contains "/" f = false)
              (subject, session, run) suffix slot ->
            slot = Some (String c p) ->
            scan_key (OsPath.basename (get_or slot ""))
            = Some (subject, session, run)).
  { intros suffix slot c p Hh E.
    destruct (Hh _ E) as [d [f [[_ Hf] [Ep [Hk _]]]]].
    rewrite E. cbn [get_or]. rewrite Ep, basename_join by exact Hf. exact Hk. }
  unfold csv_filename_key.
  destruct (orig files_info) as [[|c p]|] eqn:E1;
    try (cbn [falsy negb]; now apply (Hslot _ _ c p Ho)).
  all: destruct (strip files_info) as [[|c2 p2]|] eqn:E2;
    try (cbn [falsy negb]; now apply (Hslot _ _ c2 p2 Hs)).
  all: destruct (dens files_info) as [[|c3 p3]|] eqn:E3;
    try (cbn [falsy negb]; now apply (Hslot _ _ c3 p3 Hd)).
  all: destruct (stats files_info) as [[|c4 p4]|] eqn:E4;
    try (cbn [falsy negb]; now apply (Hslot _ _ c4 p4 Hst)).
  all: cbn [falsy negb];
    destruct (scan_key_shape _ _ _ _ Hk0) as [H1 [H2 H3]];
    now apply scan_key_of_key.
Qed.

(** X15: the ledger key of a page.  For file names without a slash, the
    name under which a page files its decision in the ledger (the name of
    its first filled slot, or subject_session_run when no slot is filled)
    parses back to the key of the page; so the pages of two scans never
    share a ledger key. *)
Theorem csv_filename_key_identifies_scan
  (walk : list (string * list string * list string)) :
  file_names_ok walk ->
  (forall subject session run files_info,
     In ((subject, session, run), files_info) (collect walk) ->
     scan_key (csv_filename_key subject session run files_info)
     = Some (subject, session, run))
  /\ (forall sub1 ses1 run1 info1 sub2 ses2 run2 info2,
        In ((sub1, ses1, run1), info1) (collect walk) ->
        In ((sub2, ses2, run2), info2) (collect walk) ->
        csv_filename_key sub1 ses1 run1 info1
        = csv_filename_key sub2 ses2 run2 info2 ->
        (sub1, ses1, run1) = (sub2, ses2, run2)).
Proof.
  intros Hnames. split.
  - intros subject session run files_info.
    now apply csv_filename_key_scan_key.
  - intros sub1 ses1 run1 info1 sub2 ses2 run2 info2 H1 H2 E.
    pose proof (csv_filename_key_scan_key walk _ _ _ _ Hnames H1) as K1.
    pose proof (csv_filename_key_scan_key walk _ _ _ _ Hnames H2) as K2.
    rewrite E, K2 in K1. now inversion K1.
Qed.

(** The page of sub-5 in [walk_example], which has a statistics file only. *)
Lemma csv_filename_key_identifies_scan_witness :
  scan_key
    (csv_filename_key "sub-5" "ses-01" ""
       {| orig := None; strip := None; dens := None;
          stats := Some "/results/sub-5_stats.csv" |})
  = Some ("sub-5", "ses-01", "").
Proof.
  apply (proj1 (csv_filename_key_identifies_scan walk_example
    ltac:(intros d dirs files f [E|[]] Hf; inversion E; subst;
          destruct Hf as [<-|[<-|[]]]; reflexivity))).
  right. left. reflexivity.
Defined.

(* ================================================================== *)
(** * The final pass on one scan *)

Section FinalScanFacts.
Import FinalScan.
Local Open Scope final_scope.

Lemma saves_nothing_app (a b : list FinalScan.event) :
  saves_nothing a -> saves_nothing b -> saves_nothing (a ++ b).
Proof. intros Ha Hb. apply Forall_app. split; assumption. Qed.

Ltac trace_norm :=
  repeat rewrite <- app_assoc; cbn [app].

Section FinalScanProofs.
Context {T : Type} `{Numpy.Scalar T}.
Variable env : Env T.
Variable host : Host T.

Lemma ensure_docker_image_returns (tr : list FinalScan.event) :
  exists evs b,
    ensure_docker_image host tr = (tr ++ evs, Returned b) /\
    saves_nothing evs /\
    (b = false -> ends_in_error evs).
Proof.
  unfold ensure_docker_image, try_except, bind, system, popen_read, log, emit, ret.
  destruct (os_system host tr check_cmd) as [status|e]; cbn [of_result].
  2:{ eexists _, false. trace_norm. split; [reflexivity|].
      split; [repeat constructor|]. intros _. eexists [_], _. reflexivity. }
  destruct (status =? 0).
  - destruct (os_popen_read host (tr ++ [System check_cmd]) check_cmd) as [out|e];
      cbn [of_result].
    2:{ eexists _, false. trace_norm. split; [reflexivity|].
        split; [repeat constructor|]. intros _. eexists [_; _], _. reflexivity. }
    destruct (negb (String.eqb (Str.strip out) "")); cbn [negb].
    + eexists _, true. trace_norm. split; [reflexivity|].
      split; [repeat constructor | discriminate].
    + match goal with
      | |- context [os_system host ?h pull_cmd] =>
          destruct (os_system host h pull_cmd) as [st2|e]
      end; cbn [of_result].
      2:{ eexists _, false. trace_norm. split; [reflexivity|].
          split; [repeat constructor|]. intros _.
          eexists [_; _; _; _], _. reflexivity. }
      destruct (negb (st2 =? 0)).
      * eexists _, false. trace_norm. split; [reflexivity|].
        split; [repeat constructor|]. intros _.
        eexists [_; _; _; _], _. reflexivity.
      * eexists _, true. trace_norm. split; [reflexivity|].
        split; [repeat constructor | discriminate].
  - cbn [negb].
    match goal with
    | |- context [os_system host ?h pull_cmd] =>
        destruct (os_system host h pull_cmd) as [st2|e]
    end; cbn [of_result].
    2:{ eexists _, false. trace_norm. split; [reflexivity|].
        split; [repeat constructor|]. intros _.
        eexists [_; _; _], _. reflexivity. }
    destruct (negb (st2 =? 0)).
    + eexists _, false. trace_norm. split; [reflexivity|].
      split; [repeat constructor|]. intros _.
      eexists [_; _; _], _. reflexivity.
    + eexists _, true. trace_norm. split; [reflexivity|].
      split; [repeat constructor | discriminate].
Qed.

Lemma process_skull_stripping_returns (filepath : string)
  (tr : list FinalScan.event) :
  exists evs o,
    process_skull_stripping host filepath tr = (tr ++ evs, Returned o) /\
    saves_nothing evs /\
    (o = None -> ends_in_error evs) /\
    (forall p, o = Some p ->
       p = (base_no_ext filepath ++ "_skullstripped.nii.gz")%string /\
       exists evs' parent_dir filename,
         evs = evs' ++ [System (run_cmd parent_dir filename (OsPath.basename p))] /\
         os_system host (tr ++ evs')
           (run_cmd parent_dir filename (OsPath.basename p)) = Ok 0).
Proof.
  unfold process_skull_stripping, try_except, bind.
  destruct (ensure_docker_image_returns tr) as [evs0 [b [E [Hq Hb]]]].
  rewrite E. destruct b; cbn [negb].
  - unfold call. destruct (os_path_abspath host filepath) as [abs_filepath|e];
      cbn [of_result].
    2:{ unfold log, emit, ret. eexists _, None. trace_norm.
        split; [reflexivity|]. split.
        { apply saves_nothing_app; [exact Hq | repeat constructor]. }
        split; [|discriminate]. intros _. eexists evs0, _. reflexivity. }
    unfold log, emit, ret, system.
    match goal with
    | |- context [os_system host ?h ?c] =>
        destruct (os_system host h c) as [exit_code|e] eqn:Es
    end; cbn [of_result].
    2:{ eexists _, None. trace_norm. split; [reflexivity|]. split.
        { apply saves_nothing_app; [exact Hq | repeat constructor]. }
        split; [|discriminate]. intros _. eexists (evs0 ++ [_; _]), _.
        trace_norm. reflexivity. }
    destruct (Z.eqb_spec exit_code 0) as [->|Hne]; cbn [negb].
    + eexists _, (Some _). trace_norm. split; [reflexivity|]. split.
      { apply saves_nothing_app; [exact Hq | repeat constructor]. }
      split; [discriminate|]. intros p Ep. inversion Ep; subst p; clear Ep.
      split; [reflexivity|].
      eexists (evs0 ++ [_]), _, _. trace_norm. split; [reflexivity|].
      rewrite <- Es. f_equal. trace_norm. reflexivity.
    + eexists _, None. trace_norm. split; [reflexivity|]. split.
      { apply saves_nothing_app; [exact Hq | repeat constructor]. }
      split; [|discriminate]. intros _. eexists (evs0 ++ [_; _]), _.
      trace_norm. reflexivity.
  - unfold log, emit, ret. eexists _, None. trace_norm.
    split; [reflexivity|]. split.
    { apply saves_nothing_app; [exact Hq | repeat constructor]. }
    split; [|discriminate]. intros _. eexists evs0, _. reflexivity.
Qed.

Lemma find_or_strip_returns (filepath : string) (tr : list FinalScan.event) :
  exists evs o,
    find_or_strip host filepath tr = (tr ++ evs, Returned o) /\
    saves_nothing evs /\
    (o = None -> ends_in_skip filepath evs).
Proof.
  unfold find_or_strip, bind, path_exists.
  destruct (os_path_exists host tr _).
  - unfold log, emit, ret. eexists _, (Some _).
    split; [reflexivity|]. split; [repeat constructor | discriminate].
  - destruct (ensure_docker_image_returns tr) as [evs0 [b [E [Hq _]]]].
    rewrite E. destruct b; cbn [negb].
    + unfold log at 1. unfold emit.
      destruct (process_skull_stripping_returns filepath
                  ((tr ++ evs0) ++ [Logged INFO
                     ("No skull-stripped file found. Running skull stripping on "
                      ++ filepath ++ "...")]))
        as [evs1 [o [E1 [Hq1 _]]]].
      rewrite E1.
      assert (Hnone : exists evs,
                (tr ++ evs0) ++ [Logged INFO
                     ("No skull-stripped file found. Running skull stripping on "
                      ++ filepath ++ "...")] ++ evs1 ++
                [Logged WARNING ("No skull-stripped file produced for "
                                 ++ filepath ++ ". Skipping further analysis.")]
                = tr ++ evs /\ saves_nothing evs /\ ends_in_skip filepath evs).
      { eexists. trace_norm. split; [reflexivity|]. split.
        - apply saves_nothing_app; [exact Hq|].
          apply (saves_nothing_app [_]); [repeat constructor|].
          apply saves_nothing_app; [exact Hq1 | repeat constructor].
        - exists (evs0 ++ [Logged INFO
                     ("No skull-stripped file found. Running skull stripping on "
                      ++ filepath ++ "...")] ++ evs1).
          right. trace_norm. reflexivity. }
      destruct Hnone as [evsN [EN [HqN HsN]]].
      destruct o as [[|c p]|]; unfold ret, log, emit; cbn [negb].
      * eexists evsN, None. rewrite <- EN. trace_norm. auto.
      * destruct (os_path_exists host _ (String c p)); cbn [negb].
        -- eexists _, (Some _). trace_norm. split; [reflexivity|]. split.
           ++ apply saves_nothing_app; [exact Hq|].
              apply (saves_nothing_app [_]); [repeat constructor | exact Hq1].
           ++ discriminate.
        -- eexists evsN, None. rewrite <- EN. trace_norm. auto.
      * eexists evsN, None. rewrite <- EN. trace_norm. auto.
    + unfold log, emit, ret. eexists _, None. trace_norm.
      split; [reflexivity|]. split.
      * apply saves_nothing_app; [exact Hq | repeat constructor].
      * intros _. exists evs0. left. reflexivity.
Qed.

Lemma process_scan_final_unfold (bids_root filepath : string) (N : Z)
  (tr : list FinalScan.event) :
  process_scan_final env host bids_root filepath N tr =
  match find_or_strip host filepath
          (tr ++ [Logged INFO ("[Final QC] Processing " ++ filepath ++ " ...")])
  with
  | (tr', Returned None) => (tr', Returned tt)
  | (tr', Returned (Some stripped_path)) =>
      match nib_load env stripped_path with
      | Ok data =>
          match Final.find_slices_of_interest data N with
          | Ok _ => (tr', Raised (NameError "ensure_results_dir"))
          | Raise e => (tr', Raised (Library e))
          end
      | Raise e => (tr', Raised (Library e))
      end
  | (tr', Raised e) => (tr', Raised e)
  end.
Proof.
  unfold process_scan_final, bind. unfold log at 1. unfold emit.
  destruct (find_or_strip host filepath _) as [tr' [[p|]|e]]; try reflexivity.
  unfold call. destruct (nib_load env p) as [data|e]; cbn [of_result];
    [|reflexivity].
  destruct (Final.find_slices_of_interest data N); reflexivity.
Qed.

(** X16: the final pass on one scan never reaches its results.  Whatever
    the machine does, [process_scan_final] saves no figure and no table.
    It ends in one of four ways: it returns after giving the scan up (the
    image or the skull-stripped file could not be had), the skull-stripped
    volume does not load, the slice selection fails, or it raises
    NameError at the call of [ensure_results_dir], a name the module
    neither defines nor imports.  In particular, with the skull-stripped
    file in place, loadable and with slices found, it raises NameError
    after two records of the logger. *)
Theorem process_scan_final_stops_before_results (bids_root filepath : string)
  (N : Z) (tr : list FinalScan.event) :
  let r := process_scan_final env host bids_root filepath N tr in
  let stripped_path :=
    OsPath.join (OsPath.dirname filepath) (stripped_filename filepath) in
  (exists evs,
     fst r = tr ++ evs /\ saves_nothing evs /\
     ((snd r = Returned tt /\ ends_in_skip filepath evs)
      \/ snd r = Raised (NameError "ensure_results_dir")
      \/ (exists p e, nib_load env p = Raise e /\ snd r = Raised (Library e))
      \/ (exists p data e,
            nib_load env p = Ok data /\
            Final.find_slices_of_interest data N = Raise e /\
            snd r = Raised (Library e))))
  /\ (forall data l,
        os_path_exists host
          (tr ++ [Logged INFO ("[Final QC] Processing " ++ filepath ++ " ...")])
          stripped_path = true ->
        nib_load env stripped_path = Ok data ->
        Final.find_slices_of_interest data N = Ok l ->
        r = (tr ++ [Logged INFO ("[Final QC] Processing " ++ filepath ++ " ...");
                    Logged INFO ("Found existing skull-stripped file: "
                                 ++ stripped_path)],
             Raised (NameError "ensure_results_dir"))).
Proof.
  intros r stripped_path. subst r. rewrite process_scan_final_unfold. split.
  - destruct (find_or_strip_returns filepath
                (tr ++ [Logged INFO ("[Final QC] Processing " ++ filepath ++ " ...")]))
      as [evs [o [E [Hq Hskip]]]].
    rewrite E.
    exists (Logged INFO ("[Final QC] Processing " ++ filepath ++ " ...") :: evs).
    assert (Hq' : saves_nothing
                    (Logged INFO ("[Final QC] Processing " ++ filepath ++ " ...")
                     :: evs))
      by (constructor; [exact I | exact Hq]).
    assert (Etr : (tr ++ [Logged INFO ("[Final QC] Processing " ++ filepath ++ " ...")])
                  ++ evs
                  = tr ++ Logged INFO ("[Final QC] Processing " ++ filepath ++ " ...")
                       :: evs)
      by (now rewrite <- app_assoc).
    destruct o as [p|].
    + destruct (nib_load env p) as [data|e] eqn:El.
      * destruct (Final.find_slices_of_interest data N) as [l|e] eqn:Ef;
          cbn [fst snd].
        -- split; [exact Etr|]. split; [exact Hq'|]. right. left. reflexivity.
        -- split; [exact Etr|]. split; [exact Hq'|]. right. right. right.
           exists p, data, e. auto.
      * cbn [fst snd]. split; [exact Etr|]. split; [exact Hq'|].
        right. right. left. exists p, e. auto.
    + cbn [fst snd]. split; [exact Etr|]. split; [exact Hq'|].
      left. split; [reflexivity|].
      destruct (Hskip eq_refl) as [evs' [Es|Es]]; rewrite Es;
        exists (Logged INFO ("[Final QC] Processing " ++ filepath ++ " ...")
                :: evs'); [left | right]; reflexivity.
  - intros data l Hex Hload Hfind.
    unfold find_or_strip, bind, path_exists. fold stripped_path.
    rewrite Hex. unfold log, emit, ret.
    rewrite Hload, Hfind. trace_norm. reflexivity.
Qed.

(** X17: skull stripping never raises.  Whatever the commands do,
    [ensure_docker_image] and [process_skull_stripping] return; they save
    no figure and no table; when no path comes back the last thing done is
    an error record of the logger; a path that comes back is the file path
    without its (up to two) extensions followed by _skullstripped.nii.gz,
    and the last thing done was the docker run writing that file name,
    which ended with status 0. *)
Theorem process_skull_stripping_never_raises (filepath : string)
  (tr : list FinalScan.event) :
  (exists evs b,
     ensure_docker_image host tr = (tr ++ evs, Returned b) /\
     saves_nothing evs /\ (b = false -> ends_in_error evs))
  /\ (exists evs o,
        process_skull_stripping host filepath tr = (tr ++ evs, Returned o) /\
        saves_nothing evs /\
        (o = None -> ends_in_error evs) /\
        (forall p, o = Some p ->
           p = (base_no_ext filepath ++ "_skullstripped.nii.gz")%string /\
           exists evs' parent_dir filename,
             evs = evs'
                   ++ [System (run_cmd parent_dir filename (OsPath.basename p))] /\
             os_system host (tr ++ evs')
               (run_cmd parent_dir filename (OsPath.basename p)) = Ok 0)).
Proof.
  split.
  - apply ensure_docker_image_returns.
  - apply process_skull_stripping_returns.
Qed.

End FinalScanProofs.

End FinalScanFacts.

(** A scan whose skull-stripped file is in place. *)
Lemma process_scan_final_stops_before_results_witness :
  FinalScan.process_scan_final env_no_statistics host_all_present "/data"
    "/data/sub-01/sub-01_T1w.nii.gz" 3 []
  = ([FinalScan.Logged FinalScan.INFO "[Final QC] Processing /data/sub-01/sub-01_T1w.nii.gz ...";
      FinalScan.Logged FinalScan.INFO
        "Found existing skull-stripped file: /data/sub-01/sub-01_T1w_skullstripped.nii.gz"],
     FinalScan.Raised (FinalScan.NameError "ensure_results_dir")).
Proof.
  apply (proj2 (process_scan_final_stops_before_results env_no_statistics
                  host_all_present "/data" "/data/sub-01/sub-01_T1w.nii.gz" 3 [])
           vol_example [105; 120; 135]).
  - reflexivity.
  - reflexivity.
  - vm_compute. reflexivity.
Defined.

(* ------------------------------------------------------------------ *)
(** ** The name of the skull-stripped file *)

Section StrippedNameFacts.
Import FinalScan.

Lemma contains_char_cons (x c : ascii) (s : string) :
  Str.contains (String x "") (String c s)
  = Ascii.eqb c x || Str.contains (String x "") s.
Proof.
  cbn [Str.contains]. rewrite prefix_cons, Ascii.eqb_sym.
  destruct (Ascii.eqb c x); [destruct s|]; reflexivity.
Qed.

Lemma no_char_app (x : ascii) (a b : string) :
  Str.contains (String x "") a = false -> Str.contains (String x "") b = false ->
  Str.contains (String x "") (a ++ b) = false.
Proof.
  intros Ha Hb. induction a as [|c a IH]; [exact Hb|].
  cbn [String.append]. rewrite contains_char_cons in *.
  apply orb_false_iff in Ha. destruct Ha as [Hc Ha].
  now rewrite Hc, IH.
Qed.

Lemma rfind_lower_bound (x : ascii) (s : string) : -1 <= rfind x s.
Proof.
  induction s as [|c s IH]; cbn [rfind]; [lia|].
  destruct (Z.leb_spec 0 (rfind x s)); [lia|].
  destruct (Ascii.eqb c x); lia.
Qed.

Lemma rfind_absent (x : ascii) (s : string) :
  Str.contains (String x "") s = false -> rfind x s = -1.
Proof.
  induction s as [|c s IH]; [reflexivity|].
  rewrite contains_char_cons. intros E. apply orb_false_iff in E.
  destruct E as [Hc Hs]. cbn [rfind]. rewrite (IH Hs), Hc. reflexivity.
Qed.

Lemma rfind_last (x : ascii) (a b : string) :
  Str.contains (String x "") b = false ->
  rfind x (a ++ String x b) = Z.of_nat (String.length a).
Proof.
  intros Hb. induction a as [|c a IH].
  - cbn [String.append rfind String.length]. rewrite (rfind_absent x b Hb).
    now rewrite Ascii.eqb_refl.
  - cbn [String.append rfind]. rewrite IH.
    destruct (Z.leb_spec 0 (Z.of_nat (String.length a))); [|lia].
    cbn [String.length]. lia.
Qed.

Lemma all_dots_app_false (a b : string) :
  all_dots a = false -> all_dots (a ++ b) = false.
Proof.
  induction a as [|c a IH]; [discriminate|].
  cbn [String.append all_dots]. destruct (Ascii.eqb c "."); [exact IH | reflexivity].
Qed.

Lemma all_dots_no_dot (s : string) :
  s <> EmptyString -> Str.contains "." s = false -> all_dots s = false.
Proof.
  destruct s as [|c s]; [congruence|]. intros _.
  rewrite contains_char_cons. intros E. apply orb_false_iff in E.
  cbn [all_dots]. now rewrite (proj1 E).
Qed.

(** The extension taken off a name without directory. *)
Lemma splitext_ext (name e : string) :
  Str.contains "/" name = false -> Str.contains "/" e = false ->
  Str.contains "." e = false -> all_dots name = false ->
  splitext (name ++ String "." e) = (name, String "." e).
Proof.
  intros Hs He Hd Hn. unfold splitext.
  assert (Esep : rfind "/" (name ++ String "." e) = -1).
  { apply rfind_absent. apply no_char_app; [exact Hs|].
    rewrite contains_char_cons. exact He. }
  rewrite Esep, (rfind_last "." name e Hd).
  destruct (Z.ltb_spec (-1) (Z.of_nat (String.length name))); [|lia].
  change (-1 + 1) with 0. rewrite Z.sub_0_r, Nat2Z.id.
  change (Z.to_nat 0) with 0%nat.
  rewrite substring_prefix_app, Hn. cbn [negb]. f_equal.
  rewrite strlen_app.
  replace (String.length name + String.length (String "." e)
           - String.length name)%nat
    with (String.length (String "." e)) by lia.
  apply substring_suffix_app.
Qed.

Lemma splitext_no_dot (s : string) :
  Str.contains "." s = false -> splitext s = (s, EmptyString).
Proof.
  intros Hd. unfold splitext. rewrite (rfind_absent "." s Hd).
  pose proof (rfind_lower_bound "/" s).
  destruct (Z.ltb_spec (rfind "/" s) (-1)); [lia | reflexivity].
Qed.

Lemma base_no_ext_scan (stem ext : string) :
  ext = ".nii" \/ ext = ".nii.gz" ->
  stem <> EmptyString ->
  Str.contains "/" stem = false -> Str.contains "." stem = false ->
  base_no_ext (stem ++ ext) = stem.
Proof.
  intros Hext Hne Hs Hd. pose proof (all_dots_no_dot stem Hne Hd) as Hn.
  unfold base_no_ext. destruct Hext as [-> | ->].
  - rewrite (splitext_ext stem "nii" Hs eq_refl eq_refl Hn). cbn [fst].
    now rewrite (splitext_no_dot stem Hd).
  - change (stem ++ ".nii.gz")%string with (stem ++ (".nii" ++ ".gz"))%string.
    rewrite <- append_assoc.
    rewrite (splitext_ext (stem ++ ".nii") "gz"); try reflexivity.
    + cbn [fst]. now rewrite (splitext_ext stem "nii" Hs eq_refl eq_refl Hn).
    + now apply no_char_app.
    + now apply all_dots_app_false.
Qed.

(** What follows a name does not change the key read off it, when it
    starts with a character that is no digit and occurs in neither
    literal, and holds no key itself. *)
Section InertSuffix.
Variable c : ascii.
Variable r : string.
Hypothesis Hdigit : Str.isdigit c = false.
Hypothesis Hsub : all_chars (fun x => negb (Ascii.eqb x c)) "sub-" = true.
Hypothesis Hses : all_chars (fun x => negb (Ascii.eqb x c)) "ses-" = true.
Hypothesis Hskip :
  Final.match_numbered "ses-" (if Ascii.eqb c "_" then r else String c r) = None.
Hypothesis Hrest : Final.search_sub_ses r = None.

Lemma prefix_inert (lit : string) : forall s,
  all_chars (fun x => negb (Ascii.eqb x c)) lit = true ->
  String.prefix lit (s ++ String c r) = String.prefix lit s.
Proof.
  induction lit as [|a lit IH]; intros s Hall.
  - destruct s; reflexivity.
  - cbn [all_chars] in Hall. apply andb_true_iff in Hall.
    destruct Hall as [Ha Hall]. apply negb_true_iff in Ha.
    destruct s as [|b s].
    + cbn [String.append]. rewrite prefix_cons, Ha. reflexivity.
    + cbn [String.append]. rewrite !prefix_cons.
      destruct (Ascii.eqb a b); [now apply IH | reflexivity].
Qed.

Lemma digits_inert (a : string) :
  Str.take_while Str.isdigit (a ++ String c r) = Str.take_while Str.isdigit a /\
  Str.drop_while Str.isdigit (a ++ String c r)
  = (Str.drop_while Str.isdigit a ++ String c r)%string.
Proof.
  induction a as [|d a [IH1 IH2]].
  - cbn [String.append Str.take_while Str.drop_while]. now rewrite Hdigit.
  - cbn [String.append Str.take_while Str.drop_while].
    destruct (Str.isdigit d); [now rewrite IH1, IH2 | split; reflexivity].
Qed.

Lemma match_numbered_inert (lit s : string) :
  all_chars (fun x => negb (Ascii.eqb x c)) lit = true ->
  Final.match_numbered lit (s ++ String c r)
  = match Final.match_numbered lit s with
    | Some (m, rest) => Some (m, (rest ++ String c r)%string)
    | None => None
    end.
Proof.
  intros Hall. unfold Final.match_numbered.
  rewrite (prefix_inert lit s Hall).
  destruct (String.prefix lit s) eqn:Ep; [|reflexivity].
  apply prefix_inv in Ep.
  remember (String.substring (String.length lit)
              (String.length s - String.length lit) s) as after eqn:Ea.
  clear Ea. subst s. rewrite append_assoc, !substring_after.
  destruct (digits_inert after) as [E1 E2]. rewrite E1, E2.
  destruct (Str.take_while Str.isdigit after); reflexivity.
Qed.

Lemma skip_underscore_cons (d : ascii) (s : string) :
  match String d s with String "_" s0 => s0 | _ => String d s end
  = if Ascii.eqb d "_" then s else String d s.
Proof. destruct d as [[] [] [] [] [] [] [] []]; reflexivity. Qed.

Lemma match_sub_ses_here_inert (s : string) :
  Final.match_sub_ses_here (s ++ String c r) = Final.match_sub_ses_here s.
Proof.
  unfold Final.match_sub_ses_here.
  rewrite (match_numbered_inert "sub-" s Hsub).
  destruct (Final.match_numbered "sub-" s) as [[m rest]|]; [|reflexivity].
  destruct rest as [|d rest].
  - cbn [String.append]. rewrite skip_underscore_cons, Hskip. reflexivity.
  - cbn [String.append]. rewrite !skip_underscore_cons.
    destruct (Ascii.eqb d "_").
    + rewrite (match_numbered_inert "ses-" rest Hses).
      destruct (Final.match_numbered "ses-" rest) as [[ses r2]|]; reflexivity.
    + change (String d (rest ++ String c r))
        with (String d rest ++ String c r)%string.
      rewrite (match_numbered_inert "ses-" (String d rest) Hses).
      destruct (Final.match_numbered "ses-" (String d rest)) as [[ses r2]|];
        reflexivity.
Qed.

Lemma search_sub_ses_inert (s : string) :
  Final.search_sub_ses (s ++ String c r) = Final.search_sub_ses s.
Proof.
  induction s as [|d s IH].
  - pose proof (match_sub_ses_here_inert "") as E.
    cbn [String.append] in E |- *. cbn [Final.search_sub_ses].
    rewrite E, Hrest. reflexivity.
  - change (String d s ++ String c r)%string with (String d (s ++ String c r)).
    cbn [Final.search_sub_ses].
    change (String d (s ++ String c r)) with (String d s ++ String c r)%string.
    rewrite match_sub_ses_here_inert.
    destruct (Final.match_sub_ses_here (String d s)); [reflexivity | exact IH].
Qed.

End InertSuffix.

Lemma search_sub_ses_stripped (stem ext : string) :
  ext = ".nii" \/ ext = ".nii.gz" ->
  Final.search_sub_ses (stem ++ "_skullstripped.nii.gz")
  = Final.search_sub_ses (stem ++ ext).
Proof.
  intros Hext.
  rewrite (search_sub_ses_inert "_" "skullstripped.nii.gz") by reflexivity.
  destruct Hext as [-> | ->].
  - now rewrite (search_sub_ses_inert "." "nii") by reflexivity.
  - now rewrite (search_sub_ses_inert "." "nii.gz") by reflexivity.
Qed.

(** X18: the skull-stripped file is a scan again.  For a scan
    stem.nii or stem.nii.gz whose stem is not empty, has no dot and contains
    the scan type, the file that skull stripping writes beside it is named
    stem_skullstripped.nii.gz; both traversals take that file for a scan
    of the same type, and [extract_sub_ses] reads the same key off it; so a
    later final pass that accepts the scan accepts the stripped file too
    and looks for stem_skullstripped_skullstripped.nii.gz. *)
Theorem skull_stripped_file_is_scan_again (scan_type dir stem ext : string) :
  ext = ".nii" \/ ext = ".nii.gz" ->
  stem <> EmptyString ->
  Str.contains "/" stem = false -> Str.contains "." stem = false ->
  Str.contains scan_type stem = true ->
  let filepath := OsPath.join dir (stem ++ ext) in
  let stripped := (stem ++ "_skullstripped.nii.gz")%string in
  stripped_filename filepath = stripped
  /\ is_scan_file scan_type stripped = true
  /\ Final.extract_sub_ses (OsPath.join dir stripped)
     = Final.extract_sub_ses filepath
  /\ (forall accepted,
        Final.in_accepted (Final.extract_sub_ses (OsPath.join dir stripped))
          accepted
        = Final.in_accepted (Final.extract_sub_ses filepath) accepted)
  /\ stripped_filename (OsPath.join dir stripped)
     = (stem ++ "_skullstripped_skullstripped.nii.gz")%string.
Proof.
  intros Hext Hne Hs Hd Htype filepath stripped.
  assert (Hfs : Str.contains "/" (stem ++ ext) = false).
  { apply no_slash_app; [exact Hs|]. destruct Hext as [-> | ->]; reflexivity. }
  assert (Hss : Str.contains "/" stripped = false)
    by (apply no_slash_app; [exact Hs | reflexivity]).
  assert (Ekey : Final.extract_sub_ses (OsPath.join dir stripped)
                 = Final.extract_sub_ses filepath).
  { unfold Final.extract_sub_ses, filepath, stripped.
    rewrite !basename_join by assumption.
    now rewrite (search_sub_ses_stripped stem ext Hext). }
  split; [|split; [|split; [|split]]].
  - unfold stripped_filename, filepath.
    rewrite basename_join by exact Hfs.
    now rewrite (base_no_ext_scan stem ext Hext Hne Hs Hd).
  - unfold is_scan_file, stripped.
    change (stem ++ "_skullstripped.nii.gz")%string
      with (stem ++ ("_skullstripped" ++ ".nii.gz"))%string.
    rewrite <- append_assoc, endswith_app, orb_true_r. cbn [andb].
    rewrite append_assoc. now apply contains_app_r.
  - exact Ekey.
  - intros accepted. now rewrite Ekey.
  - unfold stripped_filename, stripped.
    rewrite basename_join by exact Hss.
    change (stem ++ "_skullstripped.nii.gz")%string
      with (stem ++ ("_skullstripped" ++ ".nii.gz"))%string.
    rewrite <- append_assoc.
    rewrite (base_no_ext_scan (stem ++ "_skullstripped") ".nii.gz").
    + now rewrite append_assoc.
    + now right.
    + destruct stem; discriminate.
    + now apply no_slash_app.
    + now apply no_char_app.
Qed.

End StrippedNameFacts.

(** The scan sub-01_T1w.nii.gz of type T1w. *)
Lemma skull_stripped_file_is_scan_again_witness :
  is_scan_file "T1w" "sub-01_T1w_skullstripped.nii.gz" = true.
Proof.
  apply (proj1 (proj2 (skull_stripped_file_is_scan_again "T1w" "/data/sub-01"
                         "sub-01_T1w" ".nii.gz" (or_intror eq_refl)
                         ltac:(discriminate) eq_refl eq_refl eq_refl))).
Defined.

(* ================================================================== *)
(** * The static reports *)

(** ** The grouping *)

Lemma report_key_eqb_spec (a b : ReportGenerator.key_of) :
  ReportGenerator.key_eqb a b = true <-> a = b.
Proof.
  destruct a as [a1 a2], b as [b1 b2]. unfold ReportGenerator.key_eqb. simpl.
  rewrite andb_true_iff, !String.eqb_eq. split.
  - intros [-> ->]. reflexivity.
  - intros E; inversion E; auto.
Qed.

Lemma report_has_key_spec (key : ReportGenerator.key_of) (m : ReportGenerator.data_map_of) :
  ReportGenerator.has_key key m = true <-> In key (map fst m).
Proof.
  unfold ReportGenerator.has_key. rewrite existsb_exists, in_map_iff. split.
  - intros [kv [Hin E]]. apply report_key_eqb_spec in E. exists kv. auto.
  - intros [kv [E Hin]]. exists kv. split; [exact Hin|].
    apply report_key_eqb_spec. auto.
Qed.

Lemma update_entry_keys (key : ReportGenerator.key_of)
  (f : ReportGenerator.entry -> ReportGenerator.entry)
  (m : ReportGenerator.data_map_of) :
  map fst (ReportGenerator.update_entry key f m) = map fst m.
Proof.
  induction m as [|[k e] m IH]; [reflexivity|].
  cbn [ReportGenerator.update_entry].
  destruct (ReportGenerator.key_eqb key k); cbn [map fst]; [reflexivity|].
  now rewrite IH.
Qed.

Lemma set_if_keys (value : option string) f (key : ReportGenerator.key_of)
  (m : ReportGenerator.data_map_of) :
  map fst (ReportGenerator.set_if value f key m) = map fst m.
Proof.
  unfold ReportGenerator.set_if. destruct (ReportGenerator.truthy value);
    [apply update_entry_keys | reflexivity].
Qed.

Lemma note_files_from_dir (dirpath : string) (filenames : list string) :
  forall done fd,
    (from_dir dirpath done (ReportGenerator.orig_file fd) /\
     from_dir dirpath done (ReportGenerator.strip_file fd) /\
     from_dir dirpath done (ReportGenerator.dens_file fd) /\
     from_dir dirpath done (ReportGenerator.stats_file fd)) ->
    let fd' := fold_left (ReportGenerator.note_file dirpath) filenames fd in
    from_dir dirpath (done ++ filenames) (ReportGenerator.orig_file fd') /\
    from_dir dirpath (done ++ filenames) (ReportGenerator.strip_file fd') /\
    from_dir dirpath (done ++ filenames) (ReportGenerator.dens_file fd') /\
    from_dir dirpath (done ++ filenames) (ReportGenerator.stats_file fd').
Proof.
  induction filenames as [|f fs IH]; intros done fd Hfd; cbn [fold_left].
  - now rewrite app_nil_r.
  - replace (done ++ f :: fs) with ((done ++ [f]) ++ fs)
      by (now rewrite <- app_assoc).
    apply IH. destruct Hfd as [H1 [H2 [H3 H4]]].
    assert (Hold : forall o, from_dir dirpath done o ->
                             from_dir dirpath (done ++ [f]) o).
    { intros o Ho p Ep. destruct (Ho p Ep) as [f0 [Hin E]].
      exists f0. split; [apply in_or_app; now left | exact E]. }
    assert (Hnew : from_dir dirpath (done ++ [f])
                     (Some (OsPath.join dirpath f))).
    { intros p Ep. inversion Ep; subst. exists f.
      split; [apply in_or_app; right; now left | reflexivity]. }
    unfold ReportGenerator.note_file.
    destruct (Str.endswith f "_original_slices.png"); cbn; [auto|].
    destruct (Str.endswith f "_skullstripped_slices.png"); cbn; [auto|].
    destruct (Str.endswith f "_density.svg"); cbn; [auto|].
    destruct (Str.endswith f "_stats.csv"); cbn; auto.
Qed.

Lemma or_else_from_dir (dirpath : string) (filenames : list string)
  (a b : option string) :
  from_dir dirpath filenames a -> from_dir dirpath filenames b ->
  from_dir dirpath filenames (ReportGenerator.or_else a b).
Proof.
  intros Ha Hb. unfold ReportGenerator.or_else.
  destruct (ReportGenerator.truthy a); assumption.
Qed.

(** The keys after a directory: those before, and at most one new key,
    read off a file of the directory. *)
Lemma group_dir_keys (dirpath : string) (filenames : list string)
  (m : ReportGenerator.data_map_of) :
  map fst (ReportGenerator.group_dir dirpath filenames m) = map fst m \/
  exists key f,
    map fst (ReportGenerator.group_dir dirpath filenames m) = map fst m ++ [key] /\
    ~ In key (map fst m) /\ In f filenames /\
    Final.extract_sub_ses (OsPath.join dirpath f) = Some key.
Proof.
  unfold ReportGenerator.group_dir.
  set (fd := fold_left (ReportGenerator.note_file dirpath) filenames _).
  assert (Hfd : from_dir dirpath filenames (ReportGenerator.orig_file fd) /\
                from_dir dirpath filenames (ReportGenerator.strip_file fd) /\
                from_dir dirpath filenames (ReportGenerator.dens_file fd) /\
                from_dir dirpath filenames (ReportGenerator.stats_file fd)).
  { apply (note_files_from_dir dirpath filenames []).
    repeat split; intros p Ep; discriminate Ep. }
  destruct Hfd as [H1 [H2 [H3 H4]]].
  pose proof (or_else_from_dir _ _ _ _ H1
               (or_else_from_dir _ _ _ _ H2
                  (or_else_from_dir _ _ _ _ H3 H4))) as Hc.
  destruct (ReportGenerator.or_else _ _) as [[|c p]|]; try (now left).
  destruct (Hc _ eq_refl) as [f [Hf Ep]].
  destruct (Final.search_sub_ses (OsPath.basename (String c p)))
    as [[subject g2]|] eqn:Es; [|now left].
  set (key := (subject, match g2 with Some s => s | None => "ses-01" end)).
  rewrite !set_if_keys.
  destruct (ReportGenerator.has_key key m) eqn:Hk; [now left|].
  right. exists key, f. rewrite map_app. split; [reflexivity|]. split.
  - intros Hin. apply report_has_key_spec in Hin. congruence.
  - split; [exact Hf|]. unfold Final.extract_sub_ses.
    rewrite <- Ep, Es. reflexivity.
Qed.

Lemma collect_keys (walk : list (string * list string * list string)) :
  NoDup (map fst (ReportGenerator.collect walk)) /\
  forall key, In key (map fst (ReportGenerator.collect walk)) ->
              key_in_walk walk key.
Proof.
  unfold ReportGenerator.collect.
  assert (Hgen : forall todo done m,
            (NoDup (map fst m) /\
             forall key, In key (map fst m) -> key_in_walk done key) ->
            NoDup (map fst (fold_left
                     (fun data_map '(dirpath, _, filenames) =>
                        ReportGenerator.group_dir dirpath filenames data_map)
                     todo m)) /\
            forall key,
              In key (map fst (fold_left
                     (fun data_map '(dirpath, _, filenames) =>
                        ReportGenerator.group_dir dirpath filenames data_map)
                     todo m)) ->
              key_in_walk (done ++ todo) key).
  { induction todo as [|[[d dirs] files] todo IH]; intros done m [Hnd Hkeys].
    - cbn [fold_left]. rewrite app_nil_r. auto.
    - cbn [fold_left].
      replace (done ++ (d, dirs, files) :: todo)
        with ((done ++ [(d, dirs, files)]) ++ todo)
        by (now rewrite <- app_assoc).
      apply IH.
      assert (Hold : forall key, key_in_walk done key ->
                                 key_in_walk (done ++ [(d, dirs, files)]) key).
      { intros key [d0 [dirs0 [files0 [f0 [Hin Hrest]]]]].
        exists d0, dirs0, files0, f0.
        split; [apply in_or_app; now left | exact Hrest]. }
      destruct (group_dir_keys d files m) as [E|[key [f [E [Hno [Hf Ek]]]]]];
        rewrite E.
      + split; [exact Hnd|]. intros key Hin. apply Hold, Hkeys, Hin.
      + split.
        * apply NoDup_app; [exact Hnd | repeat constructor; intros [] |].
          intros k Hk [<-|[]]. contradiction.
        * intros k Hin. apply in_app_or in Hin. destruct Hin as [Hin|[<-|[]]].
          -- apply Hold, Hkeys, Hin.
          -- exists d, dirs, files, f.
             split; [apply in_or_app; right; now left | auto]. }
  apply (Hgen walk [] []). split; [constructor | intros key []].
Qed.

(** ** The sort key *)

Lemma replace_from_digits (old : string) (d : string) :
  (forall c s, Str.isdigit c = true -> String.prefix old (String c s) = false) ->
  all_chars Str.isdigit d = true ->
  Str.replace_from old "" 0 d = d.
Proof.
  intros Hp. induction d as [|c d IH]; [reflexivity|].
  cbn [all_chars]. intros Hall. apply andb_true_iff in Hall.
  destruct Hall as [Hc Hall]. cbn [Str.replace_from].
  rewrite (Hp c d Hc). now rewrite (IH Hall).
Qed.

Lemma prefix_letter_digit (l : ascii) (lit : string) (c : ascii) (s : string) :
  Str.isdigit l = false -> Str.isdigit c = true ->
  String.prefix (String l lit) (String c s) = false.
Proof.
  intros Hl Hc. rewrite prefix_cons.
  destruct (Ascii.eqb_spec l c) as [->|]; [congruence | reflexivity].
Qed.

Lemma replace_sub_digits (d : string) :
  all_chars Str.isdigit d = true -> Str.replace "sub-" "" ("sub-" ++ d) = d.
Proof.
  intros Hall. unfold Str.replace.
  change ("sub-" ++ d)%string with (String "s" (String "u" (String "b" (String "-" d)))).
  cbn [Str.replace_from].
  change (String "s" (String "u" (String "b" (String "-" d))))
    with ("sub-" ++ d)%string.
  rewrite prefix_append. cbn [String.length Nat.sub String.append].
  apply replace_from_digits; [|exact Hall].
  intros c s Hc. now apply prefix_letter_digit.
Qed.

Lemma replace_ses_digits (d : string) :
  all_chars Str.isdigit d = true -> Str.replace "ses-" "" ("ses-" ++ d) = d.
Proof.
  intros Hall. unfold Str.replace.
  change ("ses-" ++ d)%string with (String "s" (String "e" (String "s" (String "-" d)))).
  cbn [Str.replace_from].
  change (String "s" (String "e" (String "s" (String "-" d))))
    with ("ses-" ++ d)%string.
  rewrite prefix_append. cbn [String.length Nat.sub String.append].
  apply replace_from_digits; [|exact Hall].
  intros c s Hc. now apply prefix_letter_digit.
Qed.

Lemma digit_not_blank (c : ascii) :
  Str.isdigit c = true -> ReportGenerator.int_blank c = false.
Proof.
  unfold Str.isdigit, ReportGenerator.int_blank. intros Hd.
  apply andb_true_iff in Hd. destruct Hd as [H1 H2].
  apply Nat.leb_le in H1. apply Nat.leb_le in H2.
  repeat match goal with
         | |- context [(?a <=? ?b)%nat] => destruct (Nat.leb_spec a b)
         | |- context [(?a =? ?b)%nat] => destruct (Nat.eqb_spec a b)
         end; try reflexivity; lia.
Qed.

Lemma int_rstrip_digits (d : string) :
  all_chars Str.isdigit d = true -> ReportGenerator.int_rstrip d = d.
Proof.
  induction d as [|c d IH]; [reflexivity|].
  cbn [all_chars]. intros Hall. apply andb_true_iff in Hall.
  destruct Hall as [Hc Hall]. cbn [ReportGenerator.int_rstrip]. rewrite (IH Hall).
  destruct d; [now rewrite (digit_not_blank c Hc) | reflexivity].
Qed.

Lemma int_strip_digits (d : string) :
  all_chars Str.isdigit d = true ->
  ReportGenerator.int_rstrip (ReportGenerator.int_lstrip d) = d.
Proof.
  intros Hall.
  assert (E : ReportGenerator.int_lstrip d = d).
  { destruct d as [|c d]; [reflexivity|]. cbn [all_chars] in Hall.
    apply andb_true_iff in Hall. cbn [ReportGenerator.int_lstrip].
    now rewrite (digit_not_blank c (proj1 Hall)). }
  rewrite E. now apply int_rstrip_digits.
Qed.

Lemma int_digits_all (d : string) : forall b,
  all_chars Str.isdigit d = true -> (d <> EmptyString \/ b = true) ->
  ReportGenerator.int_digits b d = Some d.
Proof.
  induction d as [|c d IH]; intros b Hall Hne.
  - destruct Hne as [Hne| ->]; [congruence | reflexivity].
  - cbn [all_chars] in Hall. apply andb_true_iff in Hall.
    destruct Hall as [Hc Hall]. cbn [ReportGenerator.int_digits].
    rewrite Hc, (IH true Hall) by now right. reflexivity.
Qed.

Lemma int_of_digits (d : string) :
  d <> EmptyString -> all_chars Str.isdigit d = true ->
  (String.length d <= 4300)%nat ->
  ReportGenerator.int d = Ok (Str.int d).
Proof.
  intros Hne Hall Hlen. unfold ReportGenerator.int.
  rewrite (int_strip_digits d Hall).
  assert (Esign : match d with
                  | String "-" b => (true, b)
                  | String "+" b => (false, b)
                  | _ => (false, d)
                  end = (false, d)).
  { destruct d as [|c d']; [reflexivity|]. cbn [all_chars] in Hall.
    apply andb_true_iff in Hall. destruct Hall as [Hc _].
    destruct c as [[] [] [] [] [] [] [] []]; try reflexivity;
      discriminate Hc. }
  rewrite Esign, (int_digits_all d false Hall) by now left.
  destruct (Nat.ltb_spec 4300 (String.length d)); [lia | reflexivity].
Qed.

Lemma first_digit_run_numbered (lit d : string) :
  all_chars not_digit lit = true -> all_chars Str.isdigit d = true ->
  first_digit_run (lit ++ d) = Str.int d.
Proof.
  intros Hlit Hd. unfold first_digit_run. f_equal.
  destruct (take_while_app not_digit lit d Hlit) as [_ E]. rewrite E.
  assert (E' : Str.drop_while not_digit d = d).
  { destruct d as [|c d']; [reflexivity|]. cbn [all_chars] in Hd.
    apply andb_true_iff in Hd. cbn [Str.drop_while]. unfold not_digit.
    now rewrite (proj1 Hd). }
  rewrite E'.
  pose proof (take_while_app Str.isdigit d "" Hd) as [E1 _].
  rewrite append_nil_r in E1. rewrite E1. cbn [Str.take_while].
  apply append_nil_r.
Qed.

(** On a key (sub-<digits>, ses-<digits>) with at most 4300 digits each the
    sort key is the pair of the two numbers. *)
Lemma numeric_sort_key_numbered (sub ses : string) :
  is_numbered "sub-" sub -> is_numbered "ses-" ses ->
  (String.length sub <= 4300)%nat -> (String.length ses <= 4300)%nat ->
  ReportGenerator.numeric_sort_key (sub, ses) = Ok (key_numbers (sub, ses)).
Proof.
  intros [d1 [-> [Hn1 Hd1]]] [d2 [-> [Hn2 Hd2]]] Hl1 Hl2.
  rewrite strlen_app in Hl1, Hl2. cbn [String.length] in Hl1, Hl2.
  unfold ReportGenerator.numeric_sort_key, key_numbers. cbn [fst snd].
  rewrite (replace_sub_digits d1 Hd1), (int_of_digits d1 Hn1 Hd1) by lia.
  cbn [rbind]. rewrite prefix_append.
  assert (Ene : String.eqb ("ses-" ++ d2) "" = false) by reflexivity.
  rewrite Ene. cbn [negb andb].
  rewrite (replace_ses_digits d2 Hd2), (int_of_digits d2 Hn2 Hd2) by lia.
  cbn [rbind].
  now rewrite !first_digit_run_numbered by (reflexivity || assumption).
Qed.

(** ** The order of the reports *)

Lemma pair_leb_spec (a b : Z * Z) :
  ReportGenerator.pair_leb a b = true <-> pair_le a b.
Proof.
  unfold ReportGenerator.pair_leb, pair_le.
  destruct (Z.eqb_spec (fst a) (fst b)) as [E|E].
  - rewrite Z.leb_le. split; [intros; right; auto | intros [?|[_ ?]]; [lia | auto]].
  - rewrite Z.ltb_lt. split; [intros; left; auto | intros [?|[? _]]; [auto | lia]].
Qed.

Lemma pair_le_total (a b : Z * Z) : pair_le a b \/ pair_le b a.
Proof. unfold pair_le. lia. Qed.

Lemma pair_le_trans (a b c : Z * Z) : pair_le a b -> pair_le b c -> pair_le a c.
Proof. unfold pair_le. lia. Qed.

Section SortKeyed.
Context {A : Type}.

Lemma insert_keyed_perm (x : Z * Z * A) (l : list (Z * Z * A)) :
  Permutation (x :: l) (ReportGenerator.insert_keyed x l).
Proof.
  induction l as [|y l IH]; cbn [ReportGenerator.insert_keyed];
    [apply Permutation_refl|].
  destruct (ReportGenerator.pair_leb (fst x) (fst y)); [apply Permutation_refl|].
  eapply perm_trans; [apply perm_swap|]. now apply perm_skip.
Qed.

Lemma sort_keyed_perm (l : list (Z * Z * A)) :
  Permutation l (ReportGenerator.sort_keyed l).
Proof.
  induction l as [|x l IH]; cbn [ReportGenerator.sort_keyed]; [apply perm_nil|].
  eapply perm_trans; [apply perm_skip, IH | apply insert_keyed_perm].
Qed.

Lemma insert_keyed_sorted (x : Z * Z * A) (l : list (Z * Z * A)) :
  Sorted (fun a b => pair_le (fst a) (fst b)) l ->
  Sorted (fun a b => pair_le (fst a) (fst b)) (ReportGenerator.insert_keyed x l).
Proof.
  induction 1 as [|y l Hs IH Hhd]; cbn [ReportGenerator.insert_keyed].
  - repeat constructor.
  - destruct (ReportGenerator.pair_leb (fst x) (fst y)) eqn:E.
    + constructor; [constructor; assumption|].
      constructor. apply pair_leb_spec. exact E.
    + assert (Hyx : pair_le (fst y) (fst x)).
      { destruct (pair_le_total (fst x) (fst y)) as [Hxy|Hyx]; [|exact Hyx].
        apply pair_leb_spec in Hxy. congruence. }
      constructor; [exact IH|].
      destruct l as [|z l]; cbn [ReportGenerator.insert_keyed].
      * constructor. exact Hyx.
      * destruct (ReportGenerator.pair_leb (fst x) (fst z)); constructor;
          [exact Hyx | now apply HdRel_inv in Hhd].
Qed.

Lemma sort_keyed_sorted (l : list (Z * Z * A)) :
  StronglySorted (fun a b => pair_le (fst a) (fst b))
    (ReportGenerator.sort_keyed l).
Proof.
  apply Sorted_StronglySorted.
  - intros a b c. apply pair_le_trans.
  - induction l as [|x l IH]; cbn [ReportGenerator.sort_keyed]; [constructor|].
    now apply insert_keyed_sorted.
Qed.

Lemma with_keys_ok (key : A -> result (Z * Z)) (num : A -> Z * Z)
  (l : list A) :
  (forall x, In x l -> key x = Ok (num x)) ->
  ReportGenerator.with_keys key l = Ok (map (fun x => (num x, x)) l).
Proof.
  induction l as [|x l IH]; intros Hk; [reflexivity|].
  cbn [ReportGenerator.with_keys map].
  rewrite (Hk x (or_introl eq_refl)). cbn [rbind].
  rewrite IH by (intros y Hy; apply Hk; now right). reflexivity.
Qed.

Lemma sort_keyed_keys (num : A -> Z * Z) (l : list A) :
  Forall (fun kx => fst kx = num (snd kx))
    (ReportGenerator.sort_keyed (map (fun x => (num x, x)) l)).
Proof.
  apply Forall_forall. intros kx Hin.
  apply (Permutation_in _ (Permutation_sym (sort_keyed_perm _))) in Hin.
  apply in_map_iff in Hin. destruct Hin as [x [<- _]]. reflexivity.
Qed.

Lemma sorted_by_numbers (num : A -> Z * Z) (l : list A) :
  let keys := map snd (ReportGenerator.sort_keyed (map (fun x => (num x, x)) l)) in
  Permutation l keys /\
  StronglySorted (fun a b => pair_le (num a) (num b)) keys.
Proof.
  intros keys. split.
  - unfold keys.
    rewrite <- (map_id l) at 1.
    rewrite <- (map_ext (fun x => snd (num x, x)) id) by reflexivity.
    rewrite <- map_map. apply Permutation_map, sort_keyed_perm.
  - unfold keys.
    pose proof (sort_keyed_sorted (map (fun x => (num x, x)) l)) as Hs.
    pose proof (sort_keyed_keys num l) as Hk.
    induction Hs as [|kx rest Hs IH Hall]; cbn [map]; [constructor|].
    apply Forall_cons_iff in Hk. destruct Hk as [Ekx Hk].
    constructor; [now apply IH|].
    apply Forall_map. rewrite Forall_forall in *.
    intros ky Hy. rewrite <- Ekx, <- (Hk ky Hy). now apply Hall.
Qed.

End SortKeyed.

(** ** The names of the reports *)

Lemma all_chars_app (p : ascii -> bool) (a b : string) :
  all_chars p (a ++ b) = all_chars p a && all_chars p b.
Proof.
  induction a as [|c a IH]; [reflexivity|].
  cbn [String.append all_chars]. now rewrite IH, andb_assoc.
Qed.

Lemma all_chars_weaken (p q : ascii -> bool) (s : string) :
  (forall c, p c = true -> q c = true) ->
  all_chars p s = true -> all_chars q s = true.
Proof.
  intros Hpq. induction s as [|c s IH]; [reflexivity|].
  cbn [all_chars]. intros Hall. apply andb_true_iff in Hall.
  destruct Hall as [Hc Hall]. now rewrite (Hpq c Hc), IH.
Qed.

Lemma digit_plain (c : ascii) :
  Str.isdigit c = true ->
  not_underscore c && negb (Ascii.eqb c "/") = true.
Proof.
  intros Hc. destruct c as [[] [] [] [] [] [] [] []]; try reflexivity;
    discriminate Hc.
Qed.

Lemma numbered_plain (lit s : string) :
  all_chars (fun c => not_underscore c && negb (Ascii.eqb c "/")) lit = true ->
  is_numbered lit s ->
  all_chars (fun c => not_underscore c && negb (Ascii.eqb c "/")) s = true.
Proof.
  intros Hlit [d [-> [_ Hd]]]. rewrite all_chars_app, Hlit. cbn [andb].
  exact (all_chars_weaken _ _ d digit_plain Hd).
Qed.

Lemma plain_no_slash (s : string) :
  all_chars (fun c => not_underscore c && negb (Ascii.eqb c "/")) s = true ->
  Str.contains "/" s = false.
Proof.
  induction s as [|c s IH]; [reflexivity|].
  cbn [all_chars]. intros Hall. apply andb_true_iff in Hall.
  destruct Hall as [Hc Hall]. apply andb_true_iff in Hc.
  rewrite contains_slash_cons, (IH Hall).
  destruct (Ascii.eqb c "/"); [destruct Hc; discriminate | reflexivity].
Qed.

(** Two texts cut at their first underscore. *)
Lemma split_first_underscore (a : string) : forall b x y,
  all_chars (fun c => not_underscore c && negb (Ascii.eqb c "/")) a = true ->
  all_chars (fun c => not_underscore c && negb (Ascii.eqb c "/")) b = true ->
  (a ++ String "_" x)%string = (b ++ String "_" y)%string ->
  a = b /\ x = y.
Proof.
  induction a as [|c a IH]; intros b x y Ha Hb E.
  - destruct b as [|d b].
    + cbn in E. inversion E. auto.
    + cbn in E. inversion E; subst d. cbn in Hb. discriminate Hb.
  - destruct b as [|d b].
    + cbn in E. inversion E; subst c. cbn in Ha. discriminate Ha.
    + cbn [String.append] in E. inversion E; subst d.
      cbn [all_chars] in Ha, Hb.
      apply andb_true_iff in Ha. apply andb_true_iff in Hb.
      destruct (IH b x y (proj2 Ha) (proj2 Hb) H1) as [-> ->]. auto.
Qed.

Lemma report_name_inj (k1 k2 : ReportGenerator.key_of) (phase : string) :
  is_numbered "sub-" (fst k1) -> is_numbered "ses-" (snd k1) ->
  is_numbered "sub-" (fst k2) -> is_numbered "ses-" (snd k2) ->
  ReportGenerator.report_name k1 phase = ReportGenerator.report_name k2 phase ->
  k1 = k2.
Proof.
  destruct k1 as [sub1 ses1], k2 as [sub2 ses2]. cbn [fst snd].
  intros Hs1 He1 Hs2 He2.
  pose proof (numbered_plain "sub-" sub1 eq_refl Hs1) as Ps1.
  pose proof (numbered_plain "sub-" sub2 eq_refl Hs2) as Ps2.
  pose proof (numbered_plain "ses-" ses1 eq_refl He1) as Pe1.
  pose proof (numbered_plain "ses-" ses2 eq_refl He2) as Pe2.
  unfold ReportGenerator.report_name.
  destruct (String.eqb_spec ses1 "ses-01") as [E1|E1];
    destruct (String.eqb_spec ses2 "ses-01") as [E2|E2]; intros E;
    apply split_first_underscore in E; try assumption;
    destruct E as [-> E].
  - now subst.
  - exfalso. destruct He2 as [d [-> _]]. discriminate E.
  - exfalso. destruct He1 as [d [-> _]]. discriminate E.
  - apply split_first_underscore in E; try assumption.
    destruct E as [-> _]. reflexivity.
Qed.

Lemma report_name_no_slash (k : ReportGenerator.key_of) (phase : string) :
  is_numbered "sub-" (fst k) -> is_numbered "ses-" (snd k) ->
  Str.contains "/" phase = false ->
  Str.contains "/" (ReportGenerator.report_name k phase) = false.
Proof.
  destruct k as [sub ses]. cbn [fst snd]. intros Hs He Hp.
  pose proof (plain_no_slash _ (numbered_plain "sub-" sub eq_refl Hs)) as Ns.
  pose proof (plain_no_slash _ (numbered_plain "ses-" ses eq_refl He)) as Ne.
  unfold ReportGenerator.report_name.
  destruct (String.eqb ses "ses-01");
    repeat (apply no_slash_app; try assumption; try reflexivity).
Qed.

Lemma NoDup_map_inj_in {A B : Type} (f : A -> B) (l : list A) :
  (forall x y, In x l -> In y l -> f x = f y -> x = y) ->
  NoDup l -> NoDup (map f l).
Proof.
  intros Hinj Hnd. induction Hnd as [|x l Hx Hnd IH]; [constructor|].
  cbn [map]. constructor.
  - intros Hin. apply in_map_iff in Hin. destruct Hin as [y [E Hy]].
    apply Hx. rewrite (Hinj x y (or_introl eq_refl) (or_intror Hy) (eq_sym E)).
    exact Hy.
  - apply IH. intros a b Ha Hb. apply Hinj; now right.
Qed.

Lemma report_data_map_get_in (key : ReportGenerator.key_of)
  (m : ReportGenerator.data_map_of) :
  In key (map fst m) ->
  exists e, ReportGenerator.data_map_get key m = Ok e /\ In (key, e) m.
Proof.
  induction m as [|[k e] m IH]; cbn [map fst In ReportGenerator.data_map_get];
    [intros []|].
  intros Hin. destruct (ReportGenerator.key_eqb key k) eqn:E.
  - apply report_key_eqb_spec in E. subst k. exists e. auto.
  - destruct Hin as [->|Hin].
    + assert (ReportGenerator.key_eqb key key = true)
        by now apply report_key_eqb_spec.
      congruence.
    + destruct (IH Hin) as [e' [E' He']]. exists e'. auto.
Qed.

Lemma key_html_paths_ok (m : ReportGenerator.data_map_of) (phase : string)
  (keys : list ReportGenerator.key_of) :
  (forall k, In k keys -> In k (map fst m)) ->
  exists paths,
    ReportGenerator.key_html_paths m phase keys = Ok paths /\
    map fst paths = keys /\
    Forall (fun kp =>
              exists e, In (fst kp, e) m /\
                        snd kp = OsPath.join (ReportGenerator.directory e)
                                   (ReportGenerator.report_name (fst kp) phase))
           paths.
Proof.
  induction keys as [|k keys IH]; intros Hk.
  - exists []. repeat split. constructor.
  - cbn [ReportGenerator.key_html_paths].
    destruct (report_data_map_get_in k m (Hk k (or_introl eq_refl)))
      as [e [Ee He]].
    rewrite Ee. cbn [rbind].
    destruct IH as [paths [Ep [Ef Hall]]]; [intros k' Hk'; apply Hk; now right|].
    rewrite Ep. cbn [rbind]. eexists. split; [reflexivity|].
    cbn [map fst]. split; [now rewrite Ef|].
    constructor; [|exact Hall]. exists e. cbn [fst snd]. auto.
Qed.

Lemma report_paths_distinct (m : ReportGenerator.data_map_of) (phase : string)
  (paths : list (ReportGenerator.key_of * string)) :
  Str.contains "/" phase = false ->
  NoDup (map fst paths) ->
  (forall k, In k (map fst paths) ->
             is_numbered "sub-" (fst k) /\ is_numbered "ses-" (snd k)) ->
  Forall (fun kp =>
            exists e, In (fst kp, e) m /\
                      snd kp = OsPath.join (ReportGenerator.directory e)
                                 (ReportGenerator.report_name (fst kp) phase))
         paths ->
  NoDup (map snd paths).
Proof.
  intros Hphase Hnd Hnum Hall.
  apply NoDup_map_inv with (f := OsPath.basename).
  assert (E : map OsPath.basename (map snd paths)
              = map (fun k => ReportGenerator.report_name k phase)
                    (map fst paths)).
  { rewrite !map_map. apply map_ext_in. intros kp Hin.
    rewrite Forall_forall in Hall. destruct (Hall kp Hin) as [e [_ ->]].
    apply basename_join.
    destruct (Hnum (fst kp) (in_map fst _ _ Hin)) as [Hs He].
    now apply report_name_no_slash. }
  rewrite E. apply NoDup_map_inj_in; [|exact Hnd].
  intros k1 k2 H1 H2. destruct (Hnum k1 H1), (Hnum k2 H2).
  now apply report_name_inj.
Qed.

(** ** The run of the generator *)

Lemma key_in_walk_numbered (walk : list (string * list string * list string))
  (k : ReportGenerator.key_of) :
  file_names_ok walk -> names_at_most 4300 walk -> key_in_walk walk k ->
  is_numbered "sub-" (fst k) /\ is_numbered "ses-" (snd k) /\
  (String.length (fst k) <= 4300)%nat /\ (String.length (snd k) <= 4300)%nat.
Proof.
  intros Hnames Hlen [d [dirs [files [f [Hd [Hf Ek]]]]]].
  destruct k as [sub ses]. cbn [fst snd].
  destruct (extract_sub_ses_sound _ _ _ Ek) as [Hs [He [pre [rest [Eb Hses]]]]].
  rewrite basename_join in Eb by exact (Hnames d dirs files f Hd Hf).
  pose proof (Hlen d dirs files f Hd Hf) as Hl.
  rewrite Eb, !strlen_app in Hl.
  split; [exact Hs|]. split; [exact He|]. split; [lia|].
  destruct Hses as [-> | [rest' [-> | ->]]].
  - cbn. lia.
  - rewrite strlen_app in Hl. lia.
  - rewrite !strlen_app in Hl. lia.
Qed.

Lemma sorted_keys_collect (walk : list (string * list string * list string)) :
  file_names_ok walk -> names_at_most 4300 walk ->
  exists keys,
    ReportGenerator.sorted_keys (ReportGenerator.collect walk) = Ok keys /\
    Permutation (map fst (ReportGenerator.collect walk)) keys /\
    NoDup keys /\
    (forall k, In k keys ->
       key_in_walk walk k /\
       is_numbered "sub-" (fst k) /\ is_numbered "ses-" (snd k)) /\
    StronglySorted (fun a b => pair_le (key_numbers a) (key_numbers b)) keys.
Proof.
  intros Hnames Hlen.
  destruct (collect_keys walk) as [Hnd Hkeys].
  set (m := ReportGenerator.collect walk) in *.
  unfold ReportGenerator.sorted_keys.
  rewrite (with_keys_ok ReportGenerator.numeric_sort_key key_numbers).
  2:{ intros [sub ses] Hin.
      destruct (key_in_walk_numbered walk _ Hnames Hlen (Hkeys _ Hin))
        as [Hs [He [L1 L2]]].
      now apply numeric_sort_key_numbered. }
  cbn [rbind].
  destruct (sorted_by_numbers key_numbers (map fst m)) as [Hperm Hsorted].
  eexists. split; [reflexivity|]. split; [exact Hperm|]. split.
  - exact (Permutation_NoDup Hperm Hnd).
  - split; [|exact Hsorted]. intros k Hin.
    apply (Permutation_in _ (Permutation_sym Hperm)) in Hin.
    pose proof (Hkeys k Hin) as Hk. split; [exact Hk|].
    destruct (key_in_walk_numbered walk k Hnames Hlen Hk) as [Hs [He _]]. auto.
Qed.

Lemma written_app (a b : list ReportGenerator.output) :
  written (a ++ b) = written a ++ written b.
Proof. apply flat_map_app. Qed.

Lemma walk_dirs_spec (walk : list (string * list string * list string)) :
  forall m tr,
  exists evs,
    ReportGenerator.walk_dirs walk m tr
    = (tr ++ evs,
       Ok (fold_left (fun data_map '(dirpath, _, filenames) =>
                        ReportGenerator.group_dir dirpath filenames data_map)
                     walk m)) /\
    written evs = [].
Proof.
  induction walk as [|[[d dirs] files] walk IH]; intros m tr.
  - exists []. now rewrite app_nil_r.
  - cbn [ReportGenerator.walk_dirs fold_left].
    unfold ReportGenerator.wbind, ReportGenerator.print.
    destruct (IH (ReportGenerator.group_dir d files m)
                 (tr ++ [ReportGenerator.Printed ("Walking " ++ d)]))
      as [evs [E Hw]].
    rewrite E. eexists. rewrite <- app_assoc. split; [reflexivity|].
    cbn [app]. exact Hw.
Qed.

Section ReportRun.
Variable float_ok : string -> bool.
Variable read_lines : string -> result (list string).
Variable os_path_relpath : string -> string -> result string.
Variable write_text : string -> string -> result unit.

Lemma write_report_spec (m : ReportGenerator.data_map_of) (phase : string)
  (paths : list (ReportGenerator.key_of * string)) (i : nat)
  (key : ReportGenerator.key_of) (html_path : string)
  (tr : list ReportGenerator.output) :
  (exists e,
     ReportGenerator.write_report float_ok read_lines os_path_relpath write_text
       m phase paths i key html_path tr = (tr, Raise e))
  \/ (exists content,
        ReportGenerator.write_report float_ok read_lines os_path_relpath
          write_text m phase paths i key html_path tr
        = (tr ++ [ReportGenerator.Wrote html_path content], Ok tt)).
Proof.
  unfold ReportGenerator.write_report, ReportGenerator.wbind,
    ReportGenerator.wlift, ReportGenerator.wret.
  destruct key as [subject session].
  destruct (ReportGenerator.data_map_get _ m) as [files_info|e];
    [|left; eauto].
  destruct (0 <? i)%nat;
    [destruct (ReportGenerator.path_at paths (i - 1)) as [[k1 prev_html]|e];
       [destruct (os_path_relpath prev_html _) as [rel_prev|e]|]|];
    try (left; eexists; reflexivity).
  all: destruct (Z.of_nat i <? Z.of_nat (length paths) - 1);
    [destruct (ReportGenerator.path_at paths (i + 1)) as [[k2 next_html]|e];
       [destruct (os_path_relpath next_html _) as [rel_next|e]|]|];
    try (left; eexists; reflexivity).
  all: destruct (if ReportGenerator.truthy (ReportGenerator.stats files_info)
                 then _ else _) as [stats_tbl|e];
    try (left; eexists; reflexivity).
  all: destruct (write_text html_path _) as [[]|e];
    [right; eexists; reflexivity | left; eexists; reflexivity].
Qed.

Lemma write_reports_spec (m : ReportGenerator.data_map_of) (phase : string)
  (paths : list (ReportGenerator.key_of * string))
  (todo : list (ReportGenerator.key_of * string)) : forall i tr,
  exists evs rest,
    fst (ReportGenerator.write_reports float_ok read_lines os_path_relpath
           write_text m phase paths i todo tr) = tr ++ evs /\
    map snd todo = written evs ++ rest /\
    (snd (ReportGenerator.write_reports float_ok read_lines os_path_relpath
            write_text m phase paths i todo tr) = Ok tt -> rest = []).
Proof.
  induction todo as [|[key html_path] todo IH]; intros i tr.
  - exists [], []. cbn. now rewrite app_nil_r.
  - cbn [ReportGenerator.write_reports]. unfold ReportGenerator.wbind.
    destruct (write_report_spec m phase paths i key html_path tr)
      as [[e E]|[content E]]; rewrite E.
    + exists [], (map snd ((key, html_path) :: todo)). cbn [fst snd].
      rewrite app_nil_r. split; [reflexivity|]. split; [reflexivity|].
      discriminate.
    + destruct (IH (i + 1)%nat
                   (tr ++ [ReportGenerator.Wrote html_path content]))
        as [evs [rest [E1 [E2 E3]]]].
      exists (ReportGenerator.Wrote html_path content :: evs), rest.
      rewrite E1, <- app_assoc. split; [reflexivity|].
      cbn [map snd written flat_map app]. split; [now rewrite E2 | exact E3].
Qed.

End ReportRun.

(** X19: the order of the static reports.  When no file name of the walk
    holds a slash or is longer than 4300 characters, the sort of
    [generate_html_reports] does not raise: every key of the grouping is a
    pair (sub-<digits>, ses-<digits>) read off a file of the walk, so the
    [int] calls of [numeric_sort_key] succeed; the sorted keys are the keys
    of the grouping, each once, in ascending order of the subject number
    and then of the session number. *)
Theorem report_keys_sorted_by_number
  (walk : list (string * list string * list string)) :
  file_names_ok walk -> names_at_most 4300 walk ->
  exists keys,
    ReportGenerator.sorted_keys (ReportGenerator.collect walk) = Ok keys /\
    Permutation (map fst (ReportGenerator.collect walk)) keys /\
    NoDup keys /\
    (forall k, In k keys ->
       key_in_walk walk k /\
       is_numbered "sub-" (fst k) /\ is_numbered "ses-" (snd k)) /\
    StronglySorted (fun a b => pair_le (key_numbers a) (key_numbers b)) keys.
Proof. exact (sorted_keys_collect walk). Qed.

Section ReportTheorems.
Variable float_ok : string -> bool.
Variable read_lines : string -> result (list string).
Variable os_path_relpath : string -> string -> result string.
Variable write_text : string -> string -> result unit.

(** X20: no report overwrites another.  When no file name of the walk
    holds a slash or is longer than 4300 characters and the phase holds no
    slash, the files that [generate_html_reports] writes are pairwise
    distinct; each is the report of a key of the grouping, placed in the
    directory recorded for that key; and when the function returns, every
    key has its report. *)
Theorem generate_html_reports_distinct_reports (root_dir : string)
  (tree : dir_tree) (phase : string) (tr : list ReportGenerator.output) :
  let walk := os_walk root_dir tree in
  let run := ReportGenerator.generate_html_reports float_ok read_lines
               os_path_relpath write_text root_dir tree phase tr in
  file_names_ok walk -> names_at_most 4300 walk ->
  Str.contains "/" phase = false ->
  exists evs,
    fst run = tr ++ evs /\
    NoDup (written evs) /\
    (forall p, In p (written evs) ->
       exists k e,
         In (k, e) (ReportGenerator.collect walk) /\
         p = OsPath.join (ReportGenerator.directory e)
               (ReportGenerator.report_name k phase)) /\
    (snd run = Ok tt ->
     length (written evs) = length (ReportGenerator.collect walk)).
Proof.
  intros walk run Hnames Hlen Hphase.
  enough (Hrun : exists evs r,
            run = (tr ++ evs, r) /\
            NoDup (written evs) /\
            (forall p, In p (written evs) ->
               exists k e,
                 In (k, e) (ReportGenerator.collect walk) /\
                 p = OsPath.join (ReportGenerator.directory e)
                       (ReportGenerator.report_name k phase)) /\
            (r = Ok tt ->
             length (written evs) = length (ReportGenerator.collect walk))).
  { destruct Hrun as [evs [r [E [H1 [H2 H3]]]]]. exists evs. rewrite E.
    cbn [fst snd]. auto. }
  subst run.
  unfold ReportGenerator.generate_html_reports, ReportGenerator.wbind,
    ReportGenerator.wlift.
  unfold ReportGenerator.print at 1.
  destruct (walk_dirs_spec (os_walk root_dir tree) []
              (tr ++ [ReportGenerator.Printed ("Walking " ++ root_dir)]))
    as [evs0 [Ew Hw0]].
  rewrite Ew. fold walk. fold (ReportGenerator.collect walk).
  destruct (sorted_keys_collect walk Hnames Hlen)
    as [keys [Ek [Hperm [Hnd [Hkeys _]]]]].
  rewrite Ek.
  destruct (key_html_paths_ok (ReportGenerator.collect walk) phase keys)
    as [paths [Ep [Ef Hall]]].
  { intros k Hk. exact (Permutation_in _ (Permutation_sym Hperm) Hk). }
  rewrite Ep. unfold ReportGenerator.print at 1.
  set (tr1 := ((tr ++ [ReportGenerator.Printed ("Walking " ++ root_dir)])
               ++ evs0)
              ++ [ReportGenerator.Printed
                    ("Generated " ++ Str.of_nat (length paths)
                     ++ " HTML reports")]).
  destruct (write_reports_spec float_ok read_lines os_path_relpath write_text
              (ReportGenerator.collect walk) phase paths paths 0%nat tr1)
    as [evs1 [rest [E1 [E2 E3]]]].
  assert (Hdistinct : NoDup (map snd paths)).
  { apply (report_paths_distinct (ReportGenerator.collect walk) phase paths
             Hphase).
    - now rewrite Ef.
    - intros k Hk. rewrite Ef in Hk. now destruct (Hkeys k Hk) as [_ ?].
    - exact Hall. }
  assert (Hw1 : NoDup (written evs1))
    by (rewrite E2 in Hdistinct; exact (NoDup_app_remove_r _ _ Hdistinct)).
  assert (Hfrom : forall p, In p (written evs1) ->
            exists k e,
              In (k, e) (ReportGenerator.collect walk) /\
              p = OsPath.join (ReportGenerator.directory e)
                    (ReportGenerator.report_name k phase)).
  { intros p Hp.
    assert (Hin : In p (map snd paths))
      by (rewrite E2; apply in_or_app; now left).
    apply in_map_iff in Hin. destruct Hin as [[k p'] [Ekp Hin]].
    cbn [snd] in Ekp. subst p'.
    rewrite Forall_forall in Hall. destruct (Hall _ Hin) as [e [He Epath]].
    exists k, e. auto. }
  destruct (ReportGenerator.write_reports float_ok read_lines os_path_relpath
              write_text (ReportGenerator.collect walk) phase paths 0 paths tr1)
    as [tr2 [[]|e]] eqn:Erun; cbn [fst snd] in E1, E3; subst tr2.
  - unfold ReportGenerator.print.
    exists ([ReportGenerator.Printed ("Walking " ++ root_dir)] ++ evs0
            ++ [ReportGenerator.Printed
                  ("Generated " ++ Str.of_nat (length paths) ++ " HTML reports")]
            ++ evs1
            ++ [ReportGenerator.Printed "HTML reports generated successfully!"]),
           (Ok tt).
    split; [unfold tr1; now repeat rewrite <- app_assoc|].
    rewrite !written_app, Hw0. cbn [written flat_map app]. rewrite app_nil_r.
    split; [exact Hw1|]. split; [exact Hfrom|]. intros _.
    rewrite (E3 eq_refl), app_nil_r in E2. rewrite <- E2, length_map.
    rewrite <- (length_map fst paths), Ef.
    rewrite <- (Permutation_length Hperm). apply length_map.
  - exists ([ReportGenerator.Printed ("Walking " ++ root_dir)] ++ evs0
            ++ [ReportGenerator.Printed
                  ("Generated " ++ Str.of_nat (length paths) ++ " HTML reports")]
            ++ evs1),
           (Raise e).
    split; [unfold tr1; now repeat rewrite <- app_assoc|].
    rewrite !written_app, Hw0. cbn [written flat_map app].
    split; [exact Hw1|]. split; [exact Hfrom|]. intros Hs. discriminate Hs.
Qed.

End ReportTheorems.

Lemma tree_reports_names :
  file_names_ok (os_walk "/r" tree_reports) /\
  names_at_most 4300 (os_walk "/r" tree_reports).
Proof.
  split; intros d dirs files f Hd Hf; cbn in Hd;
    repeat (destruct Hd as [Hd|Hd]; [inversion Hd; subst; clear Hd|]);
    try contradiction; cbn in Hf;
    repeat (destruct Hf as [Hf|Hf]; [subst f|]); try contradiction;
    try reflexivity; cbn; lia.
Qed.

(** The results of three subjects: sub-01 (two sessions), sub-02, sub-10. *)
Lemma report_keys_sorted_by_number_witness :
  exists keys,
    ReportGenerator.sorted_keys
      (ReportGenerator.collect (os_walk "/r" tree_reports)) = Ok keys.
Proof.
  destruct (report_keys_sorted_by_number (os_walk "/r" tree_reports)
              (proj1 tree_reports_names) (proj2 tree_reports_names))
    as [keys [E _]].
  exists keys. exact E.
Defined.

(** The same results, with a file system that takes every report. *)
Lemma generate_html_reports_distinct_reports_witness :
  exists evs,
    fst (ReportGenerator.generate_html_reports (fun _ => true)
           (fun _ => Ok ["1,2,3,4,5"]) (fun a _ => Ok a) (fun _ _ => Ok tt)
           "/r" tree_reports "initial" [])
    = evs /\ NoDup (written evs).
Proof.
  destruct (generate_html_reports_distinct_reports (fun _ => true)
              (fun _ => Ok ["1,2,3,4,5"]) (fun a _ => Ok a) (fun _ _ => Ok tt)
              "/r" tree_reports "initial" []
              (proj1 tree_reports_names) (proj2 tree_reports_names) eq_refl)
    as [evs [E [Hnd _]]].
  exists evs. split; [exact E | exact Hnd].
Defined.

(* ================================================================== *)
(** * Statistics records that can be rendered, and those that cannot be
      read *)

Section EmbedStatsMore.
Variable float_ok : string -> bool.
Variable read_lines : string -> result (list string).

(** X21: a statistics record of five columns.  When the data row (the
    second non-blank line if all its fields are numeric, else the first)
    has exactly five fields, the review server shows them in order as
    Mean, Median, Max, Min and Std, and the static report shows them as the
    five cells under the headers mean, median, max, min, std with a link
    to the file. *)
Theorem embed_stats_five_columns (path : string) (raw : list string)
  (row p0 p1 p2 p3 p4 : string) :
  path <> EmptyString ->
  read_lines path = Ok raw ->
  data_row float_ok raw = Some row ->
  Str.split "," row = [p0; p1; p2; p3; p4] ->
  GenerateHtml.embed_stats float_ok read_lines (Some path) =
    Ok (nl ++ "        <h3>Statistics</h3>" ++ nl
        ++ "        <p>Mean: " ++ p0 ++ ", Median: " ++ p1
        ++ ", Max: " ++ p2 ++ ", Min: " ++ p3 ++ ", Std: " ++ p4
        ++ "</p>" ++ nl ++ "        ")%string
  /\ ReportGenerator.embed_stats float_ok read_lines (Some path) =
    Ok (nl ++ "    <h3>Statistics</h3>" ++ nl
        ++ "    <table class=" ++ dquote ++ "stats-table" ++ dquote ++ ">" ++ nl
        ++ "      <tr><th>mean</th><th>median</th><th>max</th><th>min</th>"
        ++ "<th>std</th></tr>" ++ nl
        ++ "      <tr><td>" ++ p0 ++ "</td><td>" ++ p1 ++ "</td><td>" ++ p2
        ++ "</td><td>" ++ p3 ++ "</td><td>" ++ p4 ++ "</td></tr>" ++ nl
        ++ "    </table>" ++ nl
        ++ "    <p><a href=" ++ dquote ++ OsPath.basename path ++ dquote
        ++ " download>Download CSV</a></p>" ++ nl ++ "    ")%string.
Proof.
  intros Hpath Hread Hrow Hsplit.
  destruct (embed_stats_line float_ok read_lines path raw row Hpath Hread Hrow)
    as [-> ->].
  cbv zeta. rewrite Hsplit. split; [reflexivity|]. f_equal.
  repeat (cbn [String.append String.concat map length Nat.eqb negb
               ReportGenerator.headers];
          rewrite ?append_assoc). reflexivity.
Qed.

(** X22: statistics records that are missing, unreadable or blank.
    Without a path both generators show that no file was found.  When the
    file cannot be read both show the text of the error, the review server
    after "Error reading CSV: ", the static report after "Unable to read
    CSV: ".  For a file of blank lines only the review server shows "Empty
    CSV", while the static report, which takes the first line without
    looking, shows the IndexError as an unreadable file. *)
Theorem embed_stats_missing_unreadable_blank :
  (forall o, o = None \/ o = Some EmptyString ->
     GenerateHtml.embed_stats float_ok read_lines o = Ok (not_found "Stats") /\
     ReportGenerator.embed_stats float_ok read_lines o = Ok (not_found "Stats"))
  /\ (forall path e,
        path <> EmptyString -> read_lines path = Raise e ->
        GenerateHtml.embed_stats float_ok read_lines (Some path) =
          Ok ("<h3>Stats</h3><p>Error reading CSV: " ++ exn_str e ++ "</p>")%string
        /\ ReportGenerator.embed_stats float_ok read_lines (Some path) =
          Ok ("<h3>Stats</h3><p>Unable to read CSV: " ++ exn_str e ++ "</p>")%string)
  /\ (forall path raw,
        path <> EmptyString -> read_lines path = Ok raw ->
        Forall (fun line => Str.strip line = EmptyString) raw ->
        GenerateHtml.embed_stats float_ok read_lines (Some path) =
          Ok "<h3>Stats</h3><p>Empty CSV</p>"
        /\ ReportGenerator.embed_stats float_ok read_lines (Some path) =
          Ok "<h3>Stats</h3><p>Unable to read CSV: list index out of range</p>").
Proof.
  split; [|split].
  - intros o [-> | ->]; split; reflexivity.
  - intros path e Hpath Hread.
    unfold GenerateHtml.embed_stats, ReportGenerator.embed_stats.
    destruct path as [|c p]; [congruence|]. rewrite Hread. split; reflexivity.
  - intros path raw Hpath Hread Hblank.
    assert (E : stripped_lines raw = []).
    { unfold stripped_lines. clear Hread.
      induction Hblank as [|line raw Hl _ IH]; [reflexivity|].
      cbn [filter]. rewrite Hl. cbn [String.eqb negb]. exact IH. }
    unfold GenerateHtml.embed_stats, ReportGenerator.embed_stats.
    destruct path as [|c p]; [congruence|]. rewrite Hread. cbn [rbind].
    rewrite E. split; reflexivity.
Qed.

End EmbedStatsMore.

(** A record with a header line. *)
Lemma embed_stats_five_columns_witness :
  GenerateHtml.embed_stats float_ok_digits
    (fun _ => Ok ["mean,median,max,min,std"; "1,2,3,4,5"])
    (Some "/results/sub-01_stats.csv")
  = Ok (nl ++ "        <h3>Statistics</h3>" ++ nl
        ++ "        <p>Mean: 1, Median: 2, Max: 3, Min: 4, Std: 5</p>"
        ++ nl ++ "        ")%string.
Proof.
  apply (proj1 (embed_stats_five_columns float_ok_digits
                  (fun _ => Ok ["mean,median,max,min,std"; "1,2,3,4,5"])
                  "/results/sub-01_stats.csv"
                  ["mean,median,max,min,std"; "1,2,3,4,5"] "1,2,3,4,5"
                  "1" "2" "3" "4" "5" ltac:(discriminate) eq_refl eq_refl
                  eq_refl)).
Defined.

(** A file that holds two blank lines. *)
Lemma embed_stats_missing_unreadable_blank_witness :
  ReportGenerator.embed_stats float_ok_digits (fun _ => Ok [" "; ""])
    (Some "/results/sub-01_stats.csv")
  = Ok "<h3>Stats</h3><p>Unable to read CSV: list index out of range</p>".
Proof.
  apply (proj2 (proj2 (embed_stats_missing_unreadable_blank float_ok_digits
                         (fun _ => Ok [" "; ""]))) "/results/sub-01_stats.csv"
           [" "; ""] ltac:(discriminate) eq_refl).
  repeat constructor.
Defined.

(* ================================================================== *)
(** * The final traversal and the accepted list *)

Section FinalTraversalFacts.
Context {T : Type} `{Numpy.Scalar T}.
Variable env : Env T.

Lemma for_each_skipped (bids_root : string) (N : Z)
  (accepted : list (string * string)) (l : list string) : forall tr,
  (forall p, In p l ->
             Final.in_accepted (Final.extract_sub_ses p) accepted = false) ->
  for_each l
    (fun fullpath =>
       if Final.in_accepted (Final.extract_sub_ses fullpath) accepted
       then run_process_scan_final env bids_root fullpath N
       else emit (LogInfo (SkippingNotAccepted fullpath))) tr
  = (tr ++ map (fun p => LogInfo (SkippingNotAccepted p)) l, Ok tt).
Proof.
  induction l as [|p l IH]; intros tr Hall.
  - cbn. now rewrite app_nil_r.
  - cbn [for_each map]. unfold bind.
    rewrite (Hall p (or_introl eq_refl)). unfold emit at 1.
    rewrite IH by (intros q Hq; apply Hall; now right).
    now rewrite <- app_assoc.
Qed.

Lemma traverse_bids_final_unfold (bids_root : string) (tree : dir_tree)
  (accepted_csv scan_type : string) (N : Z) (tr : list event) :
  Final.traverse_bids_final env bids_root tree accepted_csv scan_type N tr =
  match pd_read_accepted env accepted_csv with
  | Raise e => (tr ++ [LogInfo (StartingTraversal bids_root scan_type)], Raise e)
  | Ok accepted =>
      match
        for_each (scan_targets bids_root tree scan_type)
          (fun fullpath =>
             if Final.in_accepted (Final.extract_sub_ses fullpath) accepted
             then run_process_scan_final env bids_root fullpath N
             else emit (LogInfo (SkippingNotAccepted fullpath)))
          (tr ++ [LogInfo (StartingTraversal bids_root scan_type)])
      with
      | (tr', Ok _) => (tr' ++ [LogInfo FinishedAll], Ok tt)
      | (tr', Raise e) => (tr', Raise e)
      end
  end.
Proof.
  unfold Final.traverse_bids_final, scan_targets, bind. unfold emit at 1.
  unfold lift. destruct (pd_read_accepted env accepted_csv) as [accepted|e];
    [|reflexivity].
  rewrite (traversal_loop scan_type (os_walk bids_root tree)
             (fun fullpath =>
                if Final.in_accepted (Final.extract_sub_ses fullpath) accepted
                then run_process_scan_final env bids_root fullpath N
                else emit (LogInfo (SkippingNotAccepted fullpath)))).
  destruct (for_each _ _ _) as [tr' [[]|e]]; reflexivity.
Qed.

(** X23: the final traversal and the accepted list.  When the accepted
    list cannot be read the traversal raises after its first record,
    before any scan is looked at.  When no scan is on the list, each scan
    is recorded as skipped, the step is never run and the traversal
    returns.  When the step raises on the first scan that is on the list,
    the traversal raises there: the scans before it were recorded as
    skipped and those after it are never looked at. *)
Theorem traverse_bids_final_skips_or_stops (bids_root : string)
  (tree : dir_tree) (accepted_csv scan_type : string) (N : Z)
  (tr : list event) :
  let start := LogInfo (StartingTraversal bids_root scan_type) in
  let skipped := map (fun p => LogInfo (SkippingNotAccepted p)) in
  let targets := scan_targets bids_root tree scan_type in
  let run := Final.traverse_bids_final env bids_root tree accepted_csv
               scan_type N tr in
  (forall e, pd_read_accepted env accepted_csv = Raise e ->
             run = (tr ++ [start], Raise e))
  /\ (forall accepted,
        pd_read_accepted env accepted_csv = Ok accepted ->
        (forall p, In p targets ->
           Final.in_accepted (Final.extract_sub_ses p) accepted = false) ->
        run = (tr ++ [start] ++ skipped targets ++ [LogInfo FinishedAll], Ok tt))
  /\ (forall accepted pre p post tr' e,
        pd_read_accepted env accepted_csv = Ok accepted ->
        targets = pre ++ p :: post ->
        (forall q, In q pre ->
           Final.in_accepted (Final.extract_sub_ses q) accepted = false) ->
        Final.in_accepted (Final.extract_sub_ses p) accepted = true ->
        run_process_scan_final env bids_root p N (tr ++ [start] ++ skipped pre)
        = (tr', Raise e) ->
        run = (tr', Raise e)).
Proof.
  intros start skipped targets run. subst run.
  rewrite traverse_bids_final_unfold. fold targets. fold start.
  split; [|split].
  - intros e E. now rewrite E.
  - intros accepted E Hall. rewrite E.
    rewrite (for_each_skipped bids_root N accepted targets _ Hall).
    fold (skipped targets). now rewrite <- !app_assoc.
  - intros accepted pre p post tr' e E Et Hpre Hp Hrun. rewrite E, Et.
    rewrite for_each_app. unfold bind.
    rewrite (for_each_skipped bids_root N accepted pre _ Hpre).
    fold (skipped pre). cbn [for_each]. unfold bind. rewrite Hp.
    rewrite <- app_assoc. rewrite Hrun. reflexivity.
Qed.

End FinalTraversalFacts.

(** Two scans and an empty accepted list. *)
Lemma traverse_bids_final_skips_or_stops_witness :
  Final.traverse_bids_final env_unreadable "/data" tree_two_scans
    "accepted.csv" "T1w" 10 []
  = ([LogInfo (StartingTraversal "/data" "T1w");
      LogInfo (SkippingNotAccepted "/data/sub-01/sub-01_T1w.nii.gz");
      LogInfo (SkippingNotAccepted "/data/sub-02/sub-02_T1w.nii.gz");
      LogInfo FinishedAll], Ok tt).
Proof.
  apply (proj1 (proj2 (traverse_bids_final_skips_or_stops env_unreadable
                         "/data" tree_two_scans "accepted.csv" "T1w" 10 []))
           []).
  - reflexivity.
  - intros p _. destruct (Final.extract_sub_ses p); reflexivity.
Defined.

(* ================================================================== *)
(** * From the initial pass to the review server *)

Lemma match_literal_boundary (lit : string) : forall s t,
  all_chars not_underscore lit = true ->
  match_literal lit (s ++ String "_" t)
  = match match_literal lit s with
    | Some (m, r) => Some (m, (r ++ String "_" t)%string)
    | None => None
    end.
Proof.
  induction lit as [|l lit IH]; intros s t Hall; [reflexivity|].
  cbn [all_chars] in Hall. apply andb_true_iff in Hall.
  destruct Hall as [Hl Hall].
  destruct s as [|c s]; cbn [String.append match_literal].
  - change (Str.lower "_") with "_"%char.
    unfold not_underscore in Hl. apply negb_true_iff in Hl.
    rewrite Ascii.eqb_sym, Hl. reflexivity.
  - destruct (Ascii.eqb (Str.lower c) l); [|reflexivity].
    rewrite (IH s t Hall). destruct (match_literal lit s) as [[m r]|]; reflexivity.
Qed.

Lemma token_boundary (r t : string) :
  Str.take_while not_underscore (r ++ String "_" t)
  = Str.take_while not_underscore r /\
  Str.drop_while not_underscore (r ++ String "_" t)
  = (Str.drop_while not_underscore r ++ String "_" t)%string.
Proof.
  induction r as [|c r [IH1 IH2]]; [split; reflexivity|].
  cbn [String.append Str.take_while Str.drop_while].
  destruct (not_underscore c); [now rewrite IH1, IH2 | split; reflexivity].
Qed.

Lemma match_segment_boundary (lit s t : string) :
  all_chars not_underscore lit = true ->
  match_segment lit (s ++ String "_" t)
  = match match_segment lit s with
    | Some (g, r) => Some (g, (r ++ String "_" t)%string)
    | None => None
    end.
Proof.
  intros Hall. unfold match_segment. rewrite (match_literal_boundary lit s t Hall).
  destruct (match_literal lit s) as [[m r]|]; [|reflexivity].
  destruct (token_boundary r t) as [E1 E2]. rewrite E1, E2.
  destruct (Str.take_while not_underscore r); reflexivity.
Qed.

Lemma match_optional_cons (lit : string) (c : ascii) (r : string) :
  match_optional lit (String c r)
  = if Ascii.eqb c "_"
    then match match_segment lit r with
         | Some (g, r') => (Some g, r')
         | None => (None, String c r)
         end
    else (None, String c r).
Proof. destruct c as [[] [] [] [] [] [] [] []]; reflexivity. Qed.

(** A tail after an underscore that starts neither a session nor a run
    and holds no subject. *)
Section NeutralTail.
Variable w : string.
Hypothesis Hses : match_segment "ses-" w = None.
Hypothesis Hrun : match_segment "run-" w = None.
Hypothesis Hsub : pattern_search w = None.

Lemma match_optional_boundary (lit s : string) :
  all_chars not_underscore lit = true -> match_segment lit w = None ->
  match_literal lit "" = None ->
  exists g r0,
    match_optional lit (s ++ String "_" w) = (g, (r0 ++ String "_" w)%string) /\
    match_optional lit (s ++ "_") = (g, (r0 ++ "_")%string).
Proof.
  intros Hall Hw Hlit. destruct s as [|c s].
  - exists None, EmptyString. cbn [String.append].
    rewrite !match_optional_cons. cbn [Ascii.eqb Bool.eqb]. rewrite Hw.
    unfold match_segment. rewrite Hlit. split; reflexivity.
  - cbn [String.append]. rewrite !match_optional_cons.
    destruct (Ascii.eqb c "_") eqn:Ec.
    + rewrite (match_segment_boundary lit s w Hall).
      rewrite (match_segment_boundary lit s "" Hall).
      destruct (match_segment lit s) as [[g r]|].
      * exists (Some g), r. split; reflexivity.
      * exists None, (String c s). split; reflexivity.
    + exists None, (String c s). split; reflexivity.
Qed.

Lemma pattern_match_boundary (s : string) :
  pattern_match (s ++ String "_" w) = pattern_match (s ++ "_").
Proof.
  unfold pattern_match.
  rewrite (match_segment_boundary "sub-" s w eq_refl).
  rewrite (match_segment_boundary "sub-" s "" eq_refl).
  destruct (match_segment "sub-" s) as [[g1 r1]|]; [|reflexivity].
  destruct (match_optional_boundary "ses-" r1 eq_refl Hses eq_refl)
    as [g2 [r2 [E1 E2]]].
  rewrite E1, E2.
  destruct (match_optional_boundary "run-" r2 eq_refl Hrun eq_refl)
    as [g3 [r3 [E3 E4]]].
  now rewrite E3, E4.
Qed.

Lemma pattern_search_boundary (s : string) :
  pattern_search (s ++ String "_" w) = pattern_search (s ++ "_").
Proof.
  induction s as [|c s IH].
  - pose proof (pattern_match_boundary "") as E.
    cbn [String.append] in E |- *. cbn [pattern_search].
    rewrite E, Hsub. reflexivity.
  - change (String c s ++ String "_" w)%string
      with (String c (s ++ String "_" w)).
    change (String c s ++ "_")%string with (String c (s ++ "_")).
    cbn [pattern_search].
    change (String c (s ++ String "_" w))
      with (String c s ++ String "_" w)%string.
    change (String c (s ++ "_")) with (String c s ++ "_")%string.
    rewrite pattern_match_boundary, IH. reflexivity.
Qed.

Lemma scan_key_boundary (s : string) :
  scan_key (s ++ String "_" w) = scan_key (s ++ "_").
Proof. unfold scan_key. now rewrite pattern_search_boundary. Qed.

End NeutralTail.

(** The names of the result files of one scan. *)
Lemma result_name (base : string) :
  (scan_key (base ++ "_original_slices.png") = scan_key (base ++ "_") /\
   is_relevant (base ++ "_original_slices.png") = true /\
   Str.endswith (base ++ "_original_slices.png") "_original_slices.png" = true)
  /\ (scan_key (base ++ "_stats.csv") = scan_key (base ++ "_") /\
      is_relevant (base ++ "_stats.csv") = true /\
      Str.endswith (base ++ "_stats.csv") "_stats.csv" = true)
  /\ (scan_key (base ++ "_density.svg") = scan_key (base ++ "_") /\
      is_relevant (base ++ "_density.svg") = true /\
      Str.endswith (base ++ "_density.svg") "_density.svg" = true).
Proof.
  assert (Hrel : forall suffix,
            In suffix relevant_suffixes ->
            is_relevant (base ++ suffix) = true).
  { intros suffix Hin. unfold is_relevant. apply existsb_exists.
    exists suffix. split; [exact Hin|]. apply endswith_contains, endswith_app. }
  repeat split; try apply endswith_app.
  - exact (scan_key_boundary "original_slices.png" eq_refl eq_refl eq_refl base).
  - apply Hrel. cbn. tauto.
  - exact (scan_key_boundary "stats.csv" eq_refl eq_refl eq_refl base).
  - apply Hrel. cbn. tauto.
  - exact (scan_key_boundary "density.svg" eq_refl eq_refl eq_refl base).
  - apply Hrel. cbn. tauto.
Qed.

Section InitialToServer.
Context {T : Type} `{Numpy.Scalar T}.
Variable env : Env T.

(** X24: the result files of a scan share one page.  Every figure and
    table that [process_scan_initial] saves for a scan has a name that the
    review server takes up (the slices as original slices, the plot as
    density plot, the table as statistics), and the names all have the
    scan key of the scan's base name followed by an underscore: the files
    of one scan are grouped under one key, or none of them is when that
    name holds no subject. *)
Theorem initial_results_share_one_page
  (bids_root filepath : string) (N : Z) (tr : list event) :
  let base := Initial.strip_nii_gz (OsPath.basename filepath) in
  exists evs,
    fst (Initial.process_scan_initial env bids_root filepath N tr) = tr ++ evs /\
    forall ev, In ev evs ->
      match ev with
      | SavedFigure p =>
          is_relevant (OsPath.basename p) = true /\
          scan_key (OsPath.basename p) = scan_key (base ++ "_") /\
          (Str.endswith (OsPath.basename p) "_original_slices.png" = true \/
           Str.endswith (OsPath.basename p) "_density.svg" = true)
      | WroteCsv p =>
          is_relevant (OsPath.basename p) = true /\
          scan_key (OsPath.basename p) = scan_key (base ++ "_") /\
          Str.endswith (OsPath.basename p) "_stats.csv" = true
      | MadeDirs _ | LogInfo _ | LogError _ => True
      end.
Proof.
  intros base.
  set (rel := os_path_relpath env (OsPath.dirname filepath) bids_root).
  set (results_dir := OsPath.join (OsPath.join bids_root "results") rel).
  assert (Hbase : Str.contains "/" base = false)
    by apply base_no_ext_no_slash.
  assert (Hname : forall suffix, Str.contains "/" suffix = false ->
            OsPath.basename (OsPath.join results_dir (base ++ suffix))
            = (base ++ suffix)%string).
  { intros suffix Hs. apply basename_join. now apply no_slash_app. }
  destruct (result_name base) as [[K1 [R1 S1]] [[K2 [R2 S2]] [K3 [R3 S3]]]].
  assert (Hfig1 : is_relevant (OsPath.basename
                    (OsPath.join results_dir (base ++ "_original_slices.png")))
                  = true /\
                  scan_key (OsPath.basename
                    (OsPath.join results_dir (base ++ "_original_slices.png")))
                  = scan_key (base ++ "_") /\
                  (Str.endswith (OsPath.basename
                     (OsPath.join results_dir (base ++ "_original_slices.png")))
                     "_original_slices.png" = true \/
                   Str.endswith (OsPath.basename
                     (OsPath.join results_dir (base ++ "_original_slices.png")))
                     "_density.svg" = true))
    by (rewrite Hname by reflexivity; auto).
  assert (Hfig2 : is_relevant (OsPath.basename
                    (OsPath.join results_dir (base ++ "_density.svg")))
                  = true /\
                  scan_key (OsPath.basename
                    (OsPath.join results_dir (base ++ "_density.svg")))
                  = scan_key (base ++ "_") /\
                  (Str.endswith (OsPath.basename
                     (OsPath.join results_dir (base ++ "_density.svg")))
                     "_original_slices.png" = true \/
                   Str.endswith (OsPath.basename
                     (OsPath.join results_dir (base ++ "_density.svg")))
                     "_density.svg" = true))
    by (rewrite Hname by reflexivity; auto).
  assert (Hcsv : is_relevant (OsPath.basename
                    (OsPath.join results_dir (base ++ "_stats.csv")))
                  = true /\
                  scan_key (OsPath.basename
                    (OsPath.join results_dir (base ++ "_stats.csv")))
                  = scan_key (base ++ "_") /\
                  Str.endswith (OsPath.basename
                     (OsPath.join results_dir (base ++ "_stats.csv")))
                     "_stats.csv" = true)
    by (rewrite Hname by reflexivity; auto).
  clear Hname K1 R1 S1 K2 R2 S2 K3 R3 S3.
  unfold Initial.process_scan_initial, Initial.ensure_results_dir,
    Initial.plot_slices, Initial.analyze_nifti,
    Initial.create_density_plot_and_save, try_except, bind, emit, lift, ret.
  fold base. fold rel. fold results_dir.
  destruct (nib_load env filepath) as [data|e];
    [|eexists; split; [reflexivity|]; intros ev [<-|[]]; exact I].
  destruct (Initial.find_slices_of_interest data N) as [idx|e];
    [|eexists; split; [reflexivity|]; intros ev [<-|[]]; exact I].
  destruct (os_makedirs env results_dir) as [[]|e];
    [|eexists; split; [reflexivity|]; intros ev [<-|[]]; exact I].
  destruct (plt_plot_slices env data idx _ _) as [[]|e];
    [|eexists; split; [rewrite <- app_assoc; reflexivity|];
      intros ev [<-|[<-|[]]]; exact I].
  destruct (np_statistics env data) as [st|e].
  - destruct (pd_to_csv env st _) as [[]|e].
    + destruct (sns_density_plot env data _ _) as [[]|e];
        (eexists; split; [cbn [fst]; rewrite <- ?app_assoc; reflexivity|];
         intros ev Hin; cbn [app In] in Hin;
         repeat (destruct Hin as [<-|Hin];
                 [first [exact I | exact Hfig1 | exact Hfig2 | exact Hcsv]|]);
         destruct Hin).
    + eexists; split; [cbn [fst]; rewrite <- ?app_assoc; reflexivity|].
      intros ev Hin; cbn [app In] in Hin.
      repeat (destruct Hin as [<-|Hin];
              [first [exact I | exact Hfig1 | exact Hfig2 | exact Hcsv]|]).
      destruct Hin.
  - eexists; split; [cbn [fst]; rewrite <- ?app_assoc; reflexivity|].
    intros ev Hin; cbn [app In] in Hin.
    repeat (destruct Hin as [<-|Hin];
            [first [exact I | exact Hfig1 | exact Hfig2 | exact Hcsv]|]).
    destruct Hin.
Qed.

End InitialToServer.

(* ================================================================== *)
(** * The order and the navigation of the pages *)

Section PageOrder.
Import ReviewServer.
Variable float_ok : string -> bool.
Variable read_lines : string -> result (list string).

Lemma register_pages (paths : list string) : forall g,
  PAGES (register g paths) = PAGES g.
Proof.
  induction paths as [|p paths IH]; intros g; [reflexivity|].
  cbn [register fold_left]. unfold register in IH. now rewrite IH.
Qed.

Lemma build_html_page_text (subject session run : string)
  (files_info : slots) (phase : string) (page_id total_pages : Z) (g : globals) :
  exists orig_html strip_html dens_html stats_html g',
    build_html_page float_ok read_lines subject session run files_info phase
      page_id total_pages g
    = Ok (page_text subject session run phase (prev_link page_id)
            (next_link page_id total_pages) orig_html strip_html dens_html
            stats_html (csv_filename_key subject session run files_info),
          g') /\
    PAGES g' = PAGES g.
Proof.
  destruct (build_html_page_registers float_ok read_lines subject session run
              files_info phase page_id total_pages g) as [html0 Ereg].
  revert Ereg. unfold build_html_page.
  destruct (if negb (falsy (orig files_info)) then _ else _) as [oh g1].
  destruct (if negb (falsy (strip files_info)) then _ else _) as [sh g2].
  destruct (if negb (falsy (dens files_info)) then _ else _) as [dh g3].
  destruct (negb (falsy (stats files_info))).
  - destruct (proj1 (embed_stats_returns float_ok read_lines (stats files_info)))
      as [html ->].
    cbn [rbind]. intros Ereg. inversion Ereg; subst.
    exists oh, sh, dh, html. eexists. split; [reflexivity|].
    apply register_pages.
  - cbn [rbind]. intros Ereg. inversion Ereg; subst.
    exists oh, sh, dh, (not_found "Stats"). eexists. split; [reflexivity|].
    apply register_pages.
Qed.

Lemma build_pages_pages (phase : string) (data_map : data_map_of) (total : Z)
  (keys : list scan_key_of) : forall idx g g',
  (forall k, In k keys -> In k (map fst data_map)) ->
  build_pages float_ok read_lines phase data_map total idx keys g = Ok g' ->
  exists pages,
    PAGES g' = PAGES g ++ pages /\
    length pages = length keys /\
    forall i key,
      nth_error keys i = Some key ->
      exists html,
        nth_error pages i = Some (html, idx + Z.of_nat i) /\
        shows_key phase total data_map key (idx + Z.of_nat i) html.
Proof.
  induction keys as [|[[subject session] run] keys IH];
    intros idx g g' Hkeys Hrun.
  - cbn in Hrun. inversion Hrun; subst. exists []. rewrite app_nil_r.
    split; [reflexivity|]. split; [reflexivity|].
    intros [|i] key E; discriminate E.
  - cbn [build_pages] in Hrun.
    assert (Hk : In (subject, session, run) (map fst data_map))
      by (apply Hkeys; now left).
    destruct (data_map_get_in _ _ Hk) as [s [Es _]].
    assert (Eat : slots_at data_map (subject, session, run) = s)
      by (unfold slots_at; now rewrite Es).
    rewrite Es in Hrun. cbn [rbind] in Hrun.
    destruct (build_html_page_text subject session run s phase idx total g)
      as [oh [sh [dh [st [g1 [Eb Epg]]]]]].
    rewrite Eb in Hrun. cbn [rbind] in Hrun.
    apply IH in Hrun; [|intros k Hin; apply Hkeys; now right].
    destruct Hrun as [pages [Ep [El Hnth]]]. cbn [PAGES] in Ep.
    eexists (_ :: pages). rewrite Ep, Epg, <- app_assoc. cbn [app].
    split; [reflexivity|]. split; [cbn [length]; now rewrite El|].
    intros [|i] key E; cbn [nth_error] in E |- *.
    + inversion E; subst key. eexists. rewrite Z.add_0_r.
      split; [reflexivity|]. exists oh, sh, dh, st. cbn [fst snd].
      now rewrite Eat.
    + destruct (Hnth i key E) as [html [En Hs]].
      exists html.
      replace (idx + Z.of_nat (S i)) with (idx + 1 + Z.of_nat i) by lia.
      auto.
Qed.

(** X25: the order and the navigation of the pages.  After page
    generation, page i is the page of the i-th key in the order of
    [numeric_sort_key]: it is built from the text of the page with that
    subject, session and run and the ledger key of their slots, and with
    the navigation of position i of n.  Its Previous link is grey on page
    0 and otherwise leads to /report/(i-1); its Next link is grey on the
    last page and otherwise leads to /report/(i+1); every page a link
    leads to is there. *)
Theorem pages_follow_sorted_keys (root_dir : string) (tree : dir_tree)
  (phase : string) (g : globals) :
  let data_map := collect (os_walk root_dir tree) in
  let n := Z.of_nat (length data_map) in
  exists g',
    generate_in_memory_pages float_ok read_lines root_dir tree phase g = Ok g' /\
    (forall i key,
       nth_error (sorted_keys data_map) i = Some key ->
       exists html,
         show_report g' (Z.of_nat i) = Body html 200 /\
         shows_key phase n data_map key (Z.of_nat i) html) /\
    (forall i, 0 <= i < n ->
       (i = 0 ->
        prev_link i = ("<span style=" ++ dquote ++ "color:gray;" ++ dquote
                       ++ ">Previous</span>")%string) /\
       (0 < i ->
        prev_link i = ("<a href=" ++ dquote ++ "/report/" ++ str_of_Z (i - 1)
                       ++ dquote ++ ">Previous</a>")%string /\
        exists html, show_report g' (i - 1) = Body html 200) /\
       (i = n - 1 ->
        next_link i n = ("<span style=" ++ dquote ++ "color:gray;" ++ dquote
                         ++ ">Next</span>")%string) /\
       (i < n - 1 ->
        next_link i n = ("<a href=" ++ dquote ++ "/report/" ++ str_of_Z (i + 1)
                         ++ dquote ++ ">Next</a>")%string /\
        exists html, show_report g' (i + 1) = Body html 200)).
Proof.
  intros data_map n.
  destruct (generate_in_memory_pages_ok float_ok read_lines root_dir tree phase g)
    as [g' [E [_ [Hp _]]]].
  fold data_map in Hp.
  assert (Hlen : length (PAGES g') = length data_map).
  { apply (f_equal (@length Z)) in Hp.
    unfold ids_upto in Hp. now rewrite !length_map, length_seq in Hp. }
  assert (Hshow : forall j, 0 <= j < n ->
            exists html, show_report g' j = Body html 200).
  { intros j Hj.
    destruct (proj1 (show_report_spec g' j)) as [html [idx [_ Es]]];
      [rewrite Hlen; exact Hj|].
    exists html. exact Es. }
  exists g'. split; [exact E|]. split.
  - intros i key Ekey.
    pose proof E as Erun. unfold generate_in_memory_pages in Erun.
    fold data_map in Erun. rewrite sorted_keys_length in Erun. fold n in Erun.
    apply build_pages_pages in Erun; [|intros k; apply sorted_keys_in].
    destruct Erun as [pages [Epages [_ Hnth]]]. cbn [PAGES app] in Epages.
    destruct (Hnth i key Ekey) as [html [En Hs]]. rewrite Z.add_0_l in En, Hs.
    exists html. split; [|exact Hs].
    assert (Hi : (i < length (PAGES g'))%nat).
    { rewrite Epages. apply nth_error_Some. congruence. }
    unfold show_report.
    destruct (Z.ltb_spec (Z.of_nat i) 0); [lia|].
    destruct (Z.leb_spec (Z.of_nat (length (PAGES g'))) (Z.of_nat i)); [lia|].
    cbn [orb]. rewrite Nat2Z.id, Epages, En. reflexivity.
  - intros i Hi. unfold prev_link, next_link. repeat split.
    + intros ->. reflexivity.
    + destruct (Z.leb_spec 0 (i - 1)); [reflexivity | lia].
    + apply Hshow. lia.
    + intros ->. destruct (Z.ltb_spec (n - 1 + 1) n); [lia | reflexivity].
    + destruct (Z.ltb_spec (i + 1) n); [reflexivity | lia].
    + apply Hshow. lia.
Qed.

End PageOrder.
